(** * Resumable batch upload pipeline of the candy-machine CLI

    A shallow embedding of
      - [helpers/upload/arweave-bundle.ts]  (size-bounded batch planner and
        two-phase bundle upload),
      - [commands/upload.ts]                (count-bounded pipeline with the
        aggregate success flag),
      - the bundle-capable variant of the [upload] command (item selector,
        [saveManifestsWithLink], [writeIndices]),
    followed by the properties of the pipeline stated in the design
    document.

    Conventions.  The file system and the network are oracles gathered in
    the record [World]; every network call is appended, with its outcome,
    to a trace of [Event]s, and an oracle may depend on the trace so far.
    Promises started together ([Promise.all]: the items of a window of
    [commands/upload.ts], the batches of the bundle upload, the slices
    of 1000 keys of the registry committer) are run one after the other
    in array order; the cache writes of such promises go to different
    keys whenever the item indices are distinct.  A real run starts
    them together and interleaves their calls, so that a trace gives
    the order of the run for the events of one promise, and for events
    separated by an awaited [Promise.all]; between the events of
    different promises of one [Promise.all] its order is this
    convention.  An assignment to the key [__proto__] of an object is
    not modelled.  Loading the wallet key and the program, parsing the
    key file of the bundle signer, making a public key of the config key
    of the cache and of the addresses of the creators, and writing the
    cache file are taken to succeed. *)

From Stdlib Require Import List String Ascii NArith Arith Bool Lia.
From Stdlib Require Import DecimalString.
Import ListNotations.
Open Scope string_scope.
Open Scope list_scope.

(* ================================================================== *)
(** * JavaScript values used by the pipeline *)
(* ================================================================== *)

Module JS.

(** Truthiness of a value that is a string or [undefined]. *)
Definition truthy (v : option string) : bool :=
  match v with
  | Some s => negb (s =? "")
  | None => false
  end.

(** ** Plain objects used as maps

    [Object.keys] lists the own keys that are array indices first, in
    ascending numeric order, and then the other keys in creation order.
    An object is kept as the list of its properties in that order. *)
Definition Obj (V : Type) : Type := list (string * V).

Definition keys {V} (o : Obj V) : list string := map fst o.

Fixpoint get {V} (o : Obj V) (k : string) : option V :=
  match o with
  | [] => None
  | (k', v) :: o' => if k =? k' then Some v else get o' k
  end.

Definition has {V} (o : Obj V) (k : string) : bool :=
  match get o k with Some _ => true | None => false end.

Definition digit_of (a : ascii) : option N :=
  let n := N_of_ascii a in
  if ((48 <=? n) && (n <=? 57))%N then Some (n - 48)%N else None.

Fixpoint parse_digits (s : string) (acc : N) : option N :=
  match s with
  | EmptyString => Some acc
  | String a s' =>
      match digit_of a with
      | Some d => parse_digits s' (10 * acc + d)%N
      | None => None
      end
  end.

(** A key is an array index when it is the canonical decimal numeral of
    an integer below 2^32 - 1. *)
Definition array_index (s : string) : option N :=
  match s with
  | EmptyString => None
  | String a rest =>
      if (Ascii.eqb a "0" && negb (rest =? ""))%bool then None
      else match parse_digits s 0 with
           | Some n => if (n <? 4294967295)%N then Some n else None
           | None => None
           end
  end.

(** [precedes k k'] : a new key [k] is enumerated before the existing
    key [k']. *)
Definition precedes (k k' : string) : bool :=
  match array_index k, array_index k' with
  | Some n, Some n' => (n <? n')%N
  | Some _, None => true
  | None, _ => false
  end.

Fixpoint update {V} (k : string) (v : V) (o : Obj V) : Obj V :=
  match o with
  | [] => []
  | (k', v') :: o' =>
      if k =? k' then (k', v) :: o' else (k', v') :: update k v o'
  end.

Fixpoint define {V} (k : string) (v : V) (o : Obj V) : Obj V :=
  match o with
  | [] => [(k, v)]
  | (k', v') :: o' =>
      if precedes k k' then (k, v) :: o else (k', v') :: define k v o'
  end.

(** [o[k] = v], for a key other than ["__proto__"] *)
Definition set {V} (k : string) (v : V) (o : Obj V) : Obj V :=
  if has o k then update k v o else define k v o.

(** ** Arrays *)

(** [a.slice(from, to)] for [0 <= from]. *)
Definition slice {A} (a : list A) (from to : nat) : list A :=
  firstn (to - from) (skipn from a).

(** [Array.from(Array(n).keys())] *)
Definition range (n : nat) : list nat := seq 0 n.

Definition mem (x : string) (l : list string) : bool :=
  existsb (String.eqb x) l.

(** [[...new Set(l)]] : insertion order, later duplicates ignored. *)
Definition Set_add (s : list string) (x : string) : list string :=
  if mem x s then s else s ++ [x].

Definition Set_of (l : list string) : list string :=
  fold_left Set_add l [].

(** [s.replace(pat, by)] with a string pattern: the first occurrence. *)
Fixpoint replace (pat by_ s : string) : string :=
  if String.prefix pat s
  then (by_ ++ substring (String.length pat) (String.length s) s)%string
  else match s with
       | EmptyString => EmptyString
       | String a s' => String a (replace pat by_ s')
       end.

(** [s.split('/').pop()] *)
Fixpoint split_pop_from (s acc : string) : string :=
  match s with
  | EmptyString => acc
  | String a s' =>
      if Ascii.eqb a "/" then split_pop_from s' ""
      else split_pop_from s' (acc ++ String a "")%string
  end.

Definition split_pop (s : string) : string := split_pop_from s "".

(** Names that a fresh object literal [{}] inherits from
    [Object.prototype]; reading one of them from an object used as a set
    of seen names yields a truthy value. *)
Definition Object_prototype_names : list string :=
  [ "constructor"; "__defineGetter__"; "__defineSetter__";
    "hasOwnProperty"; "__lookupGetter__"; "__lookupSetter__";
    "isPrototypeOf"; "propertyIsEnumerable"; "toString"; "valueOf";
    "__proto__"; "toLocaleString" ].

End JS.

(* ================================================================== *)
(** * Data model *)
(* ================================================================== *)

Record Creator := { address : string; share : N }.

(** The manifest of an item: the fields the pipeline reads or patches. *)
Record Manifest := {
  m_name : string;
  m_symbol : string;
  seller_fee_basis_points : N;
  creators : list Creator;
  m_image : option string;
  m_files : list (option string * string)
}.

Record CacheEntry := {
  link : option string;
  name : option string;
  onChain : bool
}.

Record Program := {
  uuid : option string;
  config : option string
}.

Record Cache := {
  program : Program;
  items : JS.Obj CacheEntry;
  authority : option string
}.

Definition empty_cache : Cache :=
  {| program := {| uuid := None; config := None |};
     items := [];
     authority := None |}.

(** [cache.items[idx]?.link] *)
Definition link_of (c : Cache) (idx : string) : option string :=
  match JS.get (items c) idx with
  | Some e => link e
  | None => None
  end.

(** [cache.items[idx]?.onChain || false] *)
Definition onChain_of (c : Cache) (idx : string) : bool :=
  match JS.get (items c) idx with
  | Some e => onChain e
  | None => false
  end.

Definition has_link (c : Cache) (idx : string) : bool :=
  JS.truthy (link_of c idx).

(* ================================================================== *)
(** * The outside world *)
(* ================================================================== *)

Inductive Backend := Arweave | Ipfs | Aws.

(** What a bundle transaction carries: the image files of a batch, or its
    patched manifests. *)
Inductive BundleData :=
| Images (batch : list string)
| Manifests (ms : list Manifest).

(** Result of a single-item upload: the call throws, or returns a link
    (possibly [undefined]). *)
Inductive UploadResult :=
| Throws
| Returns (l : option string).

Record ConfigLine := { uri : option string; line_name : option string }.

Record ConfigData := {
  maxNumberOfLines : N;
  cd_symbol : string;
  sellerFeeBasisPoints : N;
  isMutable : bool;
  retainAuthority : bool;
  cd_creators : list Creator
}.

Inductive Event :=
| EvBundle (d : BundleData) (ids : option (list string))
| EvUpload (b : Backend) (item : string) (r : UploadResult)
| EvCreateConfig (d : ConfigData) (r : option (string * string))
| EvAddConfigLines (ind : string) (lines : list ConfigLine) (ok : bool)
| EvSaveCache (c : Cache)
| EvLogError (about : string).

Definition Trace := list Event.

Record World := {
  (** Node's [path.basename(p)], [path.basename(p, ext)], [path.extname(p)] *)
  path_basename : string -> string;
  path_basename_ext : string -> string -> string;
  path_extname : string -> string;
  (** [EXTENSION_PNG] of [helpers/constants] *)
  EXTENSION_PNG : string;
  (** [fs.statSync(path.join(dirname, item + ".png")).size]; [None] when
      the call throws *)
  png_size : string -> option N;
  (** [JSON.parse(fs.readFileSync(p).toString())]; [None] when reading or
      parsing throws *)
  read_manifest : string -> option Manifest;
  (** [bundleAndSignData] .. [arweave.transactions.post]: the transaction
      ids of the data items, or [None] when a step rejects *)
  post_bundle : Trace -> BundleData -> option (list string);
  (** [arweaveUpload], [ipfsUpload], [awsUpload] *)
  upload_item : Trace -> Backend -> string -> Manifest -> UploadResult;
  (** [createConfig]: the uuid and the base58 key of the config account *)
  createConfig : Trace -> ConfigData -> option (string * string);
  (** [anchorProgram.rpc.addConfigLines]: [false] when the call rejects *)
  addConfigLines : Trace -> string -> list ConfigLine -> bool;
  (** [walletKeyPair.publicKey.toBase58()] *)
  wallet : string
}.

Inductive Error :=
| ItemTooBig
| FileError (path : string)
| InvalidArgType
| BundleRejected
| UploadRejected (item : string)
| ConfigDeployError.

Inductive Outcome (A : Type) :=
| Returned (a : A)
| Raised (e : Error).
Arguments Returned {A} a.
Arguments Raised {A} e.

(** The mutable state of a run: the cache object in memory and the trace
    of calls to the outside. *)
Record State := {
  cache : Cache;
  trace : Trace
}.

Definition emit (ev : Event) (st : State) : State :=
  {| cache := cache st; trace := trace st ++ [ev] |}.

Definition with_cache (c : Cache) (st : State) : State :=
  {| cache := c; trace := trace st |}.

Definition saveCache (st : State) : State :=
  emit (EvSaveCache (cache st)) st.

Definition set_item (idx : string) (e : CacheEntry) (c : Cache) : Cache :=
  {| program := program c;
     items := JS.set idx e (items c);
     authority := authority c |}.

(* ================================================================== *)
(** * helpers/upload/arweave-bundle.ts *)
(* ================================================================== *)

Module ArweaveBundle.

Definition BATCH_SIZE_LIMIT : N := 50 * 1000 * 1000.

(** The [for .. of] loop of [getBatchRange], entered with the running
    [total] and [range]. *)
Fixpoint getBatchRange_from (w : World) (items : list string)
         (total : N) (range : nat) : Outcome nat :=
  match items with
  | [] => Returned range
  | item :: rest =>
      match png_size w item with
      | None => Raised (FileError (item ++ ".png")%string)
      | Some size =>
          let total := (total + size)%N in
          if (BATCH_SIZE_LIMIT <=? total)%N then
            if Nat.eqb range 0 then Raised ItemTooBig
            else Returned range
          else getBatchRange_from w rest total (S range)
      end
  end.

Definition getBatchRange (w : World) (items : list string) : Outcome nat :=
  getBatchRange_from w items 0%N 0.

(** The [while (items.length)] loop of [arweaveBundleUpload];
    [items.splice(0, range)] removes and yields the first [range] items.
    [None] when the fuel runs out. *)
Fixpoint batches_loop (w : World) (fuel : nat) (items : list string)
         (batches : list (list string))
  : option (Outcome (list (list string))) :=
  match items with
  | [] => Some (Returned batches)
  | _ :: _ =>
      match fuel with
      | 0 => None
      | S fuel' =>
          match getBatchRange w items with
          | Raised e => Some (Raised e)
          | Returned range =>
              batches_loop w fuel' (skipn range items)
                           (batches ++ [firstn range items])
          end
      end
  end.

Definition plan_batches (w : World) (_items : list string)
  : option (Outcome (list (list string))) :=
  batches_loop w (List.length _items) _items [].

(** [https://arweave.net/${txId}] *)
Definition arweave_link (txId : string) : string :=
  ("https://arweave.net/" ++ txId)%string.

Definition uploadBatchBundle (w : World) (d : BundleData) (st : State)
  : State * Outcome (list string) :=
  let r := post_bundle w (trace st) d in
  (emit (EvBundle d r) st,
   match r with
   | Some itemTxIds => Returned (map arweave_link itemTxIds)
   | None => Raised BundleRejected
   end).

Definition patch_manifest (m : Manifest) (imageLink : option string)
  : Manifest :=
  {| m_name := m_name m;
     m_symbol := m_symbol m;
     seller_fee_basis_points := seller_fee_basis_points m;
     creators := creators m;
     m_image := imageLink;
     m_files := [(imageLink, "image/png")] |}.

(** [batch.map((item, idx) => ...)] of [getUpdatedManifests], from
    position [idx] on. *)
Fixpoint getUpdatedManifests_from (w : World) (batch : list string)
         (idx : nat) (imageLinks : list string) : Outcome (list Manifest) :=
  match batch with
  | [] => Returned []
  | item :: rest =>
      let manifestPath := (item ++ ".json")%string in
      match read_manifest w manifestPath with
      | None => Raised (FileError manifestPath)
      | Some manifest =>
          match getUpdatedManifests_from w rest (S idx) imageLinks with
          | Raised e => Raised e
          | Returned ms =>
              Returned (patch_manifest manifest (nth_error imageLinks idx)
                          :: ms)
          end
      end
  end.

Definition getUpdatedManifests (w : World) (batch : list string)
           (imageLinks : list string) : Outcome (list Manifest) :=
  getUpdatedManifests_from w batch 0 imageLinks.

Definition BundleResult : Type :=
  (list Manifest * list string * list string)%type.

(** The [async batch => ...] function mapped over the batches. *)
Definition upload_batch (w : World) (batch : list string) (st : State)
  : State * Outcome BundleResult :=
  let (st1, r1) := uploadBatchBundle w (Images batch) st in
  match r1 with
  | Raised e => (st1, Raised e)
  | Returned imageLinks =>
      match getUpdatedManifests w batch imageLinks with
      | Raised e => (st1, Raised e)
      | Returned updatedManifests =>
          let (st2, r2) :=
            uploadBatchBundle w (Manifests updatedManifests) st1 in
          match r2 with
          | Raised e => (st2, Raised e)
          | Returned manifestLinks =>
              let indices :=
                map (fun image =>
                       JS.replace (EXTENSION_PNG w) "" (path_basename w image))
                    batch in
              (st2, Returned (updatedManifests, manifestLinks, indices))
          end
      end
  end.

(** [Promise.all(batches.map(...))]: every batch runs, here one after the
    other; the result rejects as soon as one of them does. *)
Fixpoint upload_batches (w : World) (batches : list (list string))
         (st : State) : State * Outcome (list BundleResult) :=
  match batches with
  | [] => (st, Returned [])
  | batch :: rest =>
      let (st1, r) := upload_batch w batch st in
      let (st2, rs) := upload_batches w rest st1 in
      (st2,
       match r, rs with
       | Raised e, _ => Raised e
       | Returned _, Raised e => Raised e
       | Returned x, Returned xs => Returned (x :: xs)
       end)
  end.

(** [None] only if the planning loop were not to terminate. *)
Definition arweaveBundleUpload (w : World) (_items : list string)
           (st : State) : option (State * Outcome (list BundleResult)) :=
  match plan_batches w _items with
  | None => None
  | Some (Raised e) => Some (st, Raised e)
  | Some (Returned batches) => Some (upload_batches w batches st)
  end.

End ArweaveBundle.

(** The byte size of an item's image, and of the images of a batch. *)
Definition size_of (w : World) (item : string) : N :=
  match png_size w item with
  | Some s => s
  | None => 0%N
  end.

Definition batch_bytes (w : World) (b : list string) : N :=
  fold_right (fun item acc => (size_of w item + acc)%N) 0%N b.

Definition known_size (w : World) (item : string) : Prop :=
  exists s, png_size w item = Some s.

(** The shape of the batches that the planner yields for [items]: put
    end to end they are [items], none is empty, each stays below the
    ceiling, and each is closed right before the item that would make it
    meet or exceed the ceiling. *)
Definition well_cut (w : World) (bs : list (list string))
           (items : list string) : Prop :=
  List.concat bs = items /\
  Forall (fun b => b <> []) bs /\
  Forall (fun b => (batch_bytes w b < ArweaveBundle.BATCH_SIZE_LIMIT)%N) bs /\
  (forall i b x rest,
      nth_error bs i = Some b ->
      nth_error bs (S i) = Some (x :: rest) ->
      (ArweaveBundle.BATCH_SIZE_LIMIT <= batch_bytes w b + size_of w x)%N).

(** An item whose image alone stays below the ceiling. *)
Definition small (w : World) (item : string) : Prop :=
  exists s,
    png_size w item = Some s /\ (s < ArweaveBundle.BATCH_SIZE_LIMIT)%N.

(* ================================================================== *)
(** * Registry committer

    [writeIndices] and the last part of [upload] in [commands/upload.ts]
    are the same loop; the latter also clears its success flag when a
    group fails.  The loop is written once, yielding the flag. *)
(* ================================================================== *)

Module Registry.

(** Modelled from the spec: [chunks] of [helpers/various], which is not
    among the sources: it partitions an array into consecutive slices of
    a fixed size, the last one possibly shorter. *)
Definition chunks {A} (array : list A) (size : nat) : list (list A) :=
  map (fun k => JS.slice array (k * size) ((k + 1) * size))
      (seq 0 ((List.length array + size - 1) / size)).

(** The values of [offset] in
    [for (let offset = 0; offset < n; offset += step)]. *)
Definition offsets (n step : nat) : list nat :=
  map (fun k => k * step) (seq 0 ((n + step - 1) / step)).

(** [keys[i]]; a missing element is [undefined], which as a property name
    reads "undefined". *)
Definition key_at (keys : list string) (i : nat) : string :=
  nth i keys "undefined".

Definition all_onChain (c : Cache) (keys : list string)
           (indexes : list nat) : bool :=
  Nat.eqb
    (List.length (filter (fun i => onChain_of c (key_at keys i)) indexes))
    (List.length indexes).

Definition first_key (keys : list string) (indexes : list nat) : string :=
  match indexes with
  | i :: _ => key_at keys i
  | [] => "undefined"
  end.

(** [indexes.map(i => ({ uri: cache.items[keys[i]].link, name: ... }))];
    [None] when an entry is [undefined] and the property access throws. *)
Fixpoint config_lines (c : Cache) (keys : list string)
         (indexes : list nat) : option (list ConfigLine) :=
  match indexes with
  | [] => Some []
  | i :: rest =>
      match JS.get (items c) (key_at keys i) with
      | None => None
      | Some e =>
          match config_lines c keys rest with
          | None => None
          | Some ls => Some ({| uri := link e; line_name := name e |} :: ls)
          end
      end
  end.

(** [{ ...cache.items[k], onChain: true }] *)
Definition spread_onChain (e : option CacheEntry) : CacheEntry :=
  match e with
  | Some e => {| link := link e; name := name e; onChain := true |}
  | None => {| link := None; name := None; onChain := true |}
  end.

Definition mark_onChain (keys : list string) (indexes : list nat)
           (c : Cache) : Cache :=
  fold_left
    (fun c i =>
       let k := key_at keys i in
       set_item k (spread_onChain (JS.get (items c) k)) c)
    indexes c.

(** One iteration of the inner [for] loop: the group [indexes]. *)
Definition commit_group (w : World) (keys : list string)
           (indexes : list nat) (acc : State * bool) : State * bool :=
  let (st, ok) := acc in
  if all_onChain (cache st) keys indexes then (st, ok)
  else
    let ind := first_key keys indexes in
    match config_lines (cache st) keys indexes with
    | None => (emit (EvLogError ind) st, false)
    | Some lines =>
        let r := addConfigLines w (trace st) ind lines in
        let st1 := emit (EvAddConfigLines ind lines r) st in
        if r then
          (saveCache (with_cache (mark_onChain keys indexes (cache st1)) st1),
           ok)
        else (emit (EvLogError ind) st1, false)
    end.

(** The [async allIndexesInSlice => ...] function of one outer chunk. *)
Definition commit_slice (w : World) (keys : list string)
           (allIndexesInSlice : list nat) (acc : State * bool)
  : State * bool :=
  fold_left
    (fun acc offset =>
       commit_group w keys
         (JS.slice allIndexesInSlice offset (offset + 10)) acc)
    (offsets (List.length allIndexesInSlice) 10) acc.

(** The whole [try .. finally]: the state after it and whether every
    group written was accepted.  The slices are run one after the other;
    up to 1000 keys there is one slice, and this is the order of the
    run. *)
Definition commit_all (w : World) (st : State) : State * bool :=
  let keys := JS.keys (items (cache st)) in
  let (st', ok) :=
    fold_left (fun acc slice => commit_slice w keys slice acc)
              (chunks (JS.range (List.length keys)) 1000) (st, true) in
  (saveCache st', ok).

End Registry.

(* ================================================================== *)
(** * The bundle-capable [upload] command *)
(* ================================================================== *)

Module BundleUpload.

(** Values of the [storage] option as the command tells them apart:
    [StorageType.ArweaveNative], or one of the single-item backends; any
    value that is neither [Ipfs] nor [Aws] takes the [default] branch of
    the [switch], that of [Arweave]. *)
Inductive StorageType :=
| ArweaveNative
| Single (b : Backend).

Definition config_data (totalNFTs : N) (mutable retain : bool)
           (m : Manifest) : ConfigData :=
  {| maxNumberOfLines := totalNFTs;
     cd_symbol := m_symbol m;
     sellerFeeBasisPoints := seller_fee_basis_points m;
     isMutable := mutable;
     retainAuthority := retain;
     cd_creators := creators m |}.

Definition set_program (u cfg : string) (c : Cache) : Cache :=
  {| program := {| uuid := Some u; config := Some cfg |};
     items := items c;
     authority := authority c |}.

Definition initConfig (w : World) (d : ConfigData) (st : State)
  : State * Outcome string :=
  let r := createConfig w (trace st) d in
  let st1 := emit (EvCreateConfig d r) st in
  match r with
  | Some (u, cfg) =>
      (saveCache (with_cache (set_program u cfg (cache st1)) st1),
       Returned cfg)
  | None =>
      (emit (EvLogError "Error deploying config to Solana network.") st1,
       Raised ConfigDeployError)
  end.

Definition getItemManifest (w : World) (item : string) : Outcome Manifest :=
  let manifestPath := (item ++ ".json")%string in
  match read_manifest w manifestPath with
  | Some m => Returned m
  | None => Raised (FileError manifestPath)
  end.

(** [path.basename(filePath, path.extname(filePath))] *)
Definition stem (w : World) (filePath : string) : string :=
  path_basename_ext w filePath (path_extname w filePath).

Definition entry_link (items : JS.Obj CacheEntry) (idx : string)
  : option string :=
  match JS.get items idx with
  | Some e => link e
  | None => None
  end.

Definition getItemsNeedingUpload (w : World) (items : JS.Obj CacheEntry)
           (files : list string) : list string :=
  let all := JS.Set_of (JS.keys items ++ map (stem w) files) in
  filter (fun idx => negb (JS.truthy (entry_link items idx))) all.

(** The [forEach] of [saveManifestsWithLink], from position [idx] on. *)
Fixpoint saveManifestsWithLink_from (c : Cache) (manifests : list Manifest)
         (idx : nat) (links indices : list string) : Cache :=
  match manifests with
  | [] => c
  | manifest :: rest =>
      saveManifestsWithLink_from
        (set_item (nth idx indices "undefined")
                  {| link := nth_error links idx;
                     name := Some (m_name manifest);
                     onChain := false |} c)
        rest (S idx) links indices
  end.

Definition saveManifestsWithLink (c : Cache) (manifests : list Manifest)
           (links indices : list string) : Cache :=
  saveManifestsWithLink_from c manifests 0 links indices.

Definition writeIndices (w : World) (st : State) : State :=
  fst (Registry.commit_all w st).

(** [bundleUploads.reduce(...)]: the three components, concatenated. *)
Definition flatten_bundles (bundleUploads : list ArweaveBundle.BundleResult)
  : ArweaveBundle.BundleResult :=
  fold_left
    (fun acc b =>
       match acc, b with
       | (ms, ls, is_), (bms, bls, bis) => (ms ++ bms, ls ++ bls, is_ ++ bis)
       end)
    bundleUploads ([], [], []).

(** The [for (const toUpload of needUpload)] loop of the single-item
    backends: the link an upload returns is not kept. *)
Fixpoint upload_each (w : World) (b : Backend) (needUpload : list string)
         (st : State) : State * Outcome unit :=
  match needUpload with
  | [] => (st, Returned tt)
  | toUpload :: rest =>
      match getItemManifest w toUpload with
      | Raised e => (st, Raised e)
      | Returned manifest =>
          let r := upload_item w (trace st) b toUpload manifest in
          let st1 := emit (EvUpload b toUpload r) st in
          match r with
          | Throws => (st1, Raised (UploadRejected toUpload))
          | Returns _ => upload_each w b rest st1
          end
      end
  end.

(** The branch [if (needUpload.length) { ... }]. *)
Definition upload_pending (w : World) (storage : StorageType)
           (needUpload : list string) (st : State)
  : option (State * Outcome unit) :=
  match needUpload with
  | [] => Some (st, Returned tt)
  | _ :: _ =>
      match storage with
      | ArweaveNative =>
          match ArweaveBundle.arweaveBundleUpload w needUpload st with
          | None => None
          | Some (st1, Raised e) => Some (st1, Raised e)
          | Some (st1, Returned bundleUploads) =>
              match flatten_bundles bundleUploads with
              | (updatedManifests, manifestLinks, indices) =>
                  Some (saveCache
                          (with_cache
                             (saveManifestsWithLink (cache st1)
                                updatedManifests manifestLinks indices)
                             st1),
                        Returned tt)
              end
          end
      | Single b => Some (upload_each w b needUpload st)
      end
  end.

(** [upload]; [saved] is what [loadCache] yields.  The command resolves
    to [undefined]: the result of [writeIndices]. *)
Definition upload (w : World) (saved : option Cache) (files : list string)
           (storage : StorageType) (totalNFTs : N)
           (retain mutable : bool) : option (State * Outcome unit) :=
  let st0 :=
    {| cache := match saved with Some c => c | None => empty_cache end;
       trace := [] |} in
  match files with
  | [] => Some (st0, Raised InvalidArgType)
  | _ :: _ =>
      let needUpload := getItemsNeedingUpload w (items (cache st0)) files in
      match upload_pending w storage needUpload st0 with
      | None => None
      | Some (st1, Raised e) => Some (st1, Raised e)
      | Some (st1, Returned _) =>
          match getItemManifest w "0" with
          | Raised e => Some (st1, Raised e)
          | Returned manifest0 =>
              let (st2, rc) :=
                if JS.truthy (config (program (cache st1)))
                then (st1, Returned "")
                else initConfig w
                       (config_data totalNFTs mutable retain manifest0) st1 in
              match rc with
              | Raised e => Some (st2, Raised e)
              | Returned _ => Some (writeIndices w st2, Returned tt)
              end
          end
      end
  end.

(** The part of [upload] that follows the uploads, taken apart. *)
Definition commit_phase (w : World) (totalNFTs : N) (retain mutable : bool)
           (st1 : State) : State * Outcome unit :=
  match getItemManifest w "0" with
  | Raised e => (st1, Raised e)
  | Returned manifest0 =>
      let (st2, rc) :=
        if JS.truthy (config (program (cache st1)))
        then (st1, Returned "")
        else initConfig w
               (config_data totalNFTs mutable retain manifest0) st1 in
      match rc with
      | Raised e => (st2, Raised e)
      | Returned _ => (writeIndices w st2, Returned tt)
      end
  end.

End BundleUpload.

(* ================================================================== *)
(** * commands/upload.ts *)
(* ================================================================== *)

Module Upload.

(** [BATCH_SIZE[storage]]; [None] for a name that is not a backend, where
    the sum with [currentBatchStartIndex] is not a number and no loop
    condition holds. *)
Definition BATCH_SIZE (storage : string) : option nat :=
  if storage =? "arweave" then Some 5
  else if storage =? "ipfs" then Some 1
  else if storage =? "aws" then Some 1
  else None.

Definition backend_of (storage : string) : option Backend :=
  if storage =? "arweave" then Some Arweave
  else if storage =? "ipfs" then Some Ipfs
  else if storage =? "aws" then Some Aws
  else None.

Definition seen_has (seen : list string) (k : string) : bool :=
  JS.mem k seen || JS.mem k JS.Object_prototype_names.

(** [f.replace(EXTENSION_PNG, '').split('/').pop()] *)
Definition file_key (w : World) (f : string) : string :=
  JS.split_pop (JS.replace (EXTENSION_PNG w) "" f).

(** The two [forEach] loops that fill [newFiles]; the state is the pair of
    [seen] and [newFiles]. *)
Definition add_file (w : World) (acc : list string * list string)
           (f : string) : list string * list string :=
  let (seen, newFiles) := acc in
  if seen_has seen (file_key w f) then acc
  else (seen ++ [file_key w f], newFiles ++ [f]).

Definition add_cached (acc : list string * list string) (f : string)
  : list string * list string :=
  let (seen, newFiles) := acc in
  if seen_has seen f then acc
  else (seen ++ [f], newFiles ++ [(f ++ ".png")%string]).

Definition images_of (w : World) (c : Cache) (files : list string)
  : list string :=
  let existingInCache := JS.keys (items c) in
  let acc := fold_left (add_file w) files ([], []) in
  let newFiles := snd (fold_left add_cached existingInCache acc) in
  filter (fun val => path_extname w val =? EXTENSION_PNG w) newFiles.

Definition image_index (w : World) (image : string) : string :=
  JS.replace (EXTENSION_PNG w) "" (path_basename w image).

Definition set_authority (a : string) (c : Cache) : Cache :=
  {| program := program c; items := items c; authority := Some a |}.

(** [upload_one_item].  The promises of a window are created before any
    of them settles, so what the function reads before its first [await]
    comes from the cache [c0] as it is when the window starts. *)
Definition upload_one_item (w : World) (totalNFTs : N) (storage : string)
           (retain mutable : bool) (image : string) (i : nat)
           (c0 : Cache) (st : State) : State * Outcome bool :=
  let index := image_index w image in
  let link0 := link_of c0 index in
  let no_uuid := negb (JS.truthy (uuid (program c0))) in
  if negb (JS.truthy link0) || no_uuid then
    let manifestPath := JS.replace (EXTENSION_PNG w) ".json" image in
    match read_manifest w manifestPath with
    | None => (st, Raised (FileError manifestPath))
    | Some manifest =>
        let (st1, rc) :=
          if Nat.eqb i 0 && no_uuid then
            let d := BundleUpload.config_data totalNFTs mutable retain
                       manifest in
            let r := createConfig w (trace st) d in
            let st' := emit (EvCreateConfig d r) st in
            match r with
            | Some (u, cfg) =>
                (with_cache (BundleUpload.set_program u cfg (cache st')) st',
                 Returned tt)
            | None =>
                (emit (EvLogError "Error deploying config to Solana network.")
                      st',
                 Raised ConfigDeployError)
            end
          else (st, Returned tt) in
        match rc with
        | Raised e => (st1, Raised e)
        | Returned _ =>
            if negb (JS.truthy link0) then
              match backend_of storage with
              | None => (st1, Returned true)
              | Some b =>
                  let r := upload_item w (trace st1) b image manifest in
                  let st2 := emit (EvUpload b image r) st1 in
                  match r with
                  | Throws => (emit (EvLogError index) st2, Returned false)
                  | Returns l =>
                      if JS.truthy l then
                        (with_cache
                           (set_authority (wallet w)
                              (set_item index
                                 {| link := l;
                                    name := Some (m_name manifest);
                                    onChain := false |}
                                 (cache st2)))
                           st2,
                         Returned true)
                      else (st2, Returned true)
                  end
              end
            else (st1, Returned true)
        end
    end
  else (st, Returned true).

(** The two awaited steps of [upload_one_item] taken apart: the one-time
    initialisation of the config and the upload of the item. *)
Definition init_step (w : World) (totalNFTs : N) (retain mutable : bool)
           (manifest : Manifest) (i : nat) (c0 : Cache) (st : State)
  : State * Outcome unit :=
  if Nat.eqb i 0 && negb (JS.truthy (uuid (program c0))) then
    let d := BundleUpload.config_data totalNFTs mutable retain manifest in
    let r := createConfig w (trace st) d in
    let st' := emit (EvCreateConfig d r) st in
    match r with
    | Some (u, cfg) =>
        (with_cache (BundleUpload.set_program u cfg (cache st')) st',
         Returned tt)
    | None =>
        (emit (EvLogError "Error deploying config to Solana network.") st',
         Raised ConfigDeployError)
    end
  else (st, Returned tt).

Definition store_step (w : World) (storage : string) (image : string)
           (manifest : Manifest) (c0 : Cache) (st1 : State)
  : State * Outcome bool :=
  let index := image_index w image in
  if negb (JS.truthy (link_of c0 index)) then
    match backend_of storage with
    | None => (st1, Returned true)
    | Some b =>
        let r := upload_item w (trace st1) b image manifest in
        let st2 := emit (EvUpload b image r) st1 in
        match r with
        | Throws => (emit (EvLogError index) st2, Returned false)
        | Returns l =>
            if JS.truthy l then
              (with_cache
                 (set_authority (wallet w)
                    (set_item index
                       {| link := l;
                          name := Some (m_name manifest);
                          onChain := false |}
                       (cache st2)))
                 st2,
               Returned true)
            else (st2, Returned true)
        end
    end
  else (st1, Returned true).

(** The promises of one window, [images[i]] for [i] from [i0] on, and
    [Promise.all] over them: every item runs, here one after the
    other. *)
Fixpoint upload_window (w : World) (totalNFTs : N) (storage : string)
         (retain mutable : bool) (window : list string) (i0 : nat)
         (c0 : Cache) (st : State) : State * Outcome (list bool) :=
  match window with
  | [] => (st, Returned [])
  | image :: rest =>
      let (st1, r) :=
        upload_one_item w totalNFTs storage retain mutable image i0 c0 st in
      let (st2, rs) :=
        upload_window w totalNFTs storage retain mutable rest (S i0) c0 st1 in
      (st2,
       match r, rs with
       | Raised e, _ => Raised e
       | Returned _, Raised e => Raised e
       | Returned x, Returned xs => Returned (x :: xs)
       end)
  end.

(** The images of the window that starts at [start]: [images[i]] for
    [start <= i < Math.min(start + size, SIZE)]. *)
Definition window_at (images : list string) (size start : nat)
  : list string :=
  JS.slice images start (Nat.min (start + size) (List.length images)).

(** The [while (currentBatchStartIndex < SIZE)] loop over the window
    starts. *)
Fixpoint upload_windows (w : World) (totalNFTs : N) (storage : string)
         (retain mutable : bool) (images : list string) (size : nat)
         (starts : list nat) (st : State) (uploadSuccessful : bool)
  : State * Outcome bool :=
  match starts with
  | [] => (st, Returned uploadSuccessful)
  | currentBatchStartIndex :: rest =>
      match upload_window w totalNFTs storage retain mutable
                          (window_at images size currentBatchStartIndex)
                          currentBatchStartIndex (cache st) st with
      | (st1, Raised e) => (st1, Raised e)
      | (st1, Returned results) =>
          upload_windows w totalNFTs storage retain mutable images size rest
            (saveCache st1)
            (forallb (fun x => x) results && uploadSuccessful)
      end
  end.

(** The values of [currentBatchStartIndex].  For a name that is not a
    backend the loop is entered once when there are images (its window is
    empty, the cache is saved) and left when the index stops being a
    number. *)
Definition window_starts (storage : string) (SIZE : nat) : list nat :=
  match BATCH_SIZE storage with
  | Some size => Registry.offsets SIZE size
  | None => if Nat.eqb SIZE 0 then [] else [0]
  end.

Definition window_size (storage : string) : nat :=
  match BATCH_SIZE storage with
  | Some size => size
  | None => 0
  end.

(** [upload]; [saved] is what [loadCache] yields. *)
Definition upload (w : World) (saved : option Cache) (files : list string)
           (storage : string) (totalNFTs : N) (retain mutable : bool)
  : State * Outcome bool :=
  let st0 :=
    {| cache := match saved with Some c => c | None => empty_cache end;
       trace := [] |} in
  let images := images_of w (cache st0) files in
  match upload_windows w totalNFTs storage retain mutable images
                       (window_size storage)
                       (window_starts storage (List.length images))
                       st0 true with
  | (st1, Raised e) => (st1, Raised e)
  | (st1, Returned uploadSuccessful) =>
      let (st2, ok) := Registry.commit_all w st1 in
      (st2, Returned (uploadSuccessful && ok))
  end.

End Upload.

(* ================================================================== *)
(** * Vocabulary of the properties *)
(* ================================================================== *)

(** Calls that send an item, or a bundle of items, to a storage backend. *)
Definition is_upload (ev : Event) : bool :=
  match ev with
  | EvBundle _ _ | EvUpload _ _ _ => true
  | _ => false
  end.

(** Registry write calls. *)
Definition is_write (ev : Event) : bool :=
  match ev with
  | EvAddConfigLines _ _ _ => true
  | _ => false
  end.

Definition uploads (tr : Trace) : nat := List.length (filter is_upload tr).
Definition writes (tr : Trace) : nat := List.length (filter is_write tr).

(** The starting keys of the registry write calls, in the order of the
    calls. *)
Definition write_keys (tr : Trace) : list string :=
  flat_map (fun ev =>
              match ev with
              | EvAddConfigLines ind _ _ => [ind]
              | _ => []
              end) tr.

(** An item upload that threw, or a registry write that was rejected. *)
Definition is_failure (ev : Event) : bool :=
  match ev with
  | EvUpload _ _ Throws => true
  | EvAddConfigLines _ _ false => true
  | _ => false
  end.

(** Events of the registry phase. *)
Definition is_registry (ev : Event) : bool :=
  match ev with
  | EvAddConfigLines _ _ _ | EvSaveCache _ | EvLogError _ => true
  | _ => false
  end.

(** The state [st'] continues [st]: its trace adds the events [evs]. *)
Definition continues (st st' : State) (evs : Trace) : Prop :=
  trace st' = trace st ++ evs.

(** Every entry that is on chain has a non-empty link. *)
Definition cache_inv (c : Cache) : Prop :=
  forall idx e,
    JS.get (items c) idx = Some e ->
    onChain e = true -> JS.truthy (link e) = true.

(** Every entry has a non-empty link. *)
Definition all_linked (c : Cache) : Prop :=
  forall idx, In idx (JS.keys (items c)) -> has_link c idx = true.

(** No entry of [c] is missing from [c']. *)
Definition keeps_entries (c c' : Cache) : Prop :=
  forall idx, In idx (JS.keys (items c)) -> In idx (JS.keys (items c')).

(** The groups of indexes that the committer goes through: the inner
    groups of the first outer chunk, then those of the second, and so
    on. *)
Definition groups_of (n : nat) : list (list nat) :=
  flat_map
    (fun allIndexesInSlice =>
       map (fun offset => JS.slice allIndexesInSlice offset (offset + 10))
           (Registry.offsets (List.length allIndexesInSlice) 10))
    (Registry.chunks (JS.range n) 1000).

Definition group_keys (keys : list string) (indexes : list nat)
  : list string :=
  map (Registry.key_at keys) indexes.

(** The committer's loop over a list of groups. *)
Definition commit_groups (w : World) (keys : list string)
           (gs : list (list nat)) (acc : State * bool) : State * bool :=
  fold_left (fun acc g => Registry.commit_group w keys g acc) gs acc.

(** Summary of a step or of a run of the loop over the groups [gs], from
    [(st, ok)] to [(st', ok')] with the new events [evs]. *)
Definition loop_summary (keys : list string) (gs : list (list nat)) (st : State) (ok : bool)
           (st' : State) (ok' : bool) (evs : Trace) : Prop :=
  continues st st' evs /\
  Forall (fun ev => is_registry ev = true) evs /\
  write_keys evs
  = map (Registry.first_key keys)
        (filter (fun g => negb (forallb (onChain_of (cache st))
                                        (group_keys keys g))) gs) /\
  ok' = ok && negb (existsb is_failure evs) /\
  JS.keys (items (cache st')) = JS.keys (items (cache st)) /\
  (forall k, link_of (cache st') k = link_of (cache st) k) /\
  (forall k, onChain_of (cache st) k = true ->
             onChain_of (cache st') k = true) /\
  (forall k, ~ In k (List.concat (map (group_keys keys) gs)) ->
             JS.get (items (cache st')) k = JS.get (items (cache st)) k) /\
  (forall ind lines r,
      In (EvAddConfigLines ind lines r) evs ->
      exists g, In g gs /\ ind = Registry.first_key keys g) /\
  (forall g lines,
      In g gs ->
      In (EvAddConfigLines (Registry.first_key keys g) lines false) evs ->
      (forall k, In k (group_keys keys g) ->
                 JS.get (items (cache st')) k = JS.get (items (cache st)) k) /\
      forallb (onChain_of (cache st')) (group_keys keys g) = false).


(** Summary of a part of the upload phase, from [st] to [st'] with the
    new events [evs]. *)
Definition upload_summary (st st' : State) (evs : Trace) : Prop :=
  continues st st' evs /\
  Forall (fun ev => is_write ev = false) evs /\
  (forall k, has_link (cache st) k = true -> has_link (cache st') k = true) /\
  keeps_entries (cache st) (cache st') /\
  (NoDup (JS.keys (items (cache st))) ->
   NoDup (JS.keys (items (cache st')))) /\
  (cache_inv (cache st) -> cache_inv (cache st')) /\
  (all_linked (cache st) -> all_linked (cache st')).

(** The manifest next to an image can be read and parsed. *)
Definition readable (w : World) (image : string) : Prop :=
  read_manifest w (JS.replace (EXTENSION_PNG w) ".json" image) <> None.



Definition is_bundle (ev : Event) : bool :=
  match ev with
  | EvBundle _ _ => true
  | _ => false
  end.

(** A bundle transaction that was rejected. *)
Definition bundle_failed (ev : Event) : bool :=
  match ev with
  | EvBundle _ None => true
  | _ => false
  end.

(** Both bundles of the batch were accepted: its images, and then its
    manifests patched with the image links. *)
Definition batch_done (w : World) (batch : list string) (evs : Trace)
  : Prop :=
  exists ids ms ids',
    In (EvBundle (Images batch) (Some ids)) evs /\
    ArweaveBundle.getUpdatedManifests w batch (map ArweaveBundle.arweave_link ids)
    = Returned ms /\
    In (EvBundle (Manifests ms) (Some ids')) evs.

(** First-seen order: every name once, at the place of its first
    occurrence. *)
Fixpoint first_seen (l : list string) : list string :=
  match l with
  | [] => []
  | x :: rest => x :: filter (fun y => negb (y =? x)) (first_seen rest)
  end.

(** The item selector in the words of the design: the union of the
    indices known to the cache and of the indices derived from the file
    names, in first-seen order with the cache keys first, kept when the
    cache entry has no link. *)
Definition select_pending (w : World) (items : JS.Obj CacheEntry)
           (files : list string) : list string :=
  filter (fun idx => negb (JS.truthy (BundleUpload.entry_link items idx)))
         (first_seen (JS.keys items ++ map (BundleUpload.stem w) files)).

(** First-seen order by key: every name whose key no earlier name has. *)
Fixpoint first_per_key (key : string -> string) (l : list string)
  : list string :=
  match l with
  | [] => []
  | f :: rest =>
      f :: filter (fun g => negb (key g =? key f)) (first_per_key key rest)
  end.

(** The selection of [commands/upload.ts] in words: the files, one per
    key, in the order of the file list, and then [key.png] for the cache
    keys that are the key of no file, in the order of the cache; a key
    that reads as seen on the empty object (a name inherited from
    [Object.prototype]) is passed over; what has not the extension of an
    image is dropped at the end.  No link is looked at. *)
Definition select_images (w : World) (c : Cache) (files : list string)
  : list string :=
  let key := Upload.file_key w in
  let fromFiles :=
    first_per_key key
      (filter (fun f => negb (Upload.seen_has [] (key f))) files) in
  let fromCache :=
    map (fun k => (k ++ ".png")%string)
        (filter (fun k => negb (Upload.seen_has (map key files) k))
                (first_seen (JS.keys (items c)))) in
  filter (fun val => path_extname w val =? EXTENSION_PNG w)
         (fromFiles ++ fromCache).

(* ================================================================== *)
(** * Sample worlds and caches *)
(* ================================================================== *)

Module Samples.

(** The decimal name of an index. *)
Definition index_name (n : nat) : string :=
  NilEmpty.string_of_uint (Nat.to_uint n).

(** Path functions for file names in the working directory. *)
Fixpoint ext_from (s : string) : string :=
  match s with
  | EmptyString => EmptyString
  | String a s' =>
      if ext_from s' =? "" then (if Ascii.eqb a "." then s else "")
      else ext_from s'
  end.

Definition extname (p : string) : string :=
  match JS.split_pop p with
  | EmptyString => EmptyString
  | String _ rest => ext_from rest
  end.

Definition basename_ext (p ext : string) : string :=
  let b := JS.split_pop p in
  let n := String.length b - String.length ext in
  if (negb (ext =? "")) && (substring n (String.length ext) b =? ext)
     && negb (b =? ext)
  then substring 0 n b
  else b.

(** Base58 names of 32-byte public keys: the config account, the
    creator of the items and the wallet. *)
Definition config_key : string :=
  "SysvarC1ock11111111111111111111111111111111".
Definition creator_key : string :=
  "SysvarRent111111111111111111111111111111111".
Definition wallet_key : string :=
  "Vote111111111111111111111111111111111111111".

Definition manifest_of (p : string) : Manifest :=
  {| m_name := p;
     m_symbol := "SYM";
     seller_fee_basis_points := 500;
     creators := [{| address := creator_key; share := 100 |}];
     m_image := Some "image.png";
     m_files := [] |}.

Definition bundle_ids (d : BundleData) : list string :=
  match d with
  | Images batch => map (fun item => (item ++ "-image")%string) batch
  | Manifests ms => map (fun m => (m_name m ++ "-manifest")%string) ms
  end.

(** A world whose outcomes do not depend on the history: the sizes of
    the images, which bundles and which item uploads are accepted,
    whether the config can be created, and which registry writes, told
    by their first key, are accepted. *)
Definition world (sizes : string -> option N)
           (bundle_ok : BundleData -> bool) (upload_ok : string -> bool)
           (config_ok : bool) (write_ok : string -> bool) : World :=
  {| path_basename := JS.split_pop;
     path_basename_ext := basename_ext;
     path_extname := extname;
     EXTENSION_PNG := ".png";
     png_size := sizes;
     read_manifest := fun p => Some (manifest_of p);
     post_bundle := fun _ d => if bundle_ok d then Some (bundle_ids d) else None;
     upload_item :=
       fun _ _ item _ =>
         if upload_ok item
         then Returns (Some ("https://arweave.net/" ++ item)%string)
         else Throws;
     createConfig :=
       fun _ _ => if config_ok then Some ("uuid01", config_key) else None;
     addConfigLines := fun _ ind _ => write_ok ind;
     wallet := wallet_key |}.

Definition MB : N := 1000 * 1000.

(** Images of 30MB, 30MB and 10MB. *)
Definition sizes_30_30_10 (item : string) : option N :=
  if item =? "0" then Some (30 * MB)%N
  else if item =? "1" then Some (30 * MB)%N
  else if item =? "2" then Some (10 * MB)%N
  else None.

(** Images of 1MB, but for item 1 of 60MB. *)
Definition sizes_oversized (item : string) : option N :=
  if item =? "1" then Some (60 * MB)%N else Some MB.

Definition entry (n : nat) (on_chain : bool) : string * CacheEntry :=
  (index_name n,
   {| link := Some ("https://arweave.net/" ++ index_name n)%string;
      name := Some ("item " ++ index_name n)%string;
      onChain := on_chain |}).

(** A cache of [n] linked items, the first [k] of them on chain. *)
Definition cache_of (n k : nat) : Cache :=
  {| program := {| uuid := Some "uuid01"; config := Some config_key |};
     items := map (fun i => entry i (Nat.ltb i k)) (seq 0 n);
     authority := Some wallet_key |}.

Definition png_files (n : nat) : list string :=
  map (fun i => (index_name i ++ ".png")%string) (seq 0 n).

(** A cache with an entry without link and an entry with an empty link,
    neither on chain. *)
Definition cache_unlinked : Cache :=
  {| program := {| uuid := Some "uuid01"; config := Some config_key |};
     items := [("0", {| link := None; name := Some "zero";
                        onChain := false |});
               ("1", {| link := Some ""; name := Some "one";
                        onChain := false |})];
     authority := None |}.

(** All is accepted. *)
Definition fair : World :=
  world sizes_30_30_10 (fun _ => true) (fun _ => true) true (fun _ => true).

(** The image bundles are accepted, the manifest bundles are not. *)
Definition manifests_rejected : World :=
  world sizes_30_30_10
        (fun d => match d with Images _ => true | Manifests _ => false end)
        (fun _ => true) true (fun _ => true).

(** The upload of [2.png] fails. *)
Definition third_item_fails : World :=
  world sizes_30_30_10 (fun _ => true)
        (fun item => negb (JS.split_pop item =? "2.png")) true (fun _ => true).

(** The upload of item 1 fails. *)
Definition item_1_fails : World :=
  world sizes_30_30_10 (fun _ => true) (fun item => negb (item =? "1"))
        true (fun _ => true).


(** No upload succeeds; the registry accepts every write. *)
Definition uploads_fail : World :=
  world sizes_30_30_10 (fun _ => true) (fun _ => false) true (fun _ => true).

(** The registry rejects the group that starts at key 10. *)
Definition group_10_rejected : World :=
  world sizes_30_30_10 (fun _ => true) (fun _ => true) true
        (fun ind => negb (ind =? "10")).

Definition oversized : World :=
  world sizes_oversized (fun _ => true) (fun _ => true) true (fun _ => true).

End Samples.

(** Distinctness of a list of names, computed. *)
Fixpoint distinct (l : list string) : bool :=
  match l with
  | [] => true
  | x :: rest => negb (JS.mem x rest) && distinct rest
  end.

(** The invariant of the cache, computed. *)
Definition cache_inv_b (c : Cache) : bool :=
  forallb (fun ke => implb (onChain (snd ke)) (JS.truthy (link (snd ke))))
          (items c).

(* ================================================================== *)
(** * Vocabulary of the further properties *)
(* ================================================================== *)

(** The consecutive pieces of [s] elements of a list, the last one
    possibly shorter. *)
Definition pieces {A} (s : nat) (l : list A) : list (list A) :=
  map (fun k => firstn s (skipn (k * s) l))
      (seq 0 ((List.length l + s - 1) / s)).

(** The positions [10 * j .. 10 * j + 9] below [n]. *)
Definition ten (n j : nat) : list nat :=
  seq (10 * j) (Nat.min 10 (n - 10 * j)).

(** The cache [c'] differs from [c] at most by entries that went on
    chain: same program and authority, same keys in the same order, and
    every entry with its link and name. *)
Definition marks_only (c c' : Cache) : Prop :=
  program c' = program c /\
  authority c' = authority c /\
  JS.keys (items c') = JS.keys (items c) /\
  forall k,
    match JS.get (items c) k, JS.get (items c') k with
    | Some e, Some e' =>
        link e' = link e /\ name e' = name e /\
        (onChain e = true -> onChain e' = true)
    | None, None => True
    | _, _ => False
    end.

(** Calls that create the config account. *)
Definition is_config (ev : Event) : bool :=
  match ev with
  | EvCreateConfig _ _ => true
  | _ => false
  end.

Definition is_save (ev : Event) : bool :=
  match ev with
  | EvSaveCache _ => true
  | _ => false
  end.

(** The uploads of the items, each with the link that the call returned,
    in the order of the items. *)
Definition sent_ok (b : Backend) (items : list string)
           (links : list (option string)) : Trace :=
  map (fun p => EvUpload b (fst p) (Returns (snd p))) (combine items links).

(** The items sent one by one to a storage backend, in the order of the
    calls. *)
Definition uploaded (tr : Trace) : list string :=
  flat_map (fun ev =>
              match ev with
              | EvUpload _ item _ => [item]
              | _ => []
              end) tr.

(** [l] is [l'] with some of its elements left out. *)
Inductive subseq {A : Type} : list A -> list A -> Prop :=
| subseq_nil : subseq [] []
| subseq_skip x l l' : subseq l l' -> subseq l (x :: l')
| subseq_keep x l l' : subseq l l' -> subseq (x :: l) (x :: l').

(** More sample worlds. *)
Module MoreSamples.

(** The config cannot be created. *)
Definition config_rejected : World :=
  Samples.world Samples.sizes_30_30_10 (fun _ => true) (fun _ => true) false
                (fun _ => true).

(** Every upload returns without a link. *)
Definition no_link_returned : World :=
  {| path_basename := JS.split_pop;
     path_basename_ext := Samples.basename_ext;
     path_extname := Samples.extname;
     EXTENSION_PNG := ".png";
     png_size := Samples.sizes_30_30_10;
     read_manifest := fun p => Some (Samples.manifest_of p);
     post_bundle := fun _ d => Some (Samples.bundle_ids d);
     upload_item := fun _ _ _ _ => Returns None;
     createConfig := fun _ _ => Some ("uuid01", Samples.config_key);
     addConfigLines := fun _ _ _ => true;
     wallet := Samples.wallet_key |}.

End MoreSamples.

(** The order of [Object.keys]: [k] may stand before [k'] unless [k'] is
    an array index and [k] is not one, or is a greater one. *)
Definition may_precede (k k' : string) : Prop :=
  match JS.array_index k' with
  | Some n' => exists n, JS.array_index k = Some n /\ (n <= n')%N
  | None => True
  end.

(** Keys in the order of [Object.keys]: the array indices first, in
    ascending order, then the other keys. *)
Fixpoint keys_ordered (ks : list string) : Prop :=
  match ks with
  | [] => True
  | k :: rest => Forall (may_precede k) rest /\ keys_ordered rest
  end.

(* ================================================================== *)
(** * The helpers at work *)
(* ================================================================== *)

Example replace_extension :
  JS.replace ".png" ".json" "assets/7.png" = "assets/7.json" /\
  JS.replace ".png" "" "7.png.png" = "7.png" /\
  JS.replace ".png" "" "7" = "7".
Proof. repeat split. Qed.

Example split_pop_last_segment :
  JS.split_pop "assets/7.png" = "7.png" /\ JS.split_pop "7" = "7" /\
  JS.split_pop "assets/" = "".
Proof. repeat split. Qed.

Example array_index_names :
  JS.array_index "10" = Some 10%N /\ JS.array_index "0" = Some 0%N /\
  JS.array_index "007" = None /\ JS.array_index "x1" = None /\
  JS.array_index "4294967295" = None.
Proof. repeat split. Qed.

Example keys_order :
  JS.keys (JS.set "2" 2 (JS.set "b" 1 (JS.set "10" 0 (JS.set "a" 0 []))))
  = ["2"; "10"; "a"; "b"] /\
  JS.keys (JS.set "a" 5 (JS.set "2" 2 (JS.set "a" 0 []))) = ["2"; "a"].
Proof. repeat split. Qed.

Example Set_of_first_occurrences :
  JS.Set_of ["b"; "a"; "b"; "c"; "a"] = ["b"; "a"; "c"].
Proof. reflexivity. Qed.

Example chunks_of_two :
  Registry.chunks [0; 1; 2; 3; 4] 2 = [[0; 1]; [2; 3]; [4]] /\
  Registry.offsets 25 10 = [0; 10; 20].
Proof. repeat split. Qed.

Example windows_of_the_backends :
  Upload.window_starts "arweave" 12 = [0; 5; 10] /\
  Upload.window_at ["a"; "b"; "c"; "d"; "e"; "f"; "g"] 5 5 = ["f"; "g"] /\
  Upload.window_starts "ipfs" 3 = [0; 1; 2] /\
  Upload.window_starts "pinata" 3 = [0] /\
  Upload.window_at ["a"; "b"; "c"] (Upload.window_size "pinata") 0 = [].
Proof. repeat split. Qed.

Example images_of_files_and_cache :
  Upload.images_of Samples.fair (Samples.cache_of 2 0)
                   ["assets/1.png"; "assets/3.png"; "assets/3.json"]
  = ["assets/1.png"; "assets/3.png"; "0.png"].
Proof. reflexivity. Qed.

(* ================================================================== *)
(** * Objects: reading after writing *)
(* ================================================================== *)

Section Objects.

Context {V : Type}.
Implicit Types (o : JS.Obj V) (k : string) (v : V).

Lemma has_In o k : JS.has o k = true <-> In k (JS.keys o).
Proof.
  unfold JS.has. induction o as [|[k' v'] o IH]; simpl.
  - split; [discriminate|tauto].
  - destruct (String.eqb_spec k k') as [->|Hne].
    + split; auto.
    + rewrite IH. split; [auto|]. intros [H|H]; [congruence|exact H].
Qed.

Lemma get_In o k v : JS.get o k = Some v -> In k (JS.keys o).
Proof. intros H. apply has_In. unfold JS.has. now rewrite H. Qed.

Lemma In_get o k : In k (JS.keys o) -> exists v, JS.get o k = Some v.
Proof.
  intros H. apply has_In in H. unfold JS.has in H.
  destruct (JS.get o k); [eauto|discriminate].
Qed.

Lemma keys_update o k v : JS.keys (JS.update k v o) = JS.keys o.
Proof.
  induction o as [|[k' v'] o IH]; simpl; [reflexivity|].
  destruct (k =? k'); simpl; [reflexivity|]. now rewrite IH.
Qed.

Lemma get_update_same o k v :
  JS.has o k = true -> JS.get (JS.update k v o) k = Some v.
Proof.
  unfold JS.has. induction o as [|[k' v'] o IH]; simpl; [discriminate|].
  destruct (String.eqb_spec k k') as [->|Hne]; simpl.
  - now rewrite String.eqb_refl.
  - apply String.eqb_neq in Hne. rewrite Hne. exact IH.
Qed.

Lemma get_update_other o k k' v :
  k' <> k -> JS.get (JS.update k v o) k' = JS.get o k'.
Proof.
  intros Hne. induction o as [|[k0 v0] o IH]; simpl; [reflexivity|].
  destruct (String.eqb_spec k k0) as [->|Hk]; simpl.
  - apply String.eqb_neq in Hne. now rewrite Hne.
  - now rewrite IH.
Qed.

Lemma get_define_same o k v :
  JS.has o k = false -> JS.get (JS.define k v o) k = Some v.
Proof.
  unfold JS.has. induction o as [|[k' v'] o IH]; simpl.
  - now rewrite String.eqb_refl.
  - destruct (String.eqb_spec k k') as [->|Hne]; [discriminate|].
    intros H. destruct (JS.precedes k k'); simpl.
    + now rewrite String.eqb_refl.
    + apply String.eqb_neq in Hne. rewrite Hne. auto.
Qed.

Lemma get_define_other o k k' v :
  k' <> k -> JS.get (JS.define k v o) k' = JS.get o k'.
Proof.
  intros Hne. apply String.eqb_neq in Hne.
  induction o as [|[k0 v0] o IH]; simpl.
  - now rewrite Hne.
  - destruct (JS.precedes k k0); simpl.
    + now rewrite Hne.
    + now rewrite IH.
Qed.

Lemma get_set_same o k v : JS.get (JS.set k v o) k = Some v.
Proof.
  unfold JS.set. destruct (JS.has o k) eqn:H.
  - now apply get_update_same.
  - now apply get_define_same.
Qed.

Lemma get_set_other o k k' v :
  k' <> k -> JS.get (JS.set k v o) k' = JS.get o k'.
Proof.
  intros Hne. unfold JS.set. destruct (JS.has o k).
  - now apply get_update_other.
  - now apply get_define_other.
Qed.

Lemma keys_set_present o k v :
  In k (JS.keys o) -> JS.keys (JS.set k v o) = JS.keys o.
Proof.
  intros H. apply has_In in H. unfold JS.set. rewrite H.
  apply keys_update.
Qed.

(** An assignment never removes a key. *)
Lemma keys_set_incl o k k' v :
  In k' (JS.keys o) -> In k' (JS.keys (JS.set k v o)).
Proof.
  intros H. apply has_In. unfold JS.has.
  destruct (String.eqb_spec k' k) as [->|Hne].
  - now rewrite get_set_same.
  - rewrite get_set_other by exact Hne.
    apply has_In in H. exact H.
Qed.

End Objects.

Section ObjectsNoDup.

Context {V : Type}.
Implicit Types (o : JS.Obj V) (k : string) (v : V).

Lemma keys_define_In o k k' v :
  In k' (JS.keys (JS.define k v o)) <-> k' = k \/ In k' (JS.keys o).
Proof.
  induction o as [|[k0 v0] o IH]; simpl.
  - intuition.
  - destruct (JS.precedes k k0); simpl.
    + intuition.
    + rewrite IH. intuition.
Qed.

Lemma NoDup_keys_define o k v :
  NoDup (JS.keys o) -> ~ In k (JS.keys o) -> NoDup (JS.keys (JS.define k v o)).
Proof.
  induction o as [|[k0 v0] o IH]; simpl; intros Hnd Hk.
  - constructor; [tauto|constructor].
  - destruct (JS.precedes k k0); simpl.
    + constructor; [exact Hk|exact Hnd].
    + inversion Hnd; subst. constructor.
      * rewrite keys_define_In. intros [->|H]; tauto.
      * apply IH; tauto.
Qed.

Lemma NoDup_keys_set o k v :
  NoDup (JS.keys o) -> NoDup (JS.keys (JS.set k v o)).
Proof.
  intros Hnd. unfold JS.set. destruct (JS.has o k) eqn:H.
  - now rewrite keys_update.
  - apply NoDup_keys_define; [exact Hnd|].
    intros Hin. apply has_In in Hin. congruence.
Qed.

End ObjectsNoDup.

(* ================================================================== *)
(** * Cache entries: links and flags after an assignment *)
(* ================================================================== *)

Lemma link_of_set_item c k e k' :
  link_of (set_item k e c) k' = if k' =? k then link e else link_of c k'.
Proof.
  unfold link_of, set_item. simpl.
  destruct (String.eqb_spec k' k) as [->|Hne].
  - now rewrite get_set_same.
  - now rewrite get_set_other.
Qed.

Lemma has_link_set_item c k e k' :
  has_link (set_item k e c) k'
  = if k' =? k then JS.truthy (link e) else has_link c k'.
Proof.
  unfold has_link. rewrite link_of_set_item. now destruct (k' =? k).
Qed.

Lemma cache_inv_set_item c k e :
  cache_inv c ->
  (onChain e = true -> JS.truthy (link e) = true) ->
  cache_inv (set_item k e c).
Proof.
  intros Hinv He idx e' Hget. unfold set_item in Hget. simpl in Hget.
  destruct (String.eqb_spec idx k) as [->|Hne].
  - rewrite get_set_same in Hget. inversion Hget; subst. exact He.
  - rewrite get_set_other in Hget by exact Hne. now apply (Hinv idx).
Qed.

Lemma keeps_entries_refl c : keeps_entries c c.
Proof. intros idx H. exact H. Qed.

Lemma keeps_entries_trans c1 c2 c3 :
  keeps_entries c1 c2 -> keeps_entries c2 c3 -> keeps_entries c1 c3.
Proof. intros H1 H2 idx H. auto. Qed.

Lemma keeps_entries_set_item c k e : keeps_entries c (set_item k e c).
Proof. intros idx H. unfold set_item. simpl. now apply keys_set_incl. Qed.

Lemma all_linked_set_item c k e :
  all_linked c -> JS.truthy (link e) = true -> all_linked (set_item k e c).
Proof.
  intros Hall He idx Hin. rewrite has_link_set_item.
  destruct (String.eqb_spec idx k) as [->|Hne]; [exact He|].
  apply Hall. apply has_In. apply has_In in Hin.
  unfold JS.has in *. unfold set_item in Hin. simpl in Hin.
  now rewrite get_set_other in Hin.
Qed.

(* ================================================================== *)
(** * Size-bounded batch planner *)
(* ================================================================== *)

Section Planner.

Import ArweaveBundle.

Variable w : World.

Lemma size_of_known item s : png_size w item = Some s -> size_of w item = s.
Proof. unfold size_of. now intros ->. Qed.

Lemma getBatchRange_from_returned items :
  forall total range r,
    getBatchRange_from w items total range = Returned r ->
    (total < BATCH_SIZE_LIMIT)%N ->
    exists k,
      r = range + k /\ k <= List.length items /\
      (range = 0 -> items <> [] -> 1 <= k) /\
      (total + batch_bytes w (firstn k items) < BATCH_SIZE_LIMIT)%N /\
      (forall x, nth_error items k = Some x ->
                 (BATCH_SIZE_LIMIT
                  <= total + batch_bytes w (firstn k items) + size_of w x)%N).
Proof.
  induction items as [|item rest IH]; intros total range r Hr Htot; simpl in Hr.
  - inversion Hr; subst. exists 0. simpl.
    repeat split; try lia.
    + intros _ H. now elim H.
    + intros x Hx. discriminate.
  - destruct (png_size w item) as [size|] eqn:Hsz; [|discriminate].
    destruct (BATCH_SIZE_LIMIT <=? total + size)%N eqn:Hle.
    + destruct (Nat.eqb range 0) eqn:Hr0; [discriminate|].
      inversion Hr; subst. exists 0. simpl.
      apply Nat.eqb_neq in Hr0. apply N.leb_le in Hle.
      repeat split; try lia.
      intros x Hx. inversion Hx; subst.
      rewrite (size_of_known _ _ Hsz). lia.
    + apply N.leb_gt in Hle.
      destruct (IH _ _ _ Hr Hle) as (k & -> & Hk & _ & Hlt & Hnext).
      exists (S k). simpl. rewrite (size_of_known _ _ Hsz).
      repeat split; try lia.
      intros x Hx. specialize (Hnext x Hx). lia.
Qed.

Lemma getBatchRange_from_total items :
  forall total range,
    Forall (known_size w) items ->
    (range <> 0 \/
     match items with
     | x :: _ => (total + size_of w x < BATCH_SIZE_LIMIT)%N
     | [] => True
     end) ->
    exists r, getBatchRange_from w items total range = Returned r.
Proof.
  induction items as [|item rest IH]; intros total range Hk Hok; simpl.
  - eauto.
  - inversion Hk as [|? ? [s Hs] Hrest]; subst. rewrite Hs.
    destruct (BATCH_SIZE_LIMIT <=? total + s)%N eqn:Hle.
    + destruct (Nat.eqb range 0) eqn:Hr0; [|eauto].
      apply Nat.eqb_eq in Hr0. apply N.leb_le in Hle.
      destruct Hok as [Hne|Hlt]; [contradiction|].
      rewrite (size_of_known _ _ Hs) in Hlt. lia.
    + apply IH; auto.
Qed.

Lemma small_known item : small w item -> known_size w item.
Proof. intros (s & H & _). now exists s. Qed.

Lemma Forall_skipn {A} (P : A -> Prop) n (l : list A) :
  Forall P l -> Forall P (skipn n l).
Proof.
  intros H. rewrite <- (firstn_skipn n l) in H.
  now apply Forall_app in H.
Qed.

Lemma well_cut_nil : well_cut w [] [].
Proof.
  repeat split; auto. intros i b x rest H. destruct i; discriminate.
Qed.

Lemma well_cut_cons k items bs :
  1 <= k -> k <= List.length items ->
  (batch_bytes w (firstn k items) < BATCH_SIZE_LIMIT)%N ->
  (forall x, nth_error items k = Some x ->
             (BATCH_SIZE_LIMIT
              <= batch_bytes w (firstn k items) + size_of w x)%N) ->
  well_cut w bs (skipn k items) ->
  well_cut w (firstn k items :: bs) items.
Proof.
  intros Hk Hlen Hlt Hnext (Hcat & Hne & Hbytes & Hmax).
  split. { simpl. rewrite Hcat. apply firstn_skipn. }
  split.
  { constructor; auto. destruct items; [simpl in Hlen; lia|].
    destruct k; [lia|]. discriminate. }
  split. { now constructor. }
  intros i b x rest' Hb Hx. destruct i as [|i].
  - simpl in Hb. inversion Hb; subst b. simpl in Hx.
    apply (Hnext x).
    destruct bs as [|b1 bs1]; [discriminate|].
    simpl in Hx. inversion Hx; subst b1. simpl in Hcat.
    rewrite <- (firstn_skipn k items) at 1.
    rewrite nth_error_app2 by (rewrite length_firstn; lia).
    rewrite length_firstn, Nat.min_l by lia.
    rewrite Nat.sub_diag, <- Hcat. reflexivity.
  - simpl in Hb, Hx. eapply Hmax; eauto.
Qed.

(** With as much fuel as there are items the planning loop ends; the
    batches it returns are well cut, and it returns when every item stays
    below the ceiling. *)
Lemma batches_loop_total fuel :
  forall items batches,
    List.length items <= fuel ->
    exists res,
      batches_loop w fuel items batches = Some res /\
      (forall all, res = Returned all ->
                   exists bs, all = batches ++ bs /\ well_cut w bs items) /\
      (Forall (small w) items -> exists all, res = Returned all).
Proof.
  induction fuel as [|fuel IH]; intros items batches Hlen.
  - destruct items; [|simpl in Hlen; lia].
    exists (Returned batches). simpl. split; [reflexivity|]. split; [|eauto].
    intros all [= <-]. exists []. rewrite app_nil_r.
    split; [reflexivity|apply well_cut_nil].
  - destruct items as [|item rest].
    + exists (Returned batches). simpl. split; [reflexivity|].
      split; [|eauto].
      intros all [= <-]. exists []. rewrite app_nil_r.
      split; [reflexivity|apply well_cut_nil].
    + cbn [batches_loop]. unfold getBatchRange.
      destruct (getBatchRange_from w (item :: rest) 0%N 0) as [r|e] eqn:Hr.
      * destruct (getBatchRange_from_returned _ _ _ _ Hr)
          as (k & -> & Hk & Hpos & Hlt & Hnext); [reflexivity|].
        simpl Nat.add in *.
        assert (1 <= k) by (apply Hpos; [reflexivity|discriminate]).
        destruct (IH (skipn k (item :: rest))
                     (batches ++ [firstn k (item :: rest)]))
          as (res & Hloop & Hret & Hsmall).
        { rewrite length_skipn. cbn [List.length] in *. lia. }
        exists res. split; [exact Hloop|]. split.
        -- intros all Hall. destruct (Hret all Hall) as (bs & -> & Hcut).
           exists (firstn k (item :: rest) :: bs).
           rewrite <- app_assoc. split; [reflexivity|].
           apply well_cut_cons; auto.
        -- intros HF. apply Hsmall. now apply Forall_skipn.
      * exists (Raised e). split; [reflexivity|]. split; [discriminate|].
        intros HF.
        assert (Hknown : Forall (known_size w) (item :: rest)).
        { eapply Forall_impl; [|exact HF]. apply small_known. }
        destruct (getBatchRange_from_total (item :: rest) 0%N 0 Hknown)
          as [r Hr'].
        { right. inversion HF as [|? ? (s & Hs & Hlt) _]; subst.
          rewrite (size_of_known _ _ Hs). lia. }
        congruence.
Qed.

End Planner.

Section PlannerFatal.

Import ArweaveBundle.

Variable w : World.

Lemma batch_bytes_In item b :
  In item b -> (size_of w item <= batch_bytes w b)%N.
Proof.
  induction b as [|x b IH]; simpl; [tauto|].
  intros [->|H]; [lia|]. specialize (IH H). lia.
Qed.

Lemma getBatchRange_from_raised items :
  forall total range e,
    getBatchRange_from w items total range = Raised e ->
    Forall (known_size w) items ->
    e = ItemTooBig.
Proof.
  induction items as [|item rest IH]; intros total range e He Hk;
    simpl in He; [discriminate|].
  inversion Hk as [|? ? [s Hs] Hrest]; subst. rewrite Hs in He.
  destruct (BATCH_SIZE_LIMIT <=? total + s)%N.
  - destruct (Nat.eqb range 0); now inversion He.
  - eauto.
Qed.

(** An item that alone meets the ceiling stops the planning loop with an
    error, wherever it stands in the list. *)
Lemma batches_loop_oversized item s fuel :
  png_size w item = Some s ->
  (BATCH_SIZE_LIMIT <= s)%N ->
  forall items batches,
    List.length items <= fuel ->
    In item items ->
    exists e,
      batches_loop w fuel items batches = Some (Raised e) /\
      (Forall (known_size w) items -> e = ItemTooBig).
Proof.
  intros Hs Hbig.
  induction fuel as [|fuel IH]; intros items batches Hlen Hin.
  - destruct items; [contradiction|simpl in Hlen; lia].
  - destruct items as [|x rest]; [contradiction|].
    cbn [batches_loop]. unfold getBatchRange.
    destruct (getBatchRange_from w (x :: rest) 0%N 0) as [r|e] eqn:Hr.
    + destruct (getBatchRange_from_returned w _ _ _ _ Hr)
        as (k & -> & Hk & Hpos & Hlt & _); [reflexivity|].
      simpl Nat.add.
      assert (1 <= k) by (apply Hpos; [reflexivity|discriminate]).
      assert (Hin' : In item (skipn k (x :: rest))).
      { rewrite <- (firstn_skipn k (x :: rest)) in Hin.
        apply in_app_or in Hin. destruct Hin as [Hin|Hin]; [|exact Hin].
        apply batch_bytes_In in Hin.
        rewrite (size_of_known w _ _ Hs) in Hin. lia. }
      destruct (IH (skipn k (x :: rest)) (batches ++ [firstn k (x :: rest)]))
        as (e & He & Hknown); auto.
      { rewrite length_skipn. cbn [List.length] in *. lia. }
      exists e. split; [exact He|].
      intros HF. apply Hknown. now apply Forall_skipn.
    + exists e. split; [reflexivity|].
      intros HF. eapply getBatchRange_from_raised; eauto.
Qed.

End PlannerFatal.

(* ================================================================== *)
(** * Lists cut into consecutive pieces *)
(* ================================================================== *)

Section Pieces.

Context {A : Type}.

Lemma firstn_firstn_skipn (l : list A) a b :
  firstn a l ++ firstn b (skipn a l) = firstn (a + b) l.
Proof.
  revert l. induction a as [|a IH]; intros l; simpl; [reflexivity|].
  destruct l as [|x l]; simpl.
  - now rewrite firstn_nil.
  - now rewrite IH.
Qed.

Lemma pieces_prefix (l : list A) s j :
  List.concat (map (fun k => firstn s (skipn (k * s) l)) (seq 0 j))
  = firstn (j * s) l.
Proof.
  induction j as [|j IH]; [reflexivity|].
  rewrite seq_S, map_app, concat_app, IH. simpl.
  rewrite app_nil_r, firstn_firstn_skipn. f_equal. lia.
Qed.

Lemma ceil_div_covers n s : 0 < s -> n <= ((n + s - 1) / s) * s.
Proof.
  intros Hs.
  pose proof (Nat.div_mod_eq (n + s - 1) s) as H.
  pose proof (Nat.mod_upper_bound (n + s - 1) s ltac:(lia)) as Hm.
  nia.
Qed.

Lemma ceil_div_tight n s k : 0 < s -> k < (n + s - 1) / s -> k * s < n.
Proof.
  intros Hs Hk.
  pose proof (Nat.div_mod_eq (n + s - 1) s) as H.
  pose proof (Nat.mod_upper_bound (n + s - 1) s ltac:(lia)) as Hm.
  nia.
Qed.

Lemma pieces_concat (l : list A) s :
  0 < s ->
  List.concat (map (fun k => firstn s (skipn (k * s) l))
                   (seq 0 ((List.length l + s - 1) / s))) = l.
Proof.
  intros Hs. rewrite pieces_prefix. apply firstn_all2.
  now apply ceil_div_covers.
Qed.

Lemma pieces_nonempty (l : list A) s :
  0 < s ->
  Forall (fun p => p <> [])
         (map (fun k => firstn s (skipn (k * s) l))
              (seq 0 ((List.length l + s - 1) / s))).
Proof.
  intros Hs. apply Forall_forall. intros p Hp.
  apply in_map_iff in Hp. destruct Hp as (k & <- & Hk).
  apply in_seq in Hk.
  assert (k * s < List.length l) by (apply ceil_div_tight; lia).
  intros Hnil. apply (f_equal (@List.length A)) in Hnil.
  rewrite length_firstn, length_skipn in Hnil. simpl in Hnil. lia.
Qed.

Lemma chunks_pieces (l : list A) s :
  Registry.chunks l s
  = map (fun k => firstn s (skipn (k * s) l))
        (seq 0 ((List.length l + s - 1) / s)).
Proof.
  unfold Registry.chunks, JS.slice. apply map_ext. intros k.
  f_equal. lia.
Qed.

Lemma offsets_pieces (l : list A) s :
  map (fun offset => JS.slice l offset (offset + s))
      (Registry.offsets (List.length l) s)
  = map (fun k => firstn s (skipn (k * s) l))
        (seq 0 ((List.length l + s - 1) / s)).
Proof.
  unfold Registry.offsets, JS.slice. rewrite map_map. apply map_ext.
  intros k. f_equal. lia.
Qed.

End Pieces.

Lemma concat_flat_map {A B} (f : A -> list (list B)) (l : list A) :
  List.concat (flat_map f l) = flat_map (fun x => List.concat (f x)) l.
Proof.
  induction l as [|x l IH]; simpl; [reflexivity|].
  now rewrite concat_app, IH.
Qed.

Lemma groups_of_concat n : List.concat (groups_of n) = seq 0 n.
Proof.
  unfold groups_of. rewrite concat_flat_map.
  erewrite flat_map_ext.
  2:{ intros sl. rewrite offsets_pieces. apply pieces_concat. lia. }
  rewrite flat_map_concat_map, map_id, chunks_pieces.
  apply (pieces_concat (JS.range n) 1000). lia.
Qed.

Lemma groups_of_nonempty n : Forall (fun g => g <> []) (groups_of n).
Proof.
  unfold groups_of. apply Forall_forall. intros g Hg.
  apply in_flat_map in Hg. destruct Hg as (sl & _ & Hg).
  rewrite offsets_pieces in Hg.
  pose proof (pieces_nonempty sl 10 ltac:(lia)) as H.
  rewrite Forall_forall in H. now apply H.
Qed.

(* ================================================================== *)
(** * Registry committer: one group *)
(* ================================================================== *)

Lemma fold_left_map {A B C} (f : A -> B -> A) (g : C -> B) l a :
  fold_left f (map g l) a = fold_left (fun a x => f a (g x)) l a.
Proof. revert a. induction l; simpl; auto. Qed.

Lemma fold_left_flat_map {A B C} (f : A -> B -> A) (g : C -> list B) l a :
  fold_left f (flat_map g l) a
  = fold_left (fun a x => fold_left f (g x) a) l a.
Proof.
  revert a. induction l as [|x l IH]; intros a; simpl; [reflexivity|].
  now rewrite fold_left_app, IH.
Qed.

Lemma commit_all_groups w st :
  Registry.commit_all w st
  = let keys := JS.keys (items (cache st)) in
    let (st', ok) :=
      commit_groups w keys (groups_of (List.length keys)) (st, true) in
    (saveCache st', ok).
Proof.
  unfold Registry.commit_all, commit_groups, groups_of.
  rewrite fold_left_flat_map. cbv zeta.
  set (keys := JS.keys (items (cache st))).
  assert (E : forall l acc,
             fold_left (fun acc slice => Registry.commit_slice w keys slice acc)
                       l acc
             = fold_left
                 (fun a x =>
                    fold_left (fun acc g => Registry.commit_group w keys g acc)
                      (map (fun offset => JS.slice x offset (offset + 10))
                           (Registry.offsets (List.length x) 10)) a) l acc).
  { induction l as [|x l IH]; intros acc; simpl; [reflexivity|].
    rewrite IH. f_equal. unfold Registry.commit_slice.
    now rewrite fold_left_map. }
  now rewrite E.
Qed.

Section Group.

Variable w : World.
Variable keys : list string.

Lemma filter_length_all {A} (p : A -> bool) l :
  Nat.eqb (List.length (filter p l)) (List.length l) = forallb p l.
Proof.
  induction l as [|x l IH]; simpl; [reflexivity|].
  destruct (p x); simpl; [exact IH|].
  pose proof (filter_length_le p l).
  destruct (forallb p l); apply Nat.eqb_neq; lia.
Qed.

Lemma all_onChain_forallb c indexes :
  Registry.all_onChain c keys indexes
  = forallb (onChain_of c) (group_keys keys indexes).
Proof.
  unfold Registry.all_onChain, group_keys.
  rewrite filter_length_all.
  induction indexes as [|i rest IH]; simpl; [reflexivity|].
  now rewrite IH.
Qed.

Lemma config_lines_present c indexes :
  (forall k, In k (group_keys keys indexes) -> In k (JS.keys (items c))) ->
  exists lines, Registry.config_lines c keys indexes = Some lines.
Proof.
  induction indexes as [|i rest IH]; intros H; simpl; [eauto|].
  destruct (In_get (items c) (Registry.key_at keys i)) as [e He].
  { apply H. now left. }
  rewrite He. destruct IH as [ls ->]; [|eauto].
  intros k Hk. apply H. now right.
Qed.

Lemma spread_idem e :
  Registry.spread_onChain (Some (Registry.spread_onChain e))
  = Registry.spread_onChain e.
Proof. destruct e; reflexivity. Qed.

Lemma mark_onChain_unfold indexes c :
  program (Registry.mark_onChain keys indexes c) = program c /\
  authority (Registry.mark_onChain keys indexes c) = authority c /\
  forall k,
    JS.get (items (Registry.mark_onChain keys indexes c)) k
    = if JS.mem k (group_keys keys indexes)
      then Some (Registry.spread_onChain (JS.get (items c) k))
      else JS.get (items c) k.
Proof.
  unfold Registry.mark_onChain. revert c.
  induction indexes as [|i rest IH]; intros c; simpl.
  - auto.
  - destruct (IH (set_item (Registry.key_at keys i)
                    (Registry.spread_onChain
                       (JS.get (items c) (Registry.key_at keys i))) c))
      as (Hp & Ha & Hg).
    split; [exact Hp|]. split; [exact Ha|].
    intros k. rewrite Hg. simpl.
    destruct (String.eqb_spec k (Registry.key_at keys i)) as [->|Hne]; simpl.
    + rewrite get_set_same.
      destruct (JS.mem _ _); [now rewrite spread_idem|reflexivity].
    + now rewrite get_set_other.
Qed.

Lemma mem_In k l : JS.mem k l = true <-> In k l.
Proof.
  unfold JS.mem. rewrite existsb_exists. split.
  - intros (x & Hx & E). apply String.eqb_eq in E. now subst.
  - intros H. exists k. split; [exact H|apply String.eqb_refl].
Qed.

Lemma mark_onChain_keys indexes c :
  (forall k, In k (group_keys keys indexes) -> In k (JS.keys (items c))) ->
  JS.keys (items (Registry.mark_onChain keys indexes c)) = JS.keys (items c).
Proof.
  unfold Registry.mark_onChain. revert c.
  induction indexes as [|i rest IH]; intros c H; simpl; [reflexivity|].
  rewrite IH.
  - simpl. apply keys_set_present. apply H. now left.
  - intros k Hk. simpl. apply keys_set_incl. apply H. now right.
Qed.

(** What one iteration does, when the keys of the group are keys of the
    cache. *)
Lemma commit_group_cases indexes st ok :
  (forall k, In k (group_keys keys indexes) ->
             In k (JS.keys (items (cache st)))) ->
  (forallb (onChain_of (cache st)) (group_keys keys indexes) = true /\
   Registry.commit_group w keys indexes (st, ok) = (st, ok))
  \/
  (forallb (onChain_of (cache st)) (group_keys keys indexes) = false /\
   exists lines,
     Registry.config_lines (cache st) keys indexes = Some lines /\
     let ind := Registry.first_key keys indexes in
     let ev := EvAddConfigLines ind lines
                 (addConfigLines w (trace st) ind lines) in
     if addConfigLines w (trace st) ind lines
     then Registry.commit_group w keys indexes (st, ok)
          = (saveCache
               (with_cache (Registry.mark_onChain keys indexes (cache st))
                           (emit ev st)), ok)
     else Registry.commit_group w keys indexes (st, ok)
          = (emit (EvLogError ind) (emit ev st), false)).
Proof.
  intros Hkeys. unfold Registry.commit_group.
  rewrite all_onChain_forallb.
  destruct (forallb _ _) eqn:Hall; [left; auto|right].
  split; [reflexivity|].
  destruct (config_lines_present (cache st) indexes Hkeys) as [lines Hl].
  exists lines. split; [exact Hl|]. rewrite Hl. cbv zeta.
  destruct (addConfigLines w (trace st) _ lines); reflexivity.
Qed.

End Group.

(* ================================================================== *)
(** * Registry committer: the loop *)
(* ================================================================== *)

Lemma trace_emit ev st : trace (emit ev st) = trace st ++ [ev].
Proof. reflexivity. Qed.

Lemma writes_app tr1 tr2 : writes (tr1 ++ tr2) = writes tr1 + writes tr2.
Proof. unfold writes. now rewrite filter_app, length_app. Qed.

Lemma uploads_app tr1 tr2 : uploads (tr1 ++ tr2) = uploads tr1 + uploads tr2.
Proof. unfold uploads. now rewrite filter_app, length_app. Qed.

Lemma write_keys_app tr1 tr2 :
  write_keys (tr1 ++ tr2) = write_keys tr1 ++ write_keys tr2.
Proof. unfold write_keys. apply flat_map_app. Qed.

Lemma writes_write_keys tr : writes tr = List.length (write_keys tr).
Proof.
  unfold writes, write_keys. induction tr as [|ev tr IH]; simpl; [reflexivity|].
  destruct ev; simpl; auto.
Qed.

Lemma first_key_In keys g :
  g <> [] -> In (Registry.first_key keys g) (group_keys keys g).
Proof. destruct g; [congruence|]. intros _. now left. Qed.

Section Loop.

Variable w : World.
Variable keys : list string.

Lemma link_of_mark g c k :
  link_of (Registry.mark_onChain keys g c) k = link_of c k.
Proof.
  unfold link_of.
  destruct (mark_onChain_unfold keys g c) as (_ & _ & Hg). rewrite Hg.
  destruct (JS.mem k (group_keys keys g)); [|reflexivity].
  now destruct (JS.get (items c) k).
Qed.

Lemma onChain_of_mark g c k :
  onChain_of (Registry.mark_onChain keys g c) k
  = JS.mem k (group_keys keys g) || onChain_of c k.
Proof.
  unfold onChain_of.
  destruct (mark_onChain_unfold keys g c) as (_ & _ & Hg). rewrite Hg.
  destruct (JS.mem k (group_keys keys g)); [|reflexivity].
  now destruct (JS.get (items c) k).
Qed.

Lemma commit_group_step g st ok :
  g <> [] ->
  (forall k, In k (group_keys keys g) ->
             In k (JS.keys (items (cache st)))) ->
  exists evs,
    loop_summary keys [g] st ok
      (fst (Registry.commit_group w keys g (st, ok)))
      (snd (Registry.commit_group w keys g (st, ok))) evs.
Proof.
  intros Hne Hkeys.
  destruct (commit_group_cases w keys g st ok Hkeys)
    as [[Hall ->]|[Hall (lines & Hl & Hr)]].
  - exists []. unfold loop_summary, continues. simpl. rewrite Hall. simpl.
    rewrite app_nil_r, andb_true_r.
    repeat split; auto; try contradiction.
  - cbv zeta in Hr.
    destruct (addConfigLines w (trace st) (Registry.first_key keys g) lines)
      eqn:Hrpc; rewrite Hr; clear Hr.
    + exists [EvAddConfigLines (Registry.first_key keys g) lines true;
              EvSaveCache (Registry.mark_onChain keys g (cache st))].
      unfold loop_summary, continues. simpl. rewrite Hall. simpl.
      rewrite andb_true_r, <- app_assoc. simpl.
      split; [reflexivity|]. split; [repeat constructor|].
      split; [reflexivity|]. split; [reflexivity|].
      split; [now apply mark_onChain_keys|].
      split; [intros k; apply link_of_mark|].
      split.
      { intros k Hk. rewrite onChain_of_mark, Hk. apply orb_true_r. }
      split.
      { intros k Hk. rewrite app_nil_r in Hk.
        destruct (mark_onChain_unfold keys g (cache st)) as (_ & _ & Hg).
        rewrite Hg. destruct (JS.mem k (group_keys keys g)) eqn:Hm; auto.
        apply mem_In in Hm. contradiction. }
      split.
      { intros ind l r [H|[H|[]]]; inversion H; subst. exists g. auto. }
      intros g' l [<-|[]] [H|[H|[]]]; discriminate.
    + exists [EvAddConfigLines (Registry.first_key keys g) lines false;
              EvLogError (Registry.first_key keys g)].
      unfold loop_summary, continues. simpl. rewrite Hall. simpl.
      rewrite andb_false_r, <- app_assoc. simpl.
      split; [reflexivity|]. split; [repeat constructor|].
      repeat split; auto.
      * intros ind l r [H|[H|[]]]; inversion H; subst. exists g. auto.
      * destruct H as [<-|[]]. exact Hall.
Qed.

Lemma NoDup_app_disjoint {A} (l1 l2 : list A) a :
  NoDup (l1 ++ l2) -> In a l1 -> ~ In a l2.
Proof.
  induction l1 as [|x l1 IH]; simpl; [tauto|].
  intros H [->|Hin] Hin2.
  - inversion H; subst. apply H2. apply in_or_app. now right.
  - inversion H; subst. now apply IH.
Qed.

Lemma forallb_ext_in {A} (f g : A -> bool) l :
  (forall x, In x l -> f x = g x) -> forallb f l = forallb g l.
Proof.
  induction l as [|x l IH]; intros H; simpl; [reflexivity|].
  rewrite H by now left. rewrite IH; [reflexivity|].
  intros y Hy. apply H. now right.
Qed.

Lemma onChain_of_get c c' k :
  JS.get (items c') k = JS.get (items c) k ->
  onChain_of c' k = onChain_of c k.
Proof. unfold onChain_of. now intros ->. Qed.

Lemma loop_summary_cons g rest st ok st1 ok1 st' ok' evs0 evs1 :
  g <> [] ->
  Forall (fun g => g <> []) rest ->
  NoDup (List.concat (map (group_keys keys) (g :: rest))) ->
  loop_summary keys [g] st ok st1 ok1 evs0 ->
  loop_summary keys rest st1 ok1 st' ok' evs1 ->
  loop_summary keys (g :: rest) st ok st' ok' (evs0 ++ evs1).
Proof.
  intros Hne Hnes Hnd
         (Hc0 & Hr0 & Hw0 & Hok0 & Hk0 & Hl0 & Hm0 & Hf0 & He0 & Hx0)
         (Hc1 & Hr1 & Hw1 & Hok1 & Hk1 & Hl1 & Hm1 & Hf1 & He1 & Hx1).
  simpl in Hnd. simpl in Hf0. 
  assert (Hdis : forall k, In k (group_keys keys g) ->
                           ~ In k (List.concat (map (group_keys keys) rest)))
    by (intros k; now apply NoDup_app_disjoint).
  assert (Hsame : forall g', In g' rest ->
            forall k, In k (group_keys keys g') ->
                      JS.get (items (cache st1)) k = JS.get (items (cache st)) k).
  { intros g' Hg' k Hk. apply Hf0. rewrite app_nil_r. intros Hkg.
    apply (Hdis k Hkg). apply in_concat. exists (group_keys keys g').
    split; [now apply in_map|exact Hk]. }
  assert (Hfirst : forall g', In g' rest ->
            Registry.first_key keys g <> Registry.first_key keys g').
  { intros g' Hg' E.
    apply (Hdis (Registry.first_key keys g) (first_key_In keys g Hne)).
    apply in_concat. exists (group_keys keys g'). split; [now apply in_map|].
    rewrite E. apply first_key_In.
    rewrite Forall_forall in Hnes. now apply Hnes. }
  unfold loop_summary, continues.
  split. { rewrite Hc1, Hc0. now rewrite app_assoc. }
  split. { now apply Forall_app. }
  split.
  { rewrite write_keys_app, Hw0, Hw1. simpl.
    rewrite (filter_ext_in
               (fun g0 => negb (forallb (onChain_of (cache st1))
                                        (group_keys keys g0)))
               (fun g0 => negb (forallb (onChain_of (cache st))
                                        (group_keys keys g0))) rest).
    - destruct (forallb (onChain_of (cache st)) (group_keys keys g));
        reflexivity.
    - intros g' Hg'. f_equal. apply forallb_ext_in. intros k Hk.
      apply onChain_of_get. now apply (Hsame g'). }
  split.
  { rewrite Hok1, Hok0, existsb_app, negb_orb. now rewrite andb_assoc. }
  split. { now rewrite Hk1. }
  split. { intros k. now rewrite Hl1. }
  split. { auto. }
  split.
  { intros k Hk. simpl in Hk. rewrite Hf1, Hf0; auto.
    - rewrite app_nil_r. intros H. apply Hk. apply in_or_app. now left.
    - intros H. apply Hk. apply in_or_app. now right. }
  split.
  { intros ind lines r Hin. apply in_app_or in Hin. destruct Hin as [Hin|Hin].
    - destruct (He0 _ _ _ Hin) as (g' & [<-|[]] & ->). exists g. split; auto.
      now left.
    - destruct (He1 _ _ _ Hin) as (g' & Hg' & ->). exists g'. split; auto.
      now right. }
  intros g' lines [<-|Hg'] Hin; apply in_app_or in Hin;
    destruct Hin as [Hin|Hin].
  - destruct (Hx0 g lines (or_introl eq_refl) Hin) as [Hsame0 Hall0].
    assert (Hkeep : forall k, In k (group_keys keys g) ->
              JS.get (items (cache st')) k = JS.get (items (cache st)) k).
    { intros k Hk. rewrite Hf1 by now apply Hdis. now apply Hsame0. }
    split; [exact Hkeep|].
    rewrite <- Hall0. apply forallb_ext_in. intros k Hk.
    apply onChain_of_get. rewrite Hf1 by now apply Hdis. reflexivity.
  - destruct (He1 _ _ _ Hin) as (g' & Hg' & E). now elim (Hfirst g' Hg').
  - destruct (He0 _ _ _ Hin) as (g0 & [<-|[]] & E).
    symmetry in E. now elim (Hfirst g' Hg').
  - destruct (Hx1 g' lines Hg' Hin) as [Hsame1 Hall1].
    split; [|exact Hall1].
    intros k Hk. rewrite Hsame1 by exact Hk. now apply (Hsame g').
Qed.

(** The loop over groups that are non-empty and pairwise disjoint, with
    keys that the cache holds. *)
Lemma commit_groups_run gs :
  forall st ok,
    Forall (fun g => g <> []) gs ->
    NoDup (List.concat (map (group_keys keys) gs)) ->
    (forall k, In k (List.concat (map (group_keys keys) gs)) ->
               In k (JS.keys (items (cache st)))) ->
    exists evs,
      loop_summary keys gs st ok
        (fst (commit_groups w keys gs (st, ok)))
        (snd (commit_groups w keys gs (st, ok))) evs.
Proof.
  induction gs as [|g rest IH]; intros st ok Hne Hnd Hkeys.
  - exists []. unfold loop_summary, continues. simpl.
    rewrite app_nil_r, andb_true_r.
    repeat split; auto; try contradiction.
  - inversion Hne as [|? ? Hg Hrest]; subst.
    destruct (commit_group_step g st ok Hg) as [evs0 H0].
    { intros k Hk. apply Hkeys. simpl. apply in_or_app. now left. }
    unfold commit_groups in *. cbn [fold_left].
    destruct (Registry.commit_group w keys g (st, ok)) as [st1 ok1] eqn:E.
    simpl in H0.
    destruct (IH st1 ok1 Hrest) as [evs1 H1].
    { simpl in Hnd. now apply NoDup_app_remove_l in Hnd. }
    { intros k Hk. destruct H0 as (_ & _ & _ & _ & Hk0 & _). rewrite Hk0.
      apply Hkeys. simpl. apply in_or_app. now right. }
    exists (evs0 ++ evs1).
    exact (loop_summary_cons g rest st ok st1 ok1 _ _ evs0 evs1
             Hg Hrest Hnd H0 H1).
Qed.

End Loop.

Lemma map_key_at_seq keys :
  map (Registry.key_at keys) (seq 0 (List.length keys)) = keys.
Proof.
  unfold Registry.key_at.
  assert (H : forall pre l,
             map (fun i => nth i (pre ++ l) "undefined")
                 (seq (List.length pre) (List.length l)) = l).
  { intros pre l. revert pre. induction l as [|x l IH]; intros pre; simpl.
    - reflexivity.
    - rewrite app_nth2 by lia. rewrite Nat.sub_diag. simpl. f_equal.
      specialize (IH (pre ++ [x])).
      rewrite length_app, <- app_assoc in IH. simpl in IH.
      rewrite Nat.add_1_r in IH. exact IH. }
  exact (H [] keys).
Qed.

Lemma groups_of_keys keys :
  List.concat (map (group_keys keys) (groups_of (List.length keys))) = keys.
Proof.
  unfold group_keys. rewrite <- concat_map, groups_of_concat.
  apply map_key_at_seq.
Qed.

(** The whole committer, on a cache whose keys are distinct. *)
Lemma commit_all_run w st :
  let keys := JS.keys (items (cache st)) in
  NoDup keys ->
  exists st' evs,
    Registry.commit_all w st
    = (saveCache st', snd (Registry.commit_all w st)) /\
    loop_summary keys (groups_of (List.length keys)) st true
                 st' (snd (Registry.commit_all w st)) evs.
Proof.
  intros keys Hnd.
  destruct (commit_groups_run w keys (groups_of (List.length keys)) st true)
    as [evs Hs].
  - apply groups_of_nonempty.
  - now rewrite groups_of_keys.
  - intros k. now rewrite groups_of_keys.
  - rewrite commit_all_groups. cbv zeta. fold keys.
    destruct (commit_groups w keys (groups_of (List.length keys)) (st, true))
      as [st' ok]. simpl in *.
    exists st', evs. split; [reflexivity|exact Hs].
Qed.

Lemma write_keys_saveCache st :
  write_keys (trace (saveCache st)) = write_keys (trace st).
Proof.
  unfold saveCache. rewrite trace_emit, write_keys_app. simpl.
  apply app_nil_r.
Qed.

(** The starting keys of the write calls of a commit run: the first keys
    of the groups with a member not yet on chain, in the order of the
    groups. *)
Lemma commit_all_write_keys w st :
  NoDup (JS.keys (items (cache st))) ->
  write_keys (trace (fst (Registry.commit_all w st)))
  = write_keys (trace st)
    ++ map (Registry.first_key (JS.keys (items (cache st))))
         (filter (fun g =>
                    negb (forallb (onChain_of (cache st))
                            (group_keys (JS.keys (items (cache st))) g)))
                 (groups_of (List.length (JS.keys (items (cache st)))))).
Proof.
  intros Hnd. destruct (commit_all_run w st Hnd) as (st' & evs & E & Hs).
  rewrite E. simpl fst. rewrite write_keys_saveCache.
  destruct Hs as (Hc & _ & Hw & _). rewrite Hc, write_keys_app, Hw.
  reflexivity.
Qed.

Lemma commit_all_writes w st :
  NoDup (JS.keys (items (cache st))) ->
  writes (trace (fst (Registry.commit_all w st)))
  = writes (trace st)
    + List.length
        (filter (fun g =>
                   negb (forallb (onChain_of (cache st))
                           (group_keys (JS.keys (items (cache st))) g)))
                (groups_of (List.length (JS.keys (items (cache st)))))).
Proof.
  intros Hnd. rewrite !writes_write_keys, commit_all_write_keys by exact Hnd.
  now rewrite length_app, length_map.
Qed.

(** C3. The registry committer skips the write call of an inner group if
    and only if every member of the group is already on chain: a group
    adds no write call when all its members are on chain and exactly one
    otherwise; a commit run (the loop of [writeIndices] and of
    [commands/upload.ts]) issues one write call for each group with a
    member not yet on chain, in the order of the groups; for 25 items the
    groups are the indexes 0-9, 10-19 and 20-24, and when exactly the
    first 10 items are on chain the run issues exactly 2 write calls, one
    for the group that starts at index 10 and one for the group that
    starts at index 20. *)
Theorem registry_group_idempotence :
  (forall w keys g st ok,
      g <> [] ->
      (forall k, In k (group_keys keys g) ->
                 In k (JS.keys (items (cache st)))) ->
      writes (trace (fst (Registry.commit_group w keys g (st, ok))))
      = writes (trace st)
        + (if forallb (onChain_of (cache st)) (group_keys keys g)
           then 0 else 1)) /\
  (forall w st,
      NoDup (JS.keys (items (cache st))) ->
      write_keys (trace (fst (Registry.commit_all w st)))
      = write_keys (trace st)
        ++ map (Registry.first_key (JS.keys (items (cache st))))
             (filter (fun g =>
                        negb (forallb (onChain_of (cache st))
                                (group_keys (JS.keys (items (cache st))) g)))
                     (groups_of (List.length (JS.keys (items (cache st))))))) /\
  groups_of 25 = [seq 0 10; seq 10 10; seq 20 5] /\
  (forall w st,
      let keys := JS.keys (items (cache st)) in
      NoDup keys ->
      List.length keys = 25 ->
      (forall i, i < 10 ->
                 onChain_of (cache st) (Registry.key_at keys i) = true) ->
      (forall i, 10 <= i < 25 ->
                 onChain_of (cache st) (Registry.key_at keys i) = false) ->
      writes (trace (fst (Registry.commit_all w st)))
      = writes (trace st) + 2 /\
      write_keys (trace (fst (Registry.commit_all w st)))
      = write_keys (trace st)
        ++ [Registry.key_at keys 10; Registry.key_at keys 20]).
Proof.
  split.
  { intros w keys g st ok Hne Hk.
    destruct (commit_group_step w keys g st ok Hne Hk) as [evs Hs].
    destruct Hs as (Hc & _ & Hw & _).
    rewrite Hc, writes_app, (writes_write_keys evs), Hw. simpl.
    now destruct (forallb _ _). }
  split; [exact commit_all_write_keys|].
  split; [reflexivity|].
  intros w st keys Hnd Hlen Hon Hoff.
  rewrite !writes_write_keys, commit_all_write_keys by exact Hnd.
  fold keys. rewrite Hlen.
  change (groups_of 25) with [seq 0 10; seq 10 10; seq 20 5].
  cbn [filter forallb group_keys map seq].
  rewrite !Hon by lia. rewrite (Hoff 10), (Hoff 20) by lia.
  cbn [andb negb map Registry.first_key].
  split; [|reflexivity]. rewrite length_app. reflexivity.
Qed.

(** C10. When the registry write call for an inner group fails, the cache
    entries of the members of that group are left as they were: the
    iteration that made the call leaves the whole cache unchanged; and at
    the end of a commit run (the loop of [writeIndices] and of
    [commands/upload.ts]), every group for which a write call was rejected
    has the entries of all its members as they were before the run, is
    still not wholly on chain, and the keys of the cache are the same, so
    the next run forms the same group and writes it again. *)
Theorem failed_group_left_untouched :
  (forall w keys g st ok lines,
      forallb (onChain_of (cache st)) (group_keys keys g) = false ->
      Registry.config_lines (cache st) keys g = Some lines ->
      addConfigLines w (trace st) (Registry.first_key keys g) lines = false ->
      cache (fst (Registry.commit_group w keys g (st, ok))) = cache st /\
      snd (Registry.commit_group w keys g (st, ok)) = false) /\
  (forall w st evs g lines,
      let keys := JS.keys (items (cache st)) in
      let st' := fst (Registry.commit_all w st) in
      NoDup keys ->
      trace st' = trace st ++ evs ->
      In g (groups_of (List.length keys)) ->
      In (EvAddConfigLines (Registry.first_key keys g) lines false) evs ->
      (forall k, In k (group_keys keys g) ->
                 JS.get (items (cache st')) k = JS.get (items (cache st)) k) /\
      forallb (onChain_of (cache st')) (group_keys keys g) = false /\
      JS.keys (items (cache st')) = keys).
Proof.
  split.
  - intros w keys g st ok lines Hall Hl Hrpc.
    unfold Registry.commit_group.
    rewrite all_onChain_forallb, Hall, Hl. cbv zeta. rewrite Hrpc.
    split; reflexivity.
  - intros w st evs g lines keys st' Hnd Htr Hg Hev.
    destruct (commit_all_run w st Hnd) as (st1 & evs1 & E & Hs).
    fold keys in Hs.
    assert (Est : st' = saveCache st1).
    { unfold st'. now rewrite E. }
    destruct Hs as (Hc & _ & _ & _ & Hk & _ & _ & _ & _ & Hx).
    assert (Hevs : evs = evs1 ++ [EvSaveCache (cache st1)]).
    { rewrite Est in Htr. unfold saveCache in Htr.
      rewrite trace_emit, Hc, <- app_assoc in Htr.
      now apply app_inv_head in Htr. }
    rewrite Hevs in Hev. apply in_app_or in Hev.
    destruct Hev as [Hev|[Hev|[]]]; [|discriminate].
    destruct (Hx g lines Hg Hev) as [Hsame Hall].
    rewrite Est. simpl. auto.
Qed.

(* ================================================================== *)
(** * commands/upload.ts: one item *)
(* ================================================================== *)

Lemma upload_summary_refl st : upload_summary st st [].
Proof.
  unfold upload_summary, continues. rewrite app_nil_r.
  repeat split; auto. apply keeps_entries_refl.
Qed.

Lemma upload_summary_trans st1 st2 st3 evs1 evs2 :
  upload_summary st1 st2 evs1 ->
  upload_summary st2 st3 evs2 ->
  upload_summary st1 st3 (evs1 ++ evs2).
Proof.
  intros (Hc1 & Hw1 & Hl1 & Hk1 & Hn1 & Hi1 & Ha1)
         (Hc2 & Hw2 & Hl2 & Hk2 & Hn2 & Hi2 & Ha2).
  unfold upload_summary, continues in *.
  split. { rewrite Hc2, Hc1. now rewrite app_assoc. }
  split. { now apply Forall_app. }
  split. { auto. }
  split. { eapply keeps_entries_trans; eauto. }
  auto.
Qed.

(** A step that adds events and leaves the items of the cache alone. *)
Lemma upload_summary_same_items st st' evs :
  continues st st' evs ->
  Forall (fun ev => is_write ev = false) evs ->
  items (cache st') = items (cache st) ->
  upload_summary st st' evs.
Proof.
  intros Hc Hw Hi. unfold upload_summary.
  split; [exact Hc|]. split; [exact Hw|].
  unfold has_link, link_of, keeps_entries, cache_inv, all_linked,
    has_link, link_of.
  rewrite Hi. repeat split; auto.
Qed.

Section OneItem.

Variable w : World.
Variables (totalNFTs : N) (storage : string) (retain mutable : bool).

Lemma upload_one_item_steps image i c0 st :
  Upload.upload_one_item w totalNFTs storage retain mutable image i c0 st
  = if negb (JS.truthy (link_of c0 (Upload.image_index w image)))
       || negb (JS.truthy (uuid (program c0)))
    then
      match read_manifest w (JS.replace (EXTENSION_PNG w) ".json" image) with
      | None =>
          (st, Raised (FileError
                         (JS.replace (EXTENSION_PNG w) ".json" image)))
      | Some manifest =>
          match Upload.init_step w totalNFTs retain mutable manifest i c0 st
          with
          | (st1, Raised e) => (st1, Raised e)
          | (st1, Returned _) =>
              Upload.store_step w storage image manifest c0 st1
          end
      end
    else (st, Returned true).
Proof.
  unfold Upload.upload_one_item, Upload.init_step, Upload.store_step.
  destruct (negb _ || _); [|reflexivity].
  destruct (read_manifest w _) as [manifest|]; [|reflexivity].
  cbv zeta.
  destruct (Nat.eqb i 0 && _).
  - destruct (createConfig w _ _) as [[u cfg]|]; reflexivity.
  - reflexivity.
Qed.

Lemma init_step_summary manifest i c0 st :
  exists evs,
    upload_summary st
      (fst (Upload.init_step w totalNFTs retain mutable manifest i c0 st)) evs
    /\ existsb is_failure evs = false
    /\ uploads evs = 0
    /\ items (cache (fst (Upload.init_step w totalNFTs retain mutable
                            manifest i c0 st)))
       = items (cache st).
Proof.
  unfold Upload.init_step.
  destruct (Nat.eqb i 0 && _).
  - cbv zeta.
    set (d := BundleUpload.config_data totalNFTs mutable retain manifest).
    destruct (createConfig w (trace st) d) as [[u cfg]|] eqn:Hcc.
    + exists [EvCreateConfig d (Some (u, cfg))]. simpl.
      split; [|repeat split].
      apply upload_summary_same_items; [reflexivity| |reflexivity].
      repeat constructor.
    + exists [EvCreateConfig d None;
              EvLogError "Error deploying config to Solana network."].
      simpl. split; [|repeat split].
      apply upload_summary_same_items; [|repeat constructor|reflexivity].
      unfold continues. simpl. now rewrite <- app_assoc.
  - exists []. simpl. split; [apply upload_summary_refl|repeat split].
Qed.

Lemma init_step_returns manifest i c0 st :
  (forall tr d, createConfig w tr d <> None) ->
  exists u,
    snd (Upload.init_step w totalNFTs retain mutable manifest i c0 st)
    = Returned u.
Proof.
  intros Hcc. unfold Upload.init_step.
  destruct (Nat.eqb i 0 && _); [|simpl; eauto].
  cbv zeta. destruct (createConfig w _ _) as [[u cfg]|] eqn:E.
  - simpl. eauto.
  - now elim (Hcc _ _ E).
Qed.

End OneItem.

Section StoreStep.

Variable w : World.
Variable storage : string.

Lemma has_link_set_authority a c k :
  has_link (Upload.set_authority a c) k = has_link c k.
Proof. reflexivity. Qed.

Lemma recorded_entry_summary st idx l nm a :
  JS.truthy l = true ->
  let e := {| link := l; name := nm; onChain := false |} in
  upload_summary st
    (with_cache (Upload.set_authority a (set_item idx e (cache st))) st) [].
Proof.
  intros Hl e. unfold upload_summary, continues. simpl.
  rewrite app_nil_r.
  split; [reflexivity|]. split; [constructor|].
  split.
  { intros k Hk. rewrite has_link_set_authority, has_link_set_item.
    destruct (k =? idx); [exact Hl|exact Hk]. }
  split. { apply (keeps_entries_set_item (cache st) idx e). }
  split. { intros Hnd. now apply NoDup_keys_set. }
  split.
  { intros Hinv. apply (cache_inv_set_item (cache st) idx e Hinv).
    discriminate. }
  intros Hall. now apply (all_linked_set_item (cache st) idx e).
Qed.

Lemma emit_summary ev st :
  is_write ev = false -> upload_summary st (emit ev st) [ev].
Proof.
  intros H. apply upload_summary_same_items; [reflexivity| |reflexivity].
  now constructor.
Qed.

Lemma store_step_summary image manifest c0 st1 :
  exists evs b,
    upload_summary st1
      (fst (Upload.store_step w storage image manifest c0 st1)) evs /\
    snd (Upload.store_step w storage image manifest c0 st1) = Returned b /\
    b = negb (existsb is_failure evs) /\
    (has_link c0 (Upload.image_index w image) = true ->
     uploads evs = 0 /\
     items (cache (fst (Upload.store_step w storage image manifest c0 st1)))
     = items (cache st1)).
Proof.
  unfold Upload.store_step, has_link. cbv zeta.
  destruct (JS.truthy (link_of c0 (Upload.image_index w image))) eqn:Hl0;
    simpl negb; cbv iota.
  { exists [], true. simpl. split; [apply upload_summary_refl|auto]. }
  destruct (Upload.backend_of storage) as [b|].
  2:{ exists [], true. simpl.
      split; [apply upload_summary_refl|]. repeat split; discriminate. }
  destruct (upload_item w (trace st1) b image manifest) as [|l] eqn:Hup.
  - exists [EvUpload b image Throws;
            EvLogError (Upload.image_index w image)], false.
    cbn [fst snd].
    split; [|repeat split; discriminate].
    eapply (upload_summary_trans _ _ _ [_] [_]); now apply emit_summary.
  - destruct (JS.truthy l) eqn:Hl.
    + exists [EvUpload b image (Returns l)], true. cbn [fst snd].
      split; [|repeat split; discriminate].
      eapply (upload_summary_trans _ _ _ [_] []).
      * now apply emit_summary.
      * now apply recorded_entry_summary.
    + exists [EvUpload b image (Returns l)], true. cbn [fst snd].
      split; [|repeat split; discriminate].
      now apply emit_summary.
Qed.




End StoreStep.

Section OneItemFacts.

Variable w : World.
Variables (totalNFTs : N) (storage : string) (retain mutable : bool).

Local Abbreviation one_item := (Upload.upload_one_item w totalNFTs storage retain mutable).

Lemma one_item_summary image i c0 st :
  exists evs,
    upload_summary st (fst (one_item image i c0 st)) evs /\
    (forall b, snd (one_item image i c0 st) = Returned b ->
               b = negb (existsb is_failure evs)) /\
    (has_link c0 (Upload.image_index w image) = true ->
     uploads evs = 0 /\
     items (cache (fst (one_item image i c0 st))) = items (cache st)).
Proof.
  rewrite upload_one_item_steps.
  destruct (negb _ || _).
  2:{ exists []. simpl. split; [apply upload_summary_refl|].
      split; [now intros b [= <-]|auto]. }
  destruct (read_manifest w _) as [manifest|].
  2:{ exists []. simpl. split; [apply upload_summary_refl|].
      split; [discriminate|auto]. }
  destruct (init_step_summary w totalNFTs retain mutable manifest i c0 st)
    as (evs0 & Hs0 & Hf0 & Hu0 & Hi0).
  destruct (Upload.init_step w totalNFTs retain mutable manifest i c0 st)
    as [st1 [u|e]]; cbn [fst snd] in *.
  - destruct (store_step_summary w storage image manifest c0 st1)
      as (evs1 & b & Hs1 & Hr1 & Hb1 & Hl1).
    exists (evs0 ++ evs1).
    split; [eapply upload_summary_trans; eauto|].
    split.
    + intros b' Hb'. rewrite Hr1 in Hb'. inversion Hb'; subst b'.
      now rewrite existsb_app, Hf0.
    + intros Hl. destruct (Hl1 Hl) as [Hu1 Hi1].
      rewrite uploads_app, Hu0, Hu1, Hi1, Hi0. auto.
  - exists evs0. split; [exact Hs0|]. split; [discriminate|auto].
Qed.

Lemma one_item_returns image i c0 st :
  readable w image ->
  (forall tr d, createConfig w tr d <> None) ->
  exists b, snd (one_item image i c0 st) = Returned b.
Proof.
  intros Hread Hcc. rewrite upload_one_item_steps.
  destruct (negb _ || _); [|simpl; eauto].
  unfold readable in Hread.
  destruct (read_manifest w _) as [manifest|]; [|congruence].
  destruct (init_step_returns w totalNFTs retain mutable manifest i c0 st Hcc)
    as [u Hu].
  destruct (Upload.init_step w totalNFTs retain mutable manifest i c0 st)
    as [st1 r]. simpl in Hu. subst r.
  destruct (store_step_summary w storage image manifest c0 st1)
    as (evs1 & b & _ & Hr1 & _). eauto.
Qed.




End OneItemFacts.

(* ================================================================== *)
(** * commands/upload.ts: a window of items *)
(* ================================================================== *)

Section Window.

Variable w : World.
Variables (totalNFTs : N) (storage : string) (retain mutable : bool).

Local Abbreviation one_item :=
  (Upload.upload_one_item w totalNFTs storage retain mutable).
Local Abbreviation window_run :=
  (Upload.upload_window w totalNFTs storage retain mutable).

Lemma window_fst image rest i0 c0 st :
  fst (window_run (image :: rest) i0 c0 st)
  = fst (window_run rest (S i0) c0 (fst (one_item image i0 c0 st))).
Proof.
  cbn [Upload.upload_window].
  destruct (one_item image i0 c0 st) as [st1 r]. cbn [fst snd].
  destruct (window_run rest (S i0) c0 st1) as [st2 rs]. reflexivity.
Qed.

Lemma window_snd image rest i0 c0 st :
  snd (window_run (image :: rest) i0 c0 st)
  = match snd (one_item image i0 c0 st),
          snd (window_run rest (S i0) c0 (fst (one_item image i0 c0 st)))
    with
    | Raised e, _ => Raised e
    | Returned _, Raised e => Raised e
    | Returned x, Returned xs => Returned (x :: xs)
    end.
Proof.
  cbn [Upload.upload_window].
  destruct (one_item image i0 c0 st) as [st1 r]. cbn [fst snd].
  destruct (window_run rest (S i0) c0 st1) as [st2 rs]. reflexivity.
Qed.

Lemma window_snd_returned image rest i0 c0 st results :
  snd (window_run (image :: rest) i0 c0 st) = Returned results ->
  exists x xs,
    results = x :: xs /\
    snd (one_item image i0 c0 st) = Returned x /\
    snd (window_run rest (S i0) c0 (fst (one_item image i0 c0 st)))
    = Returned xs.
Proof.
  rewrite window_snd.
  destruct (snd (one_item image i0 c0 st)) as [x|e]; [|discriminate].
  destruct (snd (window_run rest _ c0 _)) as [xs|e]; [|discriminate].
  intros [= <-]. eauto.
Qed.

Lemma window_summary window :
  forall i0 c0 st,
  exists evs,
    upload_summary st (fst (window_run window i0 c0 st)) evs /\
    (forall results,
        snd (window_run window i0 c0 st) = Returned results ->
        forallb (fun x => x) results = negb (existsb is_failure evs)) /\
    ((forall g, In g window -> has_link c0 (Upload.image_index w g) = true) ->
     uploads evs = 0 /\
     items (cache (fst (window_run window i0 c0 st))) = items (cache st)).
Proof.
  induction window as [|image rest IH]; intros i0 c0 st.
  - exists []. simpl. split; [apply upload_summary_refl|].
    split; [now intros results [= <-]|auto].
  - destruct (one_item_summary w totalNFTs storage retain mutable
                image i0 c0 st) as (evs0 & Hs0 & Hb0 & Hl0).
    destruct (IH (S i0) c0 (fst (one_item image i0 c0 st)))
      as (evs1 & Hs1 & Hb1 & Hl1).
    exists (evs0 ++ evs1). rewrite window_fst.
    split; [eapply upload_summary_trans; eauto|].
    split.
    + intros results Hr.
      apply window_snd_returned in Hr.
      destruct Hr as (x & xs & -> & Hx & Hxs).
      simpl. rewrite (Hb0 x Hx), (Hb1 xs Hxs), existsb_app.
      now rewrite negb_orb.
    + intros Hall.
      destruct (Hl0 (Hall image (or_introl eq_refl))) as [Hu0 Hi0].
      destruct Hl1 as [Hu1 Hi1].
      { intros g Hg. apply Hall. now right. }
      rewrite uploads_app, Hu0, Hu1, Hi1, Hi0. auto.
Qed.

Lemma window_returns window :
  forall i0 c0 st,
    Forall (readable w) window ->
    (forall tr d, createConfig w tr d <> None) ->
    exists results, snd (window_run window i0 c0 st) = Returned results.
Proof.
  induction window as [|image rest IH]; intros i0 c0 st Hread Hcc.
  - simpl. eauto.
  - inversion Hread; subst. rewrite window_snd.
    destruct (one_item_returns w totalNFTs storage retain mutable
                image i0 c0 st) as [x ->]; auto.
    destruct (IH (S i0) c0 (fst (one_item image i0 c0 st))) as [xs ->]; auto.
    eauto.
Qed.




End Window.

(* ================================================================== *)
(** * commands/upload.ts: the loop over the windows *)
(* ================================================================== *)

Lemma In_slice {A} (l : list A) a b x : In x (JS.slice l a b) -> In x l.
Proof.
  unfold JS.slice. intros H.
  rewrite <- (firstn_skipn a l). apply in_or_app. right.
  rewrite <- (firstn_skipn (b - a) (skipn a l)). apply in_or_app. now left.
Qed.

Section Windows.

Variable w : World.
Variables (totalNFTs : N) (storage : string) (retain mutable : bool).
Variables (images : list string) (size : nat).

Local Abbreviation window_run :=
  (Upload.upload_window w totalNFTs storage retain mutable).
Local Abbreviation windows_run :=
  (Upload.upload_windows w totalNFTs storage retain mutable images size).

Lemma windows_cons s rest st flag :
  windows_run (s :: rest) st flag
  = match snd (window_run (Upload.window_at images size s) s (cache st) st)
    with
    | Raised e =>
        (fst (window_run (Upload.window_at images size s) s (cache st) st),
         Raised e)
    | Returned results =>
        windows_run rest
          (saveCache
             (fst (window_run (Upload.window_at images size s) s
                              (cache st) st)))
          (forallb (fun x => x) results && flag)
    end.
Proof.
  cbn [Upload.upload_windows].
  destruct (window_run _ s (cache st) st) as [st1 [results|e]]; reflexivity.
Qed.

Lemma In_window_at s g : In g (Upload.window_at images size s) -> In g images.
Proof. apply In_slice. Qed.

Lemma windows_summary starts :
  forall st flag,
  exists evs,
    upload_summary st (fst (windows_run starts st flag)) evs /\
    (forall fl,
        snd (windows_run starts st flag) = Returned fl ->
        fl = flag && negb (existsb is_failure evs)) /\
    ((forall g, In g images ->
                has_link (cache st) (Upload.image_index w g) = true) ->
     uploads evs = 0 /\
     items (cache (fst (windows_run starts st flag))) = items (cache st)).
Proof.
  induction starts as [|s rest IH]; intros st flag.
  - exists []. simpl. split; [apply upload_summary_refl|].
    split; [|auto]. intros fl [= <-]. now rewrite andb_true_r.
  - rewrite windows_cons.
    destruct (window_summary w totalNFTs storage retain mutable
                (Upload.window_at images size s) s (cache st) st)
      as (evs0 & Hs0 & Hb0 & Hl0).
    destruct (snd (window_run _ s (cache st) st)) as [results|e].
    + set (st1 := fst (window_run _ s (cache st) st)) in *.
      destruct (IH (saveCache st1) (forallb (fun x => x) results && flag))
        as (evs1 & Hs1 & Hb1 & Hl1).
      exists (evs0 ++ [EvSaveCache (cache st1)] ++ evs1).
      split.
      { eapply upload_summary_trans; [exact Hs0|].
        eapply upload_summary_trans; [|exact Hs1].
        now apply emit_summary. }
      split.
      { intros fl Hfl. rewrite (Hb1 fl Hfl), (Hb0 results eq_refl).
        rewrite !existsb_app, !negb_orb. simpl.
        destruct (existsb is_failure evs0), (existsb is_failure evs1), flag;
          reflexivity. }
      intros Hall.
      destruct Hl0 as [Hu0 Hi0].
      { intros g Hg. apply Hall. now apply (In_window_at s). }
      destruct Hl1 as [Hu1 Hi1].
      { intros g Hg. unfold has_link, link_of. simpl. rewrite Hi0.
        now apply Hall. }
      rewrite !uploads_app, Hu0, Hu1, Hi1. simpl. now rewrite Hi0.
    + exists evs0. cbn [fst snd]. split; [exact Hs0|].
      split; [discriminate|]. intros Hall. apply Hl0.
      intros g Hg. apply Hall. now apply (In_window_at s).
Qed.

Lemma windows_returns starts :
  forall st flag,
    Forall (readable w) images ->
    (forall tr d, createConfig w tr d <> None) ->
    exists fl, snd (windows_run starts st flag) = Returned fl.
Proof.
  induction starts as [|s rest IH]; intros st flag Hread Hcc.
  - simpl. eauto.
  - rewrite windows_cons.
    destruct (window_returns w totalNFTs storage retain mutable
                (Upload.window_at images size s) s (cache st) st)
      as [results ->]; auto.
    rewrite Forall_forall in *. intros g Hg. apply Hread.
    now apply (In_window_at s).
Qed.




End Windows.

(* ================================================================== *)
(** * commands/upload.ts: the whole command *)
(* ================================================================== *)

Lemma writes_none evs :
  Forall (fun ev => is_write ev = false) evs -> writes evs = 0.
Proof.
  unfold writes. induction 1 as [|ev evs Hev _ IH]; simpl; [reflexivity|].
  now rewrite Hev.
Qed.

Lemma uploads_registry evs :
  Forall (fun ev => is_registry ev = true) evs -> uploads evs = 0.
Proof.
  unfold uploads. induction 1 as [|ev evs Hev _ IH]; simpl; [reflexivity|].
  destruct ev; try discriminate; exact IH.
Qed.


Lemma group_keys_In keys g k :
  In g (groups_of (List.length keys)) -> In k (group_keys keys g) -> In k keys.
Proof.
  intros Hg Hk. rewrite <- (groups_of_keys keys). apply in_concat.
  exists (group_keys keys g). split; [now apply in_map|exact Hk].
Qed.

Section Command.

Variable w : World.
Variables (saved : option Cache) (files : list string) (storage : string).
Variables (totalNFTs : N) (retain mutable : bool).

Local Abbreviation c0 :=
  (match saved with Some c => c | None => empty_cache end).
Local Abbreviation st0 := {| cache := c0; trace := [] |}.
Local Abbreviation images := (Upload.images_of w c0 files).
Local Abbreviation phase1 :=
  (Upload.upload_windows w totalNFTs storage retain mutable images
     (Upload.window_size storage)
     (Upload.window_starts storage (List.length images)) st0 true).

Lemma upload_phases :
  Upload.upload w saved files storage totalNFTs retain mutable
  = match snd phase1 with
    | Raised e => (fst phase1, Raised e)
    | Returned fl =>
        (fst (Registry.commit_all w (fst phase1)),
         Returned (fl && snd (Registry.commit_all w (fst phase1))))
    end.
Proof.
  unfold Upload.upload. cbn [cache].
  destruct phase1 as [st1 [fl|e]]; cbn [fst snd]; [|reflexivity].
  destruct (Registry.commit_all w st1); reflexivity.
Qed.

(** The flag of a run that returns: no upload threw and no registry write
    was rejected. *)
Lemma upload_flag st fl :
  NoDup (JS.keys (items c0)) ->
  Upload.upload w saved files storage totalNFTs retain mutable
  = (st, Returned fl) ->
  fl = negb (existsb is_failure (trace st)).
Proof.
  intros Hnd. rewrite upload_phases.
  destruct (windows_summary w totalNFTs storage retain mutable images
              (Upload.window_size storage)
              (Upload.window_starts storage (List.length images)) st0 true)
    as (evs1 & (Hc1 & _ & _ & _ & Hn1 & _) & Hfl1 & _).
  destruct (snd phase1) as [fl1|e]; [|discriminate].
  intros [= <- <-].
  destruct (commit_all_run w (fst phase1) (Hn1 Hnd))
    as (st' & evs2 & E & Hs).
  destruct Hs as (Hc2 & _ & _ & Hok & _).
  rewrite E. cbn [fst]. unfold saveCache. rewrite trace_emit, Hc2, Hc1.
  rewrite (Hfl1 fl1 eq_refl), Hok. simpl.
  rewrite !existsb_app, !negb_orb. simpl.
  destruct (existsb is_failure evs1), (existsb is_failure evs2); reflexivity.
Qed.

Lemma upload_returns :
  Forall (readable w) images ->
  (forall tr d, createConfig w tr d <> None) ->
  exists st fl,
    Upload.upload w saved files storage totalNFTs retain mutable
    = (st, Returned fl).
Proof.
  intros Hread Hcc. rewrite upload_phases.
  destruct (windows_returns w totalNFTs storage retain mutable images
              (Upload.window_size storage)
              (Upload.window_starts storage (List.length images)) st0 true
              Hread Hcc) as [fl Hfl].
  rewrite Hfl. eauto.
Qed.

End Command.

(* ================================================================== *)
(** * The bundle path *)
(* ================================================================== *)

Section Bundles.

Variable w : World.

Lemma upload_batch_summary batch st :
  exists evs,
    continues st (fst (ArweaveBundle.upload_batch w batch st)) evs /\
    cache (fst (ArweaveBundle.upload_batch w batch st)) = cache st /\
    Forall (fun ev => is_bundle ev = true) evs /\
    (forall x, snd (ArweaveBundle.upload_batch w batch st) = Returned x ->
               existsb bundle_failed evs = false /\ batch_done w batch evs).
Proof.
  unfold ArweaveBundle.upload_batch, ArweaveBundle.uploadBatchBundle.
  destruct (post_bundle w (trace st) (Images batch)) as [ids|] eqn:H1.
  2:{ exists [EvBundle (Images batch) None]. cbn [fst snd].
      repeat split; try reflexivity; try discriminate.
      repeat constructor. }
  destruct (ArweaveBundle.getUpdatedManifests w batch
              (map ArweaveBundle.arweave_link ids)) as [ms|e] eqn:H2.
  2:{ exists [EvBundle (Images batch) (Some ids)]. cbn [fst snd].
      repeat split; try reflexivity; try discriminate.
      repeat constructor. }
  destruct (post_bundle w (trace (emit (EvBundle (Images batch) (Some ids)) st))
              (Manifests ms)) as [ids'|] eqn:H3.
  - exists [EvBundle (Images batch) (Some ids);
            EvBundle (Manifests ms) (Some ids')].
    cbn [fst snd]. unfold continues. simpl.
    split; [now rewrite <- app_assoc|]. split; [reflexivity|].
    split; [repeat constructor|]. intros x _. split; [reflexivity|].
    exists ids, ms, ids'. simpl. auto.
  - exists [EvBundle (Images batch) (Some ids); EvBundle (Manifests ms) None].
    cbn [fst snd]. unfold continues. simpl.
    split; [now rewrite <- app_assoc|]. split; [reflexivity|].
    split; [repeat constructor|]. discriminate.
Qed.

Lemma batch_done_app batch evs1 evs2 :
  batch_done w batch evs1 \/ batch_done w batch evs2 ->
  batch_done w batch (evs1 ++ evs2).
Proof.
  intros [(ids & ms & ids' & H1 & H2 & H3)|(ids & ms & ids' & H1 & H2 & H3)];
    exists ids, ms, ids'; repeat split; auto; apply in_or_app; auto.
Qed.

Lemma upload_batches_fst batch rest st :
  fst (ArweaveBundle.upload_batches w (batch :: rest) st)
  = fst (ArweaveBundle.upload_batches w rest
           (fst (ArweaveBundle.upload_batch w batch st))).
Proof.
  cbn [ArweaveBundle.upload_batches].
  destruct (ArweaveBundle.upload_batch w batch st) as [st1 r]. cbn [fst].
  destruct (ArweaveBundle.upload_batches w rest st1). reflexivity.
Qed.

Lemma upload_batches_snd batch rest st :
  snd (ArweaveBundle.upload_batches w (batch :: rest) st)
  = match snd (ArweaveBundle.upload_batch w batch st),
          snd (ArweaveBundle.upload_batches w rest
                 (fst (ArweaveBundle.upload_batch w batch st)))
    with
    | Raised e, _ => Raised e
    | Returned _, Raised e => Raised e
    | Returned x, Returned xs => Returned (x :: xs)
    end.
Proof.
  cbn [ArweaveBundle.upload_batches].
  destruct (ArweaveBundle.upload_batch w batch st) as [st1 r]. cbn [fst snd].
  destruct (ArweaveBundle.upload_batches w rest st1). reflexivity.
Qed.

Lemma upload_batches_summary batches :
  forall st,
  exists evs,
    continues st (fst (ArweaveBundle.upload_batches w batches st)) evs /\
    cache (fst (ArweaveBundle.upload_batches w batches st)) = cache st /\
    Forall (fun ev => is_bundle ev = true) evs /\
    (forall xs,
        snd (ArweaveBundle.upload_batches w batches st) = Returned xs ->
        existsb bundle_failed evs = false /\
        forall b, In b batches -> batch_done w b evs).
Proof.
  induction batches as [|batch rest IH]; intros st.
  - exists []. unfold continues. simpl. rewrite app_nil_r.
    repeat split; auto. contradiction.
  - destruct (upload_batch_summary batch st) as (evs0 & Hc0 & Hk0 & Hb0 & Hr0).
    destruct (IH (fst (ArweaveBundle.upload_batch w batch st)))
      as (evs1 & Hc1 & Hk1 & Hb1 & Hr1).
    exists (evs0 ++ evs1).
    rewrite upload_batches_fst, upload_batches_snd.
    unfold continues in *.
    split; [rewrite Hc1, Hc0; now rewrite app_assoc|].
    split; [now rewrite Hk1|].
    split; [now apply Forall_app|].
    intros xs.
    destruct (snd (ArweaveBundle.upload_batch w batch st)) as [x|e];
      [|discriminate].
    destruct (snd (ArweaveBundle.upload_batches w rest _)) as [xs'|e];
      [|discriminate].
    intros _. destruct (Hr0 x eq_refl) as [Hf0 Hd0].
    destruct (Hr1 xs' eq_refl) as [Hf1 Hd1].
    split; [now rewrite existsb_app, Hf0, Hf1|].
    intros b [<-|Hb]; apply batch_done_app; auto.
Qed.

End Bundles.

Section CommitPhase.

Variable w : World.

Lemma commit_group_registry keys g acc :
  exists evs,
    continues (fst acc) (fst (Registry.commit_group w keys g acc)) evs /\
    Forall (fun ev => is_registry ev = true) evs.
Proof.
  destruct acc as [st ok]. unfold Registry.commit_group, continues.
  destruct (Registry.all_onChain (cache st) keys g).
  { exists []. simpl. now rewrite app_nil_r. }
  destruct (Registry.config_lines (cache st) keys g) as [lines|].
  2:{ exists [EvLogError (Registry.first_key keys g)]. simpl.
      split; [reflexivity|repeat constructor]. }
  cbv zeta.
  destruct (addConfigLines w (trace st) (Registry.first_key keys g) lines);
    eexists [_; _]; simpl; rewrite <- app_assoc;
    (split; [reflexivity|repeat constructor]).
Qed.

Lemma fold_registry {A} (f : State * bool -> A -> State * bool) :
  (forall acc x, exists evs,
      continues (fst acc) (fst (f acc x)) evs /\
      Forall (fun ev => is_registry ev = true) evs) ->
  forall l acc, exists evs,
      continues (fst acc) (fst (fold_left f l acc)) evs /\
      Forall (fun ev => is_registry ev = true) evs.
Proof.
  intros Hf. induction l as [|x l IH]; intros acc; simpl.
  - exists []. unfold continues. now rewrite app_nil_r.
  - destruct (Hf acc x) as (evs0 & Hc0 & Hr0).
    destruct (IH (f acc x)) as (evs1 & Hc1 & Hr1).
    exists (evs0 ++ evs1). unfold continues in *.
    split; [rewrite Hc1, Hc0; now rewrite app_assoc|now apply Forall_app].
Qed.

Lemma commit_all_registry st :
  exists evs,
    continues st (fst (Registry.commit_all w st)) evs /\
    Forall (fun ev => is_registry ev = true) evs.
Proof.
  rewrite commit_all_groups. cbv zeta.
  destruct (fold_registry
              (fun acc g =>
                 Registry.commit_group w (JS.keys (items (cache st))) g acc)
              (fun acc g =>
                 commit_group_registry (JS.keys (items (cache st))) g acc)
              (groups_of (List.length (JS.keys (items (cache st)))))
              (st, true)) as (evs & Hc & Hr).
  unfold commit_groups.
  destruct (fold_left _ _ (st, true)) as [st' ok]. cbn [fst] in *.
  exists (evs ++ [EvSaveCache (cache st')]). unfold continues in *.
  split.
  - unfold saveCache. rewrite trace_emit, Hc. now rewrite app_assoc.
  - apply Forall_app. split; [exact Hr|repeat constructor].
Qed.

Lemma commit_group_link_of keys g acc k :
  link_of (cache (fst (Registry.commit_group w keys g acc))) k
  = link_of (cache (fst acc)) k.
Proof.
  destruct acc as [st ok]. unfold Registry.commit_group.
  destruct (Registry.all_onChain (cache st) keys g); [reflexivity|].
  destruct (Registry.config_lines (cache st) keys g) as [lines|];
    [|reflexivity].
  cbv zeta.
  destruct (addConfigLines w (trace st) (Registry.first_key keys g) lines);
    [|reflexivity].
  cbn [fst saveCache emit with_cache cache]. apply link_of_mark.
Qed.

(** The registry phase keeps every link. *)
Lemma commit_all_link_of st k :
  link_of (cache (fst (Registry.commit_all w st))) k = link_of (cache st) k.
Proof.
  rewrite commit_all_groups. cbv zeta. unfold commit_groups.
  assert (H : forall gs acc,
             link_of (cache (fst (fold_left
                        (fun acc g =>
                           Registry.commit_group w
                             (JS.keys (items (cache st))) g acc) gs acc))) k
             = link_of (cache (fst acc)) k).
  { induction gs as [|g gs IH]; intros acc; simpl; [reflexivity|].
    now rewrite IH, commit_group_link_of. }
  specialize (H (groups_of (List.length (JS.keys (items (cache st)))))
                (st, true)).
  destruct (fold_left _ _ (st, true)) as [st' ok]. exact H.
Qed.

Lemma registry_not_upload ev : is_registry ev = true -> is_upload ev = false.
Proof. destruct ev; simpl; congruence. Qed.

Lemma initConfig_summary d st :
  exists evs,
    continues st (fst (BundleUpload.initConfig w d st)) evs /\
    Forall (fun ev => is_upload ev = false) evs /\
    Forall (fun ev => is_write ev = false) evs /\
    items (cache (fst (BundleUpload.initConfig w d st))) = items (cache st).
Proof.
  unfold BundleUpload.initConfig. cbv zeta.
  destruct (createConfig w (trace st) d) as [[u cfg]|];
    eexists [_; _]; unfold continues; simpl; rewrite <- app_assoc;
    (split; [reflexivity|]); repeat split; repeat constructor.
Qed.

Variables (totalNFTs : N) (retain mutable : bool).

Lemma commit_phase_summary st1 :
  exists evs,
    continues st1
      (fst (BundleUpload.commit_phase w totalNFTs retain mutable st1)) evs /\
    Forall (fun ev => is_upload ev = false) evs.
Proof.
  unfold BundleUpload.commit_phase.
  destruct (BundleUpload.getItemManifest w "0") as [manifest0|e].
  2:{ exists []. unfold continues. simpl. now rewrite app_nil_r. }
  assert (Hw : forall st2, exists evs,
               continues st2 (BundleUpload.writeIndices w st2) evs /\
               Forall (fun ev => is_upload ev = false) evs).
  { intros st2. destruct (commit_all_registry st2) as (evs & Hc & Hr).
    exists evs. split; [exact Hc|].
    eapply Forall_impl; [|exact Hr]. apply registry_not_upload. }
  destruct (JS.truthy (config (program (cache st1)))).
  - destruct (Hw st1) as (evs & Hc & Hu). exists evs. auto.
  - destruct (initConfig_summary
                (BundleUpload.config_data totalNFTs mutable retain manifest0)
                st1) as (evs0 & Hc0 & Hu0 & _).
    destruct (BundleUpload.initConfig w _ st1) as [st2 [cfg|e]];
      cbn [fst snd] in *.
    + destruct (Hw st2) as (evs1 & Hc1 & Hu1).
      exists (evs0 ++ evs1). unfold continues in *.
      split; [rewrite Hc1, Hc0; now rewrite app_assoc|now apply Forall_app].
    + exists evs0. auto.
Qed.

Lemma commit_phase_link_of st1 k :
  link_of (cache (fst (BundleUpload.commit_phase w totalNFTs retain mutable
                         st1))) k
  = link_of (cache st1) k.
Proof.
  unfold BundleUpload.commit_phase.
  destruct (BundleUpload.getItemManifest w "0") as [manifest0|e];
    [|reflexivity].
  destruct (JS.truthy (config (program (cache st1)))).
  - apply commit_all_link_of.
  - destruct (initConfig_summary
                (BundleUpload.config_data totalNFTs mutable retain manifest0)
                st1) as (evs0 & _ & _ & _ & Hi).
    destruct (BundleUpload.initConfig w _ st1) as [st2 [cfg|e]];
      cbn [fst snd] in *.
    + unfold BundleUpload.writeIndices. rewrite commit_all_link_of.
      unfold link_of. now rewrite Hi.
    + unfold link_of. now rewrite Hi.
Qed.

End CommitPhase.

Lemma bundle_upload_phases w saved files storage totalNFTs retain mutable :
  BundleUpload.upload w saved files storage totalNFTs retain mutable
  = let st0 :=
      {| cache := match saved with Some c => c | None => empty_cache end;
         trace := [] |} in
    match files with
    | [] => Some (st0, Raised InvalidArgType)
    | _ :: _ =>
        match BundleUpload.upload_pending w storage
                (BundleUpload.getItemsNeedingUpload w (items (cache st0)) files)
                st0 with
        | None => None
        | Some (st1, Raised e) => Some (st1, Raised e)
        | Some (st1, Returned _) =>
            Some (BundleUpload.commit_phase w totalNFTs retain mutable st1)
        end
    end.
Proof.
  unfold BundleUpload.upload, BundleUpload.commit_phase. cbv zeta.
  destruct files; [reflexivity|].
  destruct (BundleUpload.upload_pending _ _ _ _) as [[st1 [u|e]]|];
    try reflexivity.
  destruct (BundleUpload.getItemManifest w "0"); [|reflexivity].
  destruct (JS.truthy _); [reflexivity|].
  destruct (BundleUpload.initConfig _ _ _) as [st2 [cfg|e]]; reflexivity.
Qed.

(* ================================================================== *)
(** * The bundle-capable command *)
(* ================================================================== *)

Lemma batches_loop_concat w fuel :
  forall items acc bs,
    ArweaveBundle.batches_loop w fuel items acc = Some (Returned bs) ->
    exists new, bs = acc ++ new /\ List.concat new = items.
Proof.
  induction fuel as [|fuel IH]; intros items acc bs H.
  - destruct items; [|discriminate]. inversion H; subst.
    exists []. now rewrite app_nil_r.
  - destruct items as [|x rest].
    + inversion H; subst. exists []. now rewrite app_nil_r.
    + cbn [ArweaveBundle.batches_loop] in H.
      destruct (ArweaveBundle.getBatchRange w (x :: rest)) as [range|e];
        [|discriminate].
      apply IH in H. destruct H as (new & -> & Hcat).
      exists (firstn range (x :: rest) :: new).
      rewrite <- app_assoc. split; [reflexivity|].
      simpl List.concat. rewrite Hcat. apply firstn_skipn.
Qed.

Lemma plan_batches_In w items batches b item :
  ArweaveBundle.plan_batches w items = Some (Returned batches) ->
  In b batches -> In item b -> In item items.
Proof.
  intros H Hb Hi. apply batches_loop_concat in H.
  destruct H as (new & -> & <-). apply in_concat. exists b. auto.
Qed.

Lemma needing_upload_no_link w c files k :
  In k (BundleUpload.getItemsNeedingUpload w (items c) files) ->
  has_link c k = false.
Proof.
  unfold BundleUpload.getItemsNeedingUpload. intros H.
  apply filter_In in H. destruct H as [_ H].
  apply negb_true_iff in H. exact H.
Qed.

Lemma batch_done_incl w b evs evs' :
  incl evs evs' -> batch_done w b evs -> batch_done w b evs'.
Proof.
  intros Hi (ids & ms & ids' & H1 & H2 & H3). exists ids, ms, ids'. auto.
Qed.

(** What a run of the bundle path amounts to: it stops before or in the
    upload phase with the cache as it was loaded, or nothing is pending
    and no upload is made, or all the batches are uploaded in full. *)
Lemma bundle_run_cases w saved files totalNFTs retain mutable st r :
  let c0 := match saved with Some c => c | None => empty_cache end in
  let needUpload := BundleUpload.getItemsNeedingUpload w (items c0) files in
  BundleUpload.upload w saved files BundleUpload.ArweaveNative
                      totalNFTs retain mutable = Some (st, r) ->
  (cache st = c0 /\ (exists e, r = Raised e) /\
   Forall (fun ev => is_bundle ev = true) (trace st))
  \/
  ((forall k, has_link (cache st) k = has_link c0 k) /\
   existsb is_upload (trace st) = false)
  \/
  (exists batches evs1 evs3,
      ArweaveBundle.plan_batches w needUpload = Some (Returned batches) /\
      trace st = evs1 ++ evs3 /\
      existsb bundle_failed evs1 = false /\
      (forall b, In b batches -> batch_done w b evs1) /\
      Forall (fun ev => is_upload ev = false) evs3).
Proof.
  intros c0 needUpload.
  rewrite bundle_upload_phases. cbv zeta. cbn [cache]. fold c0.
  fold needUpload. clearbody needUpload.
  set (st0 := {| cache := c0; trace := [] |}).
  destruct files as [|file files'].
  { intros [= <- <-]. left. simpl. eauto. }
  unfold BundleUpload.upload_pending.
  destruct needUpload as [|x need'].
  { intros [= H]. right. left.
    destruct (commit_phase_summary w totalNFTs retain mutable st0)
      as (evs & Hc & Hu).
    rewrite H in Hc. cbn [fst] in Hc. unfold continues in Hc. simpl in Hc.
    split.
    - intros k. unfold has_link.
      pose proof (commit_phase_link_of w totalNFTs retain mutable st0 k) as Hl.
      rewrite H in Hl. cbn [fst] in Hl. now rewrite Hl.
    - rewrite Hc. clear -Hu. induction Hu as [|ev evs Hev _ IH]; simpl; auto.
      now rewrite Hev. }
  unfold ArweaveBundle.arweaveBundleUpload.
  destruct (ArweaveBundle.plan_batches w (x :: need')) as [[batches|e]|] eqn:Hp;
    [| |discriminate].
  2:{ intros [= <- <-]. left. simpl. eauto. }
  destruct (upload_batches_summary w batches st0)
    as (evs1 & Hc1 & Hk1 & Hb1 & Hr1).
  destruct (ArweaveBundle.upload_batches w batches st0) as [st1 [bundles|e]];
    cbn [fst snd] in *.
  2:{ intros [= <- <-]. left. unfold continues in Hc1. simpl in Hc1.
      rewrite Hc1. eauto. }
  destruct (BundleUpload.flatten_bundles bundles) as [[ms ls] is_].
  set (st2 := saveCache _).
  intros [= H]. right. right.
  destruct (commit_phase_summary w totalNFTs retain mutable st2)
    as (evs3 & Hc3 & Hu3).
  rewrite H in Hc3. cbn [fst] in Hc3. unfold continues in Hc1, Hc3.
  destruct (Hr1 bundles eq_refl) as [Hf1 Hd1].
  exists batches, evs1, (EvSaveCache (cache st2) :: evs3).
  split; [reflexivity|]. split.
  { rewrite Hc3. unfold st2 at 1, saveCache. rewrite trace_emit. simpl.
    rewrite Hc1. simpl. now rewrite <- app_assoc. }
  split; [exact Hf1|]. split; [exact Hd1|].
  constructor; [reflexivity|exact Hu3].
Qed.

(** C2. In the bundle path, when the manifest bundle of a batch is
    rejected after its image bundle was accepted, the run raises, the
    cache is as it was loaded, nothing is saved, and no item of the batch
    has a link; and an index gains a link in a run only if, for every
    planned batch, the image bundle and then the manifest bundle were
    accepted. *)
Theorem bundle_all_or_nothing :
  forall w saved files totalNFTs retain mutable st r,
    let c0 := match saved with Some c => c | None => empty_cache end in
    let needUpload := BundleUpload.getItemsNeedingUpload w (items c0) files in
    BundleUpload.upload w saved files BundleUpload.ArweaveNative
                        totalNFTs retain mutable = Some (st, r) ->
    (forall batches b ids ms,
        ArweaveBundle.plan_batches w needUpload = Some (Returned batches) ->
        In b batches ->
        In (EvBundle (Images b) (Some ids)) (trace st) ->
        ArweaveBundle.getUpdatedManifests w b
          (map ArweaveBundle.arweave_link ids) = Returned ms ->
        In (EvBundle (Manifests ms) None) (trace st) ->
        (exists e, r = Raised e) /\
        cache st = c0 /\
        (forall c, ~ In (EvSaveCache c) (trace st)) /\
        (forall item, In item b -> has_link (cache st) item = false)) /\
    (forall k,
        has_link c0 k = false ->
        has_link (cache st) k = true ->
        exists batches,
          ArweaveBundle.plan_batches w needUpload = Some (Returned batches) /\
          forall b, In b batches -> batch_done w b (trace st)).
Proof.
  intros w saved files totalNFTs retain mutable st r c0 needUpload Hrun.
  destruct (bundle_run_cases w saved files totalNFTs retain mutable st r Hrun)
    as [(Hc & Hr & Hb)|[(Hl & Hu)|(batches & evs1 & evs3 & Hp & Ht & Hf & Hd & Hu)]].
  - split.
    + intros batches b ids ms Hp Hb' _ _ _.
      split; [exact Hr|]. split; [exact Hc|]. split.
      * intros c Hin. rewrite Forall_forall in Hb.
        specialize (Hb _ Hin). discriminate.
      * intros item Hi. rewrite Hc.
        apply (needing_upload_no_link w c0 files).
        eapply plan_batches_In; eauto.
    + intros k Hk0 Hk. rewrite Hc in Hk. fold c0 in Hk. congruence.
  - split.
    + intros batches b ids ms _ _ Hin _ _.
      assert (H : existsb is_upload (trace st) = true).
      { apply existsb_exists. eexists. split; [exact Hin|reflexivity]. }
      congruence.
    + intros k Hk0 Hk. rewrite Hl in Hk. fold c0 in Hk. congruence.
  - split.
    + intros batches' b ids ms _ _ _ _ Hin.
      rewrite Ht in Hin. apply in_app_or in Hin. destruct Hin as [Hin|Hin].
      * assert (H : existsb bundle_failed evs1 = true).
        { apply existsb_exists. eexists. split; [exact Hin|reflexivity]. }
        congruence.
      * rewrite Forall_forall in Hu. specialize (Hu _ Hin). discriminate.
    + intros k _ _. exists batches. split; [exact Hp|].
      intros b Hb. apply (batch_done_incl w b evs1); auto.
      rewrite Ht. apply incl_appl, incl_refl.
Qed.

(* ================================================================== *)
(** * A failed upload in a window, and in the single-item loop *)
(* ================================================================== *)




(** C1. The size-bounded planner, on items of 30MB, 30MB and 10MB,
    yields the batches [[item0]; [item1; item2]].  On every pending list
    the planning loop ends; the batches it returns, put end to end, are
    the pending list (same order, no item dropped), are all non-empty,
    each stay below the ceiling, and each is closed right before the item
    that would make its cumulative size meet or exceed the ceiling; and it
    returns batches whenever every item alone stays below the ceiling. *)
Theorem size_bounded_batches :
  (forall w i0 i1 i2,
      png_size w i0 = Some 30000000%N ->
      png_size w i1 = Some 30000000%N ->
      png_size w i2 = Some 10000000%N ->
      ArweaveBundle.plan_batches w [i0; i1; i2]
      = Some (Returned [[i0]; [i1; i2]])) /\
  (forall w items,
      exists res,
        ArweaveBundle.plan_batches w items = Some res /\
        (Forall (small w) items -> exists batches, res = Returned batches) /\
        (forall batches,
            res = Returned batches ->
            List.concat batches = items /\
            Forall (fun b => b <> []) batches /\
            Forall (fun b =>
                      (batch_bytes w b < ArweaveBundle.BATCH_SIZE_LIMIT)%N)
                   batches /\
            (forall i b x rest,
                nth_error batches i = Some b ->
                nth_error batches (S i) = Some (x :: rest) ->
                (ArweaveBundle.BATCH_SIZE_LIMIT
                 <= batch_bytes w b + size_of w x)%N))).
Proof.
  split.
  - intros w i0 i1 i2 H0 H1 H2.
    unfold ArweaveBundle.plan_batches, ArweaveBundle.getBatchRange.
    cbn [List.length ArweaveBundle.batches_loop].
    unfold ArweaveBundle.getBatchRange.
    cbn [ArweaveBundle.getBatchRange_from]. rewrite H0, H1. cbn.
    unfold ArweaveBundle.getBatchRange.
    cbn [ArweaveBundle.getBatchRange_from]. rewrite H1, H2. cbn.
    reflexivity.
  - intros w items.
    destruct (batches_loop_total w (List.length items) items [] (le_n _))
      as (res & Hloop & Hret & Hsmall).
    exists res. split; [exact Hloop|]. split; [exact Hsmall|].
    intros batches Hres. destruct (Hret batches Hres) as (bs & -> & Hcut).
    exact Hcut.
Qed.

(** C6. A pending item whose image alone meets or exceeds the ceiling
    makes the planner raise, wherever the item stands in the list; the
    error leaves [arweaveBundleUpload] before any bundle is sent, and the
    command raises with the cache as it was loaded and an empty trace: no
    upload of any batch has happened.  When every image can be measured
    the error is the one of the oversized item. *)
Theorem oversized_item_is_fatal :
  forall w item s,
    png_size w item = Some s ->
    (ArweaveBundle.BATCH_SIZE_LIMIT <= s)%N ->
    (forall items,
        In item items ->
        exists e,
          ArweaveBundle.plan_batches w items = Some (Raised e) /\
          (Forall (known_size w) items -> e = ItemTooBig) /\
          forall st,
            ArweaveBundle.arweaveBundleUpload w items st
            = Some (st, Raised e)) /\
    (forall saved files totalNFTs retain mutable,
        let c0 := match saved with Some c => c | None => empty_cache end in
        In item (BundleUpload.getItemsNeedingUpload w (items c0) files) ->
        exists e,
          BundleUpload.upload w saved files BundleUpload.ArweaveNative
                              totalNFTs retain mutable
          = Some ({| cache := c0; trace := [] |}, Raised e)).
Proof.
  intros w item s Hs Hbig.
  assert (Hplan : forall items,
             In item items ->
             exists e,
               ArweaveBundle.plan_batches w items = Some (Raised e) /\
               (Forall (known_size w) items -> e = ItemTooBig) /\
               forall st,
                 ArweaveBundle.arweaveBundleUpload w items st
                 = Some (st, Raised e)).
  { intros items Hin.
    destruct (batches_loop_oversized w item s (List.length items) Hs Hbig
                items [] (le_n _) Hin) as (e & He & Hk).
    exists e. split; [exact He|]. split; [exact Hk|].
    intros st. unfold ArweaveBundle.arweaveBundleUpload.
    unfold ArweaveBundle.plan_batches. now rewrite He. }
  split; [exact Hplan|].
  intros saved files totalNFTs retain mutable c0 Hin.
  destruct (Hplan _ Hin) as (e & _ & _ & Hup).
  rewrite bundle_upload_phases. cbv zeta. cbn [cache]. fold c0.
  destruct files as [|file files']; [eexists; reflexivity|].
  exists e. unfold BundleUpload.upload_pending.
  destruct (BundleUpload.getItemsNeedingUpload w (items c0) (file :: files'))
    as [|x need]; [contradiction|].
  now rewrite Hup.
Qed.

(* ================================================================== *)
(** * Item selector *)
(* ================================================================== *)

Lemma filter_filter_andb {A} (p q : A -> bool) l :
  filter p (filter q l) = filter (fun y => q y && p y) l.
Proof.
  induction l as [|x l IH]; simpl; [reflexivity|].
  destruct (q x); simpl; [destruct (p x)|]; now rewrite IH.
Qed.

Lemma filter_all {A} (p : A -> bool) l :
  (forall x, In x l -> p x = true) -> filter p l = l.
Proof.
  induction l as [|x l IH]; intros H; simpl; [reflexivity|].
  rewrite H by now left. f_equal. apply IH. intros y Hy. apply H. now right.
Qed.

Lemma mem_app x l1 l2 : JS.mem x (l1 ++ l2) = JS.mem x l1 || JS.mem x l2.
Proof. unfold JS.mem. apply existsb_app. Qed.

Lemma Set_of_from l :
  forall acc,
    fold_left JS.Set_add l acc
    = acc ++ filter (fun y => negb (JS.mem y acc)) (first_seen l).
Proof.
  induction l as [|x l IH]; intros acc; simpl.
  - now rewrite app_nil_r.
  - unfold JS.Set_add at 2. destruct (JS.mem x acc) eqn:Hx; simpl.
    + rewrite IH. f_equal. rewrite filter_filter_andb.
      apply filter_ext_in. intros y _.
      destruct (String.eqb_spec y x) as [->|]; simpl; [now rewrite Hx|].
      reflexivity.
    + rewrite IH, <- app_assoc. simpl. do 2 f_equal.
      rewrite filter_filter_andb. apply filter_ext. intros y.
      rewrite mem_app. simpl. rewrite orb_false_r, negb_orb.
      apply andb_comm.
Qed.

Lemma Set_of_first_seen l : JS.Set_of l = first_seen l.
Proof.
  unfold JS.Set_of. rewrite Set_of_from. simpl.
  now apply filter_all.
Qed.

Lemma first_seen_In l x : In x (first_seen l) <-> In x l.
Proof.
  induction l as [|y l IH]; simpl; [tauto|].
  rewrite filter_In, IH.
  destruct (String.eqb_spec x y) as [->|Hne]; simpl.
  - intuition.
  - intuition congruence.
Qed.

Lemma first_seen_NoDup l : NoDup (first_seen l).
Proof.
  induction l as [|y l IH]; simpl; constructor.
  - rewrite filter_In. intros [_ H]. now rewrite String.eqb_refl in H.
  - now apply NoDup_filter.
Qed.

Lemma first_seen_filter p l :
  filter p (first_seen l) = first_seen (filter p l).
Proof.
  induction l as [|x l IH]; simpl; [reflexivity|].
  destruct (p x) eqn:Hp; simpl.
  - f_equal. rewrite <- IH, !filter_filter_andb.
    apply filter_ext. intros y. apply andb_comm.
  - rewrite <- IH, filter_filter_andb. apply filter_ext. intros y.
    destruct (String.eqb_spec y x) as [->|]; simpl; [now rewrite Hp|].
    reflexivity.
Qed.

Lemma first_seen_NoDup_id l : NoDup l -> first_seen l = l.
Proof.
  induction 1 as [|x l Hx Hnd IH]; simpl; [reflexivity|].
  rewrite IH. f_equal. apply filter_all.
  intros y Hy. destruct (String.eqb_spec y x) as [->|]; [contradiction|].
  reflexivity.
Qed.

Lemma mem_first_seen y l : JS.mem y (first_seen l) = JS.mem y l.
Proof. apply Bool.eq_iff_eq_true. rewrite !mem_In. apply first_seen_In. Qed.

Lemma first_seen_app l1 l2 :
  first_seen (l1 ++ l2)
  = first_seen l1
    ++ filter (fun y => negb (JS.mem y l1)) (first_seen l2).
Proof.
  rewrite <- (Set_of_first_seen (l1 ++ l2)). unfold JS.Set_of.
  rewrite fold_left_app.
  change (fold_left JS.Set_add l1 []) with (JS.Set_of l1).
  rewrite Set_of_first_seen, Set_of_from. f_equal.
  apply filter_ext. intros y. now rewrite mem_first_seen.
Qed.

(** ** The selection of [commands/upload.ts] *)

Lemma seen_has_app seen k x :
  Upload.seen_has (seen ++ [x]) k = Upload.seen_has seen k || (k =? x).
Proof.
  unfold Upload.seen_has. rewrite mem_app.
  assert (E : JS.mem k [x] = (k =? x))
    by (unfold JS.mem; simpl; apply orb_false_r).
  rewrite E. generalize (JS.mem k JS.Object_prototype_names). intros b.
  destruct (JS.mem k seen), (k =? x), b; reflexivity.
Qed.

Lemma seen_has_true seen k :
  Upload.seen_has seen k = true <->
  In k seen \/ In k JS.Object_prototype_names.
Proof.
  unfold Upload.seen_has. rewrite orb_true_iff, !mem_In. reflexivity.
Qed.

Lemma first_per_key_filter key (q : string -> bool) l :
  filter (fun g => q (key g)) (first_per_key key l)
  = first_per_key key (filter (fun g => q (key g)) l).
Proof.
  induction l as [|x l IH]; [reflexivity|].
  cbn [first_per_key filter].
  destruct (q (key x)) eqn:Hq; cbn [first_per_key].
  - f_equal. rewrite <- IH, !filter_filter_andb.
    apply filter_ext. intros y. apply andb_comm.
  - rewrite <- IH, filter_filter_andb. apply filter_ext. intros y.
    destruct (String.eqb_spec (key y) (key x)) as [E|];
      [now rewrite E, Hq|reflexivity].
Qed.

Lemma first_per_key_keys key l k :
  In k (map key (first_per_key key l)) <-> In k (map key l).
Proof.
  induction l as [|x l IH]; [reflexivity|].
  cbn [first_per_key map In]. rewrite <- IH. split.
  - intros [E|H]; [now left|right].
    apply in_map_iff in H. destruct H as (g & <- & Hg).
    apply filter_In in Hg. apply in_map. tauto.
  - destruct (string_dec (key x) k) as [E|NE]; [now left|].
    intros [E|H]; [contradiction|right].
    apply in_map_iff in H. destruct H as (g & <- & Hg).
    apply in_map, filter_In. split; [exact Hg|].
    apply negb_true_iff, String.eqb_neq. congruence.
Qed.

Lemma first_per_key_subseq_In key l f :
  In f (first_per_key key l) -> In f l.
Proof.
  revert f. induction l as [|x l IH]; [tauto|].
  cbn [first_per_key]. intros f [<-|H]; [now left|right].
  apply IH. apply filter_In in H. tauto.
Qed.

(** The first loop: the files whose key was not seen before. *)
Lemma add_file_closed w files :
  forall seen0 new0,
    let F := first_per_key (Upload.file_key w)
               (filter (fun f => negb (Upload.seen_has seen0
                                         (Upload.file_key w f))) files) in
    fold_left (Upload.add_file w) files (seen0, new0)
    = (seen0 ++ map (Upload.file_key w) F, new0 ++ F).
Proof.
  induction files as [|f files IH]; intros seen0 new0 F.
  - subst F. simpl. now rewrite !app_nil_r.
  - subst F. cbn [fold_left Upload.add_file filter].
    destruct (Upload.seen_has seen0 (Upload.file_key w f)) eqn:Hseen;
      cbn [negb].
    + apply IH.
    + rewrite IH. cbn [first_per_key map]. rewrite <- !app_assoc.
      cbn [app].
      rewrite (first_per_key_filter (Upload.file_key w)
                 (fun k => negb (k =? Upload.file_key w f))).
      rewrite filter_filter_andb.
      assert (E : filter
                    (fun g => negb (Upload.seen_has
                                      (seen0 ++ [Upload.file_key w f])
                                      (Upload.file_key w g))) files
                  = filter
                      (fun y => negb (Upload.seen_has seen0
                                        (Upload.file_key w y))
                                && negb (Upload.file_key w y
                                         =? Upload.file_key w f)) files).
      { apply filter_ext. intros g. now rewrite seen_has_app, negb_orb. }
      now rewrite E.
Qed.

(** The second loop: the cache keys that were not seen before. *)
Lemma add_cached_closed keys :
  forall seen1 new1,
    let K := filter (fun k => negb (Upload.seen_has seen1 k))
                    (first_seen keys) in
    fold_left Upload.add_cached keys (seen1, new1)
    = (seen1 ++ K, new1 ++ map (fun k => (k ++ ".png")%string) K).
Proof.
  induction keys as [|k keys IH]; intros seen1 new1 K.
  - subst K. simpl. now rewrite !app_nil_r.
  - subst K. cbn [fold_left Upload.add_cached first_seen filter].
    destruct (Upload.seen_has seen1 k) eqn:Hseen; cbn [negb].
    + rewrite IH. rewrite filter_filter_andb.
      assert (E : filter (fun y => negb (y =? k)
                                   && negb (Upload.seen_has seen1 y))
                         (first_seen keys)
                  = filter (fun y => negb (Upload.seen_has seen1 y))
                           (first_seen keys)).
      { apply filter_ext. intros y.
        destruct (String.eqb_spec y k) as [->|]; [now rewrite Hseen|].
        reflexivity. }
      now rewrite E.
    + rewrite IH. cbn [map]. rewrite <- !app_assoc. cbn [app].
      rewrite filter_filter_andb.
      assert (E : filter (fun y => negb (Upload.seen_has (seen1 ++ [k]) y))
                         (first_seen keys)
                  = filter (fun y => negb (y =? k)
                                     && negb (Upload.seen_has seen1 y))
                           (first_seen keys)).
      { apply filter_ext. intros y.
        rewrite seen_has_app, negb_orb. apply andb_comm. }
      now rewrite E.
Qed.

(** What the second loop finds seen: the keys of the files. *)
Lemma seen_has_files w files k :
  Upload.seen_has
    (map (Upload.file_key w)
         (first_per_key (Upload.file_key w)
            (filter (fun f => negb (Upload.seen_has [] (Upload.file_key w f)))
                    files))) k
  = Upload.seen_has (map (Upload.file_key w) files) k.
Proof.
  apply Bool.eq_iff_eq_true. rewrite !seen_has_true, first_per_key_keys.
  split.
  - intros [H|H]; [left|now right].
    apply in_map_iff in H. destruct H as (f & <- & Hf).
    apply filter_In in Hf. apply in_map. tauto.
  - intros [H|H]; [|now right].
    destruct (Upload.seen_has [] k) eqn:Hk.
    + apply seen_has_true in Hk. destruct Hk as [[]|Hk]. now right.
    + left. apply in_map_iff in H. destruct H as (f & <- & Hf).
      apply in_map, filter_In. split; [exact Hf|now rewrite Hk].
Qed.

Lemma images_of_closed w c files :
  Upload.images_of w c files = select_images w c files.
Proof.
  unfold Upload.images_of, select_images.
  pose proof (add_file_closed w files [] []) as E1. cbv zeta in E1.
  rewrite E1. cbn [app].
  pose proof (add_cached_closed (JS.keys (items c))) as E2. cbv zeta in E2.
  rewrite E2. cbn [snd]. do 3 f_equal.
  apply filter_ext. intros k. now rewrite seen_has_files.
Qed.

(** C8 (amended). The item selector of the bundle-capable command,
    [getItemsNeedingUpload], is a function of the cache items and the
    file list alone; it yields the selection the design describes (the
    union of the cache keys and of the file name stems, in first-seen
    order, kept when the cache entry has no link); its result has no
    duplicate; an index is in it exactly when it is a cache key or a
    stem and its entry has no link; and it lists the cache keys without
    link first, in the order of the cache, and then the stems that are
    not cache keys, each once, in the order of the files.  The selection
    of [commands/upload.ts] is another function: it lists images, not
    indices, the files first, one per key, in the order of the file
    list, and then [key.png] for the cache keys that are the key of no
    file; it looks at no link, so that it depends on the cache through
    its keys only and lists a cache key whether its entry has a link or
    not. *)
Theorem item_selector :
  (forall w items files,
      let result := BundleUpload.getItemsNeedingUpload w items files in
      let no_link idx :=
        negb (JS.truthy (BundleUpload.entry_link items idx)) in
      result = select_pending w items files /\
      NoDup result /\
      (forall idx,
          In idx result <->
          (In idx (JS.keys items) \/
           In idx (map (BundleUpload.stem w) files))
          /\ no_link idx = true) /\
      (NoDup (JS.keys items) ->
       result
       = filter no_link (JS.keys items)
         ++ first_seen
              (filter (fun s => negb (JS.mem s (JS.keys items)))
                      (map (BundleUpload.stem w) files)))) /\
  (forall w c files,
      Upload.images_of w c files = select_images w c files /\
      (forall c',
          JS.keys (items c') = JS.keys (items c) ->
          Upload.images_of w c' files = Upload.images_of w c files) /\
      (forall k,
          In k (JS.keys (items c)) ->
          Upload.seen_has (map (Upload.file_key w) files) k = false ->
          path_extname w (k ++ ".png") = EXTENSION_PNG w ->
          In (k ++ ".png")%string (Upload.images_of w c files))).
Proof.
  split.
  {
    intros w items files result no_link.
    assert (E : result = select_pending w items files).
    { unfold result, BundleUpload.getItemsNeedingUpload, select_pending.
      now rewrite Set_of_first_seen. }
    split; [exact E|]. rewrite E. unfold select_pending. fold no_link.
    split; [apply NoDup_filter, first_seen_NoDup|].
    split.
    - intros idx. rewrite filter_In, first_seen_In, in_app_iff. reflexivity.
    - intros Hnd. rewrite first_seen_app, filter_app.
      rewrite (first_seen_NoDup_id _ Hnd). f_equal.
      rewrite first_seen_filter. apply filter_all.
      intros y Hy. apply first_seen_In, filter_In in Hy.
      destruct Hy as [_ Hy]. apply negb_true_iff in Hy.
      unfold no_link, BundleUpload.entry_link.
      destruct (JS.get items y) as [e|] eqn:Hg; [|reflexivity].
      apply get_In, mem_In in Hg. congruence. }
  intros w c files. split; [apply images_of_closed|]. split.
  - intros c' Hk. rewrite !images_of_closed. unfold select_images.
    now rewrite Hk.
  - intros k Hk Hseen Hext. rewrite images_of_closed. unfold select_images.
    apply filter_In. split; [|now apply String.eqb_eq].
    apply in_or_app. right.
    apply (in_map (fun k => (k ++ ".png")%string)).
    apply filter_In. split; [now apply first_seen_In|now rewrite Hseen].
Qed.


(* ================================================================== *)
(** * Resuming on a finished cache *)
(* ================================================================== *)

Lemma onChain_of_items c c' k :
  items c' = items c -> onChain_of c' k = onChain_of c k.
Proof. unfold onChain_of. now intros ->. Qed.

Lemma has_link_items c c' k :
  items c' = items c -> has_link c' k = has_link c k.
Proof. unfold has_link, link_of. now intros ->. Qed.

Lemma commit_all_no_writes w st :
  NoDup (JS.keys (items (cache st))) ->
  (forall k, In k (JS.keys (items (cache st))) ->
             onChain_of (cache st) k = true) ->
  writes (trace (fst (Registry.commit_all w st))) = writes (trace st).
Proof.
  intros Hnd Hon. rewrite commit_all_writes by exact Hnd.
  rewrite (filter_ext_in _ (fun _ => false)).
  - induction (groups_of _) as [|g gs IH]; simpl; [lia|exact IH].
  - intros g Hg. apply negb_false_iff, forallb_forall.
    intros k Hk. apply Hon. eapply group_keys_In; eauto.
Qed.

Lemma commit_all_no_uploads w st :
  uploads (trace (fst (Registry.commit_all w st))) = uploads (trace st).
Proof.
  destruct (commit_all_registry w st) as (evs & Hc & Hr).
  rewrite Hc, uploads_app, (uploads_registry evs Hr). lia.
Qed.

Lemma uploads_none evs :
  Forall (fun ev => is_upload ev = false) evs -> uploads evs = 0.
Proof.
  unfold uploads. induction 1 as [|ev evs Hev _ IH]; simpl; [reflexivity|].
  now rewrite Hev.
Qed.

Lemma commit_phase_no_writes w totalNFTs retain mutable st1 :
  NoDup (JS.keys (items (cache st1))) ->
  (forall k, In k (JS.keys (items (cache st1))) ->
             onChain_of (cache st1) k = true) ->
  writes (trace (fst (BundleUpload.commit_phase w totalNFTs retain mutable
                        st1)))
  = writes (trace st1).
Proof.
  intros Hnd Hon. unfold BundleUpload.commit_phase.
  destruct (BundleUpload.getItemManifest w "0") as [manifest0|e];
    [|reflexivity].
  destruct (JS.truthy (config (program (cache st1)))).
  - now apply commit_all_no_writes.
  - destruct (initConfig_summary w
                (BundleUpload.config_data totalNFTs mutable retain manifest0)
                st1) as (evs0 & Hc0 & _ & Hw0 & Hi).
    destruct (BundleUpload.initConfig w _ st1) as [st2 [cfg|e]];
      cbn [fst snd] in *.
    + unfold BundleUpload.writeIndices. rewrite commit_all_no_writes.
      * rewrite Hc0, writes_app, (writes_none evs0 Hw0). lia.
      * now rewrite Hi.
      * intros k Hk. rewrite (onChain_of_items (cache st1)) by exact Hi.
        apply Hon. now rewrite <- Hi.
    + rewrite Hc0, writes_app, (writes_none evs0 Hw0). lia.
Qed.

Lemma nothing_pending w c files :
  (forall k, In k (JS.keys (items c)) -> has_link c k = true) ->
  (forall f, In f files -> has_link c (BundleUpload.stem w f) = true) ->
  BundleUpload.getItemsNeedingUpload w (items c) files = [].
Proof.
  intros Hk Hf. unfold BundleUpload.getItemsNeedingUpload.
  rewrite Set_of_first_seen.
  rewrite (filter_ext_in _ (fun _ => false)).
  - induction (first_seen _) as [|y ys IH]; simpl; auto.
  - intros idx Hin. apply first_seen_In, in_app_or in Hin.
    apply negb_false_iff.
    destruct Hin as [Hin|Hin].
    + now apply Hk.
    + apply in_map_iff in Hin. destruct Hin as (f & <- & Hin). now apply Hf.
Qed.

(** C7. On a cache in which every item has a link and is on chain, and
    with no new input file, a run makes no upload and no registry write
    call: this holds for the command of [commands/upload.ts], where every
    image the run considers has its index linked in the cache, and for
    the bundle-capable command, where every file stem is linked in the
    cache, whatever the backend and whether or not the run ends with an
    error. *)
Theorem idempotent_resume :
  forall w c files,
    NoDup (JS.keys (items c)) ->
    (forall k, In k (JS.keys (items c)) ->
               has_link c k = true /\ onChain_of c k = true) ->
    (forall storage totalNFTs retain mutable,
        (forall img, In img (Upload.images_of w c files) ->
                     has_link c (Upload.image_index w img) = true) ->
        let st := fst (Upload.upload w (Some c) files storage
                                     totalNFTs retain mutable) in
        uploads (trace st) = 0 /\ writes (trace st) = 0) /\
    (forall storage totalNFTs retain mutable,
        (forall f, In f files ->
                   has_link c (BundleUpload.stem w f) = true) ->
        exists st r,
          BundleUpload.upload w (Some c) files storage
                              totalNFTs retain mutable = Some (st, r) /\
          uploads (trace st) = 0 /\ writes (trace st) = 0).
Proof.
  intros w c files Hnd Hdone. split.
  - intros storage totalNFTs retain mutable Himg st. unfold st.
    rewrite upload_phases.
    set (st0 := {| cache := c; trace := [] |}).
    destruct (windows_summary w totalNFTs storage retain mutable
                (Upload.images_of w c files) (Upload.window_size storage)
                (Upload.window_starts storage
                   (List.length (Upload.images_of w c files))) st0 true)
      as (evs & (Hc & Hw & _) & _ & Hsame).
    destruct (Hsame Himg) as [Hu Hi].
    unfold continues in Hc. simpl in Hc.
    destruct (snd (Upload.upload_windows _ _ _ _ _ _ _ _ _ _)) as [fl|e];
      cbn [fst].
    + rewrite commit_all_no_uploads, commit_all_no_writes.
      * rewrite Hc. split; [exact Hu|now apply writes_none].
      * now rewrite Hi.
      * intros k Hk. rewrite (onChain_of_items c) by exact Hi.
        apply Hdone. rewrite Hi in Hk. exact Hk.
    + rewrite Hc. split; [exact Hu|now apply writes_none].
  - intros storage totalNFTs retain mutable Hfiles.
    rewrite bundle_upload_phases. cbv zeta. cbn [cache].
    destruct files as [|file files'].
    { eexists _, _. split; [reflexivity|]. split; reflexivity. }
    rewrite nothing_pending; [|intros k Hk; now apply Hdone|exact Hfiles].
    cbn [BundleUpload.upload_pending].
    set (st0 := {| cache := c; trace := [] |}).
    destruct (commit_phase_summary w totalNFTs retain mutable st0)
      as (evs & Hc & Hu).
    pose proof (commit_phase_no_writes w totalNFTs retain mutable st0 Hnd)
      as Hw.
    destruct (BundleUpload.commit_phase w totalNFTs retain mutable st0)
      as [st r]. cbn [fst] in *.
    exists st, r. split; [reflexivity|]. split.
    + rewrite Hc. simpl. now apply uploads_none.
    + rewrite Hw; [reflexivity|]. intros k Hk. now apply Hdone.
Qed.

(* ================================================================== *)
(** * What the two commands return *)
(* ================================================================== *)

Lemma bundle_not_write ev : is_bundle ev = true -> is_write ev = false.
Proof. destruct ev; simpl; congruence. Qed.

Lemma upload_each_summary w b needUpload :
  forall st,
  exists evs,
    continues st (fst (BundleUpload.upload_each w b needUpload st)) evs /\
    cache (fst (BundleUpload.upload_each w b needUpload st)) = cache st /\
    Forall (fun ev => is_write ev = false) evs /\
    (forall b' item,
        In (EvUpload b' item Throws) evs ->
        snd (BundleUpload.upload_each w b needUpload st)
        = Raised (UploadRejected item)).
Proof.
  induction needUpload as [|toUpload rest IH]; intros st.
  - exists []. unfold continues. simpl. rewrite app_nil_r.
    repeat split; auto. contradiction.
  - cbn [BundleUpload.upload_each].
    destruct (BundleUpload.getItemManifest w toUpload) as [manifest|e].
    2:{ exists []. unfold continues. simpl. rewrite app_nil_r.
        repeat split; auto. contradiction. }
    cbv zeta.
    destruct (upload_item w (trace st) b toUpload manifest) as [|l] eqn:Hup.
    + exists [EvUpload b toUpload Throws]. unfold continues. simpl.
      repeat split; auto.
      intros b' item [[= <- <-]|[]]. reflexivity.
    + destruct (IH (emit (EvUpload b toUpload (Returns l)) st))
        as (evs & Hc & Hk & Hw & Hthrows).
      exists (EvUpload b toUpload (Returns l) :: evs).
      unfold continues in *. split.
      { rewrite Hc. simpl. now rewrite <- app_assoc. }
      split; [exact Hk|]. split; [now constructor|].
      intros b' item [H|H]; [discriminate|]. now apply (Hthrows b').
Qed.

Lemma upload_pending_summary w storage needUpload st0 st1 r1 :
  BundleUpload.upload_pending w storage needUpload st0 = Some (st1, r1) ->
  exists evs1,
    continues st0 st1 evs1 /\
    Forall (fun ev => is_write ev = false) evs1 /\
    (forall b item,
        In (EvUpload b item Throws) evs1 ->
        r1 = Raised (UploadRejected item)).
Proof.
  unfold BundleUpload.upload_pending, continues.
  destruct needUpload as [|x need].
  { intros [= <- <-]. exists []. rewrite app_nil_r.
    repeat split; auto. contradiction. }
  destruct storage as [|b].
  - unfold ArweaveBundle.arweaveBundleUpload.
    destruct (ArweaveBundle.plan_batches w (x :: need)) as [[batches|e]|];
      [| |discriminate].
    2:{ intros [= <- <-]. exists []. rewrite app_nil_r.
        repeat split; auto. contradiction. }
    destruct (upload_batches_summary w batches st0)
      as (evs & Hc & _ & Hb & _).
    assert (Hnone : forall b item, ~ In (EvUpload b item Throws) evs).
    { intros b item Hin. rewrite Forall_forall in Hb.
      specialize (Hb _ Hin). discriminate. }
    assert (Hw : Forall (fun ev => is_write ev = false) evs).
    { eapply Forall_impl; [|exact Hb]. apply bundle_not_write. }
    destruct (ArweaveBundle.upload_batches w batches st0) as [st [bundles|e]];
      cbn [fst] in Hc.
    + destruct (BundleUpload.flatten_bundles bundles) as [[ms ls] is_].
      intros [= <- <-]. eexists (evs ++ [_]).
      unfold saveCache. rewrite trace_emit. cbn [trace with_cache].
      rewrite Hc, <- app_assoc. split; [reflexivity|]. split.
      * apply Forall_app. split; [exact Hw|repeat constructor].
      * intros b item Hin. apply in_app_or in Hin.
        destruct Hin as [Hin|[Hin|[]]]; [|discriminate].
        now elim (Hnone b item).
    + intros [= <- <-]. exists evs. split; [exact Hc|]. split; [exact Hw|].
      intros b item Hin. now elim (Hnone b item).
  - destruct (upload_each_summary w b (x :: need) st0)
      as (evs & Hc & _ & Hw & Hthrows).
    destruct (BundleUpload.upload_each w b (x :: need) st0) as [st' r'].
    intros [= <- <-]. exists evs. auto.
Qed.

Lemma commit_phase_result w totalNFTs retain mutable st1 :
  snd (BundleUpload.commit_phase w totalNFTs retain mutable st1)
  = Returned tt
  \/ exists evs,
      continues st1
        (fst (BundleUpload.commit_phase w totalNFTs retain mutable st1)) evs /\
      Forall (fun ev => is_write ev = false) evs.
Proof.
  unfold BundleUpload.commit_phase.
  destruct (BundleUpload.getItemManifest w "0") as [manifest0|e].
  2:{ right. exists []. unfold continues. simpl. now rewrite app_nil_r. }
  destruct (JS.truthy (config (program (cache st1)))); [now left|].
  destruct (initConfig_summary w
              (BundleUpload.config_data totalNFTs mutable retain manifest0)
              st1) as (evs0 & Hc0 & _ & Hw0 & _).
  destruct (BundleUpload.initConfig w _ st1) as [st2 [cfg|e]];
    cbn [fst snd] in *; [now left|].
  right. exists evs0. auto.
Qed.

(** In the bundle-capable command a failed item upload ends the run with
    an error, and a run that reaches a registry write returns, whatever
    the outcome of the write. *)
Lemma bundle_upload_result w saved files storage totalNFTs retain mutable
      st r :
  BundleUpload.upload w saved files storage totalNFTs retain mutable
  = Some (st, r) ->
  (forall b item,
      In (EvUpload b item Throws) (trace st) ->
      r = Raised (UploadRejected item)) /\
  (forall ind lines ok,
      In (EvAddConfigLines ind lines ok) (trace st) ->
      r = Returned tt).
Proof.
  rewrite bundle_upload_phases. cbv zeta. cbn [cache].
  destruct files as [|file files'].
  { intros [= <- <-]. simpl. split; intros; contradiction. }
  destruct (BundleUpload.upload_pending _ _ _ _) as [[st1 r1]|] eqn:Hp;
    [|discriminate].
  apply upload_pending_summary in Hp.
  destruct Hp as (evs1 & Hc1 & Hw1 & Hthrows).
  unfold continues in Hc1. simpl in Hc1.
  destruct r1 as [u|e].
  - intros [= H].
    destruct (commit_phase_summary w totalNFTs retain mutable st1)
      as (evs3 & Hc3 & Hu3).
    pose proof (commit_phase_result w totalNFTs retain mutable st1) as Hres.
    rewrite H in Hc3, Hres. cbn [fst snd] in *. unfold continues in *.
    split.
    + intros b item Hin. rewrite Hc3, Hc1 in Hin. apply in_app_or in Hin.
      destruct Hin as [Hin|Hin].
      * specialize (Hthrows b item Hin). discriminate.
      * rewrite Forall_forall in Hu3. specialize (Hu3 _ Hin). discriminate.
    + intros ind lines ok Hin. destruct Hres as [Hres|(evs & Hc & Hw)];
        [exact Hres|].
      rewrite Hc, Hc1 in Hin. apply in_app_or in Hin.
      destruct Hin as [Hin|Hin].
      * rewrite Forall_forall in Hw1. specialize (Hw1 _ Hin). discriminate.
      * rewrite Forall_forall in Hw. specialize (Hw _ Hin). discriminate.
  - intros [= <- <-]. rewrite Hc1. split.
    + exact Hthrows.
    + intros ind lines ok Hin. rewrite Forall_forall in Hw1.
      specialize (Hw1 _ Hin). discriminate.
Qed.

(** C5 (amended). The command of [commands/upload.ts] returns a boolean
    that is true exactly when no item upload threw and no registry write
    was rejected in the run, and item and group failures never make it
    raise: with readable manifests and a config that can be created it
    returns whatever the uploads and the registry writes do.  The
    bundle-capable command returns no flag: an item upload that throws
    ends the run with that error, and a run that issues a registry write
    returns the same value whether the write is accepted or rejected. *)
Theorem aggregate_success_flag :
  (forall w saved files storage totalNFTs retain mutable,
      let c0 := match saved with Some c => c | None => empty_cache end in
      NoDup (JS.keys (items c0)) ->
      (forall st fl,
          Upload.upload w saved files storage totalNFTs retain mutable
          = (st, Returned fl) ->
          (fl = true <->
           forall ev, In ev (trace st) -> is_failure ev = false)) /\
      (Forall (readable w) (Upload.images_of w c0 files) ->
       (forall tr d, createConfig w tr d <> None) ->
       exists st fl,
         Upload.upload w saved files storage totalNFTs retain mutable
         = (st, Returned fl))) /\
  (forall w saved files storage totalNFTs retain mutable st r,
      BundleUpload.upload w saved files storage totalNFTs retain mutable
      = Some (st, r) ->
      (forall b item,
          In (EvUpload b item Throws) (trace st) ->
          r = Raised (UploadRejected item)) /\
      (forall ind lines ok,
          In (EvAddConfigLines ind lines ok) (trace st) ->
          r = Returned tt)).
Proof.
  split.
  - intros w saved files storage totalNFTs retain mutable c0 Hnd. split.
    + intros st fl Hrun.
      rewrite (upload_flag w saved files storage totalNFTs retain mutable
                 st fl Hnd Hrun).
      rewrite negb_true_iff. split.
      * intros H ev Hin. destruct (is_failure ev) eqn:E; [|reflexivity].
        rewrite <- H. symmetry. apply existsb_exists. eauto.
      * intros H. destruct (existsb is_failure (trace st)) eqn:E;
          [|reflexivity].
        apply existsb_exists in E. destruct E as (ev & Hin & E).
        rewrite (H ev Hin) in E. discriminate.
    + apply upload_returns.
  - apply bundle_upload_result.
Qed.

(* ================================================================== *)
(** * The invariant of the cache *)
(* ================================================================== *)

Lemma saveManifestsWithLink_from_inv manifests :
  forall c idx links indices,
    keeps_entries c
      (BundleUpload.saveManifestsWithLink_from c manifests idx links indices)
    /\ (cache_inv c ->
        cache_inv
          (BundleUpload.saveManifestsWithLink_from c manifests idx links
             indices)).
Proof.
  induction manifests as [|m rest IH]; intros c idx links indices; simpl.
  - split; [apply keeps_entries_refl|auto].
  - destruct (IH (set_item (nth idx indices "undefined")
                    {| link := nth_error links idx;
                       name := Some (m_name m);
                       onChain := false |} c)
                 (S idx) links indices) as [Hk Hi].
    split.
    + eapply keeps_entries_trans; [apply keeps_entries_set_item|exact Hk].
    + intros Hinv. apply Hi. apply cache_inv_set_item; [exact Hinv|].
      discriminate.
Qed.

Lemma has_link_In c k : has_link c k = true -> In k (JS.keys (items c)).
Proof.
  unfold has_link, link_of.
  destruct (JS.get (items c) k) as [e|] eqn:E; [|discriminate].
  intros _. eapply get_In; eauto.
Qed.

Lemma mark_onChain_keeps keys g c :
  keeps_entries c (Registry.mark_onChain keys g c).
Proof.
  unfold Registry.mark_onChain. revert c.
  induction g as [|i rest IH]; intros c; simpl.
  - apply keeps_entries_refl.
  - eapply keeps_entries_trans; [apply keeps_entries_set_item|apply IH].
Qed.

Lemma mark_onChain_inv keys g c :
  cache_inv c ->
  (forall k, In k (group_keys keys g) -> has_link c k = true) ->
  cache_inv (Registry.mark_onChain keys g c).
Proof.
  intros Hinv Hl idx e Hget Hon.
  destruct (mark_onChain_unfold keys g c) as (_ & _ & Hg).
  rewrite Hg in Hget.
  destruct (JS.mem idx (group_keys keys g)) eqn:Hm.
  - apply mem_In in Hm. specialize (Hl idx Hm).
    inversion Hget; subst e. unfold has_link, link_of in Hl.
    destruct (JS.get (items c) idx); [exact Hl|discriminate].
  - now apply (Hinv idx).
Qed.

Lemma commit_group_inv w keys g st ok :
  let st' := fst (Registry.commit_group w keys g (st, ok)) in
  keeps_entries (cache st) (cache st') /\
  (cache_inv (cache st) ->
   (forall k, In k (group_keys keys g) -> has_link (cache st) k = true) ->
   cache_inv (cache st')) /\
  ((forall k, In k (group_keys keys g) -> has_link (cache st) k = true) ->
   JS.keys (items (cache st')) = JS.keys (items (cache st))).
Proof.
  unfold Registry.commit_group.
  destruct (Registry.all_onChain (cache st) keys g);
    [cbn [fst]; split; [apply keeps_entries_refl|auto]|].
  destruct (Registry.config_lines (cache st) keys g) as [lines|];
    [|cbn [fst]; split; [apply keeps_entries_refl|auto]].
  cbv zeta.
  destruct (addConfigLines w (trace st) (Registry.first_key keys g) lines);
    [|cbn [fst]; split; [apply keeps_entries_refl|auto]].
  cbn [fst saveCache emit with_cache cache].
  split; [apply mark_onChain_keeps|]. split.
  - apply mark_onChain_inv.
  - intros Hl. apply mark_onChain_keys. intros k Hk.
    apply has_link_In. now apply Hl.
Qed.

Lemma commit_all_inv w st :
  let st' := fst (Registry.commit_all w st) in
  keeps_entries (cache st) (cache st') /\
  (cache_inv (cache st) -> all_linked (cache st) ->
   cache_inv (cache st') /\ all_linked (cache st')).
Proof.
  rewrite commit_all_groups. cbv zeta.
  set (keys := JS.keys (items (cache st))).
  assert (H : forall gs acc,
             let acc' := commit_groups w keys gs acc in
             keeps_entries (cache (fst acc)) (cache (fst acc')) /\
             (forall k, link_of (cache (fst acc')) k
                        = link_of (cache (fst acc)) k) /\
             (cache_inv (cache (fst acc)) ->
              (forall g k, In g gs -> In k (group_keys keys g) ->
                           has_link (cache (fst acc)) k = true) ->
              cache_inv (cache (fst acc')) /\
              JS.keys (items (cache (fst acc')))
              = JS.keys (items (cache (fst acc))))).
  { unfold commit_groups.
    induction gs as [|g gs IH]; intros acc; simpl.
    - split; [apply keeps_entries_refl|auto].
    - destruct acc as [st1 ok1].
      destruct (commit_group_inv w keys g st1 ok1) as (Hk & Hi & Hkeys).
      destruct (IH (Registry.commit_group w keys g (st1, ok1)))
        as (Hk' & Hl' & Hi').
      cbn [fst] in *. split; [eapply keeps_entries_trans; eauto|].
      split.
      { intros k. rewrite Hl'. apply (commit_group_link_of w keys g (st1, ok1)). }
      intros Hinv Hl.
      destruct Hi' as [Hc Hsame].
      + apply Hi; [exact Hinv|]. intros k Hk0. apply (Hl g); auto.
      + intros g' k Hg' Hk0. unfold has_link.
        rewrite commit_group_link_of. cbn [fst].
        apply (Hl g'); auto.
      + split; [exact Hc|]. rewrite Hsame. apply Hkeys.
        intros k Hk0. apply (Hl g); auto. }
  specialize (H (groups_of (List.length keys)) (st, true)).
  cbv zeta in H.
  destruct (commit_groups w keys (groups_of (List.length keys)) (st, true))
    as [st' ok]. cbn [fst saveCache emit cache] in *.
  destruct H as (Hk & Hl & Hi). split; [exact Hk|].
  intros Hinv Hall.
  destruct Hi as [Hc Hsame]; [exact Hinv| |].
  { intros g k Hg Hk0. apply Hall. eapply group_keys_In; eauto. }
  split; [exact Hc|].
  intros idx Hin. rewrite Hsame in Hin. specialize (Hall idx Hin).
  unfold has_link in *. now rewrite Hl.
Qed.

(** C9 (amended). Recording an upload, by [upload_one_item] or by
    [saveManifestsWithLink], keeps the invariant that every entry on
    chain has a non-empty link, and no step removes an entry of the
    cache.  The registry committer marks the members of a written group
    on chain without looking at their links: it keeps the invariant for a
    group whose members all have a non-empty link.  Hence a run of
    [commands/upload.ts] that starts from a cache in which every entry
    has a non-empty link ends with such a cache, and the invariant holds
    at its end. *)
Theorem cache_invariant :
  (forall w totalNFTs storage retain mutable image i c0 st,
      let st' := fst (Upload.upload_one_item w totalNFTs storage retain
                                             mutable image i c0 st) in
      keeps_entries (cache st) (cache st') /\
      (cache_inv (cache st) -> cache_inv (cache st'))) /\
  (forall c manifests links indices,
      let c' := BundleUpload.saveManifestsWithLink c manifests links indices in
      keeps_entries c c' /\ (cache_inv c -> cache_inv c')) /\
  (forall w keys g st ok,
      let st' := fst (Registry.commit_group w keys g (st, ok)) in
      keeps_entries (cache st) (cache st') /\
      (cache_inv (cache st) ->
       (forall k, In k (group_keys keys g) -> has_link (cache st) k = true) ->
       cache_inv (cache st'))) /\
  (forall w saved files storage totalNFTs retain mutable,
      let c0 := match saved with Some c => c | None => empty_cache end in
      let st := fst (Upload.upload w saved files storage
                                   totalNFTs retain mutable) in
      keeps_entries c0 (cache st) /\
      (cache_inv c0 -> all_linked c0 ->
       cache_inv (cache st) /\ all_linked (cache st))).
Proof.
  split.
  { intros w totalNFTs storage retain mutable image i c0 st st'.
    destruct (one_item_summary w totalNFTs storage retain mutable
                image i c0 st) as (evs & (_ & _ & _ & Hk & _ & Hi & _) & _).
    split; assumption. }
  split.
  { intros c manifests links indices c'.
    apply saveManifestsWithLink_from_inv. }
  split.
  { intros w keys g st ok st'.
    destruct (commit_group_inv w keys g st ok) as (Hk & Hi & _).
    split; assumption. }
  intros w saved files storage totalNFTs retain mutable c0 st. subst st.
  rewrite upload_phases.
  set (st0 := {| cache := match saved with
                          | Some c => c
                          | None => empty_cache
                          end;
                 trace := [] |}).
  subst c0.
  change (match saved with Some c => c | None => empty_cache end)
    with (cache st0).
  clearbody st0.
  set (images := Upload.images_of w (cache st0) files).
  destruct (windows_summary w totalNFTs storage retain mutable
              images (Upload.window_size storage)
              (Upload.window_starts storage (List.length images)) st0 true)
    as (evs & (_ & _ & _ & Hk & _ & Hi & Ha) & _).
  destruct (snd (Upload.upload_windows _ _ _ _ _ _ _ _ st0 _)) as [fl|e];
    cbn [fst].
  - destruct (commit_all_inv w
                (fst (Upload.upload_windows w totalNFTs storage retain mutable
                        images (Upload.window_size storage)
                        (Upload.window_starts storage (List.length images))
                        st0 true))) as [Hk2 Hi2].
    split; [eapply keeps_entries_trans; [exact Hk|exact Hk2]|].
    intros Hinv Hall. apply Hi2; auto.
  - split; [exact Hk|]. intros Hinv Hall. split; auto.
Qed.

(* ================================================================== *)
(** * The properties on the sample worlds *)
(* ================================================================== *)

Lemma distinct_NoDup l : distinct l = true -> NoDup l.
Proof.
  induction l as [|x l IH]; simpl; [constructor|].
  intros H. apply andb_true_iff in H. destruct H as [Hx Hl].
  constructor; [|now apply IH].
  intros Hin. apply mem_In in Hin. rewrite Hin in Hx. discriminate.
Qed.

Lemma size_bounded_batches_witness :
  Forall (small Samples.fair) ["0"; "1"; "2"] /\
  ArweaveBundle.plan_batches Samples.fair ["0"; "1"; "2"]
  = Some (Returned [["0"]; ["1"; "2"]]) /\
  exists batches,
    ArweaveBundle.plan_batches Samples.fair ["0"; "1"; "2"]
    = Some (Returned batches) /\
    List.concat batches = ["0"; "1"; "2"] /\
    Forall (fun b => b <> []) batches.
Proof.
  assert (Hsmall : Forall (small Samples.fair) ["0"; "1"; "2"]).
  { repeat (constructor; [eexists; split; reflexivity|]). constructor. }
  destruct size_bounded_batches as [Hex Hall].
  split; [exact Hsmall|]. split.
  - apply Hex; reflexivity.
  - destruct (Hall Samples.fair ["0"; "1"; "2"])
      as (res & Hp & Hret & Hprops).
    destruct (Hret Hsmall) as [batches ->].
    destruct (Hprops batches eq_refl) as (Hc & Hne & _).
    exists batches. auto.
Defined.

Lemma oversized_item_is_fatal_witness :
  png_size Samples.oversized "1" = Some (60 * Samples.MB)%N /\
  (ArweaveBundle.BATCH_SIZE_LIMIT <= 60 * Samples.MB)%N /\
  In "1" ["0"; "1"; "2"] /\
  ArweaveBundle.plan_batches Samples.oversized ["0"; "1"; "2"]
  = Some (Raised ItemTooBig) /\
  exists e,
    BundleUpload.upload Samples.oversized None (Samples.png_files 3)
                        BundleUpload.ArweaveNative 3 true true
    = Some ({| cache := empty_cache; trace := [] |}, Raised e).
Proof.
  assert (Hs : png_size Samples.oversized "1" = Some (60 * Samples.MB)%N)
    by reflexivity.
  assert (Hbig : (ArweaveBundle.BATCH_SIZE_LIMIT <= 60 * Samples.MB)%N)
    by (vm_compute; discriminate).
  assert (Hin : In "1" ["0"; "1"; "2"]) by (right; left; reflexivity).
  destruct (oversized_item_is_fatal Samples.oversized "1" _ Hs Hbig)
    as [Hplan Hrun].
  split; [exact Hs|]. split; [exact Hbig|]. split; [exact Hin|]. split.
  - destruct (Hplan _ Hin) as (e & He & Hk & _).
    rewrite He. rewrite Hk; [reflexivity|].
    repeat (constructor; [eexists; reflexivity|]). constructor.
  - apply (Hrun None (Samples.png_files 3) 3%N true true).
    vm_compute. right. left. reflexivity.
Defined.

Lemma bundle_all_or_nothing_witness :
  exists st,
    BundleUpload.upload Samples.manifests_rejected None (Samples.png_files 3)
                        BundleUpload.ArweaveNative 3 true true
    = Some (st, Raised BundleRejected) /\
    In (EvBundle (Images ["0"]) (Some ["0-image"])) (trace st) /\
    cache st = empty_cache /\
    (forall c, ~ In (EvSaveCache c) (trace st)) /\
    (forall item, In item ["0"] -> has_link (cache st) item = false).
Proof.
  eassert (E : BundleUpload.upload Samples.manifests_rejected None
                 (Samples.png_files 3) BundleUpload.ArweaveNative 3 true true
               = Some (_, _)) by (vm_compute; reflexivity).
  eexists. split; [exact E|].
  destruct (bundle_all_or_nothing _ _ _ _ _ _ _ _ E) as [Hfail _].
  edestruct Hfail as (_ & Hc & Hs & Hl).
  - vm_compute. reflexivity.
  - left. reflexivity.
  - simpl. left. reflexivity.
  - vm_compute. reflexivity.
  - simpl. right. left. reflexivity.
  - split; [simpl; left; reflexivity|]. split; [exact Hc|].
    split; [exact Hs|exact Hl].
Defined.

Lemma registry_group_idempotence_witness :
  let st := {| cache := Samples.cache_of 25 10; trace := [] |} in
  let keys := JS.keys (items (cache st)) in
  NoDup keys /\
  List.length keys = 25 /\
  (forall i, i < 10 -> onChain_of (cache st) (Registry.key_at keys i) = true) /\
  (forall i, 10 <= i < 25 ->
             onChain_of (cache st) (Registry.key_at keys i) = false) /\
  writes (trace (fst (Registry.commit_all Samples.group_10_rejected st))) = 2 /\
  write_keys (trace (fst (Registry.commit_all Samples.group_10_rejected st)))
  = ["10"; "20"].
Proof.
  intros st keys.
  assert (Hnd : NoDup keys) by (apply distinct_NoDup; vm_compute; reflexivity).
  assert (Hlen : List.length keys = 25) by reflexivity.
  assert (Hon : forall i, i < 10 ->
                  onChain_of (cache st) (Registry.key_at keys i) = true).
  { intros i Hi. do 10 (destruct i as [|i]; [reflexivity|]). lia. }
  assert (Hoff : forall i, 10 <= i < 25 ->
                   onChain_of (cache st) (Registry.key_at keys i) = false).
  { intros i Hi. do 25 (destruct i as [|i]; [try reflexivity; lia|]). lia. }
  destruct registry_group_idempotence as (_ & _ & _ & H).
  destruct (H Samples.group_10_rejected st Hnd Hlen Hon Hoff) as [Hw Hk].
  repeat split; auto.
Defined.

Lemma failed_group_left_untouched_witness :
  let st := {| cache := Samples.cache_of 25 10; trace := [] |} in
  let keys := JS.keys (items (cache st)) in
  let st' := fst (Registry.commit_all Samples.group_10_rejected st) in
  NoDup keys /\
  In (seq 10 10) (groups_of (List.length keys)) /\
  (exists lines, In (EvAddConfigLines "10" lines false) (trace st')) /\
  (forall k, In k (group_keys keys (seq 10 10)) ->
             JS.get (items (cache st')) k = JS.get (items (cache st)) k) /\
  forallb (onChain_of (cache st')) (group_keys keys (seq 10 10)) = false /\
  JS.keys (items (cache st')) = keys.
Proof.
  intros st keys st'.
  assert (Hnd : NoDup keys) by (apply distinct_NoDup; vm_compute; reflexivity).
  assert (Hg : In (seq 10 10) (groups_of (List.length keys)))
    by (right; left; reflexivity).
  eassert (Hev : In (EvAddConfigLines "10" _ false) (trace st'))
    by (vm_compute; left; reflexivity).
  destruct failed_group_left_untouched as [_ H].
  destruct (H Samples.group_10_rejected st (trace st') (seq 10 10) _
              Hnd eq_refl Hg Hev) as (Hsame & Hall & Hkeys).
  split; [exact Hnd|]. split; [exact Hg|]. split; [eexists; exact Hev|].
  split; [exact Hsame|]. split; [exact Hall|exact Hkeys].
Defined.



Lemma idempotent_resume_witness :
  let c := Samples.cache_of 3 3 in
  NoDup (JS.keys (items c)) /\
  (forall k, In k (JS.keys (items c)) ->
             has_link c k = true /\ onChain_of c k = true) /\
  (let st := fst (Upload.upload Samples.fair (Some c) (Samples.png_files 3)
                                "arweave" 3 true true) in
   uploads (trace st) = 0 /\ writes (trace st) = 0) /\
  (exists st r,
      BundleUpload.upload Samples.fair (Some c) (Samples.png_files 3)
                          BundleUpload.ArweaveNative 3 true true
      = Some (st, r) /\
      uploads (trace st) = 0 /\ writes (trace st) = 0).
Proof.
  intros c.
  assert (Hnd : NoDup (JS.keys (items c)))
    by (apply distinct_NoDup; vm_compute; reflexivity).
  assert (Hdone : forall k, In k (JS.keys (items c)) ->
                    has_link c k = true /\ onChain_of c k = true).
  { intros k Hk. assert (Hin : In k ["0"; "1"; "2"]) by exact Hk.
    simpl in Hin. destruct Hin as [<-|[<-|[<-|[]]]]; split; reflexivity. }
  destruct (idempotent_resume Samples.fair c (Samples.png_files 3) Hnd Hdone)
    as [Hold Hnew].
  split; [exact Hnd|]. split; [exact Hdone|]. split.
  - apply Hold. intros img Himg.
    assert (Hin : In img ["0.png"; "1.png"; "2.png"]) by exact Himg.
    simpl in Hin. destruct Hin as [<-|[<-|[<-|[]]]]; reflexivity.
  - apply Hnew. intros f Hf.
    assert (Hin : In f ["0.png"; "1.png"; "2.png"]) by exact Hf.
    simpl in Hin. destruct Hin as [<-|[<-|[<-|[]]]]; reflexivity.
Defined.

Lemma item_selector_witness :
  let items := items Samples.cache_unlinked ++ [Samples.entry 2 true] in
  (NoDup (JS.keys items) /\
   BundleUpload.getItemsNeedingUpload Samples.fair items
     ["3.png"; "2.png"; "3.png"; "0.png"]
   = ["0"; "1"; "3"]) /\
  (has_link (Samples.cache_of 3 0) "2" = true /\
   In "2.png" (Upload.images_of Samples.fair (Samples.cache_of 3 0)
                                ["a/1.png"; "b/1.png"; "0.png"])).
Proof.
  intros items.
  destruct item_selector as [Hsel Himg].
  split.
  - assert (Hnd : NoDup (JS.keys items))
      by (apply distinct_NoDup; vm_compute; reflexivity).
    destruct (Hsel Samples.fair items
                ["3.png"; "2.png"; "3.png"; "0.png"]) as (_ & _ & _ & H).
    split; [exact Hnd|]. rewrite (H Hnd). reflexivity.
  - split; [reflexivity|].
    destruct (Himg Samples.fair (Samples.cache_of 3 0)
                ["a/1.png"; "b/1.png"; "0.png"]) as (_ & _ & H).
    apply (H "2"); [vm_compute; tauto|reflexivity|reflexivity].
Defined.

(** C8, where the statement fails: for a cache whose entries 0 and 1
    have a link and the files [5.png] and [1.png], the selection of
    [commands/upload.ts] lists the files first and then the cache key
    that is the key of no file, as images, although items 0 and 1 have a
    link; the selection that the statement describes is item 5 alone,
    which is what [getItemsNeedingUpload] yields. *)
Lemma item_selector_counterexample :
  let c := Samples.cache_of 2 0 in
  let files := ["5.png"; "1.png"] in
  has_link c "0" = true /\ has_link c "1" = true /\
  Upload.images_of Samples.fair c files = ["5.png"; "1.png"; "0.png"] /\
  select_pending Samples.fair (items c) files = ["5"] /\
  BundleUpload.getItemsNeedingUpload Samples.fair (items c) files = ["5"].
Proof. repeat split. Qed.

Lemma cache_inv_b_sound c : cache_inv_b c = true -> cache_inv c.
Proof.
  unfold cache_inv_b, cache_inv. intros H idx e Hget Hon.
  rewrite forallb_forall in H.
  assert (Hin : In (idx, e) (items c)).
  { clear -Hget. induction (items c) as [|[k v] o IH]; simpl in *;
      [discriminate|].
    destruct (String.eqb_spec idx k) as [->|Hne].
    - inversion Hget; subst. now left.
    - right. now apply IH. }
  specialize (H _ Hin). simpl in H. rewrite Hon in H. exact H.
Qed.

Lemma aggregate_success_flag_witness :
  (exists st fl,
      Upload.upload Samples.third_item_fails None (Samples.png_files 5)
                    "arweave" 5 true true = (st, Returned fl) /\
      (fl = true <-> forall ev, In ev (trace st) -> is_failure ev = false)) /\
  (exists st r,
      BundleUpload.upload Samples.item_1_fails None (Samples.png_files 3)
                          (BundleUpload.Single Ipfs) 3 true true
      = Some (st, r) /\
      In (EvUpload Ipfs "1" Throws) (trace st) /\
      r = Raised (UploadRejected "1")).
Proof.
  destruct aggregate_success_flag as [Hold Hnew].
  split.
  - destruct (Hold Samples.third_item_fails None (Samples.png_files 5)
                "arweave" 5%N true true) as [Hiff Hret].
    { constructor. }
    destruct Hret as (st & fl & Hrun).
    { apply Forall_forall. intros img _. unfold readable. discriminate. }
    { intros tr d. discriminate. }
    exists st, fl. split; [exact Hrun|]. now apply Hiff.
  - eassert (E : BundleUpload.upload Samples.item_1_fails None
                   (Samples.png_files 3) (BundleUpload.Single Ipfs)
                   3 true true = Some (_, _)) by (vm_compute; reflexivity).
    destruct (Hnew _ _ _ _ _ _ _ _ _ E) as [Hthrows _].
    eexists. eexists. split; [exact E|].
    assert (Hin : In (EvUpload Ipfs "1" Throws)
                     [EvUpload Ipfs "0" (Returns (Some "https://arweave.net/0"));
                      EvUpload Ipfs "1" Throws])
      by (right; left; reflexivity).
    split; [exact Hin|]. exact (Hthrows Ipfs "1" Hin).
Defined.

(** C5, where the statement fails: in the bundle-capable command the
    failed upload of one item makes the run raise; and a run in which a
    registry write is rejected returns the value without flag that a run
    without failure returns. *)
Lemma aggregate_success_flag_counterexample :
  (exists st,
      BundleUpload.upload Samples.item_1_fails None (Samples.png_files 3)
                          (BundleUpload.Single Ipfs) 3 true true
      = Some (st, Raised (UploadRejected "1")) /\
      In (EvUpload Ipfs "1" Throws) (trace st)) /\
  (exists st lines,
      BundleUpload.upload Samples.group_10_rejected
                          (Some (Samples.cache_of 25 10))
                          (Samples.png_files 25)
                          BundleUpload.ArweaveNative 25 true true
      = Some (st, Returned tt) /\
      In (EvAddConfigLines "10" lines false) (trace st)).
Proof.
  split.
  - eexists. split; [vm_compute; reflexivity|].
    simpl. right. left. reflexivity.
  - eexists. eexists. split; [vm_compute; reflexivity|].
    simpl. left. reflexivity.
Qed.

Lemma cache_invariant_witness :
  let st := {| cache := Samples.cache_of 25 10; trace := [] |} in
  let keys := JS.keys (items (cache st)) in
  cache_inv (cache st) /\
  (forall k, In k (group_keys keys (seq 10 10)) ->
             has_link (cache st) k = true) /\
  cache_inv
    (cache (fst (Registry.commit_group Samples.fair keys (seq 10 10)
                                       (st, true)))) /\
  cache_inv empty_cache /\ all_linked empty_cache /\
  cache_inv
    (cache (fst (Upload.upload Samples.third_item_fails None
                               (Samples.png_files 5) "arweave" 5 true true))).
Proof.
  intros st keys.
  assert (Hinv : cache_inv (cache st))
    by (apply cache_inv_b_sound; vm_compute; reflexivity).
  assert (Hl : forall k, In k (group_keys keys (seq 10 10)) ->
                         has_link (cache st) k = true).
  { intros k Hk.
    assert (Hin : In k ["10"; "11"; "12"; "13"; "14";
                        "15"; "16"; "17"; "18"; "19"]) by exact Hk.
    simpl in Hin.
    repeat (destruct Hin as [<-|Hin]; [reflexivity|]). contradiction. }
  assert (Hinv0 : cache_inv empty_cache) by (intros idx e H; discriminate).
  assert (Hall0 : all_linked empty_cache) by (intros idx H; contradiction).
  destruct cache_invariant as (_ & _ & Hgroup & Hrun).
  destruct (Hgroup Samples.fair keys (seq 10 10) st true) as [_ Hg].
  destruct (Hrun Samples.third_item_fails None (Samples.png_files 5)
              "arweave" 5%N true true) as [_ Hr].
  split; [exact Hinv|]. split; [exact Hl|]. split; [now apply Hg|].
  split; [exact Hinv0|]. split; [exact Hall0|].
  apply Hr; assumption.
Defined.

(** C9, where the statement fails: a cache with an entry without link
    and an entry with an empty link, neither on chain, satisfies the
    invariant; the uploads of the run fail, the registry accepts the
    write of the group, and the run of [commands/upload.ts] ends with both
    entries on chain, without a non-empty link. *)
Lemma cache_invariant_counterexample :
  let st := fst (Upload.upload Samples.uploads_fail
                               (Some Samples.cache_unlinked) []
                               "arweave" 2 true true) in
  cache_inv Samples.cache_unlinked /\
  JS.get (items (cache st)) "0"
  = Some {| link := None; name := Some "zero"; onChain := true |} /\
  JS.get (items (cache st)) "1"
  = Some {| link := Some ""; name := Some "one"; onChain := true |} /\
  ~ cache_inv (cache st).
Proof.
  intros st.
  assert (H0 : JS.get (items (cache st)) "0"
               = Some {| link := None; name := Some "zero"; onChain := true |})
    by (vm_compute; reflexivity).
  split; [apply cache_inv_b_sound; reflexivity|].
  split; [exact H0|]. split; [vm_compute; reflexivity|].
  intros Hinv. specialize (Hinv "0" _ H0 eq_refl). discriminate.
Qed.
(* ================================================================== *)
(** * Registry committer: the groups in closed form *)
(* ================================================================== *)

Section PiecesAgain.

Context {A : Type}.

Lemma pieces_nil s : 0 < s -> pieces s (@nil A) = [].
Proof.
  intros Hs. unfold pieces. simpl.
  rewrite Nat.div_small by lia. reflexivity.
Qed.

Lemma pieces_count_step n s :
  0 < s -> 0 < n -> (n + s - 1) / s = S ((n - s + s - 1) / s).
Proof.
  intros Hs Hn. destruct (Nat.le_gt_cases n s) as [Hle|Hgt].
  - replace (n - s) with 0 by lia. simpl.
    rewrite (Nat.div_small (s - 1) s) by lia.
    replace (n + s - 1) with ((n - 1) + 1 * s) by lia.
    rewrite Nat.div_add by lia. rewrite Nat.div_small by lia. reflexivity.
  - replace (n + s - 1) with ((n - s + s - 1) + 1 * s) by lia.
    rewrite Nat.div_add by lia. lia.
Qed.

Lemma pieces_step s (l : list A) :
  0 < s -> l <> [] ->
  pieces s l = firstn s l :: pieces s (skipn s l).
Proof.
  intros Hs Hl. unfold pieces.
  rewrite (pieces_count_step (List.length l) s Hs).
  2:{ destruct l; [congruence|simpl; lia]. }
  rewrite length_skipn. cbn [seq map]. f_equal.
  rewrite <- seq_shift, map_map. apply map_ext. intros k.
  rewrite skipn_skipn. f_equal. f_equal. lia.
Qed.

Lemma pieces_app s m :
  0 < s ->
  forall l1 l2 : list A,
    List.length l1 = m * s ->
    pieces s (l1 ++ l2) = pieces s l1 ++ pieces s l2.
Proof.
  intros Hs. induction m as [|m IH]; intros l1 l2 Hlen.
  - destruct l1; [|discriminate]. now rewrite pieces_nil.
  - assert (Hne : l1 <> []).
    { intros ->. simpl in Hlen. lia. }
    assert (Hne' : l1 ++ l2 <> []).
    { destruct l1; [congruence|discriminate]. }
    rewrite (pieces_step s (l1 ++ l2) Hs Hne').
    rewrite (pieces_step s l1 Hs Hne).
    rewrite firstn_app, skipn_app.
    replace (s - List.length l1) with 0 by (simpl in Hlen; lia).
    simpl firstn. simpl skipn at 2. rewrite app_nil_r.
    simpl. f_equal. apply IH.
    rewrite length_skipn. simpl in Hlen. lia.
Qed.

(** Cutting into pieces of [m * s] and each of them into pieces of [s]
    is cutting into pieces of [s]. *)
Lemma pieces_pieces s m :
  0 < s -> 0 < m ->
  forall l : list A,
    List.concat (map (pieces s) (pieces (m * s) l)) = pieces s l.
Proof.
  intros Hs Hm.
  assert (Hms : 0 < m * s) by now apply Nat.mul_pos_pos.
  assert (H : forall n (l : list A),
             List.length l <= n ->
             List.concat (map (pieces s) (pieces (m * s) l)) = pieces s l).
  { induction n as [|n IH]; intros l Hlen.
    - destruct l; [|simpl in Hlen; lia].
      rewrite !pieces_nil by assumption. reflexivity.
    - destruct l as [|x l]; [rewrite !pieces_nil by assumption; reflexivity|].
      rewrite (pieces_step (m * s) (x :: l)) by (assumption || discriminate).
      cbn [map List.concat]. rewrite IH.
      2:{ rewrite length_skipn. cbn [List.length] in *. lia. }
      destruct (Nat.le_gt_cases (List.length (x :: l)) (m * s)) as [Hle|Hgt].
      + rewrite firstn_all2, skipn_all2 by exact Hle.
        rewrite pieces_nil by exact Hs. apply app_nil_r.
      + rewrite <- (pieces_app s m Hs).
        * now rewrite firstn_skipn.
        * rewrite length_firstn. lia. }
  intros l. now apply (H (List.length l)).
Qed.

End PiecesAgain.

Lemma firstn_seq n : forall a len, firstn n (seq a len) = seq a (Nat.min n len).
Proof.
  induction n as [|n IH]; intros a len; [reflexivity|].
  destruct len as [|len]; [reflexivity|]. simpl. now rewrite IH.
Qed.

Lemma pieces_seq n :
  pieces 10 (seq 0 n) = map (ten n) (seq 0 ((n + 9) / 10)).
Proof.
  unfold pieces, ten. rewrite length_seq.
  replace (n + 10 - 1) with (n + 9) by lia.
  apply map_ext. intros j.
  rewrite skipn_seq, firstn_seq. f_equal; lia.
Qed.

(** The groups that the nested loops visit are the tens of positions. *)
Lemma groups_of_tens n : groups_of n = map (ten n) (seq 0 ((n + 9) / 10)).
Proof.
  rewrite <- pieces_seq. unfold groups_of.
  rewrite flat_map_concat_map.
  erewrite map_ext.
  2:{ intros sl. apply offsets_pieces. }
  rewrite chunks_pieces.
  exact (pieces_pieces 10 100 ltac:(lia) ltac:(lia) (seq 0 n)).
Qed.

(* ================================================================== *)
(** * Registry committer: what a run changes and what it sends *)
(* ================================================================== *)

Lemma marks_only_refl c : marks_only c c.
Proof.
  unfold marks_only. repeat split; auto.
  intros k. destruct (JS.get (items c) k); auto.
Qed.

Lemma marks_only_trans c1 c2 c3 :
  marks_only c1 c2 -> marks_only c2 c3 -> marks_only c1 c3.
Proof.
  intros (Hp1 & Ha1 & Hk1 & Hg1) (Hp2 & Ha2 & Hk2 & Hg2).
  unfold marks_only.
  split; [congruence|]. split; [congruence|]. split; [congruence|].
  intros k. specialize (Hg1 k). specialize (Hg2 k).
  destruct (JS.get (items c1) k) as [e1|], (JS.get (items c2) k) as [e2|],
           (JS.get (items c3) k) as [e3|]; try tauto.
  destruct Hg1 as (? & ? & ?), Hg2 as (? & ? & ?).
  repeat split; try congruence; auto.
Qed.

Lemma marks_only_mark keys g c :
  (forall k, In k (group_keys keys g) -> In k (JS.keys (items c))) ->
  marks_only c (Registry.mark_onChain keys g c).
Proof.
  intros Hkeys.
  destruct (mark_onChain_unfold keys g c) as (Hp & Ha & Hg).
  unfold marks_only. split; [exact Hp|]. split; [exact Ha|].
  split; [now apply mark_onChain_keys|].
  intros k. rewrite Hg.
  destruct (JS.mem k (group_keys keys g)) eqn:Hm.
  - apply mem_In in Hm. destruct (In_get _ _ (Hkeys k Hm)) as [e He].
    rewrite He. simpl. auto.
  - destruct (JS.get (items c) k); auto.
Qed.

Lemma marks_only_link_of c c' k : marks_only c c' -> link_of c' k = link_of c k.
Proof.
  intros (_ & _ & _ & Hg). unfold link_of. specialize (Hg k).
  destruct (JS.get (items c) k), (JS.get (items c') k); try tauto.
Qed.

Lemma marks_only_onChain c c' k :
  marks_only c c' -> onChain_of c k = true -> onChain_of c' k = true.
Proof.
  intros (_ & _ & _ & Hg). unfold onChain_of. specialize (Hg k).
  destruct (JS.get (items c) k), (JS.get (items c') k); tauto.
Qed.

Lemma config_lines_marks keys g c c' :
  marks_only c c' ->
  Registry.config_lines c' keys g = Registry.config_lines c keys g.
Proof.
  intros Hm. induction g as [|i rest IH]; simpl; [reflexivity|].
  destruct Hm as (_ & _ & _ & Hg). specialize (Hg (Registry.key_at keys i)).
  destruct (JS.get (items c) _) as [e|], (JS.get (items c') _) as [e'|];
    try tauto.
  rewrite IH. destruct Hg as (-> & -> & _). reflexivity.
Qed.

Lemma config_lines_nth keys c :
  forall g lines,
    Registry.config_lines c keys g = Some lines ->
    List.length lines = List.length g /\
    forall i idx,
      nth_error g i = Some idx ->
      exists e,
        JS.get (items c) (Registry.key_at keys idx) = Some e /\
        nth_error lines i = Some {| uri := link e; line_name := name e |}.
Proof.
  induction g as [|x g IH]; intros lines H; simpl in H.
  - inversion H; subst. split; [reflexivity|]. intros [|i] idx; discriminate.
  - destruct (JS.get (items c) (Registry.key_at keys x)) as [e|] eqn:He;
      [|discriminate].
    destruct (Registry.config_lines c keys g) as [ls|]; [|discriminate].
    inversion H; subst. destruct (IH ls eq_refl) as [Hlen Hnth].
    split; [simpl; now rewrite Hlen|].
    intros [|i] idx Hi; simpl in Hi.
    + inversion Hi; subst. exists e. auto.
    + simpl. now apply Hnth.
Qed.

Section Run.

Variable w : World.
Variable keys : list string.

Lemma commit_group_marks g st ok :
  (forall k, In k (group_keys keys g) -> In k (JS.keys (items (cache st)))) ->
  marks_only (cache st) (cache (fst (Registry.commit_group w keys g (st, ok)))).
Proof.
  intros Hkeys.
  destruct (commit_group_cases w keys g st ok Hkeys)
    as [[_ ->]|[_ (lines & _ & Hr)]]; [apply marks_only_refl|].
  cbv zeta in Hr.
  destruct (addConfigLines w (trace st) (Registry.first_key keys g) lines);
    rewrite Hr; cbn [fst saveCache emit with_cache cache].
  - now apply marks_only_mark.
  - apply marks_only_refl.
Qed.

Lemma commit_groups_marks gs :
  forall st ok,
    (forall g k, In g gs -> In k (group_keys keys g) ->
                 In k (JS.keys (items (cache st)))) ->
    marks_only (cache st) (cache (fst (commit_groups w keys gs (st, ok)))).
Proof.
  unfold commit_groups.
  induction gs as [|g rest IH]; intros st ok Hkeys; cbn [fold_left].
  - apply marks_only_refl.
  - pose proof (commit_group_marks g st ok
                  (fun k => Hkeys g k (or_introl eq_refl))) as H0.
    destruct (Registry.commit_group w keys g (st, ok)) as [st1 ok1].
    cbn [fst] in H0. eapply marks_only_trans; [exact H0|].
    apply IH. intros g' k Hg' Hk.
    destruct H0 as (_ & _ & -> & _). apply (Hkeys g'); [now right|exact Hk].
Qed.

(** Every write call of the loop: its group, the cache at the time of the
    call, and the event that follows it. *)
Lemma commit_groups_events gs :
  forall st ok,
    (forall g k, In g gs -> In k (group_keys keys g) ->
                 In k (JS.keys (items (cache st)))) ->
    exists evs,
      continues st (fst (commit_groups w keys gs (st, ok))) evs /\
      forall i ind lines r,
        nth_error evs i = Some (EvAddConfigLines ind lines r) ->
        exists g c,
          In g gs /\ ind = Registry.first_key keys g /\
          marks_only (cache st) c /\
          Registry.config_lines c keys g = Some lines /\
          nth_error evs (S i)
          = Some (if r then EvSaveCache (Registry.mark_onChain keys g c)
                  else EvLogError ind).
Proof.
  unfold commit_groups.
  induction gs as [|g rest IH]; intros st ok Hkeys; cbn [fold_left].
  - exists []. unfold continues. cbn [fst]. rewrite app_nil_r.
    split; [reflexivity|]. intros [|i]; discriminate.
  - pose proof (commit_group_marks g st ok
                  (fun k => Hkeys g k (or_introl eq_refl))) as Hm.
    assert (Hrest : forall st1,
               marks_only (cache st) (cache st1) ->
               forall g' k, In g' rest -> In k (group_keys keys g') ->
                            In k (JS.keys (items (cache st1)))).
    { intros st1 (_ & _ & -> & _) g' k Hg' Hk.
      apply (Hkeys g'); [now right|exact Hk]. }
    destruct (commit_group_cases w keys g st ok
                (fun k => Hkeys g k (or_introl eq_refl)))
      as [[_ E]|[_ (lines & Hl & Hr)]].
    + rewrite E in *. destruct (IH st ok (Hrest st Hm)) as (evs & Hc & Hev).
      exists evs. split; [exact Hc|].
      intros i ind ls r Hi.
      destruct (Hev i ind ls r Hi) as (g' & c & Hg' & H).
      exists g', c. split; [now right|exact H].
    + cbv zeta in Hr.
      set (ind0 := Registry.first_key keys g) in *.
      destruct (addConfigLines w (trace st) ind0 lines) eqn:Hrpc;
        rewrite Hr in *; clear Hr; cbn [fst] in Hm.
      * match goal with
        | |- context [fold_left _ rest (?s, ok)] => set (st1 := s) in *
        end.
        destruct (IH st1 ok (Hrest st1 Hm)) as (evs & Hc & Hev).
        exists (EvAddConfigLines ind0 lines true
                  :: EvSaveCache (Registry.mark_onChain keys g (cache st))
                  :: evs).
        split.
        { unfold continues in *. rewrite Hc. unfold st1. simpl.
          now rewrite <- !app_assoc. }
        intros [|[|i]] ind ls r Hi; simpl in Hi.
        -- inversion Hi; subst. exists g, (cache st).
           split; [now left|]. split; [reflexivity|].
           split; [apply marks_only_refl|]. split; [exact Hl|reflexivity].
        -- discriminate.
        -- destruct (Hev i ind ls r Hi) as (g' & c & Hg' & Hi' & Hmc & H).
           exists g', c. split; [now right|]. split; [exact Hi'|].
           split; [eapply marks_only_trans; [exact Hm|exact Hmc]|exact H].
      * match goal with
        | |- context [fold_left _ rest (?s, false)] => set (st1 := s) in *
        end.
        destruct (IH st1 false (Hrest st1 Hm)) as (evs & Hc & Hev).
        exists (EvAddConfigLines ind0 lines false :: EvLogError ind0 :: evs).
        split.
        { unfold continues in *. rewrite Hc. unfold st1. simpl.
          now rewrite <- !app_assoc. }
        intros [|[|i]] ind ls r Hi; simpl in Hi.
        -- inversion Hi; subst. exists g, (cache st).
           split; [now left|]. split; [reflexivity|].
           split; [apply marks_only_refl|]. split; [exact Hl|reflexivity].
        -- discriminate.
        -- destruct (Hev i ind ls r Hi) as (g' & c & Hg' & Hi' & Hmc & H).
           exists g', c. split; [now right|]. split; [exact Hi'|].
           split; [eapply marks_only_trans; [exact Hm|exact Hmc]|exact H].
Qed.

(** A loop all of whose write calls are accepted. *)
Lemma commit_groups_accepted gs :
  (forall tr ind lines, addConfigLines w tr ind lines = true) ->
  forall st ok,
    (forall g k, In g gs -> In k (group_keys keys g) ->
                 In k (JS.keys (items (cache st)))) ->
    snd (commit_groups w keys gs (st, ok)) = ok /\
    forall g k, In g gs -> In k (group_keys keys g) ->
                onChain_of (cache (fst (commit_groups w keys gs (st, ok)))) k
                = true.
Proof.
  intros Hacc. unfold commit_groups.
  induction gs as [|g rest IH]; intros st ok Hkeys; cbn [fold_left].
  - split; [reflexivity|]. intros g k [].
  - pose proof (commit_group_marks g st ok
                  (fun k => Hkeys g k (or_introl eq_refl))) as Hm.
    assert (Hhere : snd (Registry.commit_group w keys g (st, ok)) = ok /\
                    forall k, In k (group_keys keys g) ->
                      onChain_of
                        (cache (fst (Registry.commit_group w keys g (st, ok))))
                        k = true).
    { destruct (commit_group_cases w keys g st ok
                  (fun k => Hkeys g k (or_introl eq_refl)))
        as [[Hall ->]|[_ (lines & _ & Hr)]].
      - split; [reflexivity|]. intros k Hk. cbn [fst].
        rewrite forallb_forall in Hall. now apply Hall.
      - cbv zeta in Hr. rewrite Hacc in Hr. rewrite Hr.
        split; [reflexivity|]. intros k Hk.
        cbn [fst saveCache emit with_cache cache].
        rewrite onChain_of_mark.
        apply (proj2 (mem_In k _)) in Hk. now rewrite Hk. }
    destruct (Registry.commit_group w keys g (st, ok)) as [st1 ok1].
    cbn [fst snd] in *. destruct Hhere as [-> Hon].
    destruct (IH st1 ok) as [Hok Hon'].
    { intros g' k Hg' Hk. destruct Hm as (_ & _ & -> & _).
      apply (Hkeys g'); [now right|exact Hk]. }
    split; [exact Hok|].
    intros g' k [<-|Hg'] Hk.
    + eapply marks_only_onChain; [|now apply Hon].
      apply commit_groups_marks.
      intros g' k' Hg' Hk'. destruct Hm as (_ & _ & -> & _).
      apply (Hkeys g'); [now right|exact Hk'].
    + now apply (Hon' g').
Qed.

(** A loop over groups that are on chain does nothing. *)
Lemma commit_groups_done gs :
  forall st ok,
    (forall g k, In g gs -> In k (group_keys keys g) ->
                 onChain_of (cache st) k = true) ->
    commit_groups w keys gs (st, ok) = (st, ok).
Proof.
  unfold commit_groups.
  induction gs as [|g rest IH]; intros st ok Hon; cbn [fold_left];
    [reflexivity|].
  assert (E : Registry.commit_group w keys g (st, ok) = (st, ok)).
  { unfold Registry.commit_group. rewrite all_onChain_forallb.
    replace (forallb _ _) with true; [reflexivity|].
    symmetry. apply forallb_forall. intros k Hk.
    apply (Hon g); [now left|exact Hk]. }
  rewrite E. apply IH. intros g' k Hg' Hk.
  apply (Hon g'); [now right|exact Hk].
Qed.

End Run.

Lemma groups_of_present c g k :
  In g (groups_of (List.length (JS.keys (items c)))) ->
  In k (group_keys (JS.keys (items c)) g) ->
  In k (JS.keys (items c)).
Proof. apply group_keys_In. Qed.

Lemma In_groups_of_ten n g :
  In g (groups_of n) <-> exists j, 10 * j < n /\ g = ten n j.
Proof.
  rewrite groups_of_tens, in_map_iff. split.
  - intros (j & <- & Hj). apply in_seq in Hj. exists j. split; [|reflexivity].
    destruct Hj as [_ Hj]. rewrite Nat.add_0_l in Hj.
    pose proof (Nat.div_mod_eq (n + 9) 10).
    pose proof (Nat.mod_upper_bound (n + 9) 10 ltac:(lia)). lia.
  - intros (j & Hj & ->). exists j. split; [reflexivity|].
    apply in_seq. split; [lia|]. rewrite Nat.add_0_l.
    pose proof (Nat.div_mod_eq (n + 9) 10).
    pose proof (Nat.mod_upper_bound (n + 9) 10 ltac:(lia)). lia.
Qed.

Lemma first_key_ten keys n j :
  10 * j < n -> Registry.first_key keys (ten n j) = Registry.key_at keys (10 * j).
Proof.
  intros Hj. unfold ten.
  destruct (Nat.min 10 (n - 10 * j)) eqn:E; [lia|reflexivity].
Qed.

(** The events of a commit run, but for the last save. *)
Lemma commit_all_events w st :
  let keys := JS.keys (items (cache st)) in
  exists st1 evs,
    Registry.commit_all w st = (saveCache st1, snd (Registry.commit_all w st)) /\
    continues st st1 evs /\
    marks_only (cache st) (cache st1) /\
    forall i ind lines r,
      nth_error evs i = Some (EvAddConfigLines ind lines r) ->
      exists j c,
        10 * j < List.length keys /\
        ind = Registry.key_at keys (10 * j) /\
        marks_only (cache st) c /\
        Registry.config_lines (cache st) keys (ten (List.length keys) j)
        = Some lines /\
        nth_error evs (S i)
        = Some (if r
                then EvSaveCache
                       (Registry.mark_onChain keys
                          (ten (List.length keys) j) c)
                else EvLogError ind).
Proof.
  intros keys. rewrite commit_all_groups. cbv zeta. fold keys.
  destruct (commit_groups_events w keys (groups_of (List.length keys)) st true)
    as (evs & Hc & Hev).
  { intros g k. apply groups_of_present. }
  pose proof (commit_groups_marks w keys (groups_of (List.length keys)) st true
                (fun g k => groups_of_present (cache st) g k)) as Hm.
  destruct (commit_groups w keys (groups_of (List.length keys)) (st, true))
    as [st1 ok]. cbn [fst snd] in *.
  exists st1, evs. split; [reflexivity|]. split; [exact Hc|].
  split; [exact Hm|].
  intros i ind lines r Hi.
  destruct (Hev i ind lines r Hi) as (g & c & Hg & -> & Hmc & Hl & Hnext).
  apply In_groups_of_ten in Hg. destruct Hg as (j & Hj & ->).
  exists j, c. split; [exact Hj|]. split; [now apply first_key_ten|].
  split; [exact Hmc|]. split; [|exact Hnext].
  now rewrite <- (config_lines_marks keys _ _ _ Hmc).
Qed.

Lemma commit_all_marks w st :
  marks_only (cache st) (cache (fst (Registry.commit_all w st))).
Proof.
  destruct (commit_all_events w st) as (st1 & evs & E & _ & Hm & _).
  rewrite E. exact Hm.
Qed.


(** The groups of positions that the nested loops of the registry
    committer go through ([writeIndices], and the last part of [upload]
    in [commands/upload.ts]: slices of 1000 positions, groups of 10
    within a slice) are the groups of ten consecutive positions
    [10 * j .. 10 * j + 9] of [Object.keys(cache.items)], each once, the
    last one possibly shorter: the boundary of a slice never splits a
    group.  With at most 1000 keys there is a single slice, and the
    committer is one loop over these groups in ascending order. *)
Theorem commit_all_single_loop :
  (forall n, groups_of n = map (ten n) (seq 0 ((n + 9) / 10))) /\
  (forall w st,
      let keys := JS.keys (items (cache st)) in
      let n := List.length keys in
      n <= 1000 ->
      Registry.commit_all w st
      = let (st', ok) :=
          fold_left (fun acc j => Registry.commit_group w keys (ten n j) acc)
                    (seq 0 ((n + 9) / 10)) (st, true) in
        (saveCache st', ok)).
Proof.
  split; [exact groups_of_tens|].
  intros w st keys n _. rewrite commit_all_groups. cbv zeta.
  unfold commit_groups. fold keys. fold n.
  rewrite groups_of_tens, fold_left_map. reflexivity.
Qed.

Lemma commit_all_single_loop_witness :
  let st := {| cache := Samples.cache_of 25 10; trace := [] |} in
  let keys := JS.keys (items (cache st)) in
  groups_of 25 = [seq 0 10; seq 10 10; seq 20 5] /\
  Registry.commit_all Samples.group_10_rejected st
  = let (st', ok) :=
      fold_left (fun acc j =>
                   Registry.commit_group Samples.group_10_rejected keys
                                         (ten 25 j) acc)
                [0; 1; 2] (st, true) in
    (saveCache st', ok).
Proof.
  intros st keys. destruct commit_all_single_loop as [Hg Hloop].
  split; [rewrite Hg; reflexivity|].
  apply (Hloop Samples.group_10_rejected st).
  vm_compute. repeat constructor.
Defined.

(** The registry committer changes nothing of the cache but [onChain]
    flags, and sets them only: after a commit run the program and the
    authority are as before, the keys are the same in the same order,
    and every entry has the link and the name it had and is on chain if
    it was. *)
Theorem committer_only_marks_on_chain :
  forall w st,
    let c := cache st in
    let c' := cache (fst (Registry.commit_all w st)) in
    program c' = program c /\
    authority c' = authority c /\
    JS.keys (items c') = JS.keys (items c) /\
    forall k e,
      JS.get (items c) k = Some e ->
      exists e',
        JS.get (items c') k = Some e' /\
        link e' = link e /\ name e' = name e /\
        (onChain e = true -> onChain e' = true).
Proof.
  intros w st c c'.
  destruct (commit_all_events w st) as (st1 & evs & E & _ & Hm & _).
  assert (Ec : c' = cache st1) by (unfold c'; now rewrite E).
  rewrite Ec. destruct Hm as (Hp & Ha & Hk & Hg).
  split; [exact Hp|]. split; [exact Ha|]. split; [exact Hk|].
  intros k e He. specialize (Hg k). fold c in Hg. rewrite He in Hg.
  destruct (JS.get (items (cache st1)) k) as [e'|]; [|contradiction].
  exists e'. tauto.
Qed.

Lemma committer_only_marks_on_chain_witness :
  exists e',
    JS.get (items (cache (fst (Registry.commit_all Samples.group_10_rejected
                                 {| cache := Samples.cache_of 25 10;
                                    trace := [] |})))) "20"
    = Some e' /\
    link e' = Some "https://arweave.net/20" /\
    name e' = Some "item 20".
Proof.
  destruct (committer_only_marks_on_chain Samples.group_10_rejected
              {| cache := Samples.cache_of 25 10; trace := [] |})
    as (_ & _ & _ & H).
  destruct (H "20" (snd (Samples.entry 20 false)) eq_refl)
    as (e' & He & Hl & Hn & _).
  exists e'. split; [exact He|]. split; [exact Hl|exact Hn].
Defined.

Lemma commit_all_accepted :
  forall w st,
    (forall tr ind lines, addConfigLines w tr ind lines = true) ->
    let st' := fst (Registry.commit_all w st) in
    snd (Registry.commit_all w st) = true /\
    (forall k, In k (JS.keys (items (cache st))) ->
               onChain_of (cache st') k = true) /\
    Registry.commit_all w st' = (saveCache st', true).
Proof.
  intros w st Hacc st'.
  set (keys := JS.keys (items (cache st))).
  assert (Hpres : forall g k,
             In g (groups_of (List.length keys)) ->
             In k (group_keys keys g) ->
             In k (JS.keys (items (cache st)))).
  { intros g k. apply groups_of_present. }
  destruct (commit_groups_accepted w keys (groups_of (List.length keys)) Hacc
              st true Hpres) as [Hok Hon].
  pose proof (commit_groups_marks w keys (groups_of (List.length keys)) st true
                Hpres) as Hm.
  assert (E : Registry.commit_all w st
              = (saveCache (fst (commit_groups w keys
                                   (groups_of (List.length keys)) (st, true))),
                 true)).
  { rewrite commit_all_groups. cbv zeta. fold keys.
    destruct (commit_groups w keys (groups_of (List.length keys)) (st, true))
      as [st1 ok]. cbn [fst snd] in *. now subst ok. }
  assert (Hall : forall k, In k keys -> onChain_of (cache st') k = true).
  { intros k Hk. unfold st'. rewrite E. cbn [fst saveCache emit cache].
    rewrite <- (groups_of_keys keys) in Hk. apply in_concat in Hk.
    destruct Hk as (ks & Hks & Hk). apply in_map_iff in Hks.
    destruct Hks as (g & <- & Hg). now apply (Hon g). }
  split; [now rewrite E|]. split; [exact Hall|].
  assert (Hkeys : JS.keys (items (cache st')) = keys).
  { unfold st'. rewrite E. cbn [fst saveCache emit cache].
    now destruct Hm as (_ & _ & -> & _). }
  rewrite commit_all_groups. cbv zeta. rewrite Hkeys.
  rewrite commit_groups_done; [reflexivity|].
  intros g k Hg Hk. apply Hall. eapply group_keys_In; eauto.
Qed.


(** When the registry accepts every write, a commit run returns a
    success flag that is still set, it leaves every entry of the cache on
    chain, and a commit run that follows it calls the registry for no
    group: it only saves the cache. *)
Theorem accepted_run_completes :
  forall w st,
    (forall tr ind lines, addConfigLines w tr ind lines = true) ->
    let st' := fst (Registry.commit_all w st) in
    snd (Registry.commit_all w st) = true /\
    (forall k, In k (JS.keys (items (cache st))) ->
               onChain_of (cache st') k = true) /\
    Registry.commit_all w st' = (saveCache st', true).
Proof. exact commit_all_accepted. Qed.

Lemma accepted_run_completes_witness :
  snd (Registry.commit_all Samples.fair
         {| cache := Samples.cache_of 25 10; trace := [] |}) = true /\
  onChain_of
    (cache (fst (Registry.commit_all Samples.fair
                   {| cache := Samples.cache_of 25 10; trace := [] |})))
    "24" = true /\
  writes
    (trace (fst (Registry.commit_all Samples.fair
                   (fst (Registry.commit_all Samples.fair
                           {| cache := Samples.cache_of 25 10;
                              trace := [] |})))))
  = 2.
Proof.
  destruct (accepted_run_completes Samples.fair
              {| cache := Samples.cache_of 25 10; trace := [] |})
    as (Hok & Hon & Hnext).
  { reflexivity. }
  split; [exact Hok|]. split.
  - apply Hon. vm_compute. do 24 right. left. reflexivity.
  - rewrite Hnext. reflexivity.
Defined.

(** Every write call of a commit run is for one group of ten positions
    [10 * j .. 10 * j + 9] of the keys of the cache: its starting index
    is the key at position [10 * j], it carries one line per member of
    the group, at most ten, and the line for position [10 * j + i] is
    the link and the name that the entry of that key had when the run
    began. *)
Theorem registry_write_payload :
  forall w st evs ind lines r,
    let keys := JS.keys (items (cache st)) in
    let n := List.length keys in
    trace (fst (Registry.commit_all w st)) = trace st ++ evs ->
    In (EvAddConfigLines ind lines r) evs ->
    exists j,
      10 * j < n /\
      ind = Registry.key_at keys (10 * j) /\
      List.length lines = Nat.min 10 (n - 10 * j) /\
      forall i,
        i < Nat.min 10 (n - 10 * j) ->
        exists e,
          JS.get (items (cache st)) (Registry.key_at keys (10 * j + i))
          = Some e /\
          nth_error lines i = Some {| uri := link e; line_name := name e |}.
Proof.
  intros w st evs ind lines r keys n Htr Hin.
  destruct (commit_all_events w st) as (st1 & evs1 & E & Hc & _ & Hev).
  fold keys in Hev. fold n in Hev.
  rewrite E in Htr. cbn [fst] in Htr. unfold saveCache in Htr.
  rewrite trace_emit, Hc, <- app_assoc in Htr.
  apply app_inv_head in Htr. subst evs.
  apply in_app_or in Hin. destruct Hin as [Hin|[Hin|[]]]; [|discriminate].
  apply In_nth_error in Hin. destruct Hin as [i Hi].
  destruct (Hev i ind lines r Hi) as (j & c & Hj & Hind & _ & Hl & _).
  exists j. split; [exact Hj|]. split; [exact Hind|].
  destruct (config_lines_nth keys (cache st) _ _ Hl) as [Hlen Hnth].
  unfold ten in Hlen, Hnth. rewrite length_seq in Hlen.
  split; [exact Hlen|].
  intros i' Hi'. apply (Hnth i' (10 * j + i')).
  rewrite nth_error_seq. 
  destruct (Nat.ltb_spec i' (Nat.min 10 (n - 10 * j))); [reflexivity|lia].
Qed.

Lemma registry_write_payload_witness :
  exists lines,
    In (EvAddConfigLines "20" lines true)
       (trace (fst (Registry.commit_all Samples.group_10_rejected
                      {| cache := Samples.cache_of 25 10; trace := [] |}))) /\
    List.length lines = 5 /\
    nth_error lines 4
    = Some {| uri := Some "https://arweave.net/24";
              line_name := Some "item 24" |}.
Proof.
  eassert (Hin : In (EvAddConfigLines "20" _ true)
                   (trace (fst (Registry.commit_all Samples.group_10_rejected
                                  {| cache := Samples.cache_of 25 10;
                                     trace := [] |}))))
    by (vm_compute; do 2 right; left; reflexivity).
  eexists. split; [exact Hin|].
  destruct (registry_write_payload Samples.group_10_rejected
              {| cache := Samples.cache_of 25 10; trace := [] |}
              _ "20" _ true eq_refl Hin) as (j & Hj & Hind & Hlen & Hnth).
  assert (j = 2).
  { do 3 (destruct j as [|j]; [try reflexivity; discriminate|]).
    simpl in Hj. lia. }
  subst j. split; [exact Hlen|].
  destruct (Hnth 4) as (e & He & Hl); [vm_compute; lia|].
  vm_compute in He. inversion He; subst e. exact Hl.
Defined.

(** In a commit run every accepted write call is followed by a save of
    the cache in which the members of the written group are on chain
    and nothing else differs from the cache as it was but [onChain]
    flags, and every rejected write call is followed by the log of the
    error: at once when there are at most 1000 keys, which make a single
    slice.  The run ends with a save of the cache as it is at the
    end. *)
Theorem accepted_write_is_saved :
  forall w st evs,
    let keys := JS.keys (items (cache st)) in
    let n := List.length keys in
    let st' := fst (Registry.commit_all w st) in
    trace st' = trace st ++ evs ->
    (forall i ind lines,
        nth_error evs i = Some (EvAddConfigLines ind lines true) ->
        exists j c i',
          10 * j < n /\
          ind = Registry.key_at keys (10 * j) /\
          i < i' /\ (n <= 1000 -> i' = S i) /\
          nth_error evs i' = Some (EvSaveCache c) /\
          (forall k, In k (group_keys keys (ten n j)) ->
                     onChain_of c k = true) /\
          (forall k, link_of c k = link_of (cache st) k) /\
          JS.keys (items c) = keys) /\
    (forall i ind lines,
        nth_error evs i = Some (EvAddConfigLines ind lines false) ->
        exists i',
          i < i' /\ (n <= 1000 -> i' = S i) /\
          nth_error evs i' = Some (EvLogError ind)) /\
    nth_error evs (List.length evs - 1) = Some (EvSaveCache (cache st')).
Proof.
  intros w st evs keys n st' Htr.
  destruct (commit_all_events w st) as (st1 & evs1 & E & Hc & _ & Hev).
  fold keys in Hev. fold n in Hev.
  assert (Est : st' = saveCache st1) by (unfold st'; now rewrite E).
  rewrite Est in *. unfold saveCache in Htr.
  rewrite trace_emit, Hc, <- app_assoc in Htr.
  apply app_inv_head in Htr. subst evs. cbn [cache emit].
  assert (Hin1 : forall i ind lines r,
             nth_error (evs1 ++ [EvSaveCache (cache st1)]) i
             = Some (EvAddConfigLines ind lines r) ->
             nth_error evs1 i = Some (EvAddConfigLines ind lines r)).
  { intros i ind lines r Hi.
    destruct (Nat.lt_ge_cases i (List.length evs1)) as [Hlt|Hge].
    - now rewrite nth_error_app1 in Hi.
    - rewrite nth_error_app2 in Hi by exact Hge.
      destruct (i - List.length evs1) as [|[|d]]; discriminate. }
  assert (Hnext : forall i ev,
             nth_error evs1 (S i) = Some ev ->
             nth_error (evs1 ++ [EvSaveCache (cache st1)]) (S i) = Some ev).
  { intros i ev Hi. rewrite nth_error_app1; [exact Hi|].
    apply nth_error_Some. congruence. }
  split; [|split].
  - intros i ind lines Hi. apply Hin1 in Hi.
    destruct (Hev i ind lines true Hi) as (j & c & Hj & Hind & Hm & _ & Hn).
    exists j, (Registry.mark_onChain keys (ten n j) c), (S i).
    split; [exact Hj|]. split; [exact Hind|].
    split; [lia|]. split; [reflexivity|].
    split; [now apply Hnext|].
    assert (Hpres : forall k, In k (group_keys keys (ten n j)) ->
                              In k (JS.keys (items c))).
    { intros k Hk. destruct Hm as (_ & _ & -> & _).
      apply (group_keys_In keys (ten n j)); [|exact Hk].
      apply In_groups_of_ten. eauto. }
    split.
    { intros k Hk. rewrite onChain_of_mark.
      apply (proj2 (mem_In k _)) in Hk. now rewrite Hk. }
    split.
    { intros k. rewrite link_of_mark. now apply marks_only_link_of. }
    rewrite mark_onChain_keys by exact Hpres.
    now destruct Hm as (_ & _ & -> & _).
  - intros i ind lines Hi. apply Hin1 in Hi.
    destruct (Hev i ind lines false Hi) as (j & c & _ & _ & _ & _ & Hn).
    exists (S i). split; [lia|]. split; [reflexivity|]. now apply Hnext.
  - rewrite length_app. cbn [List.length].
    rewrite nth_error_app2 by lia.
    replace (List.length evs1 + 1 - 1 - List.length evs1) with 0 by lia.
    reflexivity.
Qed.

Lemma accepted_write_is_saved_witness :
  exists evs c,
    trace (fst (Registry.commit_all Samples.group_10_rejected
                  {| cache := Samples.cache_of 25 10; trace := [] |}))
    = evs /\
    nth_error evs 0 = Some (EvAddConfigLines "10" (map
       (fun k => {| uri := link_of (Samples.cache_of 25 10) k;
                    line_name := Some ("item " ++ k)%string |})
       (map Samples.index_name (seq 10 10))) false) /\
    nth_error evs 1 = Some (EvLogError "10") /\
    nth_error evs 3 = Some (EvSaveCache c) /\
    onChain_of c "24" = true /\
    nth_error evs 4
    = Some (EvSaveCache
              (cache (fst (Registry.commit_all Samples.group_10_rejected
                             {| cache := Samples.cache_of 25 10;
                                trace := [] |})))).
Proof.
  eassert (E : trace (fst (Registry.commit_all Samples.group_10_rejected
                             {| cache := Samples.cache_of 25 10;
                                trace := [] |})) = _)
    by (vm_compute; reflexivity).
  destruct (accepted_write_is_saved Samples.group_10_rejected
              {| cache := Samples.cache_of 25 10; trace := [] |} _ E)
    as (Hacc & Hrej & Hlast).
  pose proof (Hacc 2 _ _ eq_refl) as H2.
  destruct H2 as (j & c & i' & Hj & Hind & _ & Hi' & Hn & Hon & _).
  assert (j = 2).
  { do 3 (destruct j as [|j]; [try reflexivity; discriminate|]).
    simpl in Hj. lia. }
  subst j.
  rewrite Hi' in Hn by (vm_compute; repeat constructor).
  pose proof (Hrej 0 _ _ eq_refl) as H0.
  destruct H0 as (i0 & _ & Hi0 & Hn0).
  rewrite Hi0 in Hn0 by (vm_compute; repeat constructor).
  eexists. exists c. split; [exact E|].
  split; [reflexivity|]. split; [exact Hn0|].
  split; [exact Hn|]. split.
  { apply Hon. vm_compute. do 4 right. left. reflexivity. }
  exact Hlast.
Defined.

(* ================================================================== *)
(** * Items sent to a backend *)
(* ================================================================== *)

Lemma uploaded_app tr1 tr2 : uploaded (tr1 ++ tr2) = uploaded tr1 ++ uploaded tr2.
Proof. unfold uploaded. apply flat_map_app. Qed.

Lemma uploaded_none evs :
  Forall (fun ev => is_upload ev = false) evs -> uploaded evs = [].
Proof.
  induction 1 as [|ev evs Hev _ IH]; [reflexivity|].
  simpl. rewrite IH. now destruct ev.
Qed.

Lemma uploaded_bundles evs :
  Forall (fun ev => is_bundle ev = true) evs -> uploaded evs = [].
Proof.
  induction 1 as [|ev evs Hev _ IH]; [reflexivity|].
  simpl. rewrite IH. now destruct ev.
Qed.


(* ================================================================== *)
(** * The size-bounded planner: errors of the range scan *)
(* ================================================================== *)

Section RangeScan.

Import ArweaveBundle.

Variable w : World.

Lemma getBatchRange_from_not_too_big items :
  forall total range,
    range <> 0 ->
    getBatchRange_from w items total range <> Raised ItemTooBig.
Proof.
  induction items as [|item rest IH]; intros total range Hr; simpl;
    [discriminate|].
  destruct (png_size w item) as [size|]; [|discriminate].
  destruct (BATCH_SIZE_LIMIT <=? total + size)%N.
  - destruct (Nat.eqb_spec range 0); [contradiction|discriminate].
  - now apply IH.
Qed.

Lemma batch_bytes_cons item b :
  batch_bytes w (item :: b) = (size_of w item + batch_bytes w b)%N.
Proof. reflexivity. Qed.

Lemma getBatchRange_from_file_error items :
  forall total range p,
    (total < BATCH_SIZE_LIMIT)%N ->
    (getBatchRange_from w items total range = Raised (FileError p) <->
     exists pre item post,
       items = pre ++ item :: post /\
       p = (item ++ ".png")%string /\
       png_size w item = None /\
       Forall (known_size w) pre /\
       (total + batch_bytes w pre < BATCH_SIZE_LIMIT)%N).
Proof.
  induction items as [|item rest IH]; intros total range p Htot; simpl.
  - split; [discriminate|].
    intros (pre & x & post & H & _). now destruct pre.
  - destruct (png_size w item) as [size|] eqn:Hsz.
    + destruct (BATCH_SIZE_LIMIT <=? total + size)%N eqn:Hle.
      * apply N.leb_le in Hle. split.
        { destruct (Nat.eqb range 0); discriminate. }
        intros (pre & x & post & H & _ & Hx & Hk & Hb).
        destruct pre as [|y pre]; simpl in H; inversion H; subst.
        -- congruence.
        -- rewrite batch_bytes_cons, (size_of_known w _ _ Hsz) in Hb. lia.
      * apply N.leb_gt in Hle. rewrite (IH _ _ p Hle). split.
        { intros (pre & x & post & -> & Hp & Hx & Hk & Hb).
          exists (item :: pre), x, post.
          split; [reflexivity|]. split; [exact Hp|]. split; [exact Hx|].
          split; [constructor; [now exists size|exact Hk]|].
          rewrite batch_bytes_cons, (size_of_known w _ _ Hsz). lia. }
        intros (pre & x & post & H & Hp & Hx & Hk & Hb).
        destruct pre as [|y pre]; simpl in H; inversion H; subst;
          [congruence|].
        exists pre, x, post. split; [reflexivity|]. split; [reflexivity|].
        split; [exact Hx|]. split; [now inversion Hk|].
        rewrite batch_bytes_cons, (size_of_known w _ _ Hsz) in Hb. lia.
    + split.
      * intros [= <-]. exists [], item, rest. simpl.
        repeat split; auto. lia.
      * intros (pre & x & post & H & -> & Hx & Hk & _).
        destruct pre as [|y pre]; simpl in H; inversion H; subst;
          [reflexivity|].
        inversion Hk as [|? ? [s Hs] _]; subst. congruence.
Qed.

End RangeScan.

(** [getBatchRange] throws its "Item too big" error exactly when the
    image of the first item alone meets or exceeds the ceiling; an item
    that big further on only closes the range before it.  The range it
    returns never exceeds the number of items and is 0 only when there
    is no item, so that the planning loop, which removes that many items
    at each turn, makes progress. *)
Theorem getBatchRange_item_too_big :
  forall w,
    (forall x rest,
        ArweaveBundle.getBatchRange w (x :: rest) = Raised ItemTooBig <->
        exists s,
          png_size w x = Some s /\ (ArweaveBundle.BATCH_SIZE_LIMIT <= s)%N) /\
    (forall items r,
        ArweaveBundle.getBatchRange w items = Returned r ->
        r <= List.length items /\ (r = 0 -> items = [])) /\
    (forall pre x post s r,
        ArweaveBundle.getBatchRange w (pre ++ x :: post) = Returned r ->
        png_size w x = Some s ->
        (ArweaveBundle.BATCH_SIZE_LIMIT <= s)%N ->
        1 <= r <= List.length pre).
Proof.
  intros w. split; [|split].
  - intros x rest. unfold ArweaveBundle.getBatchRange.
    cbn [ArweaveBundle.getBatchRange_from].
    destruct (png_size w x) as [s|] eqn:Hs.
    + rewrite N.add_0_l.
      destruct (ArweaveBundle.BATCH_SIZE_LIMIT <=? s)%N eqn:Hle.
      * apply N.leb_le in Hle. cbn [Nat.eqb]. split; [eauto|reflexivity].
      * apply N.leb_gt in Hle. split.
        -- intros H. now apply getBatchRange_from_not_too_big in H.
        -- intros (s' & [= <-] & Hbig). lia.
    + split; [discriminate|]. intros (s & H & _). discriminate.
  - intros items r Hr. unfold ArweaveBundle.getBatchRange in Hr.
    destruct (getBatchRange_from_returned w items _ _ _ Hr)
      as (k & -> & Hk & Hpos & _); [reflexivity|].
    simpl. split; [exact Hk|].
    intros ->. destruct items as [|x items]; [reflexivity|].
    assert (1 <= 0) by (apply Hpos; [reflexivity|discriminate]). lia.
  - intros pre x post s r Hr Hs Hbig.
    unfold ArweaveBundle.getBatchRange in Hr.
    destruct (getBatchRange_from_returned w _ _ _ _ Hr)
      as (k & -> & Hk & Hpos & Hlt & _); [reflexivity|].
    simpl Nat.add. split.
    { apply Hpos; [reflexivity|]. now destruct pre. }
    destruct (Nat.le_gt_cases k (List.length pre)) as [Hle|Hgt];
      [exact Hle|].
    assert (Hin : In x (firstn k (pre ++ x :: post))).
    { rewrite firstn_app. apply in_or_app. right.
      destruct (k - List.length pre) as [|d] eqn:E; [lia|]. now left. }
    apply (batch_bytes_In w) in Hin.
    rewrite (size_of_known w _ _ Hs) in Hin. lia.
Qed.

Lemma getBatchRange_item_too_big_witness :
  ArweaveBundle.getBatchRange Samples.oversized ["1"; "2"] = Raised ItemTooBig /\
  ArweaveBundle.getBatchRange Samples.oversized ["0"; "1"; "2"] = Returned 1.
Proof.
  destruct (getBatchRange_item_too_big Samples.oversized) as (Hbig & _ & Hcut).
  split.
  - apply Hbig. exists (60 * Samples.MB)%N.
    split; [reflexivity|vm_compute; discriminate].
  - destruct (ArweaveBundle.getBatchRange Samples.oversized ["0"; "1"; "2"])
      as [r|e] eqn:E; [|vm_compute in E; discriminate].
    destruct (Hcut ["0"] "1" ["2"] (60 * Samples.MB)%N r E eq_refl)
      as [H1 H2]; [vm_compute; discriminate|].
    simpl in H2. f_equal. lia.
Defined.

(** [getBatchRange] fails with the error of [fs.statSync] exactly when an
    image cannot be measured and the scan reaches it: the images before
    it can be measured and their cumulative size stays below the
    ceiling.  An image that cannot be measured beyond the place where
    the range is closed is not looked at. *)
Theorem getBatchRange_file_error :
  forall w items p,
    ArweaveBundle.getBatchRange w items = Raised (FileError p) <->
    exists pre item post,
      items = pre ++ item :: post /\
      p = (item ++ ".png")%string /\
      png_size w item = None /\
      Forall (known_size w) pre /\
      (batch_bytes w pre < ArweaveBundle.BATCH_SIZE_LIMIT)%N.
Proof.
  intros w items p. unfold ArweaveBundle.getBatchRange.
  rewrite getBatchRange_from_file_error by reflexivity.
  split; intros (pre & item & post & H); exists pre, item, post;
    now rewrite N.add_0_l in *.
Qed.

(* ================================================================== *)
(** * The manifests of a batch *)
(* ================================================================== *)

Section UpdatedManifests.

Import ArweaveBundle.

Variable w : World.
Variable imageLinks : list string.

Lemma getUpdatedManifests_from_returned batch :
  forall idx ms,
    getUpdatedManifests_from w batch idx imageLinks = Returned ms ->
    List.length ms = List.length batch /\
    forall i item,
      nth_error batch i = Some item ->
      exists m,
        read_manifest w (item ++ ".json") = Some m /\
        nth_error ms i
        = Some (patch_manifest m (nth_error imageLinks (idx + i))).
Proof.
  induction batch as [|x rest IH]; intros idx ms H; simpl in H.
  - inversion H; subst. split; [reflexivity|]. intros [|i]; discriminate.
  - destruct (read_manifest w (x ++ ".json")) as [m|] eqn:Hm; [|discriminate].
    destruct (getUpdatedManifests_from w rest (S idx) imageLinks)
      as [ms'|e] eqn:Hrest; [|discriminate].
    inversion H; subst. destruct (IH _ _ Hrest) as [Hlen Hnth].
    split; [simpl; now rewrite Hlen|].
    intros [|i] item Hi; simpl in Hi.
    + inversion Hi; subst. exists m. rewrite Nat.add_0_r. auto.
    + destruct (Hnth i item Hi) as (m' & Hm' & Hi').
      exists m'. split; [exact Hm'|]. simpl.
      now replace (idx + S i) with (S idx + i) by lia.
Qed.

Lemma getUpdatedManifests_from_raised batch :
  forall idx e,
    getUpdatedManifests_from w batch idx imageLinks = Raised e ->
    exists pre item post,
      batch = pre ++ item :: post /\
      e = FileError (item ++ ".json") /\
      read_manifest w (item ++ ".json") = None /\
      Forall (fun x => read_manifest w (x ++ ".json") <> None) pre.
Proof.
  induction batch as [|x rest IH]; intros idx e H; simpl in H;
    [discriminate|].
  destruct (read_manifest w (x ++ ".json")) as [m|] eqn:Hm.
  - destruct (getUpdatedManifests_from w rest (S idx) imageLinks)
      as [ms'|e'] eqn:Hrest; [discriminate|].
    inversion H; subst. destruct (IH _ _ Hrest) as (pre & y & post & -> & Hy).
    exists (x :: pre), y, post. split; [reflexivity|].
    destruct Hy as (He & Hn & Hpre). repeat split; auto.
    constructor; [congruence|exact Hpre].
  - inversion H; subst. exists [], x, rest. repeat split; auto.
Qed.

Lemma getUpdatedManifests_from_total batch :
  forall idx,
    (forall item, In item batch -> read_manifest w (item ++ ".json") <> None) ->
    exists ms, getUpdatedManifests_from w batch idx imageLinks = Returned ms.
Proof.
  induction batch as [|x rest IH]; intros idx H; simpl; [eauto|].
  destruct (read_manifest w (x ++ ".json")) as [m|] eqn:Hm.
  - destruct (IH (S idx)) as [ms ->]; [|eauto].
    intros item Hi. apply H. now right.
  - elim (H x (or_introl eq_refl) Hm).
Qed.

End UpdatedManifests.

(** [getUpdatedManifests] yields one manifest for each item of the batch,
    in the order of the batch: the manifest read from the item's file
    with [image] set to the link at the item's position (or to
    [undefined] when there are fewer links than items) and [files] to
    that one link of type image/png, and with its name, symbol, fee and
    creators as read.  It fails when a manifest cannot be read, with the
    error of the first such item, and only then. *)
Theorem getUpdatedManifests_patches :
  forall w batch imageLinks,
    (forall ms,
        ArweaveBundle.getUpdatedManifests w batch imageLinks = Returned ms ->
        List.length ms = List.length batch /\
        forall i item,
          nth_error batch i = Some item ->
          exists m m',
            read_manifest w (item ++ ".json") = Some m /\
            nth_error ms i = Some m' /\
            m_image m' = nth_error imageLinks i /\
            m_files m' = [(nth_error imageLinks i, "image/png")] /\
            m_name m' = m_name m /\ m_symbol m' = m_symbol m /\
            seller_fee_basis_points m' = seller_fee_basis_points m /\
            creators m' = creators m) /\
    (forall e,
        ArweaveBundle.getUpdatedManifests w batch imageLinks = Raised e ->
        exists pre item post,
          batch = pre ++ item :: post /\
          e = FileError (item ++ ".json") /\
          read_manifest w (item ++ ".json") = None /\
          Forall (fun x => read_manifest w (x ++ ".json") <> None) pre) /\
    ((forall item, In item batch ->
                   read_manifest w (item ++ ".json") <> None) ->
     exists ms,
       ArweaveBundle.getUpdatedManifests w batch imageLinks = Returned ms).
Proof.
  intros w batch imageLinks. unfold ArweaveBundle.getUpdatedManifests.
  split; [|split].
  - intros ms H.
    destruct (getUpdatedManifests_from_returned w imageLinks batch 0 ms H)
      as [Hlen Hnth].
    split; [exact Hlen|].
    intros i item Hi. destruct (Hnth i item Hi) as (m & Hm & Hi').
    exists m, (ArweaveBundle.patch_manifest m (nth_error imageLinks i)).
    split; [exact Hm|]. split; [exact Hi'|]. repeat split.
  - apply getUpdatedManifests_from_raised.
  - apply getUpdatedManifests_from_total.
Qed.

Lemma getUpdatedManifests_patches_witness :
  exists ms m',
    ArweaveBundle.getUpdatedManifests Samples.fair ["5"; "6"] ["link5"]
    = Returned ms /\
    nth_error ms 1 = Some m' /\
    m_image m' = None /\ m_name m' = "6.json".
Proof.
  destruct (getUpdatedManifests_patches Samples.fair ["5"; "6"] ["link5"])
    as (Hret & _ & Htot).
  destruct Htot as [ms Hms]; [discriminate|].
  destruct (Hret ms Hms) as [_ Hnth].
  destruct (Hnth 1 "6" eq_refl) as (m & m' & Hm & Hi & Him & _ & Hn & _).
  exists ms, m'. split; [exact Hms|]. split; [exact Hi|].
  split; [exact Him|]. rewrite Hn. now inversion Hm.
Defined.

Lemma getBatchRange_file_error_witness :
  ArweaveBundle.getBatchRange Samples.fair ["2"; "7"; "0"]
  = Raised (FileError "7.png").
Proof.
  apply getBatchRange_file_error. exists ["2"], "7", ["0"].
  split; [reflexivity|]. split; [reflexivity|]. split; [reflexivity|].
  split; [repeat constructor; eexists; reflexivity|reflexivity].
Defined.

(* ================================================================== *)
(** * The bundles of a run of [arweaveBundleUpload] *)
(* ================================================================== *)

Section BundlesSent.

Variable w : World.

Lemma upload_batch_returned batch st x :
  snd (ArweaveBundle.upload_batch w batch st) = Returned x ->
  exists ids ids' ms,
    post_bundle w (trace st) (Images batch) = Some ids /\
    post_bundle w (trace st ++ [EvBundle (Images batch) (Some ids)])
                (Manifests ms) = Some ids' /\
    ArweaveBundle.getUpdatedManifests w batch
      (map ArweaveBundle.arweave_link ids) = Returned ms /\
    x = (ms, map ArweaveBundle.arweave_link ids',
         map (Upload.image_index w) batch) /\
    fst (ArweaveBundle.upload_batch w batch st)
    = {| cache := cache st;
         trace := trace st ++ [EvBundle (Images batch) (Some ids);
                               EvBundle (Manifests ms) (Some ids')] |}.
Proof.
  unfold ArweaveBundle.upload_batch, ArweaveBundle.uploadBatchBundle.
  destruct (post_bundle w (trace st) (Images batch)) as [ids|] eqn:H1;
    [|discriminate].
  destruct (ArweaveBundle.getUpdatedManifests w batch
              (map ArweaveBundle.arweave_link ids)) as [ms|e] eqn:H2;
    [|discriminate].
  cbn [emit trace cache].
  destruct (post_bundle w (trace st ++ [EvBundle (Images batch) (Some ids)])
              (Manifests ms)) as [ids'|] eqn:H3; [|discriminate].
  cbn [fst snd]. intros [= <-]. exists ids, ids', ms.
  repeat split; auto. unfold emit. cbn [cache trace].
  now rewrite <- app_assoc.
Qed.

Lemma upload_batches_returned batches :
  forall st xs,
    snd (ArweaveBundle.upload_batches w batches st) = Returned xs ->
    exists evs,
      fst (ArweaveBundle.upload_batches w batches st)
      = {| cache := cache st; trace := trace st ++ evs |} /\
      List.length evs = 2 * List.length batches /\
      List.length xs = List.length batches /\
      forall j b,
        nth_error batches j = Some b ->
        exists ids ids' ms x tr,
          nth_error evs (2 * j) = Some (EvBundle (Images b) (Some ids)) /\
          nth_error evs (2 * j + 1)
          = Some (EvBundle (Manifests ms) (Some ids')) /\
          post_bundle w tr (Manifests ms) = Some ids' /\
          ArweaveBundle.getUpdatedManifests w b
            (map ArweaveBundle.arweave_link ids) = Returned ms /\
          nth_error xs j = Some x /\
          x = (ms, map ArweaveBundle.arweave_link ids',
               map (Upload.image_index w) b).
Proof.
  induction batches as [|batch rest IH]; intros st xs H.
  - simpl in H. inversion H; subst. exists []. simpl. rewrite app_nil_r.
    split; [now destruct st|]. repeat split. intros [|j]; discriminate.
  - rewrite upload_batches_snd in H. rewrite upload_batches_fst.
    destruct (snd (ArweaveBundle.upload_batch w batch st)) as [x|e] eqn:Hx;
      [|discriminate].
    destruct (upload_batch_returned batch st x Hx)
      as (ids & ids' & ms & H1 & H3 & H2 & -> & Est).
    rewrite Est in *.
    destruct (snd (ArweaveBundle.upload_batches w rest _)) as [xs'|e] eqn:Hxs;
      [|discriminate].
    inversion H; subst xs.
    destruct (IH _ _ Hxs) as (evs & Efst & Hlen & Hlenx & Hnth).
    exists (EvBundle (Images batch) (Some ids)
              :: EvBundle (Manifests ms) (Some ids') :: evs).
    split.
    { rewrite Efst. cbn [cache trace]. now rewrite <- app_assoc. }
    split; [cbn [List.length]; lia|]. split; [simpl; now rewrite Hlenx|].
    intros [|j] b Hb; simpl in Hb.
    + inversion Hb; subst b. exists ids, ids', ms. eexists. eexists.
      split; [reflexivity|]. split; [reflexivity|]. split; [exact H3|].
      split; [exact H2|]. split; reflexivity.
    + destruct (Hnth j b Hb) as (i1 & i2 & ms' & x' & tr & A & B & C & D & E & F).
      exists i1, i2, ms', x', tr.
      replace (2 * S j) with (S (S (2 * j))) by lia.
      replace (S (S (2 * j)) + 1) with (S (S (2 * j + 1))) by lia.
      cbn [nth_error]. repeat split; assumption.
Qed.

End BundlesSent.

(** When [arweaveBundleUpload] resolves, it has sent exactly two bundles
    for each planned batch and every one of them was accepted: the
    images of the batch and, after it, the manifests of the batch
    patched with the image links; nothing of the cache is touched.  It
    yields one result per batch, in the order of the batches: the
    patched manifests, one link [https://arweave.net/<id>] per
    transaction id of the manifest bundle, and the indices of the
    batch. *)
Theorem bundle_upload_two_per_batch :
  forall w items st st' results,
    ArweaveBundle.arweaveBundleUpload w items st
    = Some (st', Returned results) ->
    exists batches evs,
      ArweaveBundle.plan_batches w items = Some (Returned batches) /\
      cache st' = cache st /\
      trace st' = trace st ++ evs /\
      List.length evs = 2 * List.length batches /\
      List.length results = List.length batches /\
      Forall (fun ev => is_bundle ev = true /\ bundle_failed ev = false) evs /\
      forall j b,
        nth_error batches j = Some b ->
        exists ids ids' ms i i',
          i < i' /\
          nth_error evs i = Some (EvBundle (Images b) (Some ids)) /\
          nth_error evs i' = Some (EvBundle (Manifests ms) (Some ids')) /\
          ArweaveBundle.getUpdatedManifests w b
            (map ArweaveBundle.arweave_link ids) = Returned ms /\
          nth_error results j
          = Some (ms, map ArweaveBundle.arweave_link ids',
                  map (Upload.image_index w) b).
Proof.
  intros w items st st' results.
  unfold ArweaveBundle.arweaveBundleUpload.
  destruct (ArweaveBundle.plan_batches w items) as [[batches|e]|] eqn:Hp;
    try discriminate.
  destruct (ArweaveBundle.upload_batches w batches st) as [st1 r] eqn:E.
  intros [= -> ->].
  assert (Hs : snd (ArweaveBundle.upload_batches w batches st)
               = Returned results) by now rewrite E.
  destruct (upload_batches_returned w batches st results Hs)
    as (evs & Efst & Hlen & Hlenx & Hnth).
  destruct (upload_batches_summary w batches st) as (evs' & Hc & _ & Hb & Hr).
  rewrite Hs in Hr. rewrite Efst in Hc. unfold continues in Hc.
  cbn [trace] in Hc. apply app_inv_head in Hc. subst evs'.
  destruct (Hr results eq_refl) as [Hnf _].
  rewrite E in Efst. cbn [fst] in Efst. subst st'.
  exists batches, evs. split; [reflexivity|]. split; [reflexivity|].
  split; [reflexivity|]. split; [exact Hlen|]. split; [exact Hlenx|].
  split.
  { rewrite Forall_forall in *. intros ev Hev. split; [now apply Hb|].
    destruct (bundle_failed ev) eqn:Hfail; [|reflexivity].
    rewrite <- Hnf. symmetry. apply existsb_exists. eauto. }
  intros j b Hj.
  destruct (Hnth j b Hj) as (ids & ids' & ms & x & tr & A & B & _ & D & F & ->).
  exists ids, ids', ms, (2 * j), (2 * j + 1).
  split; [lia|]. auto.
Qed.

Lemma bundle_upload_two_per_batch_witness :
  exists st' evs,
    ArweaveBundle.arweaveBundleUpload Samples.fair ["0"; "1"; "2"]
      {| cache := empty_cache; trace := [] |}
    = Some (st', Returned
                   [([ArweaveBundle.patch_manifest (Samples.manifest_of "0.json")
                        (Some "https://arweave.net/0-image")],
                     ["https://arweave.net/0.json-manifest"], ["0"]);
                    ([ArweaveBundle.patch_manifest (Samples.manifest_of "1.json")
                        (Some "https://arweave.net/1-image");
                      ArweaveBundle.patch_manifest (Samples.manifest_of "2.json")
                        (Some "https://arweave.net/2-image")],
                     ["https://arweave.net/1.json-manifest";
                      "https://arweave.net/2.json-manifest"], ["1"; "2"])]) /\
    trace st' = evs /\ List.length evs = 4.
Proof.
  eassert (E : ArweaveBundle.arweaveBundleUpload Samples.fair ["0"; "1"; "2"]
                 {| cache := empty_cache; trace := [] |} = Some (_, Returned _))
    by (vm_compute; reflexivity).
  destruct (bundle_upload_two_per_batch _ _ _ _ _ E)
    as (batches & evs & Hp & _ & Ht & Hlen & _).
  assert (batches = [["0"]; ["1"; "2"]]).
  { vm_compute in Hp. now inversion Hp. }
  subst batches. eexists. exists evs. split; [exact E|].
  split; [exact Ht|exact Hlen].
Defined.

(* ================================================================== *)
(** * The bundle-capable command: recording the links *)
(* ================================================================== *)

Lemma nth_seq_all {A} (l : list A) d :
  map (fun j => nth j l d) (seq 0 (List.length l)) = l.
Proof.
  assert (H : forall pre l',
             map (fun i => nth i (pre ++ l') d)
                 (seq (List.length pre) (List.length l')) = l').
  { intros pre l'. revert pre. induction l' as [|x l' IH]; intros pre; simpl.
    - reflexivity.
    - rewrite app_nth2 by lia. rewrite Nat.sub_diag. simpl. f_equal.
      specialize (IH (pre ++ [x])).
      rewrite length_app, <- app_assoc in IH. simpl in IH.
      rewrite Nat.add_1_r in IH. exact IH. }
  exact (H [] l).
Qed.

Lemma saveManifestsWithLink_from_get manifests :
  forall c idx links indices,
    let c' := BundleUpload.saveManifestsWithLink_from c manifests idx links
                indices in
    let used := map (fun j => nth j indices "undefined")
                    (seq idx (List.length manifests)) in
    program c' = program c /\
    authority c' = authority c /\
    (forall k, ~ In k used -> JS.get (items c') k = JS.get (items c) k) /\
    (NoDup used ->
     forall i m,
       nth_error manifests i = Some m ->
       JS.get (items c') (nth (idx + i) indices "undefined")
       = Some {| link := nth_error links (idx + i);
                 name := Some (m_name m);
                 onChain := false |}).
Proof.
  induction manifests as [|m0 rest IH]; intros c idx links indices;
    cbn [BundleUpload.saveManifestsWithLink_from List.length seq map].
  - repeat split; auto. intros _ [|i]; discriminate.
  - set (e0 := {| link := nth_error links idx; name := Some (m_name m0);
                  onChain := false |}).
    destruct (IH (set_item (nth idx indices "undefined") e0 c)
                 (S idx) links indices) as (Hp & Ha & Hother & Hget).
    cbv zeta in *.
    split; [exact Hp|]. split; [exact Ha|]. split.
    + intros k Hk. rewrite Hother.
      * cbn [set_item items]. apply get_set_other.
        intros ->. apply Hk. now left.
      * intros H. apply Hk. now right.
    + intros Hnd [|i] m Hm; simpl in Hm.
      * inversion Hm; subst m. inversion Hnd; subst.
        rewrite Nat.add_0_r, Hother by assumption.
        cbn [set_item items]. apply get_set_same.
      * inversion Hnd; subst.
        replace (idx + S i) with (S idx + i) by lia. now apply Hget.
Qed.

Lemma saveManifestsWithLink_get c manifests links indices :
  let c' := BundleUpload.saveManifestsWithLink c manifests links indices in
  List.length manifests = List.length indices ->
  NoDup indices ->
  program c' = program c /\
  authority c' = authority c /\
  (forall k, ~ In k indices -> JS.get (items c') k = JS.get (items c) k) /\
  (forall i m idx,
      nth_error manifests i = Some m ->
      nth_error indices i = Some idx ->
      JS.get (items c') idx
      = Some {| link := nth_error links i;
                name := Some (m_name m);
                onChain := false |}).
Proof.
  intros c' Hlen Hnd. unfold c', BundleUpload.saveManifestsWithLink.
  destruct (saveManifestsWithLink_from_get manifests c 0 links indices)
    as (Hp & Ha & Hother & Hget).
  cbv zeta in *. rewrite Hlen, nth_seq_all in *.
  split; [exact Hp|]. split; [exact Ha|]. split; [exact Hother|].
  intros i m idx Hm Hi. rewrite <- (nth_error_nth _ _ "undefined" Hi).
  now apply (Hget Hnd i m).
Qed.

(** Given distinct indices, as many as the manifests and none of them
    [__proto__] (an assignment to that name sets the prototype of the
    object and stores no entry), [saveManifestsWithLink] stores for each
    manifest an entry under the index at the same position: the link at
    that position (or [undefined] when there are fewer links), the name
    of the manifest, and [onChain] false, also when the index had an
    entry that was on chain.  The entries of the other indices, the
    program and the authority are left as they were. *)
Theorem saveManifestsWithLink_lookup :
  forall c manifests links indices,
    let c' := BundleUpload.saveManifestsWithLink c manifests links indices in
    List.length manifests = List.length indices ->
    NoDup indices ->
    ~ In "__proto__" indices ->
    program c' = program c /\
    authority c' = authority c /\
    (forall k, ~ In k indices -> JS.get (items c') k = JS.get (items c) k) /\
    (forall i m idx,
        nth_error manifests i = Some m ->
        nth_error indices i = Some idx ->
        JS.get (items c') idx
        = Some {| link := nth_error links i;
                  name := Some (m_name m);
                  onChain := false |}).
Proof.
  intros c manifests links indices c' Hlen Hnd _.
  exact (saveManifestsWithLink_get c manifests links indices Hlen Hnd).
Qed.

Lemma saveManifestsWithLink_lookup_witness :
  JS.get
    (items (BundleUpload.saveManifestsWithLink (Samples.cache_of 3 3)
              [Samples.manifest_of "a"; Samples.manifest_of "b"]
              ["link-a"] ["7"; "1"])) "1"
  = Some {| link := None; name := Some "b"; onChain := false |} /\
  JS.get
    (items (BundleUpload.saveManifestsWithLink (Samples.cache_of 3 3)
              [Samples.manifest_of "a"; Samples.manifest_of "b"]
              ["link-a"] ["7"; "1"])) "2"
  = JS.get (items (Samples.cache_of 3 3)) "2".
Proof.
  destruct (saveManifestsWithLink_lookup (Samples.cache_of 3 3)
              [Samples.manifest_of "a"; Samples.manifest_of "b"]
              ["link-a"] ["7"; "1"] eq_refl)
    as (_ & _ & Hother & Hget).
  { apply distinct_NoDup. reflexivity. }
  { intros [H|[H|[]]]; discriminate. }
  split.
  - exact (Hget 1 _ "1" eq_refl eq_refl).
  - apply Hother. intros [H|[H|[]]]; discriminate.
Defined.

Lemma flatten_bundles_concat xs :
  BundleUpload.flatten_bundles xs
  = (List.concat (map (fun x => fst (fst x)) xs),
     List.concat (map (fun x => snd (fst x)) xs),
     List.concat (map snd xs)).
Proof.
  unfold BundleUpload.flatten_bundles.
  assert (H : forall (xs : list ArweaveBundle.BundleResult)
                    (a1 : list Manifest) (a2 a3 : list string),
             fold_left
               (fun acc b =>
                  match acc, b with
                  | (ms, ls, is_), (bms, bls, bis) =>
                      (ms ++ bms, ls ++ bls, is_ ++ bis)
                  end) xs (a1, a2, a3)
             = (a1 ++ List.concat (map (fun x => fst (fst x)) xs),
                a2 ++ List.concat (map (fun x => snd (fst x)) xs),
                a3 ++ List.concat (map snd xs))).
  { clear xs. induction xs as [|[[ms ls] is_] xs IH]; intros a1 a2 a3; simpl.
    - now rewrite !app_nil_r.
    - rewrite IH. now rewrite <- !app_assoc. }
  exact (H xs [] [] []).
Qed.

Lemma truthy_arweave_link id :
  JS.truthy (Some (ArweaveBundle.arweave_link id)) = true.
Proof. reflexivity. Qed.

Section BundleLinks.

Variable w : World.

Hypothesis one_id_per_manifest :
  forall tr ms ids,
    post_bundle w tr (Manifests ms) = Some ids ->
    List.length ids = List.length ms.

(** The three lists that the results of the batches add up to. *)
Lemma upload_batches_flat batches :
  forall st xs,
    snd (ArweaveBundle.upload_batches w batches st) = Returned xs ->
    List.concat (map snd xs)
    = map (Upload.image_index w) (List.concat batches) /\
    List.length (List.concat (map (fun x => fst (fst x)) xs))
    = List.length (List.concat batches) /\
    List.length (List.concat (map (fun x => snd (fst x)) xs))
    = List.length (List.concat batches) /\
    Forall (fun l => JS.truthy (Some l) = true)
           (List.concat (map (fun x => snd (fst x)) xs)).
Proof.
  induction batches as [|batch rest IH]; intros st xs H.
  - simpl in H. inversion H; subst. simpl. auto.
  - rewrite upload_batches_snd in H.
    destruct (snd (ArweaveBundle.upload_batch w batch st)) as [x|e] eqn:Hx;
      [|discriminate].
    destruct (upload_batch_returned w batch st x Hx)
      as (ids & ids' & ms & _ & H3 & H2 & -> & _).
    destruct (snd (ArweaveBundle.upload_batches w rest _)) as [xs'|e] eqn:Hxs;
      [|discriminate].
    inversion H; subst xs.
    destruct (IH _ _ Hxs) as (Hi & Hm & Hl & Ht).
    unfold ArweaveBundle.getUpdatedManifests in H2.
    destruct (getUpdatedManifests_from_returned w _ batch 0 ms H2)
      as [Hlen _].
    apply one_id_per_manifest in H3.
    cbn [map fst snd List.concat].
    rewrite map_app, !length_app, length_map, Hi, Hm, Hl, H3, Hlen.
    repeat split; auto.
    apply Forall_app. split; [|exact Ht].
    apply Forall_forall. intros l Hin. apply in_map_iff in Hin.
    destruct Hin as (id & <- & _). apply truthy_arweave_link.
Qed.

Lemma upload_pending_bundles needUpload st0 st1 :
  NoDup needUpload ->
  (forall item, In item needUpload -> Upload.image_index w item = item) ->
  BundleUpload.upload_pending w BundleUpload.ArweaveNative needUpload st0
  = Some (st1, Returned tt) ->
  program (cache st1) = program (cache st0) /\
  authority (cache st1) = authority (cache st0) /\
  (forall item, In item needUpload ->
                has_link (cache st1) item = true /\
                onChain_of (cache st1) item = false) /\
  (forall k, ~ In k needUpload ->
             JS.get (items (cache st1)) k = JS.get (items (cache st0)) k) /\
  (needUpload <> [] ->
   exists evs, trace st1 = trace st0 ++ evs ++ [EvSaveCache (cache st1)]).
Proof.
  intros Hnd Hidx. unfold BundleUpload.upload_pending.
  destruct needUpload as [|x need] eqn:Eneed.
  { intros [= <-]. repeat split; auto; try contradiction. }
  rewrite <- Eneed in *. clear Eneed.
  unfold ArweaveBundle.arweaveBundleUpload.
  destruct (ArweaveBundle.plan_batches w needUpload) as [[batches|e]|] eqn:Hp;
    try discriminate.
  assert (Hcat : List.concat batches = needUpload).
  { apply batches_loop_concat in Hp. destruct Hp as (new & -> & Hc).
    exact Hc. }
  destruct (upload_batches_summary w batches st0) as (evs & Hc & Hk & _).
  destruct (ArweaveBundle.upload_batches w batches st0) as [st' [xs|e]] eqn:E;
    [|discriminate].
  assert (Hs : snd (ArweaveBundle.upload_batches w batches st0) = Returned xs)
    by now rewrite E.
  destruct (upload_batches_flat batches st0 xs Hs) as (Hi & Hm & Hl & Ht).
  rewrite flatten_bundles_concat.
  set (MS := List.concat (map (fun x => fst (fst x)) xs)) in *.
  set (LS := List.concat (map (fun x => snd (fst x)) xs)) in *.
  rewrite Hi, Hcat in *. cbn [fst] in Hc, Hk.
  rewrite (map_ext_in _ (fun x => x)), map_id by exact Hidx.
  intros [= <-]. cbn [saveCache emit with_cache cache trace].
  destruct (saveManifestsWithLink_get (cache st') MS LS needUpload)
    as (Hprog & Hauth & Hother & Hget); [exact Hm|exact Hnd|].
  rewrite Hk in *.
  split; [exact Hprog|]. split; [exact Hauth|]. split; [|split].
  - intros item Hin. apply In_nth_error in Hin. destruct Hin as [p Hp'].
    assert (Hlt : p < List.length needUpload).
    { apply nth_error_Some. congruence. }
    destruct (nth_error MS p) as [m|] eqn:Hmp.
    2:{ apply nth_error_None in Hmp. lia. }
    destruct (nth_error LS p) as [l|] eqn:Hlp.
    2:{ apply nth_error_None in Hlp. lia. }
    pose proof (Hget p m item Hmp Hp') as Hg.
    unfold has_link, link_of, onChain_of. rewrite Hg. cbn [link onChain].
    rewrite Hlp. split; [|reflexivity].
    rewrite Forall_forall in Ht. apply Ht. eapply nth_error_In; eauto.
  - exact Hother.
  - intros _. exists evs. unfold continues in Hc. rewrite Hc.
    now rewrite <- app_assoc.
Qed.

End BundleLinks.

Lemma commit_phase_keys w totalNFTs retain mutable st1 :
  JS.keys (items (cache (fst (BundleUpload.commit_phase w totalNFTs retain
                                mutable st1))))
  = JS.keys (items (cache st1)).
Proof.
  unfold BundleUpload.commit_phase.
  destruct (BundleUpload.getItemManifest w "0") as [manifest0|e];
    [|reflexivity].
  destruct (JS.truthy (config (program (cache st1)))).
  - cbn [fst]. unfold BundleUpload.writeIndices.
    now destruct (commit_all_marks w st1) as (_ & _ & -> & _).
  - destruct (initConfig_summary w
                (BundleUpload.config_data totalNFTs mutable retain manifest0)
                st1) as (evs0 & _ & _ & _ & Hi).
    destruct (BundleUpload.initConfig w _ st1) as [st2 [cfg|e]];
      cbn [fst snd] in *.
    + unfold BundleUpload.writeIndices.
      destruct (commit_all_marks w st2) as (_ & _ & -> & _). now rewrite Hi.
    + now rewrite Hi.
Qed.

Lemma needing_upload_NoDup w its files :
  NoDup (BundleUpload.getItemsNeedingUpload w its files).
Proof.
  unfold BundleUpload.getItemsNeedingUpload. rewrite Set_of_first_seen.
  apply NoDup_filter, first_seen_NoDup.
Qed.

Lemma needing_upload_In w c files k :
  In k (BundleUpload.getItemsNeedingUpload w (items c) files) <->
  (In k (JS.keys (items c)) \/ In k (map (BundleUpload.stem w) files)) /\
  has_link c k = false.
Proof.
  unfold BundleUpload.getItemsNeedingUpload. rewrite Set_of_first_seen.
  rewrite filter_In, first_seen_In, in_app_iff, negb_true_iff. reflexivity.
Qed.

Lemma needing_upload_ext w its its' files :
  JS.keys its' = JS.keys its ->
  (forall k, BundleUpload.entry_link its' k = BundleUpload.entry_link its k) ->
  BundleUpload.getItemsNeedingUpload w its' files
  = BundleUpload.getItemsNeedingUpload w its files.
Proof.
  intros Hk Hl. unfold BundleUpload.getItemsNeedingUpload. rewrite Hk.
  apply filter_ext. intros k. now rewrite Hl.
Qed.

Section BatchesAccepted.

Variable w : World.

Hypothesis accepted : forall tr d, post_bundle w tr d <> None.

Lemma upload_batch_total batch st :
  (forall item, In item batch -> read_manifest w (item ++ ".json") <> None) ->
  exists x, snd (ArweaveBundle.upload_batch w batch st) = Returned x.
Proof.
  intros Hread.
  unfold ArweaveBundle.upload_batch, ArweaveBundle.uploadBatchBundle.
  destruct (post_bundle w (trace st) (Images batch)) as [ids|] eqn:H1;
    [|now elim (accepted _ _ H1)].
  unfold ArweaveBundle.getUpdatedManifests.
  destruct (getUpdatedManifests_from_total w
              (map ArweaveBundle.arweave_link ids) batch 0 Hread) as [ms ->].
  destruct (post_bundle w _ (Manifests ms)) as [ids'|] eqn:H3;
    [|now elim (accepted _ _ H3)].
  cbn [snd]. eauto.
Qed.

Lemma upload_batches_total batches :
  forall st,
    (forall b item, In b batches -> In item b ->
                    read_manifest w (item ++ ".json") <> None) ->
    exists xs, snd (ArweaveBundle.upload_batches w batches st) = Returned xs.
Proof.
  induction batches as [|batch rest IH]; intros st Hread.
  - simpl. eauto.
  - rewrite upload_batches_snd.
    destruct (upload_batch_total batch st) as [x ->].
    { intros item Hi. apply (Hread batch); [now left|exact Hi]. }
    destruct (IH (fst (ArweaveBundle.upload_batch w batch st))) as [xs ->].
    { intros b item Hb Hi. apply (Hread b); [now right|exact Hi]. }
    eauto.
Qed.

End BatchesAccepted.

(** In the bundle path, for a file list that is not empty and pending
    items whose names are their own index (no directory part, no
    [.png] in the name) and are not [__proto__]: when every image has a
    size below the ceiling, every manifest can be read and every bundle
    is accepted, with one transaction id per manifest, the command gives
    every pending item a non-empty link, leaves the links of the other
    items as they were, and has saved the cache with these links before
    the registry phase; whatever the registry phase does, the item
    selector finds nothing pending on the cache at the end of the
    run. *)
Theorem accepted_bundles_link_every_pending_item :
  forall w saved files totalNFTs retain mutable,
    let c0 := match saved with Some c => c | None => empty_cache end in
    let needUpload := BundleUpload.getItemsNeedingUpload w (items c0) files in
    files <> [] ->
    Forall (small w) needUpload ->
    (forall item, In item needUpload ->
                  read_manifest w (item ++ ".json") <> None) ->
    (forall tr d, post_bundle w tr d <> None) ->
    (forall tr ms ids,
        post_bundle w tr (Manifests ms) = Some ids ->
        List.length ids = List.length ms) ->
    (forall item, In item needUpload -> Upload.image_index w item = item) ->
    ~ In "__proto__" needUpload ->
    exists st r,
      BundleUpload.upload w saved files BundleUpload.ArweaveNative
                          totalNFTs retain mutable = Some (st, r) /\
      (forall item, In item needUpload -> has_link (cache st) item = true) /\
      (forall k, ~ In k needUpload -> link_of (cache st) k = link_of c0 k) /\
      BundleUpload.getItemsNeedingUpload w (items (cache st)) files = [] /\
      (needUpload <> [] ->
       exists c,
         In (EvSaveCache c) (trace st) /\
         forall item, In item needUpload -> has_link c item = true).
Proof.
  intros w saved files totalNFTs retain mutable c0 needUpload
         Hfiles Hsmall Hread Hacc Hids Hidx _.
  rewrite bundle_upload_phases. cbv zeta. cbn [cache]. fold c0.
  fold needUpload.
  set (st0 := {| cache := c0; trace := [] |}).
  assert (Hnd : NoDup needUpload) by apply needing_upload_NoDup.
  assert (Hin_need : forall k,
             (In k (JS.keys (items c0)) \/
              In k (map (BundleUpload.stem w) files)) ->
             has_link c0 k = false -> In k needUpload).
  { intros k Hk Hl. apply needing_upload_In. auto. }
  clearbody needUpload.
  destruct files as [|file files']; [congruence|].
  set (files := file :: files') in *. clearbody files. clear Hfiles.
  (* the upload phase returns *)
  assert (Hup : exists st1,
             BundleUpload.upload_pending w BundleUpload.ArweaveNative
               needUpload st0 = Some (st1, Returned tt)).
  { unfold BundleUpload.upload_pending.
    destruct needUpload as [|x need] eqn:Eneed; [eauto|].
    rewrite <- Eneed in *.
    unfold ArweaveBundle.arweaveBundleUpload, ArweaveBundle.plan_batches.
    destruct (batches_loop_total w (List.length needUpload) needUpload []
                (le_n _)) as (res & Hloop & _ & Hret).
    destruct (Hret Hsmall) as [batches ->]. rewrite Hloop.
    destruct (upload_batches_total w Hacc batches st0) as [xs Hxs].
    { intros b item Hb Hi. apply Hread.
      eapply plan_batches_In; eauto. }
    destruct (ArweaveBundle.upload_batches w batches st0) as [st' r'].
    cbn [snd] in Hxs. subst r'.
    destruct (BundleUpload.flatten_bundles xs) as [[ms ls] is_]. eauto. }
  destruct Hup as [st1 Hup]. rewrite Hup.
  destruct (upload_pending_bundles w Hids needUpload st0 st1 Hnd Hidx Hup)
    as (_ & _ & Hlinked & Hother & Hsaved).
  (* every key and every stem is linked after the upload phase *)
  assert (Hall : forall k,
             In k (JS.keys (items (cache st1))) \/
             In k (map (BundleUpload.stem w) files) ->
             has_link (cache st1) k = true).
  { intros k Hk.
    destruct (in_dec string_dec k needUpload) as [Hin|Hnin];
      [now apply Hlinked|].
    assert (Hsame : has_link (cache st1) k = has_link c0 k).
    { unfold has_link, link_of. now rewrite (Hother k Hnin). }
    rewrite Hsame. destruct (has_link c0 k) eqn:Hl; [reflexivity|].
    elim Hnin. apply Hin_need; [|exact Hl].
    destruct Hk as [Hk|Hk]; [left|now right].
    apply has_In. apply has_In in Hk. unfold JS.has in *.
    now rewrite (Hother k Hnin) in Hk. }
  pose proof (commit_phase_link_of w totalNFTs retain mutable st1) as Hl2.
  pose proof (commit_phase_keys w totalNFTs retain mutable st1) as Hk2.
  destruct (commit_phase_summary w totalNFTs retain mutable st1)
    as (evs3 & Hc3 & _).
  destruct (BundleUpload.commit_phase w totalNFTs retain mutable st1)
    as [st r]. cbn [fst] in *.
  exists st, r. split; [reflexivity|]. split; [|split; [|split]].
  - intros item Hin. unfold has_link. rewrite Hl2.
    now apply Hlinked.
  - intros k Hnin. rewrite Hl2. unfold link_of.
    now rewrite (Hother k Hnin).
  - apply nothing_pending.
    + intros k Hk. unfold has_link. rewrite Hl2. apply Hall. left.
      now rewrite <- Hk2.
    + intros f Hf. unfold has_link. rewrite Hl2. apply Hall. right.
      now apply in_map.
  - intros Hne. destruct (Hsaved Hne) as [evs Htr].
    exists (cache st1). split.
    + unfold continues in Hc3. rewrite Hc3, Htr.
      apply in_or_app. left. apply in_or_app. right.
      apply in_or_app. right. now left.
    + intros item Hin. now apply Hlinked.
Qed.

Lemma accepted_bundles_link_every_pending_item_witness :
  exists st r,
    BundleUpload.upload Samples.fair None (Samples.png_files 3)
                        BundleUpload.ArweaveNative 3 true true
    = Some (st, r) /\
    has_link (cache st) "0" = true /\
    has_link (cache st) "1" = true /\
    has_link (cache st) "2" = true /\
    BundleUpload.getItemsNeedingUpload Samples.fair (items (cache st))
      (Samples.png_files 3) = [].
Proof.
  destruct (accepted_bundles_link_every_pending_item Samples.fair None
              (Samples.png_files 3) 3%N true true)
    as (st & r & E & Hl & _ & Hsel & _).
  - discriminate.
  - repeat (constructor; [eexists; split; reflexivity|]). constructor.
  - discriminate.
  - intros tr d. discriminate.
  - intros tr ms ids [= <-]. apply length_map.
  - intros item [<-|[<-|[<-|[]]]]; reflexivity.
  - intros [H|[H|[H|[]]]]; discriminate.
  - exists st, r. split; [exact E|].
    split; [apply Hl; left; reflexivity|].
    split; [apply Hl; right; left; reflexivity|].
    split; [apply Hl; right; right; left; reflexivity|exact Hsel].
Defined.

(* ================================================================== *)
(** * The bundle-capable command: what it sends, and the config *)
(* ================================================================== *)

Lemma upload_each_events w b needUpload :
  forall st,
  exists evs n,
    continues st (fst (BundleUpload.upload_each w b needUpload st)) evs /\
    uploaded evs = firstn n needUpload /\
    Forall (fun ev => exists item res, ev = EvUpload b item res) evs.
Proof.
  induction needUpload as [|toUpload rest IH]; intros st.
  - exists [], 0. unfold continues. simpl. rewrite app_nil_r. auto.
  - cbn [BundleUpload.upload_each].
    destruct (BundleUpload.getItemManifest w toUpload) as [manifest|e].
    2:{ exists [], 0. unfold continues. simpl. rewrite app_nil_r. auto. }
    cbv zeta.
    destruct (upload_item w (trace st) b toUpload manifest) as [|l] eqn:Hup.
    + exists [EvUpload b toUpload Throws], 1. unfold continues. simpl.
      repeat split; auto. constructor; [eauto|constructor].
    + destruct (IH (emit (EvUpload b toUpload (Returns l)) st))
        as (evs & n & Hc & Hu & Hb).
      exists (EvUpload b toUpload (Returns l) :: evs), (S n).
      unfold continues in *. split.
      { rewrite Hc. simpl. now rewrite <- app_assoc. }
      split; [simpl; now rewrite Hu|].
      constructor; [eauto|exact Hb].
Qed.

Lemma upload_batches_images w batches :
  forall st evs,
    continues st (fst (ArweaveBundle.upload_batches w batches st)) evs ->
    forall batch ids, In (EvBundle (Images batch) ids) evs -> In batch batches.
Proof.
  induction batches as [|b rest IH]; intros st evs Hc batch ids Hin.
  - unfold continues in Hc. simpl in Hc.
    rewrite <- (app_nil_r (trace st)) in Hc at 1.
    apply app_inv_head in Hc. subst evs. contradiction.
  - rewrite upload_batches_fst in Hc.
    assert (H0 : exists evs0,
               continues st (fst (ArweaveBundle.upload_batch w b st)) evs0 /\
               forall batch ids, In (EvBundle (Images batch) ids) evs0 ->
                                 batch = b).
    { unfold ArweaveBundle.upload_batch, ArweaveBundle.uploadBatchBundle.
      unfold continues.
      destruct (post_bundle w (trace st) (Images b)) as [ids0|].
      2:{ eexists [_]. split; [reflexivity|].
          intros b' i' [[= <-]|[]]. reflexivity. }
      destruct (ArweaveBundle.getUpdatedManifests w b _) as [ms|e].
      2:{ eexists [_]. split; [reflexivity|].
          intros b' i' [[= <-]|[]]. reflexivity. }
      destruct (post_bundle w _ (Manifests ms)) as [ids'|];
        (eexists [_; _]; split; [cbn [fst emit trace];
                                  now rewrite <- app_assoc|];
         intros b' i' [[= <-]|[H|[]]]; [reflexivity|discriminate]). }
    destruct H0 as (evs0 & Hc0 & H0).
    destruct (upload_batches_summary w rest
                (fst (ArweaveBundle.upload_batch w b st)))
      as (evs1 & Hc1 & _).
    unfold continues in *. rewrite Hc1, Hc0, <- app_assoc in Hc.
    apply app_inv_head in Hc. subst evs.
    apply in_app_or in Hin. destruct Hin as [Hin|Hin].
    + left. symmetry. eapply H0; eauto.
    + right. eapply (IH _ evs1); eauto.
Qed.

(** The events of the upload phase of the bundle-capable command. *)
Lemma upload_pending_events w storage needUpload st0 st1 r1 :
  BundleUpload.upload_pending w storage needUpload st0 = Some (st1, r1) ->
  exists evs,
    continues st0 st1 evs /\
    program (cache st1) = program (cache st0) /\
    Forall (fun ev => is_config ev = false) evs /\
    Forall (fun ev => is_write ev = false) evs /\
    (exists n, uploaded evs = firstn n needUpload) /\
    (forall b item res,
        In (EvUpload b item res) evs ->
        storage = BundleUpload.Single b /\ In item needUpload) /\
    (forall batch ids item,
        In (EvBundle (Images batch) ids) evs -> In item batch ->
        storage = BundleUpload.ArweaveNative /\ In item needUpload).
Proof.
  unfold BundleUpload.upload_pending.
  destruct needUpload as [|x need] eqn:Eneed.
  { intros [= <- <-]. exists []. unfold continues. rewrite app_nil_r.
    repeat split; auto; try contradiction. now exists 0. }
  rewrite <- Eneed. clear Eneed.
  destruct storage as [|b].
  - unfold ArweaveBundle.arweaveBundleUpload.
    destruct (ArweaveBundle.plan_batches w needUpload) as [[batches|e]|] eqn:Hp;
      [| |discriminate].
    2:{ intros [= <- <-]. exists []. unfold continues. rewrite app_nil_r.
        repeat split; auto; try contradiction. now exists 0. }
    destruct (upload_batches_summary w batches st0)
      as (evs & Hc & Hk & Hb & _).
    pose proof (upload_batches_images w batches st0 evs Hc) as Himg.
    assert (Hitems : forall batch ids item,
               In (EvBundle (Images batch) ids) evs -> In item batch ->
               BundleUpload.ArweaveNative = BundleUpload.ArweaveNative /\
               In item needUpload).
    { intros batch ids item Hin Hi. split; [reflexivity|].
      eapply plan_batches_In; eauto. }
    assert (Hnu : forall b item res, ~ In (EvUpload b item res) evs).
    { intros b item res Hin. rewrite Forall_forall in Hb.
      specialize (Hb _ Hin). discriminate. }
    assert (Hcfg : Forall (fun ev => is_config ev = false) evs).
    { eapply Forall_impl; [|exact Hb]. now destruct a. }
    assert (Hwr : Forall (fun ev => is_write ev = false) evs).
    { eapply Forall_impl; [|exact Hb]. apply bundle_not_write. }
    destruct (ArweaveBundle.upload_batches w batches st0) as [st [bundles|e]];
      cbn [fst] in *.
    + destruct (BundleUpload.flatten_bundles bundles) as [[ms ls] is_].
      intros [= <- <-].
      exists (evs ++ [EvSaveCache
                        (BundleUpload.saveManifestsWithLink (cache st) ms ls
                           is_)]).
      unfold continues in *. cbn [saveCache emit with_cache trace cache].
      split; [rewrite Hc; now rewrite <- app_assoc|].
      split.
      { destruct (saveManifestsWithLink_from_get ms (cache st) 0 ls is_)
          as (Hprog & _). unfold BundleUpload.saveManifestsWithLink.
        cbv zeta in Hprog. now rewrite Hprog, Hk. }
      split; [apply Forall_app; split; [exact Hcfg|repeat constructor]|].
      split; [apply Forall_app; split; [exact Hwr|repeat constructor]|].
      split.
      { exists 0. rewrite uploaded_app, (uploaded_bundles evs Hb).
        reflexivity. }
      split.
      { intros b item res Hin. apply in_app_or in Hin.
        destruct Hin as [Hin|[Hin|[]]]; [|discriminate].
        now elim (Hnu b item res). }
      intros batch ids item Hin Hi. apply in_app_or in Hin.
      destruct Hin as [Hin|[Hin|[]]]; [|discriminate].
      eapply Hitems; eauto.
    + intros [= <- <-]. exists evs. split; [exact Hc|].
      split; [now rewrite Hk|]. split; [exact Hcfg|]. split; [exact Hwr|].
      split; [exists 0; now apply uploaded_bundles|].
      split; [|exact Hitems].
      intros b item res Hin. now elim (Hnu b item res).
  - destruct (upload_each_events w b needUpload st0)
      as (evs & n & Hc & Hu & Hb).
    destruct (upload_each_summary w b needUpload st0)
      as (evs' & Hc' & Hk & Hw & _).
    assert (evs' = evs).
    { unfold continues in *. rewrite Hc in Hc'.
      now apply app_inv_head in Hc'. }
    subst evs'.
    destruct (BundleUpload.upload_each w b needUpload st0) as [st' r'].
    intros [= <- <-]. cbn [fst] in *. exists evs.
    split; [exact Hc|]. split; [now rewrite Hk|].
    split.
    { eapply Forall_impl; [|exact Hb]. intros ev (i & r & ->). reflexivity. }
    split; [exact Hw|]. split; [eauto|]. split.
    + intros b' item res Hin.
      assert (Hb' : b' = b).
      { rewrite Forall_forall in Hb. destruct (Hb _ Hin) as (i & r & E).
        now inversion E. }
      subst b'. split; [reflexivity|].
      assert (Hi : In item (uploaded evs)).
      { unfold uploaded. apply in_flat_map. eexists. split; [exact Hin|].
        now left. }
      rewrite Hu in Hi. rewrite <- (firstn_skipn n needUpload).
      apply in_or_app. now left.
    + intros batch ids item Hin. rewrite Forall_forall in Hb.
      destruct (Hb _ Hin) as (i & r & E). discriminate.
Qed.

(** The single-item loop, exactly: it sends the items in order, each
    with its manifest, as long as the manifest can be read and the
    upload returns; it ends with the error of the first item that
    cannot be read or whose upload throws. *)
Lemma upload_each_exact w b needUpload :
  forall st st' r,
    BundleUpload.upload_each w b needUpload st = (st', r) ->
    (exists links,
        List.length links = List.length needUpload /\
        trace st' = trace st ++ sent_ok b needUpload links /\
        r = Returned tt) \/
    (exists pre f post links,
        needUpload = pre ++ f :: post /\
        List.length links = List.length pre /\
        ((read_manifest w (f ++ ".json") = None /\
          trace st' = trace st ++ sent_ok b pre links /\
          r = Raised (FileError (f ++ ".json"))) \/
         (read_manifest w (f ++ ".json") <> None /\
          trace st' = trace st ++ sent_ok b pre links ++ [EvUpload b f Throws] /\
          r = Raised (UploadRejected f)))).
Proof.
  induction needUpload as [|x rest IH]; intros st st' r.
  - intros [= <- <-]. left. exists []. cbn. now rewrite app_nil_r.
  - cbn [BundleUpload.upload_each]. unfold BundleUpload.getItemManifest.
    destruct (read_manifest w (x ++ ".json")) as [m|] eqn:Hm.
    2:{ intros [= <- <-]. right. exists [], x, rest, [].
        cbn [app List.length sent_ok combine map]. rewrite app_nil_r.
        split; [reflexivity|]. split; [reflexivity|]. left. auto. }
    cbv zeta.
    destruct (upload_item w (trace st) b x m) as [|l] eqn:Hup.
    { intros [= <- <-]. right. exists [], x, rest, [].
      cbn [app List.length sent_ok combine map emit trace].
      split; [reflexivity|]. split; [reflexivity|]. right.
      split; [congruence|]. auto. }
    intros Hrun. apply IH in Hrun. cbn [emit trace] in Hrun.
    destruct Hrun as [(links & Hlen & Htr & Hr)
                     |(pre & f & post & links & E & Hlen & H)].
    + left. exists (l :: links). cbn [List.length]. rewrite Hlen.
      split; [reflexivity|]. split; [|exact Hr].
      rewrite Htr, <- app_assoc. reflexivity.
    + right. exists (x :: pre), f, post, (l :: links).
      cbn [List.length app]. rewrite E, Hlen.
      split; [reflexivity|]. split; [reflexivity|].
      destruct H as [(Hf & Htr & Hr)|(Hf & Htr & Hr)]; [left|right];
        (split; [exact Hf|]; split; [|exact Hr]);
        rewrite Htr, <- app_assoc; reflexivity.
Qed.

Lemma upload_pending_single w b needUpload st :
  BundleUpload.upload_pending w (BundleUpload.Single b) needUpload st
  = Some (BundleUpload.upload_each w b needUpload st).
Proof. now destruct needUpload. Qed.

(** The run of the bundle-capable command with a single-item backend. *)
Lemma single_loop_run w saved files b totalNFTs retain mutable st r :
  let c0 := match saved with Some c => c | None => empty_cache end in
  let needUpload := BundleUpload.getItemsNeedingUpload w (items c0) files in
  files <> [] ->
  BundleUpload.upload w saved files (BundleUpload.Single b)
                      totalNFTs retain mutable = Some (st, r) ->
  (exists links evs,
      List.length links = List.length needUpload /\
      trace st = sent_ok b needUpload links ++ evs /\
      Forall (fun ev => is_upload ev = false) evs) \/
  (exists pre f post links,
      needUpload = pre ++ f :: post /\
      List.length links = List.length pre /\
      ((read_manifest w (f ++ ".json") = None /\
        trace st = sent_ok b pre links /\
        r = Raised (FileError (f ++ ".json"))) \/
       (read_manifest w (f ++ ".json") <> None /\
        trace st = sent_ok b pre links ++ [EvUpload b f Throws] /\
        r = Raised (UploadRejected f)))).
Proof.
  intros c0 needUpload Hfiles.
  rewrite bundle_upload_phases. cbv zeta. cbn [cache]. fold c0.
  destruct files as [|file files']; [congruence|].
  fold needUpload. rewrite upload_pending_single.
  destruct (BundleUpload.upload_each w b needUpload
              {| cache := c0; trace := [] |}) as [st1 r1] eqn:E.
  apply upload_each_exact in E. cbn [trace app] in E.
  destruct E as [(links & Hlen & Htr & ->)|(pre & f & post & links & E & Hlen & H)].
  - destruct (commit_phase_summary w totalNFTs retain mutable st1)
      as (evs3 & Hc3 & Hu3).
    intros [= H]. rewrite H in Hc3. cbn [fst] in Hc3.
    unfold continues in Hc3. left. exists links, evs3.
    split; [exact Hlen|]. split; [now rewrite Hc3, Htr|exact Hu3].
  - destruct H as [(Hf & Htr & ->)|(Hf & Htr & ->)]; intros [= <- <-];
      right; exists pre, f, post, links;
      (split; [exact E|]); (split; [exact Hlen|]); [left|right]; auto.
Qed.

(** The bundle-capable command sends to a storage backend only items
    that the item selector found pending, which have no link in the
    cache as loaded and are listed once each.  With a single-item
    backend and a file list that is not empty, it sends them one by
    one in the order of the selector, and either it sends them all and
    every upload returns (what follows in the run sends nothing), or it
    stops at the first item whose manifest cannot be read or whose
    upload throws: the run raises that error, and the trace ends with
    the uploads of the items before that one, which all returned, and,
    if it was sent, the upload of that item.  With the bundle backend
    every image bundle is made of pending items. *)
Theorem bundle_command_sends_pending_only :
  forall w saved files storage totalNFTs retain mutable st r,
    let c0 := match saved with Some c => c | None => empty_cache end in
    let needUpload := BundleUpload.getItemsNeedingUpload w (items c0) files in
    BundleUpload.upload w saved files storage totalNFTs retain mutable
    = Some (st, r) ->
    NoDup needUpload /\
    (forall b,
        storage = BundleUpload.Single b -> files <> [] ->
        (exists links evs,
            List.length links = List.length needUpload /\
            trace st = sent_ok b needUpload links ++ evs /\
            Forall (fun ev => is_upload ev = false) evs) \/
        (exists pre f post links,
            needUpload = pre ++ f :: post /\
            List.length links = List.length pre /\
            ((read_manifest w (f ++ ".json") = None /\
              trace st = sent_ok b pre links /\
              r = Raised (FileError (f ++ ".json"))) \/
             (read_manifest w (f ++ ".json") <> None /\
              trace st = sent_ok b pre links ++ [EvUpload b f Throws] /\
              r = Raised (UploadRejected f))))) /\
    (exists n, uploaded (trace st) = firstn n needUpload) /\
    (forall b item res,
        In (EvUpload b item res) (trace st) ->
        storage = BundleUpload.Single b /\ In item needUpload /\
        has_link c0 item = false) /\
    (forall batch ids item,
        In (EvBundle (Images batch) ids) (trace st) -> In item batch ->
        storage = BundleUpload.ArweaveNative /\ In item needUpload /\
        has_link c0 item = false).
Proof.
  intros w saved files storage totalNFTs retain mutable st r c0 needUpload.
  intros Hrun. split; [apply needing_upload_NoDup|].
  split.
  { intros b -> Hfiles.
    exact (single_loop_run w saved files b totalNFTs retain mutable st r
             Hfiles Hrun). }
  revert Hrun.
  rewrite bundle_upload_phases. cbv zeta. cbn [cache]. fold c0.
  assert (Hno : forall item, In item needUpload -> has_link c0 item = false).
  { intros item. apply needing_upload_no_link. }
  destruct files as [|file files'].
  { intros [= <- <-]. simpl. split; [now exists 0|].
    split; intros; contradiction. }
  fold needUpload. clearbody needUpload.
  set (st0 := {| cache := c0; trace := [] |}).
  destruct (BundleUpload.upload_pending w storage needUpload st0)
    as [[st1 r1]|] eqn:Hp; [|discriminate].
  destruct (upload_pending_events w storage needUpload st0 st1 r1 Hp)
    as (evs1 & Hc1 & _ & _ & _ & Hpre & Hup & Himg).
  unfold continues in Hc1. simpl in Hc1.
  assert (Hmain : forall evs3,
             Forall (fun ev => is_upload ev = false) evs3 ->
             (exists n, uploaded (evs1 ++ evs3) = firstn n needUpload) /\
             (forall b item res,
                 In (EvUpload b item res) (evs1 ++ evs3) ->
                 storage = BundleUpload.Single b /\ In item needUpload /\
                 has_link c0 item = false) /\
             (forall batch ids item,
                 In (EvBundle (Images batch) ids) (evs1 ++ evs3) ->
                 In item batch ->
                 storage = BundleUpload.ArweaveNative /\ In item needUpload /\
                 has_link c0 item = false)).
  { intros evs3 Hu3. split; [|split].
    - destruct Hpre as [n Hn]. exists n.
      now rewrite uploaded_app, (uploaded_none evs3 Hu3), app_nil_r.
    - intros b item res Hin. apply in_app_or in Hin.
      destruct Hin as [Hin|Hin].
      + destruct (Hup b item res Hin) as [Hs Hi].
        split; [exact Hs|]. split; [exact Hi|]. now apply Hno.
      + rewrite Forall_forall in Hu3. specialize (Hu3 _ Hin). discriminate.
    - intros batch ids item Hin Hi. apply in_app_or in Hin.
      destruct Hin as [Hin|Hin].
      + destruct (Himg batch ids item Hin Hi) as [Hs Hi'].
        split; [exact Hs|]. split; [exact Hi'|]. now apply Hno.
      + rewrite Forall_forall in Hu3. specialize (Hu3 _ Hin). discriminate. }
  destruct r1 as [u|e].
  - destruct (commit_phase_summary w totalNFTs retain mutable st1)
      as (evs3 & Hc3 & Hu3).
    intros [= H]. rewrite H in Hc3. cbn [fst] in Hc3.
    unfold continues in Hc3. rewrite Hc3, Hc1. now apply Hmain.
  - intros [= <- <-]. rewrite Hc1, <- (app_nil_r evs1). now apply Hmain.
Qed.

Lemma bundle_command_sends_pending_only_witness :
  exists st,
    BundleUpload.upload Samples.item_1_fails
      (Some (Samples.cache_of 1 0))
      (Samples.png_files 4) (BundleUpload.Single Ipfs) 4 true true
    = Some (st, Raised (UploadRejected "1")) /\
    trace st = [EvUpload Ipfs "1" Throws] /\
    BundleUpload.getItemsNeedingUpload Samples.item_1_fails
      (items (Samples.cache_of 1 0)) (Samples.png_files 4)
    = [] ++ "1" :: ["2"; "3"] /\
    has_link (Samples.cache_of 1 0) "1" = false.
Proof.
  eassert (E : BundleUpload.upload Samples.item_1_fails
                 (Some (Samples.cache_of 1 0))
                 (Samples.png_files 4) (BundleUpload.Single Ipfs) 4 true true
               = Some (_, _)) by (vm_compute; reflexivity).
  destruct (bundle_command_sends_pending_only _ _ _ _ _ _ _ _ _ E)
    as (_ & _ & _ & Hup & _).
  destruct (Hup Ipfs "1" Throws) as (_ & _ & Hl).
  { vm_compute. left. reflexivity. }
  eexists. split; [exact E|]. split; [reflexivity|].
  split; [reflexivity|exact Hl].
Defined.

(** With a single-item backend the bundle-capable command keeps no link:
    the link that an upload returns is dropped, so at the end of the run,
    however it ends, the cache has the keys and the links it had when it
    was loaded and the item selector finds the same items pending. *)
Theorem single_backend_records_no_link :
  forall w saved files b totalNFTs retain mutable,
    let c0 := match saved with Some c => c | None => empty_cache end in
    exists st r,
      BundleUpload.upload w saved files (BundleUpload.Single b)
                          totalNFTs retain mutable = Some (st, r) /\
      JS.keys (items (cache st)) = JS.keys (items c0) /\
      (forall k, link_of (cache st) k = link_of c0 k) /\
      BundleUpload.getItemsNeedingUpload w (items (cache st)) files
      = BundleUpload.getItemsNeedingUpload w (items c0) files.
Proof.
  intros w saved files b totalNFTs retain mutable c0.
  assert (H : exists st r,
             BundleUpload.upload w saved files (BundleUpload.Single b)
                                 totalNFTs retain mutable = Some (st, r) /\
             JS.keys (items (cache st)) = JS.keys (items c0) /\
             (forall k, link_of (cache st) k = link_of c0 k)).
  { rewrite bundle_upload_phases. cbv zeta. cbn [cache]. fold c0.
    destruct files as [|file files'].
    { eexists _, _. split; [reflexivity|]. split; reflexivity. }
    set (needUpload := BundleUpload.getItemsNeedingUpload w (items c0) _).
    set (st0 := {| cache := c0; trace := [] |}).
    assert (Hp : exists st1 r1,
               BundleUpload.upload_pending w (BundleUpload.Single b)
                 needUpload st0 = Some (st1, r1) /\ cache st1 = c0).
    { unfold BundleUpload.upload_pending.
      destruct needUpload as [|x need]; [eexists _, _; split; reflexivity|].
      destruct (upload_each_summary w b (x :: need) st0) as (evs & _ & Hk & _).
      destruct (BundleUpload.upload_each w b (x :: need) st0) as [st1 r1].
      exists st1, r1. split; [reflexivity|exact Hk]. }
    destruct Hp as (st1 & r1 & -> & Hk).
    destruct r1 as [u|e].
    - pose proof (commit_phase_link_of w totalNFTs retain mutable st1) as Hl.
      pose proof (commit_phase_keys w totalNFTs retain mutable st1) as Hkeys.
      destruct (BundleUpload.commit_phase w totalNFTs retain mutable st1)
        as [st r]. cbn [fst] in *. rewrite Hk in *.
      exists st, r. auto.
    - exists st1, (Raised e). rewrite Hk. auto. }
  destruct H as (st & r & E & Hkeys & Hl).
  exists st, r. split; [exact E|]. split; [exact Hkeys|]. split; [exact Hl|].
  apply needing_upload_ext; [exact Hkeys|]. intros k. apply Hl.
Qed.

(** The bundle-capable command creates the config at most once in a run,
    and not at all when the cache has one: the call is made with the
    total number of items, the flags, and the symbol, the fee and the
    creators of the manifest of item 0.  When the call fails the command
    raises that error without a registry write; and a registry write is
    made only with a config in the cache. *)
Theorem bundle_command_config :
  forall w saved files storage totalNFTs retain mutable st r,
    let c0 := match saved with Some c => c | None => empty_cache end in
    BundleUpload.upload w saved files storage totalNFTs retain mutable
    = Some (st, r) ->
    List.length (filter is_config (trace st)) <= 1 /\
    (forall d res,
        In (EvCreateConfig d res) (trace st) ->
        JS.truthy (config (program c0)) = false /\
        exists manifest0,
          read_manifest w "0.json" = Some manifest0 /\
          d = {| maxNumberOfLines := totalNFTs;
                 cd_symbol := m_symbol manifest0;
                 sellerFeeBasisPoints := seller_fee_basis_points manifest0;
                 isMutable := mutable;
                 retainAuthority := retain;
                 cd_creators := creators manifest0 |}) /\
    (forall d,
        In (EvCreateConfig d None) (trace st) ->
        r = Raised ConfigDeployError /\ writes (trace st) = 0) /\
    (forall ind lines ok,
        In (EvAddConfigLines ind lines ok) (trace st) ->
        config (program (cache st)) <> None).
Proof.
  intros w saved files storage totalNFTs retain mutable st r c0.
  rewrite bundle_upload_phases. cbv zeta. cbn [cache]. fold c0.
  destruct files as [|file files'].
  { intros [= <- <-]. simpl. split; [lia|].
    repeat split; intros; contradiction. }
  set (needUpload := BundleUpload.getItemsNeedingUpload w (items c0) _).
  set (st0 := {| cache := c0; trace := [] |}).
  destruct (BundleUpload.upload_pending w storage needUpload st0)
    as [[st1 r1]|] eqn:Hp; [|discriminate].
  destruct (upload_pending_events w storage needUpload st0 st1 r1 Hp)
    as (evs1 & Hc1 & Hprog & Hcfg & Hwr & _).
  unfold continues in Hc1. simpl in Hc1. simpl in Hprog.
  assert (Hf1 : filter is_config evs1 = []).
  { clear -Hcfg. induction Hcfg as [|ev evs Hev _ IH]; simpl; [reflexivity|].
    now rewrite Hev. }
  assert (Hn1 : forall d res, ~ In (EvCreateConfig d res) evs1).
  { intros d res Hin. rewrite Forall_forall in Hcfg.
    specialize (Hcfg _ Hin). discriminate. }
  assert (Hw1 : forall ind lines ok, ~ In (EvAddConfigLines ind lines ok) evs1).
  { intros ind lines ok Hin. rewrite Forall_forall in Hwr.
    specialize (Hwr _ Hin). discriminate. }
  destruct r1 as [u|e].
  2:{ intros [= <- <-]. rewrite Hc1, Hf1. simpl. split; [lia|].
      split; [intros d res Hin; now elim (Hn1 d res)|].
      split; [intros d Hin; now elim (Hn1 d None)|].
      intros ind lines ok Hin. now elim (Hw1 ind lines ok). }
  unfold BundleUpload.commit_phase, BundleUpload.getItemManifest.
  change ("0" ++ ".json")%string with "0.json".
  destruct (read_manifest w "0.json") as [manifest0|] eqn:Hm0.
  2:{ intros [= <- <-]. rewrite Hc1, Hf1. simpl. split; [lia|].
      split; [intros d res Hin; now elim (Hn1 d res)|].
      split; [intros d Hin; now elim (Hn1 d None)|].
      intros ind lines ok Hin. now elim (Hw1 ind lines ok). }
  assert (Hreg : forall st2,
             exists evs,
               continues st2 (BundleUpload.writeIndices w st2) evs /\
               Forall (fun ev => is_registry ev = true) evs /\
               program (cache (BundleUpload.writeIndices w st2))
               = program (cache st2)).
  { intros st2. destruct (commit_all_registry w st2) as (evs & Hc & Hr).
    exists evs. split; [exact Hc|]. split; [exact Hr|].
    unfold BundleUpload.writeIndices.
    now destruct (commit_all_marks w st2) as (-> & _). }
  assert (Hregc : forall evs,
             Forall (fun ev => is_registry ev = true) evs ->
             filter is_config evs = [] /\
             forall d res, ~ In (EvCreateConfig d res) evs).
  { intros evs Hr. split.
    - clear -Hr. induction Hr as [|ev evs Hev _ IH]; simpl; [reflexivity|].
      rewrite IH. now destruct ev.
    - intros d res Hin. rewrite Forall_forall in Hr.
      specialize (Hr _ Hin). discriminate. }
  destruct (JS.truthy (config (program (cache st1)))) eqn:Hcfg1.
  - intros [= <- <-]. destruct (Hreg st1) as (evs3 & Hc3 & Hr3 & Hp3).
    destruct (Hregc evs3 Hr3) as [Hf3 Hn3].
    unfold continues in Hc3. rewrite Hc3, Hc1, filter_app, Hf1, Hf3.
    simpl. split; [lia|].
    split.
    { intros d res Hin. apply in_app_or in Hin.
      destruct Hin as [Hin|Hin]; [now elim (Hn1 d res)|now elim (Hn3 d res)]. }
    split.
    { intros d Hin. apply in_app_or in Hin.
      destruct Hin as [Hin|Hin]; [now elim (Hn1 d None)|now elim (Hn3 d None)]. }
    intros ind lines ok _. rewrite Hp3.
    destruct (config (program (cache st1))); [discriminate|discriminate].
  - unfold BundleUpload.initConfig. cbv zeta.
    set (d0 := BundleUpload.config_data totalNFTs mutable retain manifest0).
    destruct (createConfig w (trace st1) d0) as [[uu cfg]|] eqn:Hcc.
    + intros [= <- <-].
      match goal with
      | |- context [BundleUpload.writeIndices w ?s] => set (st2 := s)
      end.
      destruct (Hreg st2) as (evs3 & Hc3 & Hr3 & Hp3).
      destruct (Hregc evs3 Hr3) as [Hf3 Hn3].
      unfold continues in Hc3. rewrite Hc3.
      assert (Ht2 : trace st2
                    = evs1 ++ [EvCreateConfig d0 (Some (uu, cfg));
                               EvSaveCache (cache st2)]).
      { unfold st2. cbn [saveCache emit with_cache trace cache].
        rewrite Hc1. now rewrite <- app_assoc. }
      rewrite Ht2, !filter_app, Hf1, Hf3. simpl. split; [lia|].
      split.
      { intros d res Hin. apply in_app_or in Hin.
        destruct Hin as [Hin|Hin]; [|now elim (Hn3 d res)].
        apply in_app_or in Hin.
        destruct Hin as [Hin|[Hin|[Hin|[]]]];
          [now elim (Hn1 d res)| |discriminate].
        inversion Hin; subst. rewrite <- Hprog. split; [exact Hcfg1|].
        exists manifest0. split; reflexivity. }
      split.
      { intros d Hin. apply in_app_or in Hin.
        destruct Hin as [Hin|Hin]; [|now elim (Hn3 d None)].
        apply in_app_or in Hin.
        destruct Hin as [Hin|[Hin|[Hin|[]]]];
          [now elim (Hn1 d None)|discriminate|discriminate]. }
      intros ind lines ok _. rewrite Hp3. unfold st2. simpl. discriminate.
    + intros [= <- <-]. cbn [emit trace cache]. rewrite Hc1.
      rewrite <- !app_assoc, filter_app, Hf1. simpl. split; [lia|].
      split.
      { intros d res Hin. apply in_app_or in Hin.
        destruct Hin as [Hin|[Hin|[Hin|[]]]];
          [now elim (Hn1 d res)| |discriminate].
        inversion Hin; subst. rewrite <- Hprog. split; [exact Hcfg1|].
        exists manifest0. split; reflexivity. }
      split.
      { intros d _. split; [reflexivity|].
        rewrite writes_app, (writes_none evs1 Hwr). reflexivity. }
      intros ind lines ok Hin. apply in_app_or in Hin.
      destruct Hin as [Hin|[Hin|[Hin|[]]]];
        [now elim (Hw1 ind lines ok)|discriminate|discriminate].
Qed.

Lemma bundle_command_config_witness :
  exists st d,
    BundleUpload.upload Samples.fair None (Samples.png_files 3)
                        BundleUpload.ArweaveNative 3 true false
    = Some (st, Returned tt) /\
    In (EvCreateConfig d (Some ("uuid01", Samples.config_key))) (trace st) /\
    cd_symbol d = "SYM" /\ maxNumberOfLines d = 3%N /\
    isMutable d = false /\
    List.length (filter is_config (trace st)) <= 1 /\
    config (program (cache st)) <> None.
Proof.
  eassert (E : BundleUpload.upload Samples.fair None (Samples.png_files 3)
                 BundleUpload.ArweaveNative 3 true false
               = Some (_, Returned tt)) by (vm_compute; reflexivity).
  match type of E with _ = Some (?s, _) => set (st := s) in * end.
  destruct (bundle_command_config _ _ _ _ _ _ _ _ _ E)
    as (Hcount & Hd & _ & Hw).
  eassert (Hin : In (EvCreateConfig _ (Some ("uuid01", Samples.config_key)))
                    (trace st)).
  { vm_compute. do 5 right. left. reflexivity. }
  destruct (Hd _ _ Hin) as (_ & m0 & Hm0 & Ed).
  exists st. eexists. split; [exact E|]. split; [exact Hin|].
  inversion Hm0; subst m0.
  split; [now rewrite Ed|]. split; [now rewrite Ed|].
  split; [now rewrite Ed|]. split; [exact Hcount|].
  eapply Hw. vm_compute. do 7 right. left. reflexivity.
Defined.

(* ================================================================== *)
(** * commands/upload.ts: what a run sends *)
(* ================================================================== *)

Lemma subseq_nil_l {A} (l : list A) : subseq [] l.
Proof. induction l; constructor; auto. Qed.

Lemma subseq_refl {A} (l : list A) : subseq l l.
Proof. induction l; [constructor|now apply subseq_keep]. Qed.

Lemma subseq_app {A} (a a' b b' : list A) :
  subseq a a' -> subseq b b' -> subseq (a ++ b) (a' ++ b').
Proof.
  intros Ha Hb. induction Ha; simpl; [exact Hb| |].
  - now apply subseq_skip.
  - now apply subseq_keep.
Qed.

Lemma subseq_In {A} (l l' : list A) x : subseq l l' -> In x l -> In x l'.
Proof.
  induction 1; simpl; [tauto| |]; intros H'.
  - right. auto.
  - destruct H'; auto.
Qed.

Lemma subseq_NoDup {A} (l l' : list A) : subseq l l' -> NoDup l' -> NoDup l.
Proof.
  induction 1; intros Hnd; [constructor| |].
  - inversion Hnd; auto.
  - inversion Hnd; subst. constructor; [|auto].
    intros Hin. eapply subseq_In in Hin; eauto.
Qed.

Lemma filter_config_none evs :
  (forall d res, ~ In (EvCreateConfig d res) evs) ->
  filter is_config evs = [].
Proof.
  induction evs as [|ev evs IH]; intros H; simpl; [reflexivity|].
  destruct ev; simpl; try (apply IH; intros d' res' Hin; apply (H d' res');
                           now right).
  elim (H d r). now left.
Qed.

Section ItemEvents.

Variable w : World.
Variables (totalNFTs : N) (storage : string) (retain mutable : bool).

Local Abbreviation one_item :=
  (Upload.upload_one_item w totalNFTs storage retain mutable).
Local Abbreviation window_run :=
  (Upload.upload_window w totalNFTs storage retain mutable).

(** What [upload_one_item] sends for the image at position [i]. *)
Lemma one_item_events image i c0 st :
  exists evs,
    continues st (fst (one_item image i c0 st)) evs /\
    (forall b g res,
        In (EvUpload b g res) evs ->
        g = image /\ Upload.backend_of storage = Some b /\
        has_link c0 (Upload.image_index w image) = false /\
        exists tr m, res = upload_item w tr b image m) /\
    subseq (uploaded evs) [image] /\
    (forall d res,
        In (EvCreateConfig d res) evs ->
        i = 0 /\ JS.truthy (uuid (program c0)) = false /\
        (exists m,
            read_manifest w (JS.replace (EXTENSION_PNG w) ".json" image)
            = Some m /\
            d = BundleUpload.config_data totalNFTs mutable retain m) /\
        (res = None ->
         snd (one_item image i c0 st) = Raised ConfigDeployError)) /\
    List.length (filter is_config evs) <= 1 /\
    (i <> 0 -> filter is_config evs = []) /\
    Forall (fun ev => is_save ev = false /\ is_write ev = false) evs.
Proof.
  unfold continues. unfold Upload.upload_one_item.
  set (index := Upload.image_index w image).
  fold (has_link c0 index).
  destruct (negb (has_link c0 index)
            || negb (JS.truthy (uuid (program c0)))) eqn:Hcond.
  2:{ exists []. cbn [fst snd]. rewrite app_nil_r.
      repeat split; auto; try contradiction. apply subseq_nil_l. }
  destruct (read_manifest w (JS.replace (EXTENSION_PNG w) ".json" image))
    as [manifest|] eqn:Hm.
  2:{ exists []. cbn [fst snd]. rewrite app_nil_r.
      repeat split; auto; try contradiction. apply subseq_nil_l. }
  (* the upload of the item, after the events [evs0] *)
  assert (Hstore : forall st1 evs0,
             trace st1 = trace st ++ evs0 ->
             exists evs1,
               trace (fst (if negb (has_link c0 index)
                           then
                             match Upload.backend_of storage with
                             | None => (st1, Returned true)
                             | Some b =>
                                 let r := upload_item w (trace st1) b image
                                            manifest in
                                 let st2 := emit (EvUpload b image r) st1 in
                                 match r with
                                 | Throws =>
                                     (emit (EvLogError index) st2,
                                      Returned false)
                                 | Returns l =>
                                     if JS.truthy l
                                     then
                                       (with_cache
                                          (Upload.set_authority (wallet w)
                                             (set_item index
                                                {| link := l;
                                                   name := Some (m_name manifest);
                                                   onChain := false |}
                                                (cache st2))) st2,
                                        Returned true)
                                     else (st2, Returned true)
                                 end
                             end
                           else (st1, Returned true)))
               = trace st ++ evs0 ++ evs1 /\
               (forall b g res,
                   In (EvUpload b g res) evs1 ->
                   g = image /\ Upload.backend_of storage = Some b /\
                   has_link c0 index = false /\
                   exists tr m, res = upload_item w tr b image m) /\
               subseq (uploaded evs1) [image] /\
               (forall d res, ~ In (EvCreateConfig d res) evs1) /\
               Forall (fun ev => is_save ev = false /\ is_write ev = false)
                      evs1).
  { intros st1 evs0 Ht.
    destruct (has_link c0 index) eqn:Hl; cbn [negb].
    { exists []. cbn [fst]. rewrite Ht, app_nil_r.
      repeat split; auto; try contradiction. apply subseq_nil_l. }
    destruct (Upload.backend_of storage) as [b|] eqn:Hb.
    2:{ exists []. cbn [fst]. rewrite Ht, app_nil_r.
        repeat split; auto; try contradiction. apply subseq_nil_l. }
    cbv zeta.
    destruct (upload_item w (trace st1) b image manifest) as [|l] eqn:Hup.
    - exists [EvUpload b image Throws; EvLogError index]. cbn [fst emit trace].
      rewrite Ht, <- !app_assoc. simpl. split; [reflexivity|].
      split.
      { intros b' g res [H|[H|[]]]; inversion H; subst.
        repeat split; auto. exists (trace st1), manifest. now rewrite Hup. }
      split; [apply subseq_refl|].
      split; [intros d res [H|[H|[]]]; discriminate|].
      repeat constructor.
    - exists [EvUpload b image (Returns l)].
      split.
      { destruct (JS.truthy l); cbn [fst emit trace with_cache];
          rewrite Ht; now rewrite <- !app_assoc. }
      split.
      { intros b' g res [H|[]]; inversion H; subst.
        repeat split; auto. exists (trace st1), manifest. now rewrite Hup. }
      split; [apply subseq_refl|].
      split; [intros d res [H|[]]; discriminate|].
      repeat constructor. }
  fold index.
  destruct (Nat.eqb i 0 && negb (JS.truthy (uuid (program c0)))) eqn:Hinit.
  - apply andb_true_iff in Hinit. destruct Hinit as [Hi Hu].
    apply Nat.eqb_eq in Hi. apply negb_true_iff in Hu.
    set (d0 := BundleUpload.config_data totalNFTs mutable retain manifest).
    destruct (createConfig w (trace st) d0) as [[uu cfg]|] eqn:Hcc.
    + match goal with
      | |- context [negb _ || _] => idtac
      | |- _ => idtac
      end.
      set (st1 := with_cache _ _).
      destruct (Hstore st1 [EvCreateConfig d0 (Some (uu, cfg))])
        as (evs1 & Ht & Hup & Hsub & Hnc & Hsw).
      { reflexivity. }
      exists (EvCreateConfig d0 (Some (uu, cfg)) :: evs1).
      split; [exact Ht|]. split.
      { intros b g res [H|H]; [discriminate|]. now apply Hup. }
      split; [exact Hsub|]. split.
      { intros d res [H|H]; [|now elim (Hnc d res)].
        inversion H; subst. split; [reflexivity|]. split; [exact Hu|].
        split; [exists manifest; split; reflexivity|discriminate]. }
      split.
      { simpl. rewrite (filter_config_none evs1 Hnc). simpl. lia. }
      split; [intros Hne; contradiction|].
      constructor; [split; reflexivity|exact Hsw].
    + exists [EvCreateConfig d0 None;
              EvLogError "Error deploying config to Solana network."].
      cbn [fst snd emit trace]. rewrite <- app_assoc. simpl.
      split; [reflexivity|]. split.
      { intros b g res [H|[H|[]]]; discriminate. }
      split; [apply subseq_nil_l|]. split.
      { intros d res [H|[H|[]]]; [|discriminate].
        inversion H; subst. split; [reflexivity|]. split; [exact Hu|].
        split; [exists manifest; split; reflexivity|reflexivity]. }
      split; [lia|]. split; [intros Hne; contradiction|].
      repeat constructor.
  - destruct (Hstore st []) as (evs1 & Ht & Hup & Hsub & Hnc & Hsw).
    { now rewrite app_nil_r. }
    exists evs1. split; [exact Ht|]. split; [exact Hup|].
    split; [exact Hsub|]. split.
    { intros d res Hin. now elim (Hnc d res). }
    rewrite (filter_config_none evs1 Hnc). simpl.
    split; [lia|]. split; [reflexivity|exact Hsw].
Qed.

End ItemEvents.

Lemma filter_config_nil evs d res :
  filter is_config evs = [] -> ~ In (EvCreateConfig d res) evs.
Proof.
  intros H Hin.
  assert (Hf : In (EvCreateConfig d res) (filter is_config evs)).
  { apply filter_In. split; [exact Hin|reflexivity]. }
  rewrite H in Hf. contradiction.
Qed.

Lemma subseq_trans {A} (l1 l2 l3 : list A) :
  subseq l1 l2 -> subseq l2 l3 -> subseq l1 l3.
Proof.
  intros H12 H23. revert l1 H12.
  induction H23; intros l1 H12.
  - exact H12.
  - apply subseq_skip. auto.
  - inversion H12; subst.
    + apply subseq_skip. auto.
    + apply subseq_keep. auto.
Qed.

Section WindowEvents.

Variable w : World.
Variables (totalNFTs : N) (storage : string) (retain mutable : bool).

Local Abbreviation one_item :=
  (Upload.upload_one_item w totalNFTs storage retain mutable).
Local Abbreviation window_run :=
  (Upload.upload_window w totalNFTs storage retain mutable).

(** What the promises of one window send. *)
Lemma window_events window :
  forall i0 c0 st,
  exists evs,
    continues st (fst (window_run window i0 c0 st)) evs /\
    (forall b g res,
        In (EvUpload b g res) evs ->
        In g window /\ Upload.backend_of storage = Some b /\
        has_link c0 (Upload.image_index w g) = false /\
        exists tr m, res = upload_item w tr b g m) /\
    subseq (uploaded evs) window /\
    (forall d res,
        In (EvCreateConfig d res) evs ->
        i0 = 0 /\ JS.truthy (uuid (program c0)) = false /\
        (exists image0 m,
            nth_error window 0 = Some image0 /\
            read_manifest w (JS.replace (EXTENSION_PNG w) ".json" image0)
            = Some m /\
            d = BundleUpload.config_data totalNFTs mutable retain m) /\
        (res = None ->
         snd (window_run window i0 c0 st) = Raised ConfigDeployError)) /\
    List.length (filter is_config evs) <= 1 /\
    (i0 <> 0 -> filter is_config evs = []) /\
    Forall (fun ev => is_save ev = false /\ is_write ev = false) evs.
Proof.
  induction window as [|image rest IH]; intros i0 c0 st.
  - exists []. unfold continues. simpl. rewrite app_nil_r.
    repeat split; auto; try contradiction. constructor.
  - destruct (one_item_events w totalNFTs storage retain mutable image i0 c0 st)
      as (evs0 & Hc0 & Hup0 & Hsub0 & Hcfg0 & Hcnt0 & Hnz0 & Hsw0).
    destruct (IH (S i0) c0 (fst (one_item image i0 c0 st)))
      as (evs1 & Hc1 & Hup1 & Hsub1 & _ & _ & Hnz1 & Hsw1).
    specialize (Hnz1 ltac:(lia)).
    exists (evs0 ++ evs1). rewrite window_fst, window_snd.
    unfold continues in *.
    split; [rewrite Hc1, Hc0; now rewrite app_assoc|].
    split.
    { intros b g res Hin. apply in_app_or in Hin. destruct Hin as [Hin|Hin].
      - destruct (Hup0 b g res Hin) as (-> & Hb & Hl & Hr).
        split; [now left|]. auto.
      - destruct (Hup1 b g res Hin) as (Hg & Hb & Hl & Hr).
        split; [now right|]. auto. }
    split.
    { rewrite uploaded_app. apply (subseq_app _ [image] _ rest); assumption. }
    split.
    { intros d res Hin. apply in_app_or in Hin.
      destruct Hin as [Hin|Hin]; [|now elim (filter_config_nil evs1 d res)].
      destruct (Hcfg0 d res Hin) as (Hi & Hu & (m & Hm & Hd) & Hnone).
      split; [exact Hi|]. split; [exact Hu|]. split.
      - exists image, m. auto.
      - intros Hres. now rewrite (Hnone Hres). }
    split; [rewrite filter_app, Hnz1, app_nil_r; exact Hcnt0|].
    split.
    { intros Hne. now rewrite filter_app, Hnz1, (Hnz0 Hne). }
    now apply Forall_app.
Qed.

Variables (images : list string) (size : nat).

Local Abbreviation windows_run :=
  (Upload.upload_windows w totalNFTs storage retain mutable images size).

(** What the loop over the windows sends. *)
Lemma windows_events starts :
  forall st flag,
  exists evs,
    continues st (fst (windows_run starts st flag)) evs /\
    (forall b g res,
        In (EvUpload b g res) evs ->
        In g images /\ Upload.backend_of storage = Some b /\
        has_link (cache st) (Upload.image_index w g) = false /\
        exists tr m, res = upload_item w tr b g m) /\
    subseq (uploaded evs)
           (List.concat (map (Upload.window_at images size) starts)) /\
    ((forall s, In s starts -> s <> 0) -> filter is_config evs = []) /\
    Forall (fun ev => is_write ev = false) evs.
Proof.
  induction starts as [|s rest IH]; intros st flag.
  - exists []. unfold continues. simpl. rewrite app_nil_r.
    repeat split; auto; try contradiction. constructor.
  - rewrite windows_cons.
    destruct (window_events (Upload.window_at images size s) s (cache st) st)
      as (evs0 & Hc0 & Hup0 & Hsub0 & _ & _ & Hnz0 & Hsw0).
    destruct (window_summary w totalNFTs storage retain mutable
                (Upload.window_at images size s) s (cache st) st)
      as (evs0' & (_ & _ & Hmono & _) & _).
    assert (Hw0 : Forall (fun ev => is_write ev = false) evs0).
    { eapply Forall_impl; [|exact Hsw0]. now intros ev [_ H]. }
    assert (Hup0' : forall b g res,
               In (EvUpload b g res) evs0 ->
               In g images /\ Upload.backend_of storage = Some b /\
               has_link (cache st) (Upload.image_index w g) = false /\
               exists tr m, res = upload_item w tr b g m).
    { intros b g res Hin. destruct (Hup0 b g res Hin) as (Hg & H).
      split; [now apply (In_window_at images size s)|exact H]. }
    destruct (snd (window_run (Upload.window_at images size s) s (cache st) st))
      as [results|e].
    + set (st1 := fst (window_run (Upload.window_at images size s) s
                                  (cache st) st)) in *.
      destruct (IH (saveCache st1) (forallb (fun x => x) results && flag))
        as (evs1 & Hc1 & Hup1 & Hsub1 & Hnz1 & Hw1).
      exists (evs0 ++ EvSaveCache (cache st1) :: evs1).
      unfold continues in *.
      split.
      { rewrite Hc1. unfold saveCache. rewrite trace_emit, Hc0.
        rewrite <- !app_assoc. reflexivity. }
      split.
      { intros b g res Hin. apply in_app_or in Hin.
        destruct Hin as [Hin|[Hin|Hin]]; [now apply Hup0'|discriminate|].
        destruct (Hup1 b g res Hin) as (Hg & Hb & Hl & Hr).
        split; [exact Hg|]. split; [exact Hb|]. split; [|exact Hr].
        cbn [saveCache emit cache] in Hl.
        destruct (has_link (cache st) (Upload.image_index w g)) eqn:E;
          [|reflexivity].
        apply Hmono in E. congruence. }
      split.
      { rewrite uploaded_app. cbn [map List.concat uploaded flat_map].
        cbn [app]. apply subseq_app; assumption. }
      split.
      { intros Hall. rewrite filter_app. cbn [filter is_config].
        rewrite Hnz0 by (apply Hall; now left).
        rewrite Hnz1; [reflexivity|].
        intros s' Hs'. apply Hall. now right. }
      apply Forall_app. split; [exact Hw0|].
      constructor; [reflexivity|exact Hw1].
    + exists evs0. cbn [fst]. split; [exact Hc0|]. split; [exact Hup0'|].
      split.
      { cbn [map List.concat]. rewrite <- (app_nil_r (uploaded evs0)).
        apply subseq_app; [exact Hsub0|apply subseq_nil_l]. }
      split; [|exact Hw0].
      intros Hall. apply Hnz0. apply Hall. now left.
Qed.

(** The config is created by the first image of the first window. *)
Lemma windows_config s0 rest st flag :
  (forall s, In s rest -> s <> 0) ->
  exists evs,
    continues st (fst (windows_run (s0 :: rest) st flag)) evs /\
    List.length (filter is_config evs) <= 1 /\
    forall d res,
      In (EvCreateConfig d res) evs ->
      s0 = 0 /\ JS.truthy (uuid (program (cache st))) = false /\
      (exists image0 m,
          nth_error (Upload.window_at images size s0) 0 = Some image0 /\
          read_manifest w (JS.replace (EXTENSION_PNG w) ".json" image0)
          = Some m /\
          d = BundleUpload.config_data totalNFTs mutable retain m) /\
      (res = None ->
       snd (windows_run (s0 :: rest) st flag) = Raised ConfigDeployError /\
       Forall (fun ev => is_save ev = false /\ is_write ev = false) evs).
Proof.
  intros Hrest. rewrite windows_cons.
  destruct (window_events (Upload.window_at images size s0) s0 (cache st) st)
    as (evs0 & Hc0 & _ & _ & Hcfg0 & Hcnt0 & _ & Hsw0).
  destruct (snd (window_run (Upload.window_at images size s0) s0 (cache st) st))
    as [results|e] eqn:Hres.
  - set (st1 := fst (window_run (Upload.window_at images size s0) s0
                                (cache st) st)) in *.
    destruct (windows_events rest (saveCache st1)
                (forallb (fun x => x) results && flag))
      as (evs1 & Hc1 & _ & _ & Hnz1 & _).
    specialize (Hnz1 Hrest).
    exists (evs0 ++ EvSaveCache (cache st1) :: evs1).
    unfold continues in *.
    split.
    { rewrite Hc1. unfold saveCache. rewrite trace_emit, Hc0.
      rewrite <- !app_assoc. reflexivity. }
    split.
    { rewrite filter_app. cbn [filter is_config]. rewrite Hnz1, app_nil_r.
      exact Hcnt0. }
    intros d res Hin. apply in_app_or in Hin.
    destruct Hin as [Hin|[Hin|Hin]];
      [|discriminate|now elim (filter_config_nil evs1 d res)].
    destruct (Hcfg0 d res Hin) as (Hs & Hu & Hd & Hnone).
    split; [exact Hs|]. split; [exact Hu|]. split; [exact Hd|].
    intros Hn. specialize (Hnone Hn). discriminate.
  - exists evs0. cbn [fst snd]. split; [exact Hc0|]. split; [exact Hcnt0|].
    intros d res Hin.
    destruct (Hcfg0 d res Hin) as (Hs & Hu & Hd & Hnone).
    split; [exact Hs|]. split; [exact Hu|]. split; [exact Hd|].
    intros Hn. specialize (Hnone Hn). split; [congruence|exact Hsw0].
Qed.

End WindowEvents.

Lemma BATCH_SIZE_positive storage size :
  Upload.BATCH_SIZE storage = Some size -> 0 < size.
Proof.
  unfold Upload.BATCH_SIZE.
  destruct (storage =? "arweave"); [intros [= <-]; lia|].
  destruct (storage =? "ipfs"); [intros [= <-]; lia|].
  destruct (storage =? "aws"); [intros [= <-]; lia|discriminate].
Qed.

Lemma BATCH_SIZE_backend storage :
  Upload.BATCH_SIZE storage = None <-> Upload.backend_of storage = None.
Proof.
  unfold Upload.BATCH_SIZE, Upload.backend_of.
  destruct (storage =? "arweave"); [split; discriminate|].
  destruct (storage =? "ipfs"); [split; discriminate|].
  destruct (storage =? "aws"); [split; discriminate|tauto].
Qed.

Lemma offsets_shape n s :
  0 < s ->
  Registry.offsets n s = [] \/
  exists rest, Registry.offsets n s = 0 :: rest /\
               forall x, In x rest -> x <> 0.
Proof.
  intros Hs. unfold Registry.offsets.
  destruct ((n + s - 1) / s) as [|cnt]; [now left|right].
  cbn [seq map]. eexists. split; [reflexivity|].
  intros x Hx. apply in_map_iff in Hx. destruct Hx as (k & <- & Hk).
  apply in_seq in Hk. nia.
Qed.

Lemma window_starts_shape storage n :
  Upload.window_starts storage n = [] \/
  exists rest, Upload.window_starts storage n = 0 :: rest /\
               forall x, In x rest -> x <> 0.
Proof.
  unfold Upload.window_starts.
  destruct (Upload.BATCH_SIZE storage) as [size|] eqn:E.
  - apply offsets_shape. eapply BATCH_SIZE_positive; eauto.
  - destruct (Nat.eqb n 0); [now left|right].
    exists []. split; [reflexivity|]. intros x [].
Qed.

Lemma firstn_min_length {A} n (l : list A) :
  firstn (Nat.min n (List.length l)) l = firstn n l.
Proof.
  destruct (Nat.le_gt_cases n (List.length l)) as [H|H].
  - now rewrite Nat.min_l.
  - rewrite Nat.min_r by lia. rewrite !firstn_all2; auto. lia.
Qed.

Lemma window_at_piece (images : list string) size k :
  Upload.window_at images size (k * size)
  = firstn size (skipn (k * size) images).
Proof.
  unfold Upload.window_at, JS.slice.
  destruct (Nat.le_gt_cases (k * size) (List.length images)) as [H|H].
  - rewrite <- (firstn_min_length size (skipn (k * size) images)).
    rewrite length_skipn. f_equal. lia.
  - rewrite skipn_all2 by lia. now rewrite !firstn_nil.
Qed.

(** The windows, put end to end, are the images. *)
Lemma windows_cover images size :
  0 < size ->
  List.concat (map (Upload.window_at images size)
                   (Registry.offsets (List.length images) size))
  = images.
Proof.
  intros Hs. unfold Registry.offsets. rewrite map_map.
  erewrite map_ext.
  2:{ intros k. apply window_at_piece. }
  now apply pieces_concat.
Qed.

Lemma windows_within storage images :
  subseq (List.concat
            (map (Upload.window_at images (Upload.window_size storage))
                 (Upload.window_starts storage (List.length images))))
         images.
Proof.
  unfold Upload.window_size, Upload.window_starts.
  destruct (Upload.BATCH_SIZE storage) as [size|] eqn:E.
  - rewrite windows_cover by (eapply BATCH_SIZE_positive; eauto).
    apply subseq_refl.
  - destruct (Nat.eqb _ 0); simpl; apply subseq_nil_l.
Qed.

Section UploadCommand.

Variable w : World.
Variables (saved : option Cache) (files : list string) (storage : string).
Variables (totalNFTs : N) (retain mutable : bool).

Local Abbreviation c0 :=
  (match saved with Some c => c | None => empty_cache end).
Local Abbreviation st0 := {| cache := c0; trace := [] |}.
Local Abbreviation images := (Upload.images_of w c0 files).
Local Abbreviation phase1 :=
  (Upload.upload_windows w totalNFTs storage retain mutable images
     (Upload.window_size storage)
     (Upload.window_starts storage (List.length images)) st0 true).
Local Abbreviation run :=
  (Upload.upload w saved files storage totalNFTs retain mutable).

(** The trace of a run: the events of the windows and then those of the
    registry phase. *)
Lemma upload_trace :
  exists evs1 evs2,
    trace (fst phase1) = evs1 /\
    trace (fst run) = evs1 ++ evs2 /\
    Forall (fun ev => is_registry ev = true) evs2 /\
    (forall e, snd phase1 = Raised e -> evs2 = [] /\ snd run = Raised e).
Proof.
  rewrite upload_phases.
  destruct (snd phase1) as [fl|e].
  - destruct (commit_all_registry w (fst phase1)) as (evs2 & Hc & Hr).
    exists (trace (fst phase1)), evs2. cbn [fst snd].
    split; [reflexivity|]. split; [exact Hc|]. split; [exact Hr|].
    discriminate.
  - exists (trace (fst phase1)), []. cbn [fst snd].
    rewrite app_nil_r. repeat split; auto; congruence.
Qed.

Lemma upload_sends :
  subseq (uploaded (trace (fst run))) images /\
  forall b g res,
    In (EvUpload b g res) (trace (fst run)) ->
    In g images /\ Upload.backend_of storage = Some b /\
    has_link c0 (Upload.image_index w g) = false /\
    exists tr m, res = upload_item w tr b g m.
Proof.
  destruct upload_trace as (evs1 & evs2 & H1 & -> & Hr & _).
  destruct (windows_events w totalNFTs storage retain mutable images
              (Upload.window_size storage)
              (Upload.window_starts storage (List.length images)) st0 true)
    as (evs & Hc & Hup & Hsub & _).
  unfold continues in Hc. cbn [trace app] in Hc. rewrite H1 in Hc. subst evs.
  split.
  - rewrite uploaded_app, (uploaded_none evs2), app_nil_r.
    + eapply subseq_trans; [exact Hsub|apply windows_within].
    + eapply Forall_impl; [|exact Hr]. apply registry_not_upload.
  - intros b g res Hin. apply in_app_or in Hin. destruct Hin as [Hin|Hin].
    + now apply Hup.
    + rewrite Forall_forall in Hr. specialize (Hr _ Hin). discriminate.
Qed.

Lemma upload_config :
  List.length (filter is_config (trace (fst run))) <= 1 /\
  forall d res,
    In (EvCreateConfig d res) (trace (fst run)) ->
    JS.truthy (uuid (program c0)) = false /\
    (exists image0 m,
        nth_error images 0 = Some image0 /\
        read_manifest w (JS.replace (EXTENSION_PNG w) ".json" image0)
        = Some m /\
        d = BundleUpload.config_data totalNFTs mutable retain m) /\
    (res = None ->
     snd run = Raised ConfigDeployError /\
     Forall (fun ev => is_save ev = false /\ is_write ev = false)
            (trace (fst run))).
Proof.
  destruct upload_trace as (evs1 & evs2 & H1 & Ht & Hr & Hraise).
  assert (Hn2 : forall d res, ~ In (EvCreateConfig d res) evs2).
  { intros d res Hin. rewrite Forall_forall in Hr.
    specialize (Hr _ Hin). discriminate. }
  rewrite Ht, filter_app, (filter_config_none evs2 Hn2), app_nil_r.
  destruct (window_starts_shape storage (List.length images))
    as [E|(rest & E & Hrest)].
  { rewrite E in H1. cbn in H1. subst evs1. simpl. split; [lia|].
    intros d res Hin. now elim (Hn2 d res). }
  destruct (windows_config w totalNFTs storage retain mutable images
              (Upload.window_size storage) 0 rest st0 true Hrest)
    as (evs & Hc & Hcnt & Hcfg).
  rewrite <- E in Hc, Hcfg. unfold continues in Hc. cbn [trace app] in Hc.
  rewrite H1 in Hc. subst evs.
  split; [exact Hcnt|].
  intros d res Hin. apply in_app_or in Hin.
  destruct Hin as [Hin|Hin]; [|now elim (Hn2 d res)].
  destruct (Hcfg d res Hin) as (_ & Hu & (image0 & m & Hi & Hm & Hd) & Hnone).
  split; [exact Hu|]. split.
  - exists image0, m. split; [|auto].
    unfold Upload.window_at, JS.slice in Hi. cbn [skipn] in Hi.
    destruct images as [|x l]; [now rewrite firstn_nil in Hi|].
    destruct (Nat.min _ _ - 0); [discriminate|exact Hi].
  - intros Hn. destruct (Hnone Hn) as [Hres Hsw].
    destruct (Hraise _ Hres) as [-> Hrun].
    split; [exact Hrun|]. now rewrite app_nil_r.
Qed.

End UploadCommand.

Lemma subseq_count (l l' : list string) g :
  subseq l l' ->
  count_occ string_dec l g <= count_occ string_dec l' g.
Proof.
  induction 1 as [|x l l' _ IH|x l l' _ IH]; cbn [count_occ].
  - lia.
  - destruct (string_dec x g); lia.
  - destruct (string_dec x g); lia.
Qed.

(** The command of [commands/upload.ts] sends to the storage backend only
    images of its list whose index has no link in the cache as loaded,
    and it sends no image more often than the list has it: an image
    listed once is sent at most once.  When the cache as loaded has a
    uuid, so that no upload waits for the config to be created, the
    uploads are made in the order of the list of images. *)
Theorem upload_sends_unlinked_images_once :
  forall w saved files storage totalNFTs retain mutable,
    let c0 := match saved with Some c => c | None => empty_cache end in
    let images := Upload.images_of w c0 files in
    let st := fst (Upload.upload w saved files storage
                                 totalNFTs retain mutable) in
    (forall g, count_occ string_dec (uploaded (trace st)) g
               <= count_occ string_dec images g) /\
    (JS.truthy (uuid (program c0)) = true ->
     subseq (uploaded (trace st)) images) /\
    forall b g res,
      In (EvUpload b g res) (trace st) ->
      In g images /\ Upload.backend_of storage = Some b /\
      has_link c0 (Upload.image_index w g) = false.
Proof.
  intros w saved files storage totalNFTs retain mutable c0 images st.
  destruct (upload_sends w saved files storage totalNFTs retain mutable)
    as [Hsub Hup].
  split; [intros g; now apply subseq_count|].
  split; [intros _; exact Hsub|].
  intros b g res Hin. destruct (Hup b g res Hin) as (Hg & Hb & Hl & _). auto.
Qed.

Lemma upload_sends_unlinked_images_once_witness :
  count_occ string_dec
    (uploaded
       (trace (fst (Upload.upload Samples.third_item_fails
                      (Some (Samples.cache_of 2 0)) (Samples.png_files 4)
                      "arweave" 4 true true)))) "2.png" <= 1 /\
  subseq
    (uploaded
       (trace (fst (Upload.upload Samples.third_item_fails
                      (Some (Samples.cache_of 2 0)) (Samples.png_files 4)
                      "arweave" 4 true true))))
    ["0.png"; "1.png"; "2.png"; "3.png"] /\
  has_link (Samples.cache_of 2 0)
           (Upload.image_index Samples.third_item_fails "2.png") = false.
Proof.
  destruct (upload_sends_unlinked_images_once Samples.third_item_fails
              (Some (Samples.cache_of 2 0)) (Samples.png_files 4)
              "arweave" 4%N true true) as (Hcnt & Hsub & Hup).
  split; [exact (Hcnt "2.png")|].
  split; [exact (Hsub eq_refl)|].
  apply (Hup Arweave "2.png" Throws). vm_compute. left. reflexivity.
Defined.

(** The command of [commands/upload.ts] creates the config at most once
    in a run, and not at all when the cache as loaded has a uuid: the
    call is made for the first image of the run, with the total number
    of items, the flags, and the symbol, the fee and the creators of the
    manifest of that image. *)
Theorem upload_creates_config_once :
  forall w saved files storage totalNFTs retain mutable,
    let c0 := match saved with Some c => c | None => empty_cache end in
    let images := Upload.images_of w c0 files in
    let st := fst (Upload.upload w saved files storage
                                 totalNFTs retain mutable) in
    List.length (filter is_config (trace st)) <= 1 /\
    forall d res,
      In (EvCreateConfig d res) (trace st) ->
      JS.truthy (uuid (program c0)) = false /\
      exists image0 manifest,
        nth_error images 0 = Some image0 /\
        read_manifest w (JS.replace (EXTENSION_PNG w) ".json" image0)
        = Some manifest /\
        d = {| maxNumberOfLines := totalNFTs;
               cd_symbol := m_symbol manifest;
               sellerFeeBasisPoints := seller_fee_basis_points manifest;
               isMutable := mutable;
               retainAuthority := retain;
               cd_creators := creators manifest |}.
Proof.
  intros w saved files storage totalNFTs retain mutable c0 images st.
  destruct (upload_config w saved files storage totalNFTs retain mutable)
    as [Hcnt Hcfg].
  split; [exact Hcnt|].
  intros d res Hin. destruct (Hcfg d res Hin) as (Hu & Hd & _).
  split; [exact Hu|exact Hd].
Qed.

Lemma upload_creates_config_once_witness :
  exists d,
    In (EvCreateConfig d (Some ("uuid01", Samples.config_key)))
       (trace (fst (Upload.upload Samples.fair None (Samples.png_files 7)
                      "arweave" 7 true false))) /\
    cd_symbol d = "SYM" /\ maxNumberOfLines d = 7%N /\
    JS.truthy (uuid (program empty_cache)) = false /\
    List.length
      (filter is_config
         (trace (fst (Upload.upload Samples.fair None (Samples.png_files 7)
                        "arweave" 7 true false)))) <= 1.
Proof.
  destruct (upload_creates_config_once Samples.fair None (Samples.png_files 7)
              "arweave" 7%N true false) as [Hcnt Hcfg].
  eassert (Hin : In (EvCreateConfig _ (Some ("uuid01", Samples.config_key)))
                    (trace (fst (Upload.upload Samples.fair None
                                   (Samples.png_files 7) "arweave" 7 true
                                   false)))).
  { vm_compute. left. reflexivity. }
  destruct (Hcfg _ _ Hin) as (Hu & _).
  eexists. split; [exact Hin|].
  split; [reflexivity|]. split; [reflexivity|].
  split; [exact Hu|exact Hcnt].
Defined.

(** In the command of [commands/upload.ts] a config that cannot be
    created is fatal: the run raises; nothing is saved and no registry
    write is made, so the links that the other images of the first
    window may have got are lost with the run.  The error raised is the
    one of the config when the manifests of that window can be read. *)
Theorem config_failure_is_fatal :
  forall w saved files storage totalNFTs retain mutable d,
    let c0 := match saved with Some c => c | None => empty_cache end in
    let images := Upload.images_of w c0 files in
    let run := Upload.upload w saved files storage totalNFTs retain mutable in
    In (EvCreateConfig d None) (trace (fst run)) ->
    (exists e, snd run = Raised e) /\
    (Forall (readable w)
            (Upload.window_at images (Upload.window_size storage) 0) ->
     snd run = Raised ConfigDeployError) /\
    Forall (fun ev => is_save ev = false /\ is_write ev = false)
           (trace (fst run)).
Proof.
  intros w saved files storage totalNFTs retain mutable d c0 images run Hin.
  destruct (upload_config w saved files storage totalNFTs retain mutable)
    as [_ Hcfg].
  destruct (Hcfg d None Hin) as (_ & _ & Hnone).
  destruct (Hnone eq_refl) as [Hres Hsw].
  split; [eauto|]. split; [intros _; exact Hres|exact Hsw].
Qed.

Lemma config_failure_is_fatal_witness :
  snd (Upload.upload MoreSamples.config_rejected None (Samples.png_files 3)
         "arweave" 3 true true) = Raised ConfigDeployError /\
  writes (trace (fst (Upload.upload MoreSamples.config_rejected None
                        (Samples.png_files 3) "arweave" 3 true true))) = 0.
Proof.
  eassert (Hin : In (EvCreateConfig _ None)
                    (trace (fst (Upload.upload MoreSamples.config_rejected
                                   None (Samples.png_files 3) "arweave" 3
                                   true true)))).
  { vm_compute. left. reflexivity. }
  destruct (config_failure_is_fatal _ _ _ _ _ _ _ _ Hin) as (_ & Hres & Hsw).
  split.
  - apply Hres. repeat constructor; discriminate.
  - apply writes_none. eapply Forall_impl; [|exact Hsw]. now intros ev [_ H].
Defined.

(** A storage name that is none of arweave, ipfs and aws is not refused
    by the command of [commands/upload.ts]: it uploads nothing and
    creates no config; when there are images it saves the cache as
    loaded, once; and it goes on to the registry phase, whose flag it
    returns. *)
Theorem unknown_storage_uploads_nothing :
  forall w saved files storage totalNFTs retain mutable,
    Upload.backend_of storage = None ->
    let c0 := match saved with Some c => c | None => empty_cache end in
    let st1 :=
      match Upload.images_of w c0 files with
      | [] => {| cache := c0; trace := [] |}
      | _ :: _ => {| cache := c0; trace := [EvSaveCache c0] |}
      end in
    Upload.upload w saved files storage totalNFTs retain mutable
    = (fst (Registry.commit_all w st1),
       Returned (snd (Registry.commit_all w st1))).
Proof.
  intros w saved files storage totalNFTs retain mutable Hb c0 st1.
  apply BATCH_SIZE_backend in Hb.
  unfold Upload.upload, Upload.window_starts, Upload.window_size.
  rewrite Hb. cbn [cache]. fold c0. unfold st1.
  destruct (Upload.images_of w c0 files) as [|x l].
  - cbn [List.length Nat.eqb Upload.upload_windows].
    destruct (Registry.commit_all w _) as [st2 ok]. reflexivity.
  - cbn [List.length Nat.eqb Upload.upload_windows].
    unfold Upload.window_at, JS.slice. cbn [Nat.add Nat.min Nat.sub firstn].
    cbn [Upload.upload_window forallb andb saveCache emit cache trace app].
    destruct (Registry.commit_all w _) as [st2 ok]. reflexivity.
Qed.

Lemma unknown_storage_uploads_nothing_witness :
  uploads (trace (fst (Upload.upload Samples.fair None (Samples.png_files 3)
                         "pinata" 3 true true))) = 0 /\
  cache (fst (Upload.upload Samples.fair None (Samples.png_files 3)
                "pinata" 3 true true)) = empty_cache.
Proof.
  rewrite (unknown_storage_uploads_nothing Samples.fair None
             (Samples.png_files 3) "pinata" 3%N true true eq_refl).
  split; reflexivity.
Defined.

Section HappyRun.

Variable w : World.
Variables (saved : option Cache) (files : list string) (storage : string).
Variables (totalNFTs : N) (retain mutable : bool).
Variable b : Backend.

Local Abbreviation c0 :=
  (match saved with Some c => c | None => empty_cache end).
Local Abbreviation st0 := {| cache := c0; trace := [] |}.
Local Abbreviation images := (Upload.images_of w c0 files).
Local Abbreviation phase1 :=
  (Upload.upload_windows w totalNFTs storage retain mutable images
     (Upload.window_size storage)
     (Upload.window_starts storage (List.length images)) st0 true).

Hypothesis backend : Upload.backend_of storage = Some b.



End HappyRun.



(* ================================================================== *)
(** * commands/upload.ts: an upload that returns no link *)
(* ================================================================== *)

Section NoLinkReturned.

Variable w : World.
Variables (totalNFTs : N) (storage : string) (retain mutable : bool).

Hypothesis no_link :
  forall tr b g m,
    exists l, upload_item w tr b g m = Returns l /\ JS.truthy l = false.

Lemma one_item_records_nothing image i c0 st :
  items (cache (fst (Upload.upload_one_item w totalNFTs storage retain mutable
                       image i c0 st)))
  = items (cache st).
Proof.
  rewrite upload_one_item_steps.
  destruct (negb _ || _); [|reflexivity].
  destruct (read_manifest w _) as [manifest|]; [|reflexivity].
  destruct (init_step_summary w totalNFTs retain mutable manifest i c0 st)
    as (evs0 & _ & _ & _ & Hi0).
  destruct (Upload.init_step w totalNFTs retain mutable manifest i c0 st)
    as [st1 [u|e]]; cbn [fst snd] in *; [|exact Hi0].
  rewrite <- Hi0. unfold Upload.store_step. cbv zeta.
  destruct (negb _); [|reflexivity].
  destruct (Upload.backend_of storage) as [b|]; [|reflexivity].
  destruct (no_link (trace st1) b image manifest) as (l & -> & ->).
  reflexivity.
Qed.

Lemma window_records_nothing window :
  forall i0 c0 st,
    items (cache (fst (Upload.upload_window w totalNFTs storage retain mutable
                         window i0 c0 st)))
    = items (cache st).
Proof.
  induction window as [|image rest IH]; intros i0 c0 st; [reflexivity|].
  rewrite window_fst, IH. apply one_item_records_nothing.
Qed.

Lemma windows_record_nothing images size starts :
  forall st flag,
    items (cache (fst (Upload.upload_windows w totalNFTs storage retain mutable
                         images size starts st flag)))
    = items (cache st).
Proof.
  induction starts as [|s rest IH]; intros st flag; [reflexivity|].
  rewrite windows_cons.
  pose proof (window_records_nothing (Upload.window_at images size s) s
                (cache st) st) as H0.
  destruct (snd (Upload.upload_window _ _ _ _ _ _ _ _ _)) as [results|e].
  - rewrite IH. exact H0.
  - exact H0.
Qed.

End NoLinkReturned.

(** In the command of [commands/upload.ts] an upload that returns
    without a link (an empty or undefined one) is not a failure and is
    not recorded: when every upload does so, the run ends with the keys
    and the links of the cache as loaded, and no upload clears the
    success flag; only a rejected registry write does. *)
Theorem upload_without_link_is_not_recorded :
  forall w saved files storage totalNFTs retain mutable,
    (forall tr b g m,
        exists l, upload_item w tr b g m = Returns l /\ JS.truthy l = false) ->
    let c0 := match saved with Some c => c | None => empty_cache end in
    let st := fst (Upload.upload w saved files storage
                                 totalNFTs retain mutable) in
    JS.keys (items (cache st)) = JS.keys (items c0) /\
    (forall k, link_of (cache st) k = link_of c0 k) /\
    (forall ev,
        In ev (trace st) -> is_failure ev = true ->
        exists ind lines, ev = EvAddConfigLines ind lines false).
Proof.
  intros w saved files storage totalNFTs retain mutable Hno c0 st.
  pose proof (windows_record_nothing w totalNFTs storage retain mutable Hno
                (Upload.images_of w c0 files) (Upload.window_size storage)
                (Upload.window_starts storage
                   (List.length (Upload.images_of w c0 files)))
                {| cache := c0; trace := [] |} true) as Hitems.
  cbn [cache] in Hitems.
  assert (Hst : JS.keys (items (cache st)) = JS.keys (items c0) /\
                forall k, link_of (cache st) k = link_of c0 k).
  { unfold st. rewrite upload_phases. fold c0.
    destruct (snd (Upload.upload_windows _ _ _ _ _ _ _ _ _ _)) as [fl|e];
      cbn [fst].
    - split.
      + destruct (commit_all_marks w
                    (fst (Upload.upload_windows w totalNFTs storage retain
                            mutable (Upload.images_of w c0 files)
                            (Upload.window_size storage)
                            (Upload.window_starts storage
                               (List.length (Upload.images_of w c0 files)))
                            {| cache := c0; trace := [] |} true)))
          as (_ & _ & -> & _).
        now rewrite Hitems.
      + intros k. rewrite commit_all_link_of. unfold link_of.
        now rewrite Hitems.
    - split; [now rewrite Hitems|].
      intros k. unfold link_of. now rewrite Hitems. }
  destruct Hst as [Hkeys Hlinks].
  split; [exact Hkeys|]. split; [exact Hlinks|].
  intros ev Hin Hf.
  destruct ev as [| b g res | | ind lines ok | |]; try discriminate.
  - destruct res; [|discriminate].
    destruct (upload_sends w saved files storage totalNFTs retain mutable)
      as [_ Hup].
    destruct (Hup b g Throws Hin) as (_ & _ & _ & tr & m & Hres).
    destruct (Hno tr b g m) as (l & Hl & _). congruence.
  - destruct ok; [discriminate|]. eauto.
Qed.

Lemma upload_without_link_is_not_recorded_witness :
  Upload.upload MoreSamples.no_link_returned (Some Samples.cache_unlinked)
                (Samples.png_files 2) "ipfs" 2 true true
  = (fst (Upload.upload MoreSamples.no_link_returned
            (Some Samples.cache_unlinked) (Samples.png_files 2) "ipfs" 2
            true true), Returned true) /\
  link_of (cache (fst (Upload.upload MoreSamples.no_link_returned
                         (Some Samples.cache_unlinked) (Samples.png_files 2)
                         "ipfs" 2 true true))) "0" = None.
Proof.
  destruct (upload_without_link_is_not_recorded MoreSamples.no_link_returned
              (Some Samples.cache_unlinked) (Samples.png_files 2) "ipfs"
              2%N true true) as (_ & Hl & _).
  { intros tr b g m. exists None. split; reflexivity. }
  split; [reflexivity|]. rewrite Hl. reflexivity.
Defined.

(* ================================================================== *)
(** * commands/upload.ts: the list of images *)
(* ================================================================== *)

Lemma subseq_filter {A} (p : A -> bool) l : subseq (filter p l) l.
Proof.
  induction l as [|x l IH]; simpl; [constructor|].
  destruct (p x); [now apply subseq_keep|now apply subseq_skip].
Qed.

Lemma subseq_app_r {A} (l1 l2 : list A) x :
  subseq l1 l2 -> subseq (l1 ++ [x]) (l2 ++ [x]).
Proof. intros H. apply subseq_app; [exact H|apply subseq_refl]. Qed.

Lemma NoDup_subseq_map {A B} (f : A -> B) l l' :
  subseq l l' -> NoDup (map f l') -> NoDup (map f l).
Proof.
  intros Hs. apply subseq_NoDup.
  induction Hs; simpl; [constructor| |].
  - now apply subseq_skip.
  - now apply subseq_keep.
Qed.

Section Images.

Variable w : World.

(** The first loop: the files whose key was not seen before. *)
Lemma add_file_fold files :
  forall seen0 new0,
  exists F,
    fold_left (Upload.add_file w) files (seen0, new0)
    = (seen0 ++ map (Upload.file_key w) F, new0 ++ F) /\
    subseq F files /\
    (NoDup seen0 -> NoDup (seen0 ++ map (Upload.file_key w) F)) /\
    (forall f, In f F ->
               ~ In (Upload.file_key w f) seen0 /\
               ~ In (Upload.file_key w f) JS.Object_prototype_names) /\
    (forall f, In f files ->
               Upload.seen_has (seen0 ++ map (Upload.file_key w) F)
                               (Upload.file_key w f) = true) /\
    (NoDup (map (Upload.file_key w) files) ->
     (forall f, In f files ->
                Upload.seen_has seen0 (Upload.file_key w f) = false) ->
     F = files).
Proof.
  induction files as [|f files IH]; intros seen0 new0.
  - exists []. simpl. rewrite !app_nil_r.
    repeat split; auto; try contradiction. constructor.
  - cbn [fold_left Upload.add_file].
    destruct (Upload.seen_has seen0 (Upload.file_key w f)) eqn:Hseen.
    + destruct (IH seen0 new0) as (F & E & Hsub & Hnd & Hnew & Hall & Hfull).
      exists F. split; [exact E|]. split; [now apply subseq_skip|].
      split; [exact Hnd|]. split; [exact Hnew|]. split.
      * intros g [<-|Hg]; [|now apply Hall].
        apply seen_has_true. apply seen_has_true in Hseen.
        destruct Hseen as [H|H]; [left; apply in_or_app; now left|now right].
      * intros _ Hfresh. rewrite (Hfresh f) in Hseen by now left.
        discriminate.
    + destruct (IH (seen0 ++ [Upload.file_key w f]) (new0 ++ [f]))
        as (F & E & Hsub & Hnd & Hnew & Hall & Hfull).
      assert (Hnot : ~ In (Upload.file_key w f) seen0 /\
                     ~ In (Upload.file_key w f) JS.Object_prototype_names).
      { split; intros H;
          assert (Upload.seen_has seen0 (Upload.file_key w f) = true)
            by (apply seen_has_true; auto); congruence. }
      exists (f :: F). cbn [map]. rewrite E, <- !app_assoc. cbn [app].
      split; [reflexivity|]. split; [now apply subseq_keep|].
      split.
      { intros Hnd0. rewrite <- app_assoc in Hnd. cbn [app] in Hnd.
        apply Hnd. apply NoDup_app; [exact Hnd0|repeat constructor; tauto|].
        intros x Hx [<-|[]]. tauto. }
      split.
      { intros g [<-|Hg]; [exact Hnot|].
        destruct (Hnew g Hg) as [H1 H2]. split; [|exact H2].
        intros Hin. apply H1. apply in_or_app. now left. }
      split.
      { rewrite <- app_assoc in Hall. cbn [app] in Hall.
        intros g [<-|Hg]; [|now apply Hall].
        apply seen_has_true. left. apply in_or_app. right. now left. }
      intros Hnd' Hfresh. f_equal. inversion Hnd' as [|? ? Hf Hrest]; subst.
      apply Hfull; [exact Hrest|].
      intros g Hg. rewrite seen_has_app, (Hfresh g) by now right.
      cbn [orb]. apply String.eqb_neq. intros Eq. apply Hf.
      rewrite <- Eq. now apply in_map.
Qed.

(** The second loop: the cache keys that were not seen before. *)
Lemma add_cached_fold keys :
  forall seen1 new1,
  exists K,
    fold_left Upload.add_cached keys (seen1, new1)
    = (seen1 ++ K, new1 ++ map (fun k => (k ++ ".png")%string) K) /\
    subseq K keys /\
    (forall k, In k K ->
               ~ In k seen1 /\ ~ In k JS.Object_prototype_names).
Proof.
  induction keys as [|k keys IH]; intros seen1 new1.
  - exists []. simpl. rewrite !app_nil_r.
    repeat split; auto; try contradiction. constructor.
  - cbn [fold_left Upload.add_cached].
    destruct (Upload.seen_has seen1 k) eqn:Hseen.
    + destruct (IH seen1 new1) as (K & E & Hsub & Hnew).
      exists K. split; [exact E|]. split; [now apply subseq_skip|exact Hnew].
    + destruct (IH (seen1 ++ [k]) (new1 ++ [(k ++ ".png")%string]))
        as (K & E & Hsub & Hnew).
      exists (k :: K). cbn [map]. rewrite E, <- !app_assoc. cbn [app].
      split; [reflexivity|]. split; [now apply subseq_keep|].
      intros k' [<-|Hk'].
      * split; intros H;
          assert (Upload.seen_has seen1 k = true)
            by (apply seen_has_true; auto); congruence.
      * destruct (Hnew k' Hk') as [H1 H2]. split; [|exact H2].
        intros Hin. apply H1. apply in_or_app. now left.
Qed.

End Images.

(** The list of images of a run of [commands/upload.ts]: first files
    from the file list, in its order, and then the names [key.png] of
    cache keys, in the order of the cache; all of them have the
    extension of an image.  No two of the files have the same key (the
    file name without its directory and extension), none has a key that
    is a name inherited from [Object.prototype] (such as [constructor]):
    such a file is never uploaded; the files listed are the image files
    among those that are the first of their key.  The cache keys listed
    are exactly those that are the key of no file and are not such a
    name, each once, in the order of the cache, when [key.png] has the
    extension of an image.  When the files have distinct keys none of
    which is such a name, every image file among them is listed. *)
Theorem images_of_listing :
  forall w c files,
    let png val := path_extname w val =? EXTENSION_PNG w in
    exists fromFiles fromCache,
      Upload.images_of w c files = fromFiles ++ fromCache /\
      subseq fromFiles files /\
      NoDup (map (Upload.file_key w) fromFiles) /\
      (forall f, In f fromFiles ->
                 png f = true /\
                 ~ In (Upload.file_key w f) JS.Object_prototype_names) /\
      (forall g, In g fromCache ->
                 png g = true /\
                 exists k,
                   In k (JS.keys (items c)) /\ g = (k ++ ".png")%string /\
                   ~ In k JS.Object_prototype_names /\
                   forall f, In f files -> Upload.file_key w f <> k) /\
      (NoDup (map (Upload.file_key w) files) ->
       (forall f, In f files ->
                  ~ In (Upload.file_key w f) JS.Object_prototype_names) ->
       fromFiles = filter png files) /\
      fromFiles
      = filter png
          (first_per_key (Upload.file_key w)
             (filter (fun f => negb (JS.mem (Upload.file_key w f)
                                            JS.Object_prototype_names))
                     files)) /\
      fromCache
      = filter png
          (map (fun k => (k ++ ".png")%string)
               (filter (fun k =>
                          negb (JS.mem k (map (Upload.file_key w) files)) &&
                          negb (JS.mem k JS.Object_prototype_names))
                       (first_seen (JS.keys (items c))))).
Proof.
  intros w c files png. unfold Upload.images_of.
  destruct (add_file_fold w files [] [])
    as (F & E & Hsub & Hnd & Hnew & Hall & Hfull).
  rewrite E. cbn [app] in *.
  destruct (add_cached_fold (JS.keys (items c)) (map (Upload.file_key w) F) F)
    as (K & E' & Hsub' & Hnew').
  rewrite E'. cbn [snd]. rewrite filter_app. fold png.
  exists (filter png F),
         (filter png (map (fun k => (k ++ ".png")%string) K)).
  split; [reflexivity|].
  split; [eapply subseq_trans; [apply subseq_filter|exact Hsub]|].
  split.
  { apply (NoDup_subseq_map _ _ F); [apply subseq_filter|].
    apply Hnd. constructor. }
  split.
  { intros f Hf. apply filter_In in Hf. destruct Hf as [Hf Hp].
    split; [exact Hp|]. now apply Hnew. }
  split.
  { intros g Hg. apply filter_In in Hg. destruct Hg as [Hg Hp].
    split; [exact Hp|]. apply in_map_iff in Hg.
    destruct Hg as (k & <- & Hk). exists k.
    destruct (Hnew' k Hk) as [Hns Hnp].
    split; [eapply subseq_In; eauto|]. split; [reflexivity|].
    split; [exact Hnp|].
    intros f Hf Eq. specialize (Hall f Hf). apply seen_has_true in Hall.
    rewrite Eq in Hall. tauto. }
  split.
  { intros Hnd' Hproto. rewrite Hfull; [reflexivity|exact Hnd'|].
    intros f Hf.
    destruct (Upload.seen_has [] (Upload.file_key w f)) eqn:Hs;
      [|reflexivity].
    apply seen_has_true in Hs. destruct Hs as [[]|Hs].
    now elim (Hproto f Hf). }
  pose proof (add_file_closed w files [] []) as C1. cbv zeta in C1.
  rewrite E in C1. cbn [app] in C1.
  assert (EF : F = first_per_key (Upload.file_key w)
                     (filter (fun f => negb (Upload.seen_has []
                                               (Upload.file_key w f)))
                             files)) by congruence.
  pose proof (add_cached_closed (JS.keys (items c))
                (map (Upload.file_key w) F) F) as C2. cbv zeta in C2.
  rewrite E' in C2.
  assert (EK : K = filter (fun k => negb (Upload.seen_has
                                            (map (Upload.file_key w) F) k))
                          (first_seen (JS.keys (items c)))).
  { assert (H : map (Upload.file_key w) F ++ K
                = map (Upload.file_key w) F
                  ++ filter (fun k => negb (Upload.seen_has
                                              (map (Upload.file_key w) F) k))
                            (first_seen (JS.keys (items c))))
      by congruence.
    now apply app_inv_head in H. }
  split.
  - rewrite EF. reflexivity.
  - rewrite EK. do 2 f_equal. apply filter_ext. intros k.
    rewrite EF, seen_has_files. unfold Upload.seen_has.
    now rewrite negb_orb.
Qed.

Lemma images_of_listing_witness :
  Upload.images_of Samples.fair (Samples.cache_of 2 0)
                   ["assets/1.png"; "assets/3.png"; "assets/constructor.png";
                    "other/3.png"]
  = ["assets/1.png"; "assets/3.png"; "0.png"] /\
  Upload.images_of Samples.fair empty_cache
                   ["assets/1.png"; "assets/3.png"; "assets/3.json"]
  = ["assets/1.png"; "assets/3.png"].
Proof.
  split; [reflexivity|].
  destruct (images_of_listing Samples.fair empty_cache
              ["assets/1.png"; "assets/3.png"; "assets/3.json"])
    as (fromFiles & fromCache & E & _ & _ & _ & Hc & Hfull & _ & _).
  rewrite E. rewrite Hfull.
  - destruct fromCache as [|g rest]; [reflexivity|].
    destruct (Hc g (or_introl eq_refl)) as (_ & k & [] & _).
  - apply distinct_NoDup. reflexivity.
  - intros f [<-|[<-|[<-|[]]]]; vm_compute;
      intros H; repeat (destruct H as [H|H]; [discriminate|]); exact H.
Defined.

(* ================================================================== *)
(** * The order of the keys of the cache *)
(* ================================================================== *)

Section KeyOrder.

Context {V : Type}.
Implicit Types (o : JS.Obj V) (k : string) (v : V).

Lemma precedes_may k k' : JS.precedes k k' = true -> may_precede k k'.
Proof.
  unfold JS.precedes, may_precede.
  destruct (JS.array_index k) as [n|]; [|discriminate].
  destruct (JS.array_index k') as [n'|]; [|auto].
  intros H. apply N.ltb_lt in H. exists n. split; [reflexivity|lia].
Qed.

Lemma not_precedes_may k k' : JS.precedes k k' = false -> may_precede k' k.
Proof.
  unfold JS.precedes, may_precede.
  destruct (JS.array_index k) as [n|]; [|auto].
  destruct (JS.array_index k') as [n'|]; [|discriminate].
  intros H. apply N.ltb_ge in H. exists n'. split; [reflexivity|exact H].
Qed.

Lemma may_precede_trans k k0 k' :
  JS.precedes k k0 = true -> may_precede k0 k' -> may_precede k k'.
Proof.
  unfold JS.precedes, may_precede.
  destruct (JS.array_index k) as [n|]; [|discriminate].
  destruct (JS.array_index k') as [n'|]; [|auto].
  destruct (JS.array_index k0) as [n0|].
  - intros H (m & [= <-] & Hle). apply N.ltb_lt in H.
    exists n. split; [reflexivity|lia].
  - intros _ (m & Hm & _). discriminate.
Qed.

Lemma define_ordered o k v :
  keys_ordered (JS.keys o) -> keys_ordered (JS.keys (JS.define k v o)).
Proof.
  induction o as [|[k0 v0] o IH]; cbn [JS.define JS.keys map fst].
  - intros _. simpl. auto.
  - intros [Hk0 Ho]. fold (JS.keys o) in *.
    destruct (JS.precedes k k0) eqn:Hp; cbn [map fst keys_ordered].
    + fold (JS.keys o). split; [|split; assumption].
      constructor; [now apply precedes_may|].
      eapply Forall_impl; [|exact Hk0].
      intros k'. now apply may_precede_trans.
    + fold (JS.keys (JS.define k v o)). split; [|now apply IH].
      apply Forall_forall. intros k' Hk'. apply keys_define_In in Hk'.
      destruct Hk' as [->|Hk'].
      * now apply not_precedes_may.
      * rewrite Forall_forall in Hk0. now apply Hk0.
Qed.

Lemma set_ordered o k v :
  keys_ordered (JS.keys o) -> keys_ordered (JS.keys (JS.set k v o)).
Proof.
  intros H. unfold JS.set. destruct (JS.has o k).
  - now rewrite keys_update.
  - now apply define_ordered.
Qed.

End KeyOrder.

Lemma set_item_ordered k e c :
  keys_ordered (JS.keys (items c)) ->
  keys_ordered (JS.keys (items (set_item k e c))).
Proof. apply set_ordered. Qed.

Section OrderedRuns.

Variable w : World.

Lemma saveManifestsWithLink_from_ordered manifests :
  forall c idx links indices,
    keys_ordered (JS.keys (items c)) ->
    keys_ordered
      (JS.keys (items (BundleUpload.saveManifestsWithLink_from c manifests idx
                         links indices))).
Proof.
  induction manifests as [|m rest IH]; intros c idx links indices H;
    cbn [BundleUpload.saveManifestsWithLink_from]; [exact H|].
  apply IH. now apply set_item_ordered.
Qed.

Variables (totalNFTs : N) (storage : string) (retain mutable : bool).

Lemma one_item_ordered image i c0 st :
  keys_ordered (JS.keys (items (cache st))) ->
  keys_ordered
    (JS.keys (items (cache (fst (Upload.upload_one_item w totalNFTs storage
                                   retain mutable image i c0 st))))).
Proof.
  intros H. rewrite upload_one_item_steps.
  destruct (negb _ || _); [|exact H].
  destruct (read_manifest w _) as [manifest|]; [|exact H].
  destruct (init_step_summary w totalNFTs retain mutable manifest i c0 st)
    as (evs0 & _ & _ & _ & Hi0).
  destruct (Upload.init_step w totalNFTs retain mutable manifest i c0 st)
    as [st1 [u|e]]; cbn [fst snd] in *; [|now rewrite Hi0].
  rewrite <- Hi0 in H. unfold Upload.store_step. cbv zeta.
  destruct (negb _); [|exact H].
  destruct (Upload.backend_of storage) as [b|]; [|exact H].
  destruct (upload_item w (trace st1) b image manifest) as [|l]; [exact H|].
  destruct (JS.truthy l); [|exact H].
  cbn [fst with_cache cache Upload.set_authority items emit].
  now apply set_item_ordered.
Qed.

Lemma window_ordered window :
  forall i0 c0 st,
    keys_ordered (JS.keys (items (cache st))) ->
    keys_ordered
      (JS.keys (items (cache (fst (Upload.upload_window w totalNFTs storage
                                     retain mutable window i0 c0 st))))).
Proof.
  induction window as [|image rest IH]; intros i0 c0 st H; [exact H|].
  rewrite window_fst. apply IH. now apply one_item_ordered.
Qed.

Lemma windows_ordered images size starts :
  forall st flag,
    keys_ordered (JS.keys (items (cache st))) ->
    keys_ordered
      (JS.keys (items (cache (fst (Upload.upload_windows w totalNFTs storage
                                     retain mutable images size starts st
                                     flag))))).
Proof.
  induction starts as [|s rest IH]; intros st flag H; [exact H|].
  rewrite windows_cons.
  pose proof (window_ordered (Upload.window_at images size s) s (cache st)
                st H) as H0.
  destruct (snd (Upload.upload_window _ _ _ _ _ _ _ _ _)) as [results|e].
  - apply IH. exact H0.
  - exact H0.
Qed.

End OrderedRuns.

(** ** Array indices: one name per number *)

Lemma digit_of_bound a d : JS.digit_of a = Some d -> (d <= 9)%N.
Proof.
  unfold JS.digit_of.
  destruct ((48 <=? N_of_ascii a) && (N_of_ascii a <=? 57))%N eqn:E;
    [|discriminate].
  apply andb_true_iff in E. destruct E as [H1 H2].
  apply N.leb_le in H1, H2. intros [= <-]. lia.
Qed.

Lemma digit_of_inj a a' d :
  JS.digit_of a = Some d -> JS.digit_of a' = Some d -> a = a'.
Proof.
  unfold JS.digit_of.
  destruct ((48 <=? N_of_ascii a) && (N_of_ascii a <=? 57))%N eqn:E;
    [|discriminate].
  destruct ((48 <=? N_of_ascii a') && (N_of_ascii a' <=? 57))%N eqn:E';
    [|discriminate].
  apply andb_true_iff in E, E'. destruct E as [H1 _], E' as [H1' _].
  apply N.leb_le in H1, H1'. intros [= <-] [= H].
  assert (Hn : N_of_ascii a = N_of_ascii a') by lia.
  rewrite <- (ascii_N_embedding a), <- (ascii_N_embedding a'). now rewrite Hn.
Qed.

Lemma digit_of_zero a : JS.digit_of a = Some 0%N -> a = "0"%char.
Proof. intros H. now apply (digit_of_inj a "0"%char 0%N). Qed.

Lemma parse_digits_bounds s :
  forall acc n,
    JS.parse_digits s acc = Some n ->
    (acc * 10 ^ N.of_nat (String.length s) <= n
     < (acc + 1) * 10 ^ N.of_nat (String.length s))%N.
Proof.
  induction s as [|a r IH]; intros acc n H; cbn [JS.parse_digits] in H.
  - inversion H; subst. simpl. lia.
  - destruct (JS.digit_of a) as [d|] eqn:Hd; [|discriminate].
    apply digit_of_bound in Hd. apply IH in H.
    cbn [String.length]. rewrite Nat2N.inj_succ, N.pow_succ_r'.
    set (P := (10 ^ N.of_nat (String.length r))%N) in *.
    assert (H9 : (d * P <= 9 * P)%N) by (apply N.mul_le_mono_r; exact Hd).
    replace ((10 * acc + d) * P)%N with (10 * (acc * P) + d * P)%N in H
      by ring.
    replace ((10 * acc + d + 1) * P)%N with (10 * (acc * P) + d * P + P)%N
      in H by ring.
    replace (acc * (10 * P))%N with (10 * (acc * P))%N by ring.
    replace ((acc + 1) * (10 * P))%N with (10 * (acc * P) + 10 * P)%N by ring.
    lia.
Qed.

Lemma parse_digits_inj s :
  forall s' acc n,
    String.length s = String.length s' ->
    JS.parse_digits s acc = Some n ->
    JS.parse_digits s' acc = Some n ->
    s = s'.
Proof.
  induction s as [|a r IH]; intros [|a' r'] acc n Hlen H H';
    try discriminate; [reflexivity|].
  cbn [JS.parse_digits] in H, H'. injection Hlen as Hlen.
  destruct (JS.digit_of a) as [d|] eqn:Hd; [|discriminate].
  destruct (JS.digit_of a') as [d'|] eqn:Hd'; [|discriminate].
  pose proof (parse_digits_bounds _ _ _ H) as B.
  pose proof (parse_digits_bounds _ _ _ H') as B'.
  rewrite <- Hlen in B'.
  set (P := (10 ^ N.of_nat (String.length r))%N) in *.
  assert (HP : (0 < P)%N) by (apply N.neq_0_lt_0, N.pow_nonzero; lia).
  assert (d = d').
  { destruct (N.lt_trichotomy d d') as [L|[E|L]]; [|exact E|].
    - assert ((10 * acc + d + 1) * P <= (10 * acc + d') * P)%N
        by (apply N.mul_le_mono_r; lia).
      lia.
    - assert ((10 * acc + d' + 1) * P <= (10 * acc + d) * P)%N
        by (apply N.mul_le_mono_r; lia).
      lia. }
  subst d'.
  rewrite (digit_of_inj _ _ _ Hd Hd'). f_equal.
  eapply IH; eauto.
Qed.

(** The name of an array index: ["0"], or digits with a leading digit
    that is not zero, as many as the number has. *)
Lemma array_index_shape s n :
  JS.array_index s = Some n ->
  (s = "0" /\ n = 0%N) \/
  (JS.parse_digits s 0 = Some n /\
   (10 ^ N.of_nat (String.length s - 1) <= n
    < 10 ^ N.of_nat (String.length s))%N).
Proof.
  unfold JS.array_index. destruct s as [|a r]; [discriminate|].
  destruct (Ascii.eqb a "0" && negb (r =? "")) eqn:Hz; [discriminate|].
  destruct (JS.parse_digits (String a r) 0) as [m|] eqn:Hp; [|discriminate].
  destruct (m <? 4294967295)%N; [|discriminate]. intros [= <-].
  destruct (Ascii.eqb_spec a "0") as [->|Hne].
  - left. cbn [andb] in Hz. apply negb_false_iff, String.eqb_eq in Hz.
    subst r. split; [reflexivity|]. now inversion Hp.
  - right. split; [reflexivity|].
    cbn [JS.parse_digits] in Hp.
    destruct (JS.digit_of a) as [d|] eqn:Hd; [|discriminate].
    assert (Hd9 := digit_of_bound _ _ Hd).
    assert (d <> 0%N).
    { intros ->. apply Hne. now apply digit_of_zero. }
    apply parse_digits_bounds in Hp.
    cbn [String.length]. rewrite Nat.sub_succ, Nat.sub_0_r.
    rewrite Nat2N.inj_succ, N.pow_succ_r'.
    set (P := (10 ^ N.of_nat (String.length r))%N) in *.
    assert (H1 : (1 * P <= d * P)%N) by (apply N.mul_le_mono_r; lia).
    assert (H2 : ((d + 1) * P <= 10 * P)%N) by (apply N.mul_le_mono_r; lia).
    replace (10 * 0 + d)%N with d in Hp by lia.
    lia.
Qed.

Lemma pow10_length L L' n :
  (10 ^ N.of_nat (L - 1) <= n < 10 ^ N.of_nat L)%N ->
  (10 ^ N.of_nat (L' - 1) <= n < 10 ^ N.of_nat L')%N ->
  0 < L -> 0 < L' -> L = L'.
Proof.
  intros H H' HL HL'.
  destruct (Nat.lt_trichotomy L L') as [Hlt|[E|Hgt]]; [|exact E|].
  - assert (10 ^ N.of_nat L <= 10 ^ N.of_nat (L' - 1))%N
      by (apply N.pow_le_mono_r; lia).
    lia.
  - assert (10 ^ N.of_nat L' <= 10 ^ N.of_nat (L - 1))%N
      by (apply N.pow_le_mono_r; lia).
    lia.
Qed.

Lemma array_index_inj s s' n :
  JS.array_index s = Some n -> JS.array_index s' = Some n -> s = s'.
Proof.
  intros H H'.
  assert (Hne : s <> "" /\ s' <> "").
  { split; intros ->; discriminate. }
  apply array_index_shape in H, H'.
  assert (Hpos : forall L, (0 < 10 ^ N.of_nat L)%N).
  { intros L. apply N.neq_0_lt_0, N.pow_nonzero. lia. }
  destruct H as [[-> ->]|[Hp B]], H' as [[-> Hn]|[Hp' B']].
  - reflexivity.
  - pose proof (Hpos (String.length s' - 1)). lia.
  - subst n. pose proof (Hpos (String.length s - 1)). lia.
  - apply (parse_digits_inj s s' 0%N n); auto.
    apply (pow10_length _ _ n); auto.
    + destruct s; [tauto|simpl; lia].
    + destruct s'; [tauto|simpl; lia].
Qed.

(** ** Distinct numerals below their number *)

Lemma ascending_range (ns : list N) :
  forall a,
    (forall i j x y, i < j -> nth_error ns i = Some x ->
                     nth_error ns j = Some y -> (x < y)%N) ->
    (forall x, In x ns -> (a <= x < a + N.of_nat (List.length ns))%N) ->
    forall i x, nth_error ns i = Some x -> x = (a + N.of_nat i)%N.
Proof.
  induction ns as [|x0 r IH]; intros a Hasc Hin i x Hi;
    [destruct i; discriminate|].
  assert (Hx0 : (a <= x0 < a + N.of_nat (S (List.length r)))%N)
    by (apply Hin; now left).
  assert (Hr : forall j y, nth_error r j = Some y ->
                           y = (x0 + 1 + N.of_nat j)%N).
  { apply IH.
    - intros i' j' x' y' Hlt Hx' Hy'.
      apply (Hasc (S i') (S j')); auto. lia.
    - intros y Hy. apply In_nth_error in Hy. destruct Hy as [j Hj].
      assert (x0 < y)%N by (apply (Hasc 0 (S j)); auto; lia).
      assert (a <= y < a + N.of_nat (S (List.length r)))%N.
      { apply Hin. right. eapply nth_error_In; eauto. }
      lia. }
  assert (E : x0 = a).
  { destruct r as [|y0 r'] eqn:Er; [simpl in Hx0; lia|].
    rewrite <- Er in *.
    assert (Hlen : 0 < List.length r) by (rewrite Er; simpl; lia).
    destruct (nth_error r (List.length r - 1)) as [y|] eqn:Hy.
    2:{ apply nth_error_None in Hy. lia. }
    pose proof (Hr _ _ Hy) as Ey.
    assert (a <= y < a + N.of_nat (S (List.length r)))%N.
    { apply Hin. right. eapply nth_error_In; eauto. }
    lia. }
  subst x0. destruct i as [|i]; simpl in Hi.
  - inversion Hi; subst. lia.
  - rewrite (Hr _ _ Hi). lia.
Qed.

Lemma keys_ordered_nth ks :
  keys_ordered ks ->
  forall i j k k',
    i < j -> nth_error ks i = Some k -> nth_error ks j = Some k' ->
    may_precede k k'.
Proof.
  induction ks as [|k0 r IH]; intros Ho i j k k' Hlt Hi Hj;
    [destruct i; discriminate|].
  destruct Ho as [H0 Hr]. destruct j as [|j]; [lia|]. simpl in Hj.
  destruct i as [|i]; simpl in Hi.
  - inversion Hi; subst. rewrite Forall_forall in H0. apply H0.
    eapply nth_error_In; eauto.
  - apply (IH Hr i j); auto. lia.
Qed.

Lemma upload_pending_ordered w storage needUpload st0 st1 r1 :
  keys_ordered (JS.keys (items (cache st0))) ->
  BundleUpload.upload_pending w storage needUpload st0 = Some (st1, r1) ->
  keys_ordered (JS.keys (items (cache st1))).
Proof.
  intros Ho. unfold BundleUpload.upload_pending.
  destruct needUpload as [|x need]; [now intros [= <- <-]|].
  destruct storage as [|b].
  - unfold ArweaveBundle.arweaveBundleUpload.
    destruct (ArweaveBundle.plan_batches w (x :: need)) as [[batches|e]|];
      [| |discriminate].
    2:{ now intros [= <- <-]. }
    destruct (upload_batches_summary w batches st0) as (evs & _ & Hk & _).
    destruct (ArweaveBundle.upload_batches w batches st0) as [st [bundles|e]];
      cbn [fst] in Hk.
    + destruct (BundleUpload.flatten_bundles bundles) as [[ms ls] is_].
      intros [= <- <-]. cbn [saveCache emit with_cache cache].
      apply saveManifestsWithLink_from_ordered. now rewrite Hk.
    + intros [= <- <-]. now rewrite Hk.
  - destruct (upload_each_summary w b (x :: need) st0) as (evs & _ & Hk & _).
    destruct (BundleUpload.upload_each w b (x :: need) st0) as [st' r'].
    intros [= <- <-]. cbn [fst] in Hk. now rewrite Hk.
Qed.

(** A run keeps the keys of [cache.items] in the order in which
    [Object.keys] lists them, the array indices first, in ascending
    order, then the other keys: when the cache as loaded has its keys in
    that order, so has the cache at the end of the run, whatever the
    order in which the uploads are recorded.  This holds for the command
    of [commands/upload.ts] and for the bundle-capable command. *)
Theorem cache_keys_stay_ordered :
  (forall w saved files storage totalNFTs retain mutable,
      let c0 := match saved with Some c => c | None => empty_cache end in
      keys_ordered (JS.keys (items c0)) ->
      keys_ordered
        (JS.keys (items (cache (fst (Upload.upload w saved files storage
                                       totalNFTs retain mutable)))))) /\
  (forall w saved files storage totalNFTs retain mutable st r,
      let c0 := match saved with Some c => c | None => empty_cache end in
      keys_ordered (JS.keys (items c0)) ->
      BundleUpload.upload w saved files storage totalNFTs retain mutable
      = Some (st, r) ->
      keys_ordered (JS.keys (items (cache st)))).
Proof.
  split.
  - intros w saved files storage totalNFTs retain mutable c0 Ho.
    rewrite upload_phases. fold c0.
    pose proof (windows_ordered w totalNFTs storage retain mutable
                  (Upload.images_of w c0 files) (Upload.window_size storage)
                  (Upload.window_starts storage
                     (List.length (Upload.images_of w c0 files)))
                  {| cache := c0; trace := [] |} true Ho) as H1.
    destruct (snd (Upload.upload_windows _ _ _ _ _ _ _ _ _ _)) as [fl|e];
      cbn [fst]; [|exact H1].
    now destruct (commit_all_marks w
                    (fst (Upload.upload_windows w totalNFTs storage retain
                            mutable (Upload.images_of w c0 files)
                            (Upload.window_size storage)
                            (Upload.window_starts storage
                               (List.length (Upload.images_of w c0 files)))
                            {| cache := c0; trace := [] |} true)))
      as (_ & _ & -> & _).
  - intros w saved files storage totalNFTs retain mutable st r c0 Ho.
    rewrite bundle_upload_phases. cbv zeta. cbn [cache]. fold c0.
    destruct files as [|file files']; [now intros [= <- <-]|].
    destruct (BundleUpload.upload_pending _ _ _ _) as [[st1 r1]|] eqn:Hp;
      [|discriminate].
    apply upload_pending_ordered in Hp; [|exact Ho].
    destruct r1 as [u|e]; [|now intros [= <- <-]].
    pose proof (commit_phase_keys w totalNFTs retain mutable st1) as Hk.
    destruct (BundleUpload.commit_phase w totalNFTs retain mutable st1)
      as [st2 r2]. cbn [fst] in Hk. intros [= <- <-]. now rewrite Hk.
Qed.

Lemma cache_keys_stay_ordered_witness :
  JS.keys
    (items (cache (fst (Upload.upload Samples.fair
                          (Some {| program := {| uuid := None;
                                                 config := None |};
                                   items := [("10", {| link := None;
                                                       name := None;
                                                       onChain := false |});
                                             ("b", {| link := None;
                                                      name := None;
                                                      onChain := false |})];
                                   authority := None |})
                          ["x/2.png"; "x/a.png"] "ipfs" 4 true true))))
  = ["2"; "10"; "b"; "a"] /\
  keys_ordered
    (JS.keys
       (items (cache (fst (Upload.upload Samples.fair
                             (Some {| program := {| uuid := None;
                                                    config := None |};
                                      items := [("10", {| link := None;
                                                          name := None;
                                                          onChain := false |});
                                                ("b", {| link := None;
                                                         name := None;
                                                         onChain := false |})];
                                      authority := None |})
                             ["x/2.png"; "x/a.png"] "ipfs" 4 true true))))).
Proof.
  split; [reflexivity|].
  destruct cache_keys_stay_ordered as [H _]. apply H.
  simpl. split; [|split; [constructor|exact I]].
  constructor; [exact I|constructor].
Defined.

(** When the keys of [cache.items] are distinct array indices below
    their number [n] (the numerals of [0 .. n - 1], recorded in any
    order), the key at position [i] of [Object.keys] is the numeral of
    [i]; hence the starting index that the registry committer passes
    with the write call of a group is the numeral of the position
    [10 * j] at which the group starts. *)
Theorem numeral_keys_are_in_position :
  (forall keys,
      keys_ordered keys -> NoDup keys ->
      (forall k, In k keys ->
                 exists n, JS.array_index k = Some n /\
                           (n < N.of_nat (List.length keys))%N) ->
      forall i, i < List.length keys ->
                JS.array_index (Registry.key_at keys i) = Some (N.of_nat i)) /\
  (forall w st evs ind lines r,
      let keys := JS.keys (items (cache st)) in
      keys_ordered keys -> NoDup keys ->
      (forall k, In k keys ->
                 exists n, JS.array_index k = Some n /\
                           (n < N.of_nat (List.length keys))%N) ->
      trace (fst (Registry.commit_all w st)) = trace st ++ evs ->
      In (EvAddConfigLines ind lines r) evs ->
      exists j,
        10 * j < List.length keys /\
        JS.array_index ind = Some (N.of_nat (10 * j))).
Proof.
  assert (Hpos : forall keys,
             keys_ordered keys -> NoDup keys ->
             (forall k, In k keys ->
                        exists n, JS.array_index k = Some n /\
                                  (n < N.of_nat (List.length keys))%N) ->
             forall i, i < List.length keys ->
                       JS.array_index (Registry.key_at keys i)
                       = Some (N.of_nat i)).
  { intros keys Ho Hnd Hnum i Hi.
    (* the numbers of the keys *)
    assert (Hns : exists ns,
               map JS.array_index keys = map Some ns).
    { assert (Hsome : forall k, In k keys ->
                                exists n, JS.array_index k = Some n).
      { intros k Hk. destruct (Hnum k Hk) as (n & Hn & _). eauto. }
      clear -Hsome. induction keys as [|k r IH]; [now exists []|].
      destruct (Hsome k (or_introl eq_refl)) as [n Hn].
      destruct IH as [ns Hns].
      - intros k' Hk'. apply Hsome. now right.
      - exists (n :: ns). simpl. now rewrite Hn, Hns. }
    destruct Hns as [ns Hns].
    assert (Hlen : List.length ns = List.length keys).
    { apply (f_equal (@List.length _)) in Hns.
      now rewrite !length_map in Hns. }
    assert (Hnth : forall i k n,
               nth_error keys i = Some k -> nth_error ns i = Some n ->
               JS.array_index k = Some n).
    { intros i' k n Hk Hn.
      assert (H : nth_error (map JS.array_index keys) i'
                  = nth_error (map Some ns) i') by now rewrite Hns.
      rewrite !nth_error_map, Hk, Hn in H. cbn [option_map] in H.
      now injection H. }
    assert (Hkey : forall i n, nth_error ns i = Some n ->
                               exists k, nth_error keys i = Some k).
    { intros i' n Hn. destruct (nth_error keys i') as [k|] eqn:E; [eauto|].
      apply nth_error_None in E.
      assert (i' < List.length ns) by (apply nth_error_Some; congruence).
      lia. }
    unfold Registry.key_at.
    destruct (nth_error keys i) as [k|] eqn:Hk.
    2:{ apply nth_error_None in Hk. lia. }
    rewrite (nth_error_nth _ _ _ Hk).
    destruct (nth_error ns i) as [n|] eqn:Hn.
    2:{ apply nth_error_None in Hn. lia. }
    rewrite (Hnth i k n Hk Hn). f_equal.
    rewrite (ascending_range ns 0%N) with (i := i) (x := n); [lia| | |exact Hn].
    - intros i1 i2 x y Hlt Hx Hy.
      destruct (Hkey _ _ Hx) as [k1 Hk1]. destruct (Hkey _ _ Hy) as [k2 Hk2].
      pose proof (keys_ordered_nth keys Ho i1 i2 k1 k2 Hlt Hk1 Hk2) as Hm.
      unfold may_precede in Hm. rewrite (Hnth _ _ _ Hk2 Hy) in Hm.
      destruct Hm as (x' & Hx' & Hle).
      rewrite (Hnth _ _ _ Hk1 Hx) in Hx'. inversion Hx'; subst x'.
      assert (x <> y).
      { intros ->.
        assert (k1 = k2).
        { eapply array_index_inj; eauto. }
        subst k2.
        assert (i1 = i2); [|lia].
        eapply (proj1 (NoDup_nth_error keys) Hnd); [|congruence].
        apply nth_error_Some. congruence. }
      lia.
    - intros x Hx. apply In_nth_error in Hx. destruct Hx as [i' Hi'].
      destruct (Hkey _ _ Hi') as [k' Hk'].
      destruct (Hnum k' (nth_error_In _ _ Hk')) as (n' & Hn' & Hlt).
      rewrite (Hnth _ _ _ Hk' Hi') in Hn'. inversion Hn'; subst n'.
      rewrite Hlen. lia. }
  split; [exact Hpos|].
  intros w st evs ind lines r keys Ho Hnd Hnum Htr Hin.
  destruct (commit_all_events w st) as (st1 & evs1 & E & Hc & _ & Hev).
  fold keys in Hev.
  rewrite E in Htr. cbn [fst] in Htr. unfold saveCache in Htr.
  rewrite trace_emit, Hc, <- app_assoc in Htr.
  apply app_inv_head in Htr. subst evs.
  apply in_app_or in Hin. destruct Hin as [Hin|[Hin|[]]]; [|discriminate].
  apply In_nth_error in Hin. destruct Hin as [i Hi].
  destruct (Hev i ind lines r Hi) as (j & c & Hj & -> & _).
  exists j. split; [exact Hj|]. now apply Hpos.
Qed.

Lemma numeral_keys_are_in_position_witness :
  JS.array_index (Registry.key_at ["0"; "1"; "2"; "3"] 2) = Some 2%N.
Proof.
  destruct numeral_keys_are_in_position as [H _].
  apply (H ["0"; "1"; "2"; "3"]).
  - simpl. repeat split; repeat constructor; vm_compute;
      eexists; split; try reflexivity; discriminate.
  - apply distinct_NoDup. reflexivity.
  - intros k [<-|[<-|[<-|[<-|[]]]]]; eexists; split; reflexivity.
  - simpl. lia.
Defined.
